(* ===== verification/_CoqProject ===== *)
-Q . S2P
Prelude.v
GoStrings.v
GoTime.v
Json.v
TaskTypes.v
Env.v
Node.v
NodeTheorems.v
Docs.v
TaskClaim.v
LeaseTypes.v
PGStore.v
LeaseProtocol.v
LeaseSpec.v
PGMethods.v
LeaseTheorems.v
StoreTheorems.v
ControlTypes.v
Announce.v
ControlHTTP.v
ControlMain.v
ControlLemmas.v
ControlSafety.v
ControlClaims.v
ControlTasks.v
ControlLoops.v
Routing.v
Agent.v
AgentRun.v
AgentTheorems.v
NodeStart.v
AgentLocal.v
