(* ===== verification/Prelude.v ===== *)
(** * Mutual Cloud: a verification library for the control server, the agent and the seeder

    Mutual Cloud runs container jobs on volunteer machines.  A control server keeps the
    jobs in a PostgreSQL table and publishes documents about them in a Kademlia DHT;
    agents find jobs in the DHT, claim them over HTTP under a lease with a fencing
    token, fetch the inputs from seeders over libp2p streams, run a container and
    report the outcome.

    ** The parts of the program and the files that model them

    - [Prelude]: machine integers, Go errors, the state monad [M] with panics, [for]
      loops and the proof steps that the other files share.
    - [GoStrings], [GoTime], [Json]: what the program uses of [strings], [strconv],
      [fmt], [time] and [encoding/json].  A struct is its list of JSON fields;
      [Marshal], [Unmarshal], [Decode] (which stops after the first value) and their
      round trips are derived from it.
    - [TaskTypes]: the documents and DHT keys of [internal/task].
    - [Env]: the clock, the random sources and the DHT as the operations of a class,
      with what the program relies on as further classes ([StableDHT], [Reachable],
      [Connected], [FairRand], [SaneClock], [MapRange], [ForwardClock], [MonoClock]) and
      two environments, [SimEnv] and [WallEnv], that satisfy them ([MonoClock] needs a
      clock without an upper end and holds of the first, [SaneClock] and [Connected] of
      the second).
    - [Node], [NodeTheorems], [Docs]: [internal/dht/node.go] and [json.go]; values with
      the local fallback map, tombstones, [PutJSONCAS].  The state is [nodew]: the
      environment and [localStore].
    - [TaskClaim]: [internal/task/claim.go], leases kept in the DHT alone.
    - [LeaseTypes], [PGStore]: [internal/lease/store.go] and [pg_store.go] with the
      table of [configs/schema.sql].  [Store] is the interface as a class, [PGStore] its
      instance; each SQL statement is a function on the table, each method a
      computation over the statements, and the server's behaviour (errors, [now()],
      scan order, broken result streams, timestamp rounding) is the class [PGServer].
    - [LeaseProtocol], [LeaseSpec], [PGMethods], [LeaseTheorems], [StoreTheorems]: the
      statements as a transition system with histories, an abstract lease service, the
      methods as steps, and what follows.
    - [ControlTypes], [ControlHTTP]: [cmd/control/control_http.go], the DTOs, the
      validation, every handler and the routes of [mountHTTP].  [Announce],
      [ControlMain]: [cmd/control/main.go], the advertiser, the start-up and one tick of
      each loop.  The state is [control]: the node, the store and the advertiser; the
      handlers are written against the class [Store].
    - [ControlLemmas], [ControlSafety], [ControlClaims], [ControlTasks], [ControlLoops],
      [Routing]: theorems about the server.
    - [Agent], [AgentRun]: [pkg/agent], [cmd/agent/main.go], [pkg/seeder], [pkg/p2p].
      HTTP is the class [HTTPNet]; streams, files and docker are the class [Machine].
      [AgentTheorems] connects [HTTPNet] to the handlers of the server, [AgentLocal]
      is about the agent and the seeder alone.
    - [NodeStart]: the start-up half of [internal/dht/node.go] (the advertised addresses,
      the bootstrap, the wait for a peer) over the class [Libp2p].

    ** What the theorems show

    - The lease store (C1-C5, C8, C12, C13, C36, C37).  Any sequence of calls, whatever
      the database server does, gets the replies of an abstract service in which a job
      has at most one holder, and leaves its state; tokens count the grants; only the holder renews; a completion is
      fenced; an expired job is recovered and its old holder locked out; the result of
      every method on every branch.
    - The system end to end (C6, C7, C16): a claim, a report and a stale report from the
      agent's call through the HTTP routes and the handlers to the row and the DHT.
    - The control server (C9-C11, C14, C15, C17-C20, C27-C29, C38-C40): authorisation,
      the one panic, the effect of each handler on the database and the DHT, the
      advertiser and the requeue loop, the routes, and the places where database and
      DHT drift apart.
    - The DHT node and DHT leases (C21-C26): round trips, the compare-and-set loop with
      its contract as a run of at most five attempts, exclusion without concurrent
      writers, and its failure with one: C26 cuts [Claim] into its two halves
      ([Claim_halves]) and runs another agent's whole claim between them.
    - The agent and the seeder (C30-C35): discovery, the wait for a manifest, fetching,
      the start of a node, the heartbeat interval, compatible documents.  The bound on
      the retries of a report is [report_retries].

    Hypotheses on parameters are the classes above, [up n] (the next [n] statements are
    executed), and well-formedness of rows and documents ([table_ok], which C2 shows to
    be invariant, and [state_ok]).  A time that a theorem says was read during a call is
    bounded by the clock before and after it ([node_clock]).  Each theorem with hypotheses has a witness, an
    instance evaluated in [SimEnv] or [WallEnv] and the simulated server [SimPG].

    ** Fuel and bounds

    [PutJSONCAS] makes the five attempts of the source.  [WaitForManifest] has no bound
    in the source; its model polls [wait_fuel] times, which [WaitForManifest_ends] shows
    to be enough under a clock that does not go back; likewise [wait_peers_fuel] for the
    wait for a peer ([NewNode_result]).  The report loop makes the twenty
    attempts of the source.  Other loops are over lists.  Integers are [Z] with 64-bit
    wrap-around, or with the overflow error of a column, where they are computed.

    ** What is not modelled

    libp2p itself; flags, the database connection and the main loops of the three
    programs around their ticks; the HTTP transport and its
    listener; log lines; the reason phrase of a status line; contexts that are never
    cancelled; the location of a [time.Time].  Handlers and loops run one after the
    other: the interleaving of two handlers between their DHT accesses is not modelled
    (that of two DHT claims is, in C26).  An HTTP exchange takes no time on the agent's
    clock and a libp2p stream none on any clock: the times of C31 are those of the waits
    between the requests.  The error texts of libraries are parameters or fixed texts.  A
    request path holds no escaped characters.

    ** Further work

    In this order: handlers as sequences of steps, so that two requests for one job
    interleave between their database statement and their DHT writes; the agent's job
    ([run_job]) with its heartbeat ticks against the server; restart of the control
    server ([control_start]) as a recovery of the DHT documents from the table. *)
From stdpp Require Export base tactics list gmap strings fin_maps.
From Stdlib Require Export ZArith Lia.

Set Default Goal Selector "!".

(** ** Machine integers

    Go's [int], [int64] and [time.Duration] are 64-bit two's complement,
    [uint64] is modulo [2^64].  Integers are kept in [Z] with the wrap-around
    written at the operation that can overflow. *)

Definition two63 : Z := 9223372036854775808.
Definition two64 : Z := 18446744073709551616.
Definition max_int64 : Z := two63 - 1.
Definition max_int32 : Z := 2147483647.

Definition wrap64 (z : Z) : Z := (z + two63) `mod` two64 - two63.
Definition uint64_of (z : Z) : Z := z `mod` two64.
Definition in_int64 (z : Z) : bool := (- two63 <=? z)%Z && (z <=? max_int64)%Z.
Definition in_uint64 (z : Z) : bool := (0 <=? z)%Z && (z <? two64)%Z.

Lemma wrap64_id z : (- two63 <= z <= max_int64)%Z → wrap64 z = z.
Proof.
  unfold wrap64, max_int64, two63, two64. intros H.
  rewrite Z.mod_small by lia. lia.
Qed.

Lemma wrap64_range z : (- two63 <= wrap64 z <= max_int64)%Z.
Proof.
  unfold wrap64, max_int64, two63, two64.
  pose proof (Z.mod_pos_bound (z + 9223372036854775808) 18446744073709551616). lia.
Qed.

Lemma wrap64_uint64_of z :
  (- two63 <= z <= max_int64)%Z → wrap64 (uint64_of z) = z.
Proof.
  unfold wrap64, uint64_of, max_int64, two63, two64. intros H.
  rewrite Zplus_mod_idemp_l, Z.mod_small by lia. lia.
Qed.

Lemma uint64_of_id z : (0 <= z < two64)%Z → uint64_of z = z.
Proof. unfold uint64_of. intros. by rewrite Z.mod_small. Qed.

(** ** Errors

    An [error] of the program is one of the sentinel values it compares against,
    a [lease.Err] (a string type, compared by value with [errors.Is]) or an error
    known only by its message. *)

Inductive goerror :=
  | LeaseErr (msg : string)
  | CASConflict
  | LeaseBusy
  | LeaseStolen
  | NoRows
  | DeadlineExceeded
  | ErrMsg (msg : string).

#[global] Instance goerror_eq_dec : EqDecision goerror.
Proof. solve_decision. Defined.

(** The text of [err.Error()]. *)
Definition Error (e : goerror) : string :=
  match e with
  | LeaseErr m => m
  | CASConflict => "cas conflict"
  | LeaseBusy => "lease busy"
  | LeaseStolen => "lease stolen by another peer"
  | NoRows => "sql: no rows in result set"
  | DeadlineExceeded => "context deadline exceeded"
  | ErrMsg m => m
  end.

(** ** Results of a Go function [(T, error)] *)

Inductive result (A : Type) :=
  | Ok (a : A)
  | Err (e : goerror).
Arguments Ok {A} a.
Arguments Err {A} e.

(** ** The effect monad

    A Go function that reads or changes the world [W] and may panic. *)

Inductive outcome (A : Type) :=
  | Ret (a : A)
  | Panic (msg : string).
Arguments Ret {A} a.
Arguments Panic {A} msg.

Definition M (W A : Type) : Type := W → outcome A * W.

#[global] Instance M_ret {W} : MRet (M W) := λ A a w, (Ret a, w).
#[global] Instance M_bind {W} : MBind (M W) := λ A B k m w,
  match m w with
  | (Ret a, w') => k a w'
  | (Panic s, w') => (Panic s, w')
  end.

Definition panic {W A} (s : string) : M W A := λ w, (Panic s, w).
Definition gets {W A} (f : W → A) : M W A := λ w, (Ret (f w), w).
Definition modify {W} (f : W → W) : M W unit := λ w, (Ret tt, f w).

(** [for _, x := range l { body(x) }] without an early exit. *)
Fixpoint for_each {W A} (l : list A) (body : A → M W unit) : M W unit :=
  match l with
  | [] => mret tt
  | x :: l' => body x ;; for_each l' body
  end.

Section monad_laws.
Context {W A B C : Type}.
Implicit Types (m : M W A).

Lemma bind_ret_run (a : A) (k : A → M W B) w : (mret a ≫= k) w = k a w.
Proof. done. Qed.

Lemma bind_run m (k : A → M W B) w a w' :
  m w = (Ret a, w') → (m ≫= k) w = k a w'.
Proof. intros H. unfold mbind, M_bind. by rewrite H. Qed.

Lemma bind_panic m (k : A → M W B) w s w' :
  m w = (Panic s, w') → (m ≫= k) w = (Panic s, w').
Proof. intros H. unfold mbind, M_bind. by rewrite H. Qed.

Lemma bind_assoc_run m (k : A → M W B) (h : B → M W C) w :
  ((m ≫= k) ≫= h) w = (m ≫= (λ a, k a ≫= h)) w.
Proof. unfold mbind, M_bind. by destruct (m w) as [[]]. Qed.

Lemma bind_ext m (k k' : A → M W B) w :
  (∀ a w', k a w' = k' a w') → (m ≫= k) w = (m ≫= k') w.
Proof. intros H. unfold mbind, M_bind. by destruct (m w) as [[] ?]. Qed.

Lemma bind_inv m (k : A → M W B) w b w'' :
  (m ≫= k) w = (Ret b, w'') →
  ∃ a w', m w = (Ret a, w') ∧ k a w' = (Ret b, w'').
Proof. unfold mbind, M_bind. destruct (m w) as [[a|s] w'] eqn:E; naive_solver. Qed.

End monad_laws.

(** ** Proof steps

    [run_step H] runs the first computation of a sequence, known from the equation
    [H]; [str_ne H] decides a comparison of strings that differ by [H]. *)
Tactic Notation "run_step" uconstr(H) := rewrite (bind_run _ _ _ _ _ H).
Tactic Notation "str_ne" uconstr(H) := rewrite (proj2 (String.eqb_neq _ _) H).
