(* ===== verification/GoStrings.v ===== *)
(** * Go's string and number formatting helpers

    The functions of [strings], [strconv] and [fmt] the program calls, on byte
    strings.  Case mapping and white space are the ASCII ones: no key, status or
    transport name of the program has a letter outside ASCII. *)
From Stdlib Require Import Ascii String Decimal DecimalString DecimalN DecimalFacts.
From S2P Require Import Prelude.

Local Open Scope string_scope.
#[global] Arguments String.append !_ _ / : simpl nomatch.

(** ** [strings] *)

Fixpoint HasPrefix (s p : string) : bool :=
  match p, s with
  | EmptyString, _ => true
  | String c p', String c' s' => Ascii.eqb c c' && HasPrefix s' p'
  | String _ _, EmptyString => false
  end.

Fixpoint HasSuffix (s suf : string) : bool :=
  String.eqb s suf ||
  match s with
  | EmptyString => false
  | String _ s' => HasSuffix s' suf
  end.

Fixpoint Contains (s sub : string) : bool :=
  HasPrefix s sub ||
  match s with
  | EmptyString => false
  | String _ s' => Contains s' sub
  end.

Fixpoint drop_str (n : nat) (s : string) : string :=
  match n, s with
  | S n', String _ s' => drop_str n' s'
  | _, _ => s
  end.

Definition TrimPrefix (s p : string) : string :=
  if HasPrefix s p then drop_str (String.length p) s else s.

Fixpoint TrimSuffix (s suf : string) : string :=
  if String.eqb s suf then ""
  else match s with
       | EmptyString => ""
       | String c s' => String c (TrimSuffix s' suf)
       end.

(** [strings.Split] with a one-byte separator, the only kind the program uses. *)
Fixpoint Split (s : string) (sep : ascii) : list string :=
  match s with
  | EmptyString => [""]
  | String c s' =>
      if Ascii.eqb c sep then "" :: Split s' sep
      else match Split s' sep with
           | h :: t => String c h :: t
           | [] => [String c ""]
           end
  end.

Fixpoint trim_left (p : ascii → bool) (s : string) : string :=
  match s with
  | EmptyString => ""
  | String c s' => if p c then trim_left p s' else s
  end.

Fixpoint all_str (p : ascii → bool) (s : string) : bool :=
  match s with
  | EmptyString => true
  | String c s' => p c && all_str p s'
  end.

Fixpoint trim_right (p : ascii → bool) (s : string) : string :=
  match s with
  | EmptyString => ""
  | String c s' => if all_str p s then "" else String c (trim_right p s')
  end.

(** [strings.Trim(s, cutset)] for a one-byte cutset. *)
Definition Trim (s : string) (c : ascii) : string :=
  trim_right (Ascii.eqb c) (trim_left (Ascii.eqb c) s).

Definition is_space (c : ascii) : bool :=
  let n := nat_of_ascii c in
  (n =? 32)%nat || ((9 <=? n)%nat && (n <=? 13)%nat).

Definition TrimSpace (s : string) : string :=
  trim_right is_space (trim_left is_space s).

Definition lower_ascii (c : ascii) : ascii :=
  let n := nat_of_ascii c in
  if (65 <=? n)%nat && (n <=? 90)%nat then ascii_of_nat (n + 32) else c.

Fixpoint ToLower (s : string) : string :=
  match s with
  | EmptyString => ""
  | String c s' => String (lower_ascii c) (ToLower s')
  end.

Definition EqualFold (s t : string) : bool := String.eqb (ToLower s) (ToLower t).

(** ** [strconv] and [fmt] *)

(** [strconv.ParseUint(s, 10, 64)]: one or more digits, in range. *)
Definition ParseUint (s : string) : option Z :=
  match NilZero.uint_of_string s with
  | Some u =>
      let z := Z.of_N (N.of_uint u) in
      if (z <? two64)%Z then Some z else None
  | None => None
  end.

(** [strconv.Atoi(s)]: an optional sign, then one or more digits, in range. *)
Definition Atoi (s : string) : option Z :=
  let digits (neg : bool) (t : string) :=
    match NilZero.uint_of_string t with
    | Some u =>
        let z := Z.of_N (N.of_uint u) in
        let z := if neg then (- z)%Z else z in
        if in_int64 z then Some z else None
    | None => None
    end in
  match s with
  | String "-"%char t => digits true t
  | String "+"%char t => digits false t
  | _ => digits false s
  end.

(** [fmt.Sprintf("%d", z)]. *)
Definition fmt_nat (n : N) : string := NilZero.string_of_uint (N.to_uint n).
Definition Itoa (z : Z) : string :=
  if (z <? 0)%Z then "-" ++ fmt_nat (Z.to_N (- z)) else fmt_nat (Z.to_N z).

(** [fmt.Sprintf("%02d", z)] for a non-negative [z]. *)
Definition fmt_02d (z : Z) : string :=
  if (z <? 10)%Z then "0" ++ Itoa z else Itoa z.

(** ** Lemmas *)

Lemma append_nil_r s : s ++ "" = s.
Proof. induction s; simpl; congruence. Qed.

Lemma append_assoc s t u : (s ++ t) ++ u = s ++ (t ++ u).
Proof. induction s; simpl; congruence. Qed.

Lemma length_append s t :
  String.length (s ++ t) = (String.length s + String.length t)%nat.
Proof. induction s; simpl; congruence. Qed.

Lemma append_inj_l p s t : p ++ s = p ++ t → s = t.
Proof. induction p; simpl; [done|]. intros [=]. auto. Qed.

Lemma append_inj_r p s t : s ++ p = t ++ p → s = t.
Proof.
  revert t. induction s as [|c s IH]; intros [|c' t] H; simpl in *; try done.
  - apply (f_equal String.length) in H. simpl in H. rewrite length_append in H. lia.
  - apply (f_equal String.length) in H. simpl in H. rewrite length_append in H. lia.
  - injection H as -> H. f_equal. auto.
Qed.

(** Two strings that end in texts of the same length end in the same text. *)
Lemma append_suffix_eq s t p q :
  String.length p = String.length q → s ++ p = t ++ q → p = q.
Proof.
  intros Hl. revert t.
  induction s as [|c s IH]; intros [|c' t] H; simpl in *.
  - done.
  - apply (f_equal String.length) in H. simpl in H. rewrite length_append in H. lia.
  - apply (f_equal String.length) in H. simpl in H. rewrite length_append in H. lia.
  - injection H as _ H. eauto.
Qed.

Lemma HasPrefix_spec s p : HasPrefix s p = true ↔ ∃ t, s = p ++ t.
Proof.
  revert s. induction p as [|c p IH]; intros s; simpl.
  - split; [by exists s|]. by destruct s.
  - destruct s as [|c' s]; simpl; [split; [done|]; by intros [? [=]]|].
    rewrite andb_true_iff, Ascii.eqb_eq, IH. split.
    + intros [-> [t ->]]. by exists t.
    + intros [t [= -> ->]]. split; [done|]. by exists t.
Qed.

Lemma HasSuffix_spec s suf : HasSuffix s suf = true ↔ ∃ t, s = t ++ suf.
Proof.
  induction s as [|c s IH]; cbn [HasSuffix].
  - rewrite orb_false_r, String.eqb_eq. split.
    + intros <-. by exists "".
    + intros [[|] Ht]; [done|]. by simpl in Ht.
  - rewrite orb_true_iff, IH, String.eqb_eq. split.
    + intros [<-|[t ->]]; [by exists ""|]. by exists (String c t).
    + intros [[|c' t] Ht]; simpl in Ht; [by left|]. right. exists t. congruence.
Qed.

Lemma Contains_spec s sub : Contains s sub = true ↔ ∃ a b, s = a ++ sub ++ b.
Proof.
  induction s as [|c s IH]; cbn [Contains].
  - rewrite orb_false_r, HasPrefix_spec. split.
    + intros [t Ht]. by exists "", t.
    + intros ([|] & b & Hb); [by exists b|]. by simpl in Hb.
  - rewrite orb_true_iff. rewrite HasPrefix_spec, IH. split.
    + intros [[t Ht]|(a & b & ->)]; [by exists "", t|]. by exists (String c a), b.
    + intros ([|c' a] & b & Hb); simpl in Hb; [left; by exists b|].
      right. exists a, b. congruence.
Qed.

(** Of two ends of one string the longer ends in the shorter. *)
Lemma suffix_nested a b p q :
  a ++ p = b ++ q → (String.length p ≤ String.length q)%nat → HasSuffix q p = true.
Proof.
  revert a. induction b as [|c b IH]; intros a H Hl.
  - apply HasSuffix_spec. by exists a.
  - destruct a as [|c' a]; simpl in *.
    + apply (f_equal String.length) in H. simpl in H. rewrite length_append in H. lia.
    + injection H as _ H. eauto.
Qed.

(** Of two beginnings of one string the longer begins with the shorter. *)
Lemma prefix_nested p q s t :
  p ++ s = q ++ t → (String.length p ≤ String.length q)%nat → HasPrefix q p = true.
Proof.
  revert q. induction p as [|c p IH]; intros [|c' q] H Hl; simpl in *; try done; [lia|].
  injection H as -> H. rewrite Ascii.eqb_refl. simpl. apply IH; [done|lia].
Qed.

Lemma Split_not_nil s c : Split s c ≠ [].
Proof. destruct s; simpl; [done|]. destruct (Ascii.eqb _ _); [done|]. by destruct (Split _ _). Qed.

(** A text without the separator, followed by the separator, is the first part. *)
Lemma Split_app s t c :
  all_str (λ x, negb (Ascii.eqb x c)) s = true →
  Split (s ++ String c t) c = s :: Split t c.
Proof.
  induction s as [|a s IH]; simpl.
  - by rewrite Ascii.eqb_refl.
  - rewrite andb_true_iff. intros [Ha Hs]. destruct (Ascii.eqb a c); [done|].
    by rewrite IH.
Qed.

Lemma Split_single s c :
  all_str (λ x, negb (Ascii.eqb x c)) s = true → Split s c = [s].
Proof.
  induction s as [|a s IH]; simpl; [done|].
  rewrite andb_true_iff. intros [Ha Hs]. destruct (Ascii.eqb a c); [done|].
  by rewrite IH.
Qed.

Lemma fmt_nat_parse n :
  NilZero.uint_of_string (fmt_nat n) = Some (N.to_uint n).
Proof.
  unfold fmt_nat. apply NilZero.usu.
  destruct n; simpl; [done|]. apply DecimalPos.Unsigned.to_uint_nonnil.
Qed.

(** The token a client prints with [%d] is the token [ParseUint] reads back. *)
Lemma ParseUint_Itoa z : (0 <= z < two64)%Z → ParseUint (Itoa z) = Some z.
Proof.
  intros Hz. unfold ParseUint, Itoa.
  destruct (Z.ltb_spec z 0); [lia|].
  rewrite fmt_nat_parse, DecimalN.Unsigned.of_to, Z2N.id by lia.
  destruct (Z.ltb_spec z two64); [done|lia].
Qed.

Lemma ParseUint_range s z : ParseUint s = Some z → (0 <= z < two64)%Z.
Proof.
  unfold ParseUint. destruct (NilZero.uint_of_string s); [|done].
  case_match; [|done]. intros [= <-]. lia.
Qed.

Lemma ParseUint_empty : ParseUint "" = None.
Proof. done. Qed.

Lemma Itoa_not_empty z : Itoa z ≠ "".
Proof.
  unfold Itoa. case_match; [done|]. intros H'.
  pose proof (fmt_nat_parse (Z.to_N z)) as Hp. rewrite H' in Hp. done.
Qed.
