(* ===== verification/GoTime.v ===== *)
(** * Go's [time]: instants, durations and their RFC 3339 text

    An instant is the number of nanoseconds since Go's zero time
    0001-01-01T00:00:00Z, so [time.Time{}] is [0]; a duration is in nanoseconds.
    The location of a [time.Time] is not kept: the program works in UTC, and an
    instant read with another offset is printed in UTC.  The text form is the one
    [time.Time.MarshalJSON] writes and [UnmarshalJSON] reads. *)
From Stdlib Require Import Ascii String.
From S2P Require Import Prelude GoStrings.

Local Open Scope Z_scope.

Definition Millisecond : Z := 1000000.
Definition Second : Z := 1000000000.
Definition Minute : Z := 60000000000.

Definition IsZero (t : Z) : bool := t =? 0.
Definition After (t u : Z) : bool := u <? t.
Definition Before (t u : Z) : bool := t <? u.
Definition Add (t d : Z) : Z := t + d.
(** [t.Sub(u)] saturates at the range of a duration. *)
Definition Sub (t u : Z) : Z := Z.max (- two63) (Z.min max_int64 (t - u)).

(** [int(d.Seconds())], on durations that are whole seconds or below 2^22 s. *)
Definition int_Seconds (d : Z) : Z := Z.quot d Second.

(** ** Calendar *)

(** Days from 0000-01-01 to the first day of year [y]. *)
Definition days_before (y : Z) : Z :=
  365 * y + (y + 3) / 4 - (y + 99) / 100 + (y + 399) / 400.

Definition is_leap (y : Z) : bool :=
  (y `mod` 4 =? 0) && (negb (y `mod` 100 =? 0) || (y `mod` 400 =? 0)).

Definition year_of (d : Z) : Z :=
  let y0 := d * 400 / 146097 in
  if d <? days_before y0 then y0 - 1
  else if days_before (y0 + 1) <=? d then y0 + 1 else y0.

Definition month_lens (leap : bool) : list Z :=
  [31; if leap then 29 else 28; 31; 30; 31; 30; 31; 31; 30; 31; 30; 31].

Fixpoint find_month (ms : list Z) (m doy : Z) : Z * Z :=
  match ms with
  | [] => (m, doy + 1)
  | l :: ms' => if doy <? l then (m, doy + 1) else find_month ms' (m + 1) (doy - l)
  end.

Definition sumz (l : list Z) : Z := foldr Z.add 0 l.

Definition day_ns : Z := 86400 * Second.

(** ** Text *)

Definition digit (d : Z) : ascii := ascii_of_N (Z.to_N (48 + d)).
Definition undigit (c : ascii) : option Z :=
  let n := Z.of_N (N_of_ascii c) - 48 in
  if (0 <=? n) && (n <=? 9) then Some n else None.

Fixpoint fixed_digits (k : nat) (n : Z) : string :=
  match k with
  | O => ""
  | S k' => String (digit ((n / 10 ^ Z.of_nat k') `mod` 10)) (fixed_digits k' n)
  end.

Fixpoint parse_digits (k : nat) (s : string) (acc : Z) : option (Z * string) :=
  match k with
  | O => Some (acc, s)
  | S k' =>
      match s with
      | EmptyString => None
      | String c s' =>
          match undigit c with
          | Some d => parse_digits k' s' (acc * 10 + d)
          | None => None
          end
      end
  end.

Definition expect (c : ascii) (s : string) : option string :=
  match s with
  | String c' s' => if Ascii.eqb c c' then Some s' else None
  | EmptyString => None
  end.

Definition fmt_frac (ns : Z) : string :=
  if ns =? 0 then "" else
    String "."%char (trim_right (Ascii.eqb "0"%char) (fixed_digits 9 ns)).

(** Up to [k] fractional digits; further digits are dropped. *)
Fixpoint parse_frac (k : nat) (s : string) : Z * string :=
  match k with
  | O => (0, trim_left (λ c, bool_decide (is_Some (undigit c))) s)
  | S k' =>
      match s with
      | EmptyString => (0, s)
      | String c s' =>
          match undigit c with
          | Some d => let (v, r) := parse_frac k' s' in (d * 10 ^ Z.of_nat k' + v, r)
          | None => (0, s)
          end
      end
  end.

(** [t.UTC().Format(time.RFC3339Nano)] for years 0 to 9999. *)
Definition fmt_rfc3339 (t : Z) : string :=
  let days := t / day_ns + 366 in
  let ns := t `mod` day_ns in
  let y := year_of days in
  let md := find_month (month_lens (is_leap y)) 1 (days - days_before y) in
  let secs := ns / Second in
  (fixed_digits 4 y +:+ String "-"%char (fixed_digits 2 md.1 +:+
    String "-"%char (fixed_digits 2 md.2 +:+ String "T"%char
    (fixed_digits 2 (secs / 3600) +:+ String ":"%char
    (fixed_digits 2 ((secs / 60) `mod` 60) +:+ String ":"%char
    (fixed_digits 2 (secs `mod` 60) +:+
     (fmt_frac (ns `mod` Second) +:+ "Z")))))))%string.

Definition parse_zone (s : string) : option Z :=
  let offset (sign : Z) (s : string) :=
    '(h, s) ← parse_digits 2 s 0;
    s ← expect ":" s;
    '(m, s) ← parse_digits 2 s 0;
    if (h <? 24) && (m <? 60) && String.eqb s "" then Some (sign * (h * 3600 + m * 60))
    else None in
  match s with
  | String c s' =>
      if Ascii.eqb c "Z" then (if String.eqb s' "" then Some 0 else None)
      else if Ascii.eqb c "+" then offset 1 s'
      else if Ascii.eqb c "-" then offset (-1) s'
      else None
  | EmptyString => None
  end.

Definition parse_rfc3339 (s : string) : option Z :=
  '(y, s) ← parse_digits 4 s 0;
  s ← expect "-" s;
  '(mo, s) ← parse_digits 2 s 0;
  s ← expect "-" s;
  '(d, s) ← parse_digits 2 s 0;
  s ← expect "T" s;
  '(h, s) ← parse_digits 2 s 0;
  s ← expect ":" s;
  '(mi, s) ← parse_digits 2 s 0;
  s ← expect ":" s;
  '(se, s) ← parse_digits 2 s 0;
  let (frac, s) := match s with
    | String c s' => if Ascii.eqb c "." then parse_frac 9 s' else (0, s)
    | EmptyString => (0, s)
    end in
  off ← parse_zone s;
  let lens := month_lens (is_leap y) in
  len ← (if 1 <=? mo then lens !! Z.to_nat (mo - 1) else None);
  if (1 <=? d) && (d <=? len) && (h <? 24) && (mi <? 60) && (se <? 60) then
    let days := days_before y + sumz (take (Z.to_nat (mo - 1)) lens) + d - 1 - 366 in
    Some (days * day_ns + (h * 3600 + mi * 60 + se - off) * Second + frac)
  else None.

(** The instants [MarshalJSON] accepts: years 0 to 9999. *)
Definition time_ok (t : Z) : bool :=
  (- 366 * day_ns <=? t) && (t <? 3652059 * day_ns).

Example zero_time_text : fmt_rfc3339 0 = "0001-01-01T00:00:00Z"%string.
Proof. reflexivity. Qed.
Example leap_day_text :
  parse_rfc3339 "2024-02-29T23:59:58.25+09:00" =
  parse_rfc3339 "2024-02-29T14:59:58.25Z".
Proof. reflexivity. Qed.
Example text_2024 :
  fmt_rfc3339 (default 0 (parse_rfc3339 "2024-02-29T14:59:58.25Z"))
  = "2024-02-29T14:59:58.25Z"%string.
Proof. reflexivity. Qed.

(** ** Round trip *)

Lemma undigit_digit d : 0 <= d <= 9 → undigit (digit d) = Some d.
Proof.
  intros H.
  assert (d = 0 ∨ d = 1 ∨ d = 2 ∨ d = 3 ∨ d = 4 ∨ d = 5 ∨ d = 6 ∨ d = 7 ∨ d = 8 ∨ d = 9)
    as Hd by lia.
  by destruct_or? Hd; subst.
Qed.

Lemma mod10_range n : 0 <= n `mod` 10 <= 9.
Proof. pose proof (Z.mod_pos_bound n 10). lia. Qed.

Lemma mod_pow10_S n k :
  n `mod` 10 ^ Z.of_nat (S k) =
  (n / 10 ^ Z.of_nat k) `mod` 10 * 10 ^ Z.of_nat k + n `mod` 10 ^ Z.of_nat k.
Proof.
  rewrite Nat2Z.inj_succ, Z.pow_succ_r, (Z.mul_comm 10), Z.rem_mul_r by lia. lia.
Qed.

Lemma parse_fixed k n acc r :
  parse_digits k (fixed_digits k n +:+ r) acc =
  Some (acc * 10 ^ Z.of_nat k + n `mod` 10 ^ Z.of_nat k, r).
Proof.
  revert acc. induction k as [|k IH]; intros acc.
  - simpl. rewrite Z.mod_1_r. do 2 f_equal; lia.
  - cbn [fixed_digits parse_digits String.append].
    rewrite undigit_digit by apply mod10_range.
    rewrite IH, mod_pow10_S, Nat2Z.inj_succ, Z.pow_succ_r by lia. do 2 f_equal; ring.
Qed.

Lemma parse_fixed_small k n r :
  0 <= n < 10 ^ Z.of_nat k →
  parse_digits k (fixed_digits k n +:+ r) 0 = Some (n, r).
Proof. intros H. rewrite parse_fixed, Z.mod_small by done. do 2 f_equal; lia. Qed.

Lemma parse_fixed2 n r :
  0 <= n < 100 → parse_digits 2 (fixed_digits 2 n +:+ r) 0 = Some (n, r).
Proof. apply (parse_fixed_small 2). Qed.

Lemma parse_fixed4 n r :
  0 <= n < 10000 → parse_digits 4 (fixed_digits 4 n +:+ r) 0 = Some (n, r).
Proof. apply (parse_fixed_small 4). Qed.

Lemma fixed_all_zero k n :
  all_str (Ascii.eqb "0") (fixed_digits k n) = true → n `mod` 10 ^ Z.of_nat k = 0.
Proof.
  induction k as [|k IH]; [intros _; apply Z.mod_1_r|].
  cbn [fixed_digits all_str]. rewrite andb_true_iff. intros [H0 Hk].
  rewrite mod_pow10_S, (IH Hk).
  apply Ascii.eqb_eq in H0. pose proof (undigit_digit _ (mod10_range (n / 10 ^ Z.of_nat k))) as Hu.
  rewrite <- H0 in Hu. injection Hu as <-. lia.
Qed.

Lemma parse_frac_fixed k n :
  parse_frac k (trim_right (Ascii.eqb "0") (fixed_digits k n) +:+ "Z") =
  (n `mod` 10 ^ Z.of_nat k, "Z"%string).
Proof.
  induction k as [|k IH]; [simpl; by rewrite Z.mod_1_r|].
  cbn [fixed_digits trim_right].
  destruct (all_str _ _) eqn:Hz.
  - change (String ?a (fixed_digits k n)) with (fixed_digits (S k) n) in Hz.
    by rewrite (fixed_all_zero (S k) n Hz).
  - cbn [String.append parse_frac]. rewrite undigit_digit by apply mod10_range.
    by rewrite IH, mod_pow10_S.
Qed.

Lemma parse_fmt_frac fr :
  0 <= fr < Second →
  let s := (fmt_frac fr +:+ "Z")%string in
  match s with
  | String c s' => if Ascii.eqb c "." then parse_frac 9 s' else (0, s)
  | EmptyString => (0, s)
  end = (fr, "Z"%string).
Proof.
  intros H. unfold fmt_frac. cbv zeta. destruct (Z.eqb_spec fr 0) as [->|Hne]; [done|].
  cbn [String.append]. change (Ascii.eqb "." ".") with true. cbv iota.
  rewrite (parse_frac_fixed 9). f_equal. by apply Z.mod_small.
Qed.

Lemma year_of_spec d :
  0 <= d → days_before (year_of d) <= d < days_before (year_of d + 1) ∧ 0 <= year_of d.
Proof.
  intros Hd. unfold year_of.
  pose proof (Z.div_mod (d * 400) 146097 ltac:(lia)) as Hq.
  pose proof (Z.mod_pos_bound (d * 400) 146097 ltac:(lia)) as Hr.
  pose proof (Z.div_pos (d * 400) 146097 ltac:(lia) ltac:(lia)) as Hp.
  set (q := d * 400 / 146097) in *. set (r := (d * 400) `mod` 146097) in *.
  clearbody q r. unfold days_before.
  destruct (Z.ltb_spec d (365 * q + (q + 3) / 4 - (q + 99) / 100 + (q + 399) / 400)).
  - destruct (decide (q = 0)) as [->|Hq0].
    { change ((0 + 3) / 4) with 0 in *. change ((0 + 99) / 100) with 0 in *.
      change ((0 + 399) / 400) with 0 in *. lia. }
    split; [|lia]. replace (q - 1 + 1) with q by lia.
    Z.to_euclidean_division_equations. lia.
  - destruct (Z.leb_spec (365 * (q + 1) + (q + 1 + 3) / 4 - (q + 1 + 99) / 100 + (q + 1 + 399) / 400) d);
      split; try lia; Z.to_euclidean_division_equations; lia.
Qed.

Lemma days_before_succ y :
  days_before (y + 1) = days_before y + sumz (month_lens (is_leap y)).
Proof.
  unfold days_before, is_leap, sumz, month_lens. simpl.
  destruct (Z.eqb_spec (y `mod` 4) 0), (Z.eqb_spec (y `mod` 100) 0),
    (Z.eqb_spec (y `mod` 400) 0); simpl; Z.to_euclidean_division_equations; lia.
Qed.

Lemma find_month_spec ms m doy :
  0 <= doy < sumz ms →
  ∃ i len, find_month ms m doy = (m + Z.of_nat i, doy - sumz (take i ms) + 1) ∧
    ms !! i = Some len ∧ 0 <= doy - sumz (take i ms) < len.
Proof.
  revert m doy. induction ms as [|l ms IH]; intros m doy Hd; simpl in *; [lia|].
  destruct (Z.ltb_spec doy l).
  - exists 0%nat, l. simpl. split_and!; try done; try lia. f_equal; lia.
  - destruct (IH (m + 1) (doy - l) ltac:(lia)) as (i & len & Hf & Hl & Hb).
    exists (S i), len. simpl. split_and!; try done; try lia. rewrite Hf. f_equal; lia.
Qed.

(** What [MarshalJSON] writes for an instant [UnmarshalJSON] reads back as it. *)
Lemma parse_fmt_rfc3339 t : time_ok t = true → parse_rfc3339 (fmt_rfc3339 t) = Some t.
Proof.
  unfold time_ok. rewrite andb_true_iff, Z.leb_le, Z.ltb_lt. intros Ht.
  assert (Hdn : day_ns = 86400000000000) by done.
  pose proof (Z.div_mod t day_ns ltac:(lia)) as Hdm.
  pose proof (Z.mod_pos_bound t day_ns ltac:(lia)) as Hns.
  unfold fmt_rfc3339.
  set (days := t / day_ns + 366) in *. set (ns := t `mod` day_ns) in *.
  assert (Hdays : 0 <= days < 3652425) by (subst days; nia).
  destruct (year_of_spec days ltac:(lia)) as [Hy Hy0].
  set (y := year_of days) in *.
  assert (Hy1 : y < 10000) by (clearbody y; unfold days_before in Hy; Z.to_euclidean_division_equations; lia).
  destruct (find_month_spec (month_lens (is_leap y)) 1 (days - days_before y))
    as (i & len & Hf & Hl & Hb).
  { pose proof (days_before_succ y). lia. }
  rewrite Hf. cbn [fst snd].
  assert (Hi : (i < 12)%nat).
  { apply lookup_lt_Some in Hl. by destruct (is_leap y). }
  assert (Hlen : 28 <= len <= 31).
  { destruct (is_leap y); do 12 (destruct i as [|i]; [simpl in Hl; simplify_eq; lia|]); lia. }
  unfold parse_rfc3339.
  assert (Hs : Second = 1000000000) by done.
  pose proof (Z.div_mod ns Second ltac:(lia)) as Hsm.
  pose proof (Z.mod_pos_bound ns Second ltac:(lia)) as Hf9.
  set (secs := ns / Second) in *. set (fr := ns `mod` Second) in *.
  assert (Hsecs : 0 <= secs < 86400) by (subst secs; lia).
  clearbody y secs fr.
  rewrite parse_fixed4 by lia. cbn -[parse_digits fixed_digits fmt_frac parse_frac].
  do 2 (rewrite parse_fixed2 by lia; cbn -[parse_digits fixed_digits fmt_frac parse_frac]).
  do 3 (rewrite parse_fixed2 by (Z.to_euclidean_division_equations; lia);
        cbn -[parse_digits fixed_digits fmt_frac parse_frac]).
  rewrite (parse_fmt_frac fr Hf9). cbn -[month_lens].
  rewrite (proj2 (Z.leb_le 1 (1 + Z.of_nat i))) by lia.
  replace (Z.to_nat (1 + Z.of_nat i - 1)) with i by lia.
  rewrite Hl. cbn -[month_lens].
  rewrite !(proj2 (Z.leb_le _ _)), !(proj2 (Z.ltb_lt _ _))
    by (Z.to_euclidean_division_equations; lia).
  cbn -[month_lens]. f_equal.
  assert (secs / 3600 * 3600 + (secs / 60) `mod` 60 * 60 + secs `mod` 60 = secs) as Hh
    by (Z.to_euclidean_division_equations; lia).
  rewrite Hh. subst days. nia.
Qed.
