(* ===== verification/Json.v ===== *)
(** * Go's [encoding/json] on the values of the program

    A document is its syntax tree; a byte slice that travels through the DHT, an
    HTTP body or a JSONB column is the text of a document, the text of a document
    with more text after it, or a text that starts with no document.  A Go struct is
    described once, as its list of fields, and [Marshal], [Unmarshal] and
    [Decoder.Decode] are derived from the list with the rules of the package:
    [omitempty], keys that match exactly or up to case, unknown keys ignored, a
    type mismatch remembered while decoding goes on, an error of
    [time.Time.UnmarshalJSON] that stops it, [null] that leaves a value alone.

    Not modelled: the replacement of invalid UTF-8, [float64] rounding of numbers
    held in a [map[string]any], and the reuse of old elements when the same slice
    key occurs twice. *)
From Stdlib Require Import Ascii String.
From stdpp Require Import sorting.
From S2P Require Import Prelude GoStrings GoTime.

Local Open Scope string_scope.

Set Warnings "-register-all".
Inductive json :=
  | JNull
  | JBool (b : bool)
  | JNum (z : Z)
  | JFrac (lit : string)
  | JStr (s : string)
  | JArr (l : list json)
  | JObj (kvs : list (string * json)).

#[global] Instance json_eq_dec : EqDecision json.
Proof.
  refine (fix go x y := let r : EqDecision json := @go in
    match x, y with
    | JNull, JNull => left _
    | JBool a, JBool b => cast_if (decide (a = b))
    | JNum a, JNum b => cast_if (decide (a = b))
    | JFrac a, JFrac b => cast_if (decide (a = b))
    | JStr a, JStr b => cast_if (decide (a = b))
    | JArr a, JArr b => cast_if (decide (a = b))
    | JObj a, JObj b => cast_if (decide (a = b))
    | _, _ => right _
    end); clear r go; abstract congruence.
Defined.

Inductive bytes :=
  | BJson (j : json)
  | BMore (j : json) (rest : string)
  | BRaw (s : string).

#[global] Instance bytes_eq_dec : EqDecision bytes.
Proof. solve_decision. Defined.

(** [len(b) > 0]. *)
Definition nonempty (b : bytes) : bool :=
  match b with
  | BRaw s => negb (String.eqb s "")
  | BJson _ | BMore _ _ => true
  end.

(** ** Decoding status *)

Inductive dstat :=
  | DOk
  | DSaved (e : goerror)
  | DAbort (e : goerror).

Definition dmerge (s t : dstat) : dstat :=
  match s with
  | DOk => t
  | _ => match t with DAbort _ => t | _ => s end
  end.

Definition type_error : dstat := DSaved (ErrMsg "json: cannot unmarshal value").

(** ** Codecs *)

Record codec (A : Type) := Codec {
  enc : A → option json;
  dec : json → A → A * dstat;
  czero : A
}.
Arguments Codec {A}.
Arguments enc {A}.
Arguments dec {A}.
Arguments czero {A}.

Definition c_string : codec string := {|
  enc s := Some (JStr s);
  dec j v := match j with JStr s => (s, DOk) | JNull => (v, DOk) | _ => (v, type_error) end;
  czero := "" |}.

Definition c_bool : codec bool := {|
  enc b := Some (JBool b);
  dec j v := match j with JBool b => (b, DOk) | JNull => (v, DOk) | _ => (v, type_error) end;
  czero := false |}.

(** [int] and [int64]; a [Z] outside the type has no encoding. *)
Definition c_int64 : codec Z := {|
  enc z := if in_int64 z then Some (JNum z) else None;
  dec j v := match j with
    | JNum z => if in_int64 z then (z, DOk) else (v, type_error)
    | JNull => (v, DOk)
    | _ => (v, type_error)
    end;
  czero := 0%Z |}.

Definition c_time : codec Z := {|
  enc t := if time_ok t then Some (JStr (fmt_rfc3339 t)) else None;
  dec j v := match j with
    | JStr s => match parse_rfc3339 s with
                | Some t => (t, DOk)
                | None => (v, DAbort (ErrMsg "parsing time"))
                end
    | JNull => (v, DOk)
    | _ => (v, DAbort (ErrMsg "Time.UnmarshalJSON: input is not a JSON string"))
    end;
  czero := 0%Z |}.

(** A slice: [None] is [nil], which is written [null]. *)
Definition slice (A : Type) : Type := option (list A).
Definition elems {A} (s : slice A) : list A := default [] s.
Definition append1 {A} (s : slice A) (x : A) : slice A := Some (elems s ++ [x])%list.

Fixpoint enc_list {A} (c : codec A) (l : list A) : option (list json) :=
  match l with
  | [] => Some []
  | a :: l' => j ← enc c a; js ← enc_list c l'; Some (j :: js)
  end.

Fixpoint dec_list {A} (c : codec A) (js : list json) : list A * dstat :=
  match js with
  | [] => ([], DOk)
  | j :: js' =>
      match dec c j (czero c) with
      | (a, DAbort e) => ([a], DAbort e)
      | (a, s) => let (l, s') := dec_list c js' in (a :: l, dmerge s s')
      end
  end.

Definition c_slice {A} (c : codec A) : codec (slice A) := {|
  enc s := match s with
    | None => Some JNull
    | Some l => JArr <$> enc_list c l
    end;
  dec j v := match j with
    | JNull => (None, DOk)
    | JArr js => let (l, s) := dec_list c js in (Some l, s)
    | _ => (v, type_error)
    end;
  czero := None |}.

Definition c_ptr {A} (c : codec A) : codec (option A) := {|
  enc p := match p with None => Some JNull | Some a => enc c a end;
  dec j v := match j with
    | JNull => (None, DOk)
    | _ => let (a, s) := dec c j (default (czero c) v) in (Some a, s)
    end;
  czero := None |}.

(** [map[string]any]: written with its keys sorted. *)
Definition key_le (p q : string * json) : Prop := String.leb p.1 q.1 = true.
#[global] Instance key_le_dec p q : Decision (key_le p q).
Proof. unfold key_le. apply _. Defined.

Definition c_map : codec (option (gmap string json)) := {|
  enc m := match m with
    | None => Some JNull
    | Some m => Some (JObj (merge_sort key_le (map_to_list m)))
    end;
  dec j v := match j with
    | JNull => (None, DOk)
    | JObj kvs => (Some (foldl (λ m kv, <[kv.1 := kv.2]> m) (default ∅ v) kvs), DOk)
    | _ => (v, type_error)
    end;
  czero := None |}.

(** ** Structs *)

Inductive field (T : Type) : Type :=
  | Field (A : Type) (name : string) (omit : A → bool) (c : codec A)
        (get : T → A) (set : A → T → T).
Arguments Field {T A}.

Definition fname {T} (f : field T) : string :=
  match f with Field n _ _ _ _ => n end.

(** The value of a field in the output: absent, an error, or a document. *)
Definition enc_field {T} (f : field T) (v : T) : option (option json) :=
  match f with
  | Field _ omit c get _ => if omit (get v) then None else Some (enc c (get v))
  end.

Definition dec_field {T} (f : field T) (j : json) (v : T) : T * dstat :=
  match f with
  | Field _ _ c get set => let (a, s) := dec c j (get v) in (set a v, s)
  end.

Fixpoint enc_fields {T} (fs : list (field T)) (v : T) : option (list (string * json)) :=
  match fs with
  | [] => Some []
  | f :: fs' =>
      match enc_field f v with
      | None => enc_fields fs' v
      | Some oj => j ← oj; kvs ← enc_fields fs' v; Some ((fname f, j) :: kvs)
      end
  end.

(** An exact match of the key first, then one up to case. *)
Definition find_field {T} (fs : list (field T)) (k : string) : option (field T) :=
  match List.find (λ f, String.eqb (fname f) k) fs with
  | Some f => Some f
  | None => List.find (λ f, EqualFold (fname f) k) fs
  end.

Fixpoint dec_fields {T} (fs : list (field T)) (kvs : list (string * json)) (v : T)
    (st : dstat) : T * dstat :=
  match kvs with
  | [] => (v, st)
  | (k, j) :: kvs' =>
      match find_field fs k with
      | None => dec_fields fs kvs' v st
      | Some f =>
          match dec_field f j v with
          | (v', DAbort e) => (v', DAbort e)
          | (v', s) => dec_fields fs kvs' v' (dmerge st s)
          end
      end
  end.

Definition c_struct {T} (fs : list (field T)) (zero : T) : codec T := {|
  enc v := JObj <$> enc_fields fs v;
  dec j v := match j with
    | JNull => (v, DOk)
    | JObj kvs => dec_fields fs kvs v DOk
    | _ => (v, type_error)
    end;
  czero := zero |}.

(** The [omitempty] tests. *)
Definition never {A} (_ : A) : bool := false.
Definition empty_string (s : string) : bool := String.eqb s "".
Definition empty_int (z : Z) : bool := (z =? 0)%Z.
Definition nil_ptr {A} (p : option A) : bool := match p with None => true | _ => false end.
Definition empty_slice {A} (s : slice A) : bool := match elems s with [] => true | _ => false end.
Definition empty_map (m : option (gmap string json)) : bool :=
  match m with Some m => bool_decide (m = ∅) | None => true end.

(** ** [json.Marshal], [json.Unmarshal] and [Decoder.Decode] *)

Definition Marshal {A} (c : codec A) (v : A) : option bytes := BJson <$> enc c v.

Definition dstat_err (s : dstat) : option goerror :=
  match s with DOk => None | DSaved e | DAbort e => Some e end.

(** The value left in the target, filled as far as decoding got, and the error. *)
Definition Unmarshal {A} (c : codec A) (b : bytes) (v : A) : A * option goerror :=
  match b with
  | BJson j => let (a, s) := dec c j v in (a, dstat_err s)
  | BMore _ _ => (v, Some (ErrMsg "invalid character after top-level value"))
  | BRaw _ => (v, Some (ErrMsg "invalid character"))
  end.

(** A decoder stops after the first document of its stream. *)
Definition Decode {A} (c : codec A) (b : bytes) (v : A) : A * option goerror :=
  match b with
  | BJson j | BMore j _ => let (a, s) := dec c j v in (a, dstat_err s)
  | BRaw _ => (v, Some (ErrMsg "invalid character"))
  end.

(** ** Round trips *)

(** [a] is read back as it was written. *)
Definition rt_at {A} (c : codec A) (a : A) : Prop :=
  ∀ j, enc c a = Some j → dec c j (czero c) = (a, DOk).
Class Roundtrip {A} (c : codec A) : Prop := roundtrip a : rt_at c a.
Class NonNull {A} (c : codec A) : Prop := non_null a : enc c a ≠ Some JNull.

#[global] Instance c_string_rt : Roundtrip c_string.
Proof. intros a j [= <-]. done. Qed.
#[global] Instance c_bool_rt : Roundtrip c_bool.
Proof. intros a j [= <-]. done. Qed.
#[global] Instance c_int64_rt : Roundtrip c_int64.
Proof. intros a j; simpl. case_match eqn:E; [|done]. intros [= <-]. by rewrite E. Qed.
#[global] Instance c_time_rt : Roundtrip c_time.
Proof.
  intros a j; simpl. case_match eqn:E; [|done]. intros [= <-].
  by rewrite parse_fmt_rfc3339.
Qed.
#[global] Instance c_int64_nn : NonNull c_int64.
Proof. intros a; simpl. by case_match. Qed.
#[global] Instance c_time_nn : NonNull c_time.
Proof. intros a; simpl. by case_match. Qed.

Lemma dec_enc_list {A} (c : codec A) l js :
  Forall (rt_at c) l → enc_list c l = Some js → dec_list c js = (l, DOk).
Proof.
  intros Hl. revert js. induction Hl as [|a l Ha Hl IH]; intros js; simpl; [by intros [= <-]|].
  destruct (enc c a) as [j|] eqn:Ea; [|done]; simpl.
  destruct (enc_list c l) as [js'|]; [|done]; simpl. intros [= <-]; simpl.
  by rewrite (Ha j Ea), (IH js').
Qed.

Lemma c_slice_rt_at {A} (c : codec A) (s : slice A) :
  Forall (rt_at c) (elems s) → rt_at (c_slice c) s.
Proof.
  destruct s as [l|]; intros Hl j; simpl; [|by intros [= <-]].
  destruct (enc_list c l) as [js|] eqn:E; [|done]. intros [= <-]; simpl.
  by rewrite (dec_enc_list c l js Hl E).
Qed.

#[global] Instance c_slice_rt {A} (c : codec A) `{!Roundtrip c} : Roundtrip (c_slice c).
Proof. intros s. apply c_slice_rt_at, Forall_true, roundtrip. Qed.

#[global] Instance c_ptr_rt {A} (c : codec A) `{!Roundtrip c, !NonNull c} :
  Roundtrip (c_ptr c).
Proof.
  intros [a|] j; simpl; [|by intros [= <-]]. intros Ha.
  destruct j; try (by rewrite (roundtrip a _ Ha)). by apply non_null in Ha.
Qed.

Lemma foldl_insert_union (l : list (string * json)) (m : gmap string json) :
  NoDup l.*1 → (∀ k, k ∈ l.*1 → m !! k = None) →
  foldl (λ m kv, <[kv.1 := kv.2]> m) m l = list_to_map l ∪ m.
Proof.
  revert m. induction l as [|[k v] l IH]; intros m Hnd Hm; simpl.
  - by rewrite (left_id_L ∅ (∪)).
  - apply NoDup_cons in Hnd as [Hk Hnd]. rewrite IH; [|done|].
    + rewrite <- insert_union_r; [by rewrite insert_union_l|].
      by apply not_elem_of_list_to_map_1.
    + intros k' Hk'. simpl. rewrite lookup_insert_ne; [apply Hm; by right|].
      by intros ->.
Qed.

#[global] Instance c_map_rt : Roundtrip c_map.
Proof.
  intros [m|] j; simpl; intros [= <-]; [|done]. do 2 f_equal.
  pose proof (merge_sort_Permutation key_le (map_to_list m)) as Hp.
  assert (NoDup (merge_sort key_le (map_to_list m)).*1) as Hnd.
  { rewrite Hp. apply NoDup_fst_map_to_list. }
  rewrite foldl_insert_union by (done || by intros; apply lookup_empty).
  rewrite (right_id_L ∅ (∪)), (list_to_map_proper _ _ Hnd Hp).
  apply list_to_map_to_list.
Qed.

(** The field of [v] round trips and the setter restores what the getter reads. *)
Definition field_rt {T} (v : T) (f : field T) : Prop :=
  match f with
  | Field _ _ c get set => rt_at c (get v) ∧ ∀ t, set (get t) t = t
  end.

(** What decoding a written [v] does to the target, field by field. *)
Definition copy1 {T} (f : field T) (v acc : T) : T :=
  match f with
  | Field _ omit _ get set => set (if omit (get v) then get acc else get v) acc
  end.

Definition fresh1 {T} (f : field T) (acc : T) : Prop :=
  match f with Field _ _ c get _ => get acc = czero c end.

Fixpoint copy {T} (fs : list (field T)) (v acc : T) : T :=
  match fs with [] => acc | f :: fs' => copy fs' v (copy1 f v acc) end.

Fixpoint fresh {T} (fs : list (field T)) (v acc : T) : Prop :=
  match fs with
  | [] => True
  | f :: fs' => fresh1 f acc ∧ fresh fs' v (copy1 f v acc)
  end.

Lemma dec_enc_fields {T} (all fs : list (field T)) v acc kvs :
  Forall (field_rt v) fs →
  Forall (λ f, find_field all (fname f) = Some f) fs →
  fresh fs v acc →
  enc_fields fs v = Some kvs →
  dec_fields all kvs acc DOk = (copy fs v acc, DOk).
Proof.
  intros Hok. revert acc kvs.
  induction Hok as [|f fs Hf Hfs IH]; intros acc kvs Hfind Hfr; simpl; [by intros [= <-]|].
  apply Forall_cons in Hfind as [Hfind1 Hfind]. destruct Hfr as [Hz Hfr].
  destruct f as [A name omit c get set]. destruct Hf as [Hrt Heta]. simpl in *.
  destruct (omit (get v)) eqn:Ho.
  { rewrite Heta in *. by apply IH. }
  destruct (enc c (get v)) as [j|] eqn:Ej; [|done]; simpl.
  destruct (enc_fields fs v) as [kvs'|] eqn:Ekv; [|done]; simpl. intros [= <-]; simpl.
  rewrite Hfind1; simpl. rewrite Hz, (Hrt _ Ej). by apply IH.
Qed.

Lemma c_struct_rt_at {T} (fs : list (field T)) (zero v : T) :
  Forall (field_rt v) fs →
  Forall (λ f, find_field fs (fname f) = Some f) fs →
  fresh fs v zero →
  copy fs v zero = v →
  rt_at (c_struct fs zero) v.
Proof.
  intros Hok Hfind Hfr Hcp j; simpl.
  destruct (enc_fields fs v) as [kvs|] eqn:E; [|done]; simpl. intros [= <-].
  rewrite (dec_enc_fields fs fs v zero kvs) by done. by rewrite Hcp.
Qed.

#[global] Instance c_struct_nn {T} (fs : list (field T)) zero : NonNull (c_struct fs zero).
Proof. intros v; simpl. by destruct (enc_fields fs v). Qed.

(** What is marshalled is read back into a fresh variable without an error. *)
Lemma Unmarshal_Marshal {A} (c : codec A) v b :
  rt_at c v → Marshal c v = Some b → Unmarshal c b (czero c) = (v, None).
Proof.
  unfold Marshal. intros Hv. destruct (enc c v) as [j|] eqn:E; [|done].
  intros [= <-]; simpl. by rewrite (Hv j E).
Qed.

(** The tombstone [{}] leaves the target alone, without an error. *)
Lemma Unmarshal_tombstone {T} (fs : list (field T)) zero v :
  Unmarshal (c_struct fs zero) (BJson (JObj [])) v = (v, None).
Proof. done. Qed.

Lemma empty_string_spec s : empty_string s = true → s = "".
Proof. apply String.eqb_eq. Qed.
Lemma empty_int_spec z : empty_int z = true → z = 0%Z.
Proof. apply Z.eqb_eq. Qed.
Lemma empty_slice_spec {A} (s : slice A) : s ≠ Some [] → empty_slice s = true → s = None.
Proof. by destruct s as [[]|]. Qed.
Lemma empty_map_spec m : m ≠ Some ∅ → empty_map m = true → m = None.
Proof. destruct m as [m|]; [|done]. simpl. case_bool_decide; congruence. Qed.

(** Round trip of a struct: every field's codec by its instance or by a hypothesis,
    every key found as itself, every omitted field its zero value. *)
Ltac solve_omit :=
  match goal with
  | |- (if empty_string ?s then _ else _) = _ =>
      destruct (empty_string s) eqn:?; [symmetry; by apply empty_string_spec|done]
  | |- (if empty_int ?s then _ else _) = _ =>
      destruct (empty_int s) eqn:?; [symmetry; by apply empty_int_spec|done]
  | |- (if nil_ptr ?s then _ else _) = _ => by destruct s
  | |- (if empty_slice ?s then _ else _) = _ =>
      destruct (empty_slice s) eqn:?; [symmetry; by apply empty_slice_spec|done]
  | |- (if empty_map ?s then _ else _) = _ =>
      destruct (empty_map s) eqn:?; [symmetry; by apply empty_map_spec|done]
  | _ => done
  end.
Ltac solve_struct_rt :=
  apply c_struct_rt_at;
  [ repeat (apply Forall_cons; split;
      [ split; [first [assumption | apply roundtrip; apply _] | by intros []] | ]);
    apply Forall_nil_2
  | repeat (apply Forall_cons; split; [reflexivity|]); apply Forall_nil_2
  | cbn; tauto
  | match goal with |- copy _ ?v _ = _ => destruct v end;
    cbn -[empty_string empty_int nil_ptr empty_slice empty_map] in *;
    f_equal; solve_omit ].
