(* ===== verification/TaskTypes.v ===== *)
(** * Package [internal/task]: task records and DHT keys

    [types.go] and [index_sharded.go]: the records the control server and the agents
    exchange through the DHT, with their JSON form, and the names under which they
    are stored. *)
From Stdlib Require Import Ascii String.
From S2P Require Import Prelude GoStrings GoTime Json.

Local Open Scope string_scope.

(** ** Task status *)

Definition TaskStatus : Type := string.
Definition StatusQueued : TaskStatus := "queued".
Definition StatusAssigned : TaskStatus := "assigned".
Definition StatusRunning : TaskStatus := "running".
Definition StatusSucceeded : TaskStatus := "succeeded".
Definition StatusFailed : TaskStatus := "failed".

(** ** Records *)

(** [task.Lease]: who holds a task, until when, with which fencing token. *)
Record Lease := MkLease {
  le_Owner : string;
  le_Nonce : string;
  le_Expires : Z;
  le_Version : Z
}.
Definition zero_Lease : Lease :=
  MkLease "" "" 0%Z 0%Z.
Definition with_le_Owner (a : string) (v : Lease) : Lease :=
  (λ a '(MkLease _ x1 x2 x3), MkLease a x1 x2 x3) a v.
Definition with_le_Nonce (a : string) (v : Lease) : Lease :=
  (λ a '(MkLease x0 _ x2 x3), MkLease x0 a x2 x3) a v.
Definition with_le_Expires (a : Z) (v : Lease) : Lease :=
  (λ a '(MkLease x0 x1 _ x3), MkLease x0 x1 a x3) a v.
Definition with_le_Version (a : Z) (v : Lease) : Lease :=
  (λ a '(MkLease x0 x1 x2 _), MkLease x0 x1 x2 a) a v.
Definition fields_Lease : list (field Lease) := [
  Field "owner" never c_string le_Owner
    (λ a '(MkLease _ x1 x2 x3), MkLease a x1 x2 x3);
  Field "nonce" never c_string le_Nonce
    (λ a '(MkLease x0 _ x2 x3), MkLease x0 a x2 x3);
  Field "expires" never c_time le_Expires
    (λ a '(MkLease x0 x1 _ x3), MkLease x0 x1 a x3);
  Field "version" never c_int64 le_Version
    (λ a '(MkLease x0 x1 x2 _), MkLease x0 x1 x2 a)
].
Definition c_Lease : codec Lease := c_struct fields_Lease zero_Lease.

(** [task.Artifact]. *)
Record Artifact := MkArtifact {
  ar_Name : string;
  ar_Size : Z;
  ar_CID : string;
  ar_URL : string
}.
Definition zero_Artifact : Artifact :=
  MkArtifact "" 0%Z "" "".
Definition fields_Artifact : list (field Artifact) := [
  Field "name" empty_string c_string ar_Name
    (λ a '(MkArtifact _ x1 x2 x3), MkArtifact a x1 x2 x3);
  Field "size" empty_int c_int64 ar_Size
    (λ a '(MkArtifact x0 _ x2 x3), MkArtifact x0 a x2 x3);
  Field "cid" empty_string c_string ar_CID
    (λ a '(MkArtifact x0 x1 _ x3), MkArtifact x0 x1 a x3);
  Field "url" empty_string c_string ar_URL
    (λ a '(MkArtifact x0 x1 x2 _), MkArtifact x0 x1 x2 a)
].
Definition c_Artifact : codec Artifact := c_struct fields_Artifact zero_Artifact.

(** The anonymous [Resources] struct of [task.TaskMeta]; [omitempty] never drops a struct. *)
Record Resources := MkResources {
  rs_CPU : string;
  rs_Memory : string
}.
Definition zero_Resources : Resources :=
  MkResources "" "".
Definition fields_Resources : list (field Resources) := [
  Field "cpu" empty_string c_string rs_CPU
    (λ a '(MkResources _ x1), MkResources a x1);
  Field "memory" empty_string c_string rs_Memory
    (λ a '(MkResources x0 _), MkResources x0 a)
].
Definition c_Resources : codec Resources := c_struct fields_Resources zero_Resources.

(** [task.TaskMeta]. *)
Record TaskMeta := MkTaskMeta {
  tm_ID : string;
  tm_CreatedAt : Z;
  tm_Image : string;
  tm_Command : slice string;
  tm_Env : slice string;
  tm_Workdir : string;
  tm_TimeoutSec : Z;
  tm_Resources : Resources
}.
Definition zero_TaskMeta : TaskMeta :=
  MkTaskMeta "" 0%Z "" None None "" 0%Z zero_Resources.
Definition fields_TaskMeta : list (field TaskMeta) := [
  Field "id" empty_string c_string tm_ID
    (λ a '(MkTaskMeta _ x1 x2 x3 x4 x5 x6 x7), MkTaskMeta a x1 x2 x3 x4 x5 x6 x7);
  Field "created_at" never c_time tm_CreatedAt
    (λ a '(MkTaskMeta x0 _ x2 x3 x4 x5 x6 x7), MkTaskMeta x0 a x2 x3 x4 x5 x6 x7);
  Field "image" never c_string tm_Image
    (λ a '(MkTaskMeta x0 x1 _ x3 x4 x5 x6 x7), MkTaskMeta x0 x1 a x3 x4 x5 x6 x7);
  Field "command" never (c_slice c_string) tm_Command
    (λ a '(MkTaskMeta x0 x1 x2 _ x4 x5 x6 x7), MkTaskMeta x0 x1 x2 a x4 x5 x6 x7);
  Field "env" empty_slice (c_slice c_string) tm_Env
    (λ a '(MkTaskMeta x0 x1 x2 x3 _ x5 x6 x7), MkTaskMeta x0 x1 x2 x3 a x5 x6 x7);
  Field "workdir" empty_string c_string tm_Workdir
    (λ a '(MkTaskMeta x0 x1 x2 x3 x4 _ x6 x7), MkTaskMeta x0 x1 x2 x3 x4 a x6 x7);
  Field "timeout_sec" empty_int c_int64 tm_TimeoutSec
    (λ a '(MkTaskMeta x0 x1 x2 x3 x4 x5 _ x7), MkTaskMeta x0 x1 x2 x3 x4 x5 a x7);
  Field "resources" never c_Resources tm_Resources
    (λ a '(MkTaskMeta x0 x1 x2 x3 x4 x5 x6 _), MkTaskMeta x0 x1 x2 x3 x4 x5 x6 a)
].
Definition c_TaskMeta : codec TaskMeta := c_struct fields_TaskMeta zero_TaskMeta.

(** [task.Provider]. *)
Record Provider := MkProvider {
  pv_PeerID : string;
  pv_Addrs : slice string;
  pv_Relays : slice string;
  pv_Caps : slice string
}.
Definition zero_Provider : Provider :=
  MkProvider "" None None None.
Definition fields_Provider : list (field Provider) := [
  Field "peer_id" never c_string pv_PeerID
    (λ a '(MkProvider _ x1 x2 x3), MkProvider a x1 x2 x3);
  Field "addrs" never (c_slice c_string) pv_Addrs
    (λ a '(MkProvider x0 _ x2 x3), MkProvider x0 a x2 x3);
  Field "relays" empty_slice (c_slice c_string) pv_Relays
    (λ a '(MkProvider x0 x1 _ x3), MkProvider x0 x1 a x3);
  Field "caps" empty_slice (c_slice c_string) pv_Caps
    (λ a '(MkProvider x0 x1 x2 _), MkProvider x0 x1 x2 a)
].
Definition c_Provider : codec Provider := c_struct fields_Provider zero_Provider.

(** [task.Manifest]: where the inputs of a task are. *)
Record Manifest := MkManifest {
  mf_RootCID : string;
  mf_Providers : slice Provider;
  mf_EncMeta : string;
  mf_Rendezvous : string;
  mf_Transports : slice string;
  mf_Version : Z;
  mf_UpdatedAt : Z
}.
Definition zero_Manifest : Manifest :=
  MkManifest "" None "" "" None 0%Z 0%Z.
Definition fields_Manifest : list (field Manifest) := [
  Field "root_cid" never c_string mf_RootCID
    (λ a '(MkManifest _ x1 x2 x3 x4 x5 x6), MkManifest a x1 x2 x3 x4 x5 x6);
  Field "providers" never (c_slice c_Provider) mf_Providers
    (λ a '(MkManifest x0 _ x2 x3 x4 x5 x6), MkManifest x0 a x2 x3 x4 x5 x6);
  Field "enc_meta" empty_string c_string mf_EncMeta
    (λ a '(MkManifest x0 x1 _ x3 x4 x5 x6), MkManifest x0 x1 a x3 x4 x5 x6);
  Field "rendezvous" empty_string c_string mf_Rendezvous
    (λ a '(MkManifest x0 x1 x2 _ x4 x5 x6), MkManifest x0 x1 x2 a x4 x5 x6);
  Field "transports" empty_slice (c_slice c_string) mf_Transports
    (λ a '(MkManifest x0 x1 x2 x3 _ x5 x6), MkManifest x0 x1 x2 x3 a x5 x6);
  Field "version" never c_int64 mf_Version
    (λ a '(MkManifest x0 x1 x2 x3 x4 _ x6), MkManifest x0 x1 x2 x3 x4 a x6);
  Field "updated_at" never c_time mf_UpdatedAt
    (λ a '(MkManifest x0 x1 x2 x3 x4 x5 _), MkManifest x0 x1 x2 x3 x4 x5 a)
].
Definition c_Manifest : codec Manifest := c_struct fields_Manifest zero_Manifest.

(** [task.TaskState]: the DHT's copy of a task's state. *)
Record TaskState := MkTaskState {
  ts_ID : string;
  ts_Status : TaskStatus;
  ts_Version : Z;
  ts_UpdatedAt : Z;
  ts_AssignedTo : string;
  ts_Lease : option Lease;
  ts_StartedAt : option Z;
  ts_FinishedAt : option Z;
  ts_ExitCode : option Z;
  ts_Error : string;
  ts_ResultRootCID : string;
  ts_Artifacts : slice Artifact;
  ts_Metrics : option (gmap string json);
  ts_LogTail : string
}.
Definition zero_TaskState : TaskState :=
  MkTaskState "" "" 0%Z 0%Z "" None None None None "" "" None None "".
Definition with_ts_ID (a : string) (v : TaskState) : TaskState :=
  (λ a '(MkTaskState _ x1 x2 x3 x4 x5 x6 x7 x8 x9 x10 x11 x12 x13), MkTaskState a x1 x2 x3 x4 x5 x6 x7 x8 x9 x10 x11 x12 x13) a v.
Definition with_ts_Status (a : TaskStatus) (v : TaskState) : TaskState :=
  (λ a '(MkTaskState x0 _ x2 x3 x4 x5 x6 x7 x8 x9 x10 x11 x12 x13), MkTaskState x0 a x2 x3 x4 x5 x6 x7 x8 x9 x10 x11 x12 x13) a v.
Definition with_ts_Version (a : Z) (v : TaskState) : TaskState :=
  (λ a '(MkTaskState x0 x1 _ x3 x4 x5 x6 x7 x8 x9 x10 x11 x12 x13), MkTaskState x0 x1 a x3 x4 x5 x6 x7 x8 x9 x10 x11 x12 x13) a v.
Definition with_ts_UpdatedAt (a : Z) (v : TaskState) : TaskState :=
  (λ a '(MkTaskState x0 x1 x2 _ x4 x5 x6 x7 x8 x9 x10 x11 x12 x13), MkTaskState x0 x1 x2 a x4 x5 x6 x7 x8 x9 x10 x11 x12 x13) a v.
Definition with_ts_AssignedTo (a : string) (v : TaskState) : TaskState :=
  (λ a '(MkTaskState x0 x1 x2 x3 _ x5 x6 x7 x8 x9 x10 x11 x12 x13), MkTaskState x0 x1 x2 x3 a x5 x6 x7 x8 x9 x10 x11 x12 x13) a v.
Definition with_ts_StartedAt (a : option Z) (v : TaskState) : TaskState :=
  (λ a '(MkTaskState x0 x1 x2 x3 x4 x5 _ x7 x8 x9 x10 x11 x12 x13), MkTaskState x0 x1 x2 x3 x4 x5 a x7 x8 x9 x10 x11 x12 x13) a v.
Definition with_ts_FinishedAt (a : option Z) (v : TaskState) : TaskState :=
  (λ a '(MkTaskState x0 x1 x2 x3 x4 x5 x6 _ x8 x9 x10 x11 x12 x13), MkTaskState x0 x1 x2 x3 x4 x5 x6 a x8 x9 x10 x11 x12 x13) a v.
Definition fields_TaskState : list (field TaskState) := [
  Field "id" never c_string ts_ID
    (λ a '(MkTaskState _ x1 x2 x3 x4 x5 x6 x7 x8 x9 x10 x11 x12 x13), MkTaskState a x1 x2 x3 x4 x5 x6 x7 x8 x9 x10 x11 x12 x13);
  Field "status" never c_string ts_Status
    (λ a '(MkTaskState x0 _ x2 x3 x4 x5 x6 x7 x8 x9 x10 x11 x12 x13), MkTaskState x0 a x2 x3 x4 x5 x6 x7 x8 x9 x10 x11 x12 x13);
  Field "version" never c_int64 ts_Version
    (λ a '(MkTaskState x0 x1 _ x3 x4 x5 x6 x7 x8 x9 x10 x11 x12 x13), MkTaskState x0 x1 a x3 x4 x5 x6 x7 x8 x9 x10 x11 x12 x13);
  Field "updated_at" never c_time ts_UpdatedAt
    (λ a '(MkTaskState x0 x1 x2 _ x4 x5 x6 x7 x8 x9 x10 x11 x12 x13), MkTaskState x0 x1 x2 a x4 x5 x6 x7 x8 x9 x10 x11 x12 x13);
  Field "assigned_to" empty_string c_string ts_AssignedTo
    (λ a '(MkTaskState x0 x1 x2 x3 _ x5 x6 x7 x8 x9 x10 x11 x12 x13), MkTaskState x0 x1 x2 x3 a x5 x6 x7 x8 x9 x10 x11 x12 x13);
  Field "lease" nil_ptr (c_ptr c_Lease) ts_Lease
    (λ a '(MkTaskState x0 x1 x2 x3 x4 _ x6 x7 x8 x9 x10 x11 x12 x13), MkTaskState x0 x1 x2 x3 x4 a x6 x7 x8 x9 x10 x11 x12 x13);
  Field "started_at" nil_ptr (c_ptr c_time) ts_StartedAt
    (λ a '(MkTaskState x0 x1 x2 x3 x4 x5 _ x7 x8 x9 x10 x11 x12 x13), MkTaskState x0 x1 x2 x3 x4 x5 a x7 x8 x9 x10 x11 x12 x13);
  Field "finished_at" nil_ptr (c_ptr c_time) ts_FinishedAt
    (λ a '(MkTaskState x0 x1 x2 x3 x4 x5 x6 _ x8 x9 x10 x11 x12 x13), MkTaskState x0 x1 x2 x3 x4 x5 x6 a x8 x9 x10 x11 x12 x13);
  Field "exit_code" nil_ptr (c_ptr c_int64) ts_ExitCode
    (λ a '(MkTaskState x0 x1 x2 x3 x4 x5 x6 x7 _ x9 x10 x11 x12 x13), MkTaskState x0 x1 x2 x3 x4 x5 x6 x7 a x9 x10 x11 x12 x13);
  Field "error" empty_string c_string ts_Error
    (λ a '(MkTaskState x0 x1 x2 x3 x4 x5 x6 x7 x8 _ x10 x11 x12 x13), MkTaskState x0 x1 x2 x3 x4 x5 x6 x7 x8 a x10 x11 x12 x13);
  Field "result_root_cid" empty_string c_string ts_ResultRootCID
    (λ a '(MkTaskState x0 x1 x2 x3 x4 x5 x6 x7 x8 x9 _ x11 x12 x13), MkTaskState x0 x1 x2 x3 x4 x5 x6 x7 x8 x9 a x11 x12 x13);
  Field "artifacts" empty_slice (c_slice c_Artifact) ts_Artifacts
    (λ a '(MkTaskState x0 x1 x2 x3 x4 x5 x6 x7 x8 x9 x10 _ x12 x13), MkTaskState x0 x1 x2 x3 x4 x5 x6 x7 x8 x9 x10 a x12 x13);
  Field "metrics" empty_map c_map ts_Metrics
    (λ a '(MkTaskState x0 x1 x2 x3 x4 x5 x6 x7 x8 x9 x10 x11 _ x13), MkTaskState x0 x1 x2 x3 x4 x5 x6 x7 x8 x9 x10 x11 a x13);
  Field "log_tail" empty_string c_string ts_LogTail
    (λ a '(MkTaskState x0 x1 x2 x3 x4 x5 x6 x7 x8 x9 x10 x11 x12 _), MkTaskState x0 x1 x2 x3 x4 x5 x6 x7 x8 x9 x10 x11 x12 a)
].
Definition c_TaskState : codec TaskState := c_struct fields_TaskState zero_TaskState.

(** [task.TaskEndpoint]. *)
Record TaskEndpoint := MkTaskEndpoint {
  te_TaskID : string;
  te_Proto : string;
  te_Endpoint : string;
  te_Updated : Z
}.
Definition zero_TaskEndpoint : TaskEndpoint :=
  MkTaskEndpoint "" "" "" 0%Z.
Definition fields_TaskEndpoint : list (field TaskEndpoint) := [
  Field "task_id" never c_string te_TaskID
    (λ a '(MkTaskEndpoint _ x1 x2 x3), MkTaskEndpoint a x1 x2 x3);
  Field "proto" never c_string te_Proto
    (λ a '(MkTaskEndpoint x0 _ x2 x3), MkTaskEndpoint x0 a x2 x3);
  Field "endpoint" never c_string te_Endpoint
    (λ a '(MkTaskEndpoint x0 x1 _ x3), MkTaskEndpoint x0 x1 a x3);
  Field "updated" never c_time te_Updated
    (λ a '(MkTaskEndpoint x0 x1 x2 _), MkTaskEndpoint x0 x1 x2 a)
].
Definition c_TaskEndpoint : codec TaskEndpoint := c_struct fields_TaskEndpoint zero_TaskEndpoint.

(** [task.TaskIndex]: one shard of the task index. *)
Record TaskIndex := MkTaskIndex {
  ix_IDs : slice string;
  ix_UpdatedAt : Z;
  ix_Version : Z
}.
Definition zero_TaskIndex : TaskIndex :=
  MkTaskIndex None 0%Z 0%Z.
Definition with_ix_IDs (a : slice string) (v : TaskIndex) : TaskIndex :=
  (λ a '(MkTaskIndex _ x1 x2), MkTaskIndex a x1 x2) a v.
Definition with_ix_UpdatedAt (a : Z) (v : TaskIndex) : TaskIndex :=
  (λ a '(MkTaskIndex x0 _ x2), MkTaskIndex x0 a x2) a v.
Definition with_ix_Version (a : Z) (v : TaskIndex) : TaskIndex :=
  (λ a '(MkTaskIndex x0 x1 _), MkTaskIndex x0 x1 a) a v.
Definition fields_TaskIndex : list (field TaskIndex) := [
  Field "ids" never (c_slice c_string) ix_IDs
    (λ a '(MkTaskIndex _ x1 x2), MkTaskIndex a x1 x2);
  Field "updated_at" never c_time ix_UpdatedAt
    (λ a '(MkTaskIndex x0 _ x2), MkTaskIndex x0 a x2);
  Field "version" never c_int64 ix_Version
    (λ a '(MkTaskIndex x0 x1 _), MkTaskIndex x0 x1 a)
].
Definition c_TaskIndex : codec TaskIndex := c_struct fields_TaskIndex zero_TaskIndex.

(** ** Keys *)

Definition KeyMeta (id : string) : string := "task/" ++ id ++ "/meta".
Definition KeyState (id : string) : string := "task/" ++ id ++ "/state".
Definition KeyWS (id : string) : string := "task/" ++ id ++ "/ws".
Definition KeyManifest (id : string) : string := "task/" ++ id ++ "/manifest".
Definition KeyIndex (ns : string) : string := "ns/" ++ ns ++ "/task/index".
Definition KeyFinishMirror (id : string) : string := "task/" ++ id ++ "/finish".
Definition KeyLease (id : string) : string := "task/" ++ id ++ "/lease".

Definition TaskIndexShardCount : Z := 32.
Definition KeyIndexShard (ns : string) (shard : Z) : string :=
  "ns/" ++ ns ++ "/task/index/" ++ fmt_02d shard.

(** [0, 1, ..., n-1], the range of a counting loop. *)
Definition range (n : Z) : list Z := Z.of_nat <$> seq 0 (Z.to_nat n).

Definition AllIndexShards (ns : string) : list string :=
  KeyIndexShard ns <$> range TaskIndexShardCount.

(** ** Round trips

    The records are read back as they were written, provided no slice or map with
    [omitempty] is empty without being [nil] (it is dropped and comes back [nil]). *)

#[global] Instance Lease_rt : Roundtrip c_Lease.
Proof. intros v. solve_struct_rt. Qed.
#[global] Instance Artifact_rt : Roundtrip c_Artifact.
Proof. intros v. solve_struct_rt. Qed.
#[global] Instance Resources_rt : Roundtrip c_Resources.
Proof. intros v. solve_struct_rt. Qed.
#[global] Instance TaskIndex_rt : Roundtrip c_TaskIndex.
Proof. intros v. solve_struct_rt. Qed.
#[global] Instance TaskEndpoint_rt : Roundtrip c_TaskEndpoint.
Proof. intros v. solve_struct_rt. Qed.

Definition canon_Provider (p : Provider) : Prop :=
  pv_Relays p ≠ Some [] ∧ pv_Caps p ≠ Some [].
Definition canon_Manifest (m : Manifest) : Prop :=
  Forall canon_Provider (elems (mf_Providers m)) ∧ mf_Transports m ≠ Some [].
Definition canon_TaskState (s : TaskState) : Prop :=
  ts_Artifacts s ≠ Some [] ∧ ts_Metrics s ≠ Some ∅.

Lemma Provider_rt p : canon_Provider p → rt_at c_Provider p.
Proof. unfold canon_Provider. intros []. solve_struct_rt. Qed.

Lemma TaskMeta_rt m : tm_Env m ≠ Some [] → rt_at c_TaskMeta m.
Proof. intros ?. solve_struct_rt. Qed.

Lemma providers_rt ps :
  Forall canon_Provider (elems ps) → rt_at (c_slice c_Provider) ps.
Proof. intros H. apply c_slice_rt_at. eapply Forall_impl; [exact H|]. apply Provider_rt. Qed.

Lemma Manifest_rt m : canon_Manifest m → rt_at c_Manifest m.
Proof. intros [Hp Ht]. apply providers_rt in Hp. solve_struct_rt. Qed.

Lemma TaskState_rt s : canon_TaskState s → rt_at c_TaskState s.
Proof. unfold canon_TaskState. intros []. solve_struct_rt. Qed.

(** ** Keys do not clash *)

Lemma KeyState_inj id id' : KeyState id = KeyState id' → id = id'.
Proof. intros H%append_inj_l. by apply append_inj_r in H. Qed.
Lemma KeyLease_inj id id' : KeyLease id = KeyLease id' → id = id'.
Proof. intros H%append_inj_l. by apply append_inj_r in H. Qed.
Lemma KeyMeta_inj id id' : KeyMeta id = KeyMeta id' → id = id'.
Proof. intros H%append_inj_l. by apply append_inj_r in H. Qed.
Lemma KeyManifest_inj id id' : KeyManifest id = KeyManifest id' → id = id'.
Proof. intros H%append_inj_l. by apply append_inj_r in H. Qed.

(** Two keys whose fixed ends do not end in each other are different, whatever the
    ids in the middle are. *)
Ltac key_suffix_ne p q :=
  let H := fresh in
  intros H; rewrite <- ?append_assoc in H;
  first [ apply (suffix_nested _ _ p q) in H; [by vm_compute in H | by vm_compute; lia]
        | symmetry in H; apply (suffix_nested _ _ q p) in H;
          [by vm_compute in H | by vm_compute; lia] ].

Lemma KeyState_KeyLease id id' : KeyState id ≠ KeyLease id'.
Proof. unfold KeyState, KeyLease. key_suffix_ne "/state" "/lease". Qed.
Lemma KeyState_KeyMeta id id' : KeyState id ≠ KeyMeta id'.
Proof. unfold KeyState, KeyMeta. key_suffix_ne "/state" "/meta". Qed.
Lemma KeyState_KeyManifest id id' : KeyState id ≠ KeyManifest id'.
Proof. unfold KeyState, KeyManifest. key_suffix_ne "/state" "/manifest". Qed.
Lemma KeyLease_KeyMeta id id' : KeyLease id ≠ KeyMeta id'.
Proof. unfold KeyLease, KeyMeta. key_suffix_ne "/lease" "/meta". Qed.
Lemma KeyLease_KeyManifest id id' : KeyLease id ≠ KeyManifest id'.
Proof. unfold KeyLease, KeyManifest. key_suffix_ne "/lease" "/manifest". Qed.
Lemma KeyMeta_KeyManifest id id' : KeyMeta id ≠ KeyManifest id'.
Proof. unfold KeyMeta, KeyManifest. key_suffix_ne "/meta" "/manifest". Qed.

Lemma prefix_ne p q s t :
  HasPrefix p q = false → HasPrefix q p = false → p ++ s ≠ q ++ t.
Proof.
  intros Hpq Hqp H. destruct (decide (String.length p ≤ String.length q)%nat).
  - by rewrite (prefix_nested p q s t) in Hqp.
  - rewrite (prefix_nested q p t s) in Hpq by (done || lia). done.
Qed.

(** The keys of a task live under [task/], those of an index under [ns/]. *)
Lemma task_key_index_key s t : "task/" ++ s ≠ "ns/" ++ t.
Proof. by apply prefix_ne. Qed.

Lemma In_range z n : In z (range n) ↔ (0 <= z < n)%Z.
Proof.
  unfold range. rewrite <- list_elem_of_In, list_elem_of_fmap. split.
  - intros (i & -> & Hi%elem_of_seq). lia.
  - intros Hz. exists (Z.to_nat z). split; [lia|]. apply elem_of_seq. lia.
Qed.

Lemma fmt_02d_inj i j :
  (0 <= i < TaskIndexShardCount)%Z → (0 <= j < TaskIndexShardCount)%Z →
  fmt_02d i = fmt_02d j → i = j.
Proof.
  intros Hi Hj.
  assert (Forall (λ i, Forall (λ j, fmt_02d i = fmt_02d j → i = j)
    (range TaskIndexShardCount)) (range TaskIndexShardCount)) as H.
  { apply (bool_decide_unpack _). by vm_compute. }
  rewrite Forall_forall in H. setoid_rewrite Forall_forall in H.
  apply H; apply list_elem_of_In; by apply In_range.
Qed.

Lemma KeyIndexShard_inj ns i j :
  (0 <= i < TaskIndexShardCount)%Z → (0 <= j < TaskIndexShardCount)%Z →
  KeyIndexShard ns i = KeyIndexShard ns j → i = j.
Proof.
  intros Hi Hj H. apply (append_inj_l "ns/"), append_inj_l, append_inj_l in H.
  by apply fmt_02d_inj.
Qed.

(** The unsharded index key is none of the shard keys. *)
Lemma KeyIndex_not_shard ns ns' i :
  (0 <= i < TaskIndexShardCount)%Z → KeyIndex ns ≠ KeyIndexShard ns' i.
Proof.
  intros Hi H.
  assert (Forall (λ i, HasSuffix "/task/index" (fmt_02d i) = false)
    (range TaskIndexShardCount)) as Hd.
  { apply (bool_decide_unpack _). by vm_compute. }
  rewrite Forall_forall in Hd.
  specialize (Hd i (proj2 (list_elem_of_In _ _) (proj2 (In_range i _) Hi))).
  unfold KeyIndex, KeyIndexShard in H. rewrite <- !append_assoc in H. symmetry in H.
  apply suffix_nested in H; [congruence|].
  assert (Forall (λ i, (String.length (fmt_02d i) ≤ 11)%nat) (range TaskIndexShardCount)) as Hl.
  { apply (bool_decide_unpack _). by vm_compute. }
  rewrite Forall_forall in Hl.
  apply (Hl i (proj2 (list_elem_of_In _ _) (proj2 (In_range i _) Hi))).
Qed.
