(* ===== verification/Env.v ===== *)
(** * What the program is run on

    The clock, the random sources and the Kademlia DHT of [go-libp2p-kad-dht] are
    outside the repository: they are the operations of the class [Env] on an
    abstract environment state, an argument of every definition that uses them.
    [StableDHT] states what the program relies on of the DHT: a value that was
    stored is the value read until the key is stored again.  The classes after it are
    about the clock, the random source and the stores.  [SimEnv], a clock and a map, and
    [WallEnv], the same with peers at all times and a clock that stops, are concrete
    environments for which the classes are proved. *)
From Stdlib Require Import String.
From S2P Require Import Prelude GoStrings GoTime Json.

Local Open Scope string_scope.

Class Env (E : Type) := {
  (** [time.Now().UTC()] *)
  env_Now : E → Z * E;
  (** [time.Sleep] *)
  env_Sleep : Z → E → E;
  (** [math/rand.Intn] *)
  env_Intn : Z → E → Z * E;
  (** 16 bytes of [crypto/rand], as hexadecimal text *)
  env_Nonce : E → string * E;
  (** the order in which [range] meets the keys of a map *)
  env_Range : list string → E → list string * E;
  (** [IpfsDHT.PutValue] and [IpfsDHT.GetValue], with the timeout of their context *)
  env_PutValue : Z → string → bytes → E → option goerror * E;
  env_GetValue : Z → string → E → result bytes * E
}.

(** The message of the routing table that has no peer, the only failure of
    [PutValue] the program handles. *)
Definition no_peer : string := "failed to find any peer in table".

(** [strings.Contains(err.Error(), "failed to find any peer in table")]. *)
Definition is_no_peer (err : goerror) : bool := Contains (Error err) no_peer.

(** The DHT while no other node stores the same keys.  A store that fails for want
    of peers has been recorded in the node's own datastore first: a later read gives
    the new value or fails.  A store that fails otherwise may have taken effect or
    not. *)
Class StableDHT (E : Type) `{!Env E} := {
  dht_view : E → gmap string bytes;
  dht_get tmo k e :
    match dht_view e !! k with
    | Some b => (env_GetValue tmo k e).1 = Ok b
    | None => ∃ err, (env_GetValue tmo k e).1 = Err err
    end;
  dht_get_view tmo k e : dht_view (env_GetValue tmo k e).2 = dht_view e;
  dht_put tmo k b e :
    (env_PutValue tmo k b e).1 = None →
    dht_view (env_PutValue tmo k b e).2 = <[k := b]> (dht_view e);
  dht_put_err tmo k b e err :
    (env_PutValue tmo k b e).1 = Some err →
    dht_view (env_PutValue tmo k b e).2 = <[k := b]> (dht_view e) ∨
    dht_view (env_PutValue tmo k b e).2 =
      (if is_no_peer err then delete k (dht_view e) else dht_view e);
  dht_now_view e : dht_view (env_Now e).2 = dht_view e;
  dht_sleep_view d e : dht_view (env_Sleep d e) = dht_view e;
  dht_intn_view n e : dht_view (env_Intn n e).2 = dht_view e;
  dht_nonce_view e : dht_view (env_Nonce e).2 = dht_view e;
  dht_range_view l e : dht_view (env_Range l e).2 = dht_view e
}.

(** [rand.Intn(n)] is in [[0, n)]. *)
Class FairRand (E : Type) `{!Env E} : Prop :=
  intn_range n e : (0 < n)%Z → (0 <= (env_Intn n e).1 < n)%Z.

(** The only failure of a store is the one the program handles. *)
Class Reachable (E : Type) `{!Env E} : Prop :=
  put_reaches tmo k b e err : (env_PutValue tmo k b e).1 = Some err → is_no_peer err = true.

(** The clock shows a year from 2 to 9000. *)
Definition sane (t : Z) : bool := (365 * day_ns <=? t)%Z && (t <? 3287000 * day_ns)%Z.
Class SaneClock (E : Type) `{!Env E} : Prop :=
  now_sane e : sane (env_Now e).1 = true.

(** [range] meets every key once. *)
Class MapRange (E : Type) `{!Env E} : Prop :=
  range_perm l e : (env_Range l e).1 ≡ₚ l.

(** The clock never goes back. *)
Class ForwardClock (E : Type) `{!Env E} := {
  clock_at : E → Z;
  clock_now e : (env_Now e).1 = clock_at e;
  clock_now_mono e : (clock_at e <= clock_at (env_Now e).2)%Z;
  clock_sleep_mono d e : (clock_at e <= clock_at (env_Sleep d e))%Z;
  clock_intn n e : (clock_at e <= clock_at (env_Intn n e).2)%Z;
  clock_range l e : (clock_at e <= clock_at (env_Range l e).2)%Z;
  clock_nonce e : (clock_at e <= clock_at (env_Nonce e).2)%Z;
  clock_put tmo k b e : (clock_at e <= clock_at (env_PutValue tmo k b e).2)%Z;
  clock_get tmo k e : (clock_at e <= clock_at (env_GetValue tmo k e).2)%Z
}.

(** A sleep takes its time. *)
Class MonoClock (E : Type) `{!Env E, !ForwardClock E} : Prop :=
  clock_sleep d e : (clock_at e + Z.max 0 d <= clock_at (env_Sleep d e))%Z.

(** The node has peers and reaches them. *)
Class Connected (E : Type) `{!Env E} : Prop :=
  put_connected tmo k b e : (env_PutValue tmo k b e).1 = None.
#[global] Instance connected_reachable (E : Type) `{!Env E, !Connected E} : Reachable E.
Proof. intros tmo k b e err. by rewrite put_connected. Qed.

(** ** A simulated environment *)

Record SimEnv := MkSim {
  sim_clock : Z;
  sim_rand : Z;
  sim_peers : bool;
  sim_net : gmap string bytes
}.

#[global] Instance sim_env : Env SimEnv := {|
  env_Now e := (sim_clock e, MkSim (sim_clock e + 1) (sim_rand e) (sim_peers e) (sim_net e));
  env_Sleep d e := MkSim (sim_clock e + Z.max 0 d) (sim_rand e) (sim_peers e) (sim_net e);
  env_Intn n e := ((sim_rand e) `mod` n,
    MkSim (sim_clock e) (sim_rand e + 1) (sim_peers e) (sim_net e))%Z;
  env_Nonce e := ("00ff", e);
  env_Range l e := (l, e);
  env_PutValue _ k b e :=
    if sim_peers e then (None, MkSim (sim_clock e) (sim_rand e) true (<[k := b]> (sim_net e)))
    else (Some (ErrMsg no_peer),
          MkSim (sim_clock e) (sim_rand e) false (delete k (sim_net e)));
  env_GetValue _ k e :=
    (match sim_net e !! k with
     | Some b => Ok b
     | None => Err (ErrMsg "routing: not found")
     end, e)
|}.

#[global] Instance sim_stable : StableDHT SimEnv.
Proof.
  refine {| dht_view := sim_net |}; simpl; try done.
  - intros _ k e. destruct (sim_net e !! k); eauto.
  - intros _ k b e. by destruct (sim_peers e).
  - intros _ k b e err. destruct (sim_peers e); simpl; [done|]. intros [= <-]. by right.
Defined.

#[global] Instance sim_fair : FairRand SimEnv.
Proof. intros n e Hn. simpl. by apply Z.mod_pos_bound. Qed.

#[global] Instance sim_range : MapRange SimEnv.
Proof. by intros l e. Qed.

#[global] Instance sim_forward : ForwardClock SimEnv.
Proof.
  refine {| clock_at := sim_clock |}; simpl; intros; try lia. by destruct (sim_peers e).
Defined.
#[global] Instance sim_mono : MonoClock SimEnv.
Proof. intros d e. simpl. lia. Qed.

#[global] Instance sim_reachable : Reachable SimEnv.
Proof.
  intros tmo k b e err. simpl. destruct (sim_peers e); simpl; [done|]. intros [= <-].
  by vm_compute.
Qed.

(** The same, always connected, with a clock that stays within the sane years. *)
Record WallEnv := Wall { wall_sim : SimEnv }.
Definition wall_clock (t : Z) : Z := Z.max (365 * day_ns) (Z.min t (3286999 * day_ns)).
Definition on_wall {A} (r : A * SimEnv) : A * WallEnv := (r.1, Wall r.2).

#[global] Instance wall_env : Env WallEnv := {|
  env_Now e := let r := env_Now (wall_sim e) in (wall_clock r.1, Wall r.2);
  env_Sleep d e := Wall (env_Sleep d (wall_sim e));
  env_Intn n e := on_wall (env_Intn n (wall_sim e));
  env_Nonce e := on_wall (env_Nonce (wall_sim e));
  env_Range l e := on_wall (env_Range l (wall_sim e));
  env_PutValue _ k b e :=
    let s := wall_sim e in
    (None, Wall (MkSim (sim_clock s) (sim_rand s) true (<[k := b]> (sim_net s))));
  env_GetValue tmo k e := on_wall (env_GetValue tmo k (wall_sim e))
|}.

#[global] Instance wall_stable : StableDHT WallEnv.
Proof.
  refine {| dht_view e := dht_view (wall_sim e) |}; intros.
  - apply (dht_get tmo k (wall_sim e)).
  - apply (dht_get_view tmo k (wall_sim e)).
  - done.
  - done.
  - apply (dht_now_view (wall_sim e)).
  - apply (dht_sleep_view d (wall_sim e)).
  - apply (dht_intn_view n (wall_sim e)).
  - apply (dht_nonce_view (wall_sim e)).
  - apply (dht_range_view l (wall_sim e)).
Defined.
#[global] Instance wall_sane : SaneClock WallEnv.
Proof. intros e. simpl. unfold sane, wall_clock, day_ns, Second. lia. Qed.
#[global] Instance wall_connected : Connected WallEnv.
Proof. done. Qed.
#[global] Instance wall_forward : ForwardClock WallEnv.
Proof.
  refine {| clock_at e := wall_clock (sim_clock (wall_sim e)) |}; simpl; intros; unfold wall_clock; try lia.
Defined.
#[global] Instance wall_range : MapRange WallEnv.
Proof. by intros l e. Qed.
#[global] Instance wall_fair : FairRand WallEnv.
Proof. intros n e. apply (intn_range (E := SimEnv)). Qed.

Definition sim0 : SimEnv := MkSim 1000 0 true ∅.
Definition sim_offline : SimEnv := MkSim 1000 0 false ∅.
Definition wall0 : WallEnv := Wall (MkSim (738000 * day_ns) 0 true ∅).
