(* ===== verification/Node.v ===== *)
(** * Package [internal/dht]: the DHT node

    [json.go] and the data operations of [node.go]: keys under the node's name
    space, JSON values with a process-local fallback map for a node that has no
    peer, deletion by tombstone, and the compare-and-set loop. *)
From Stdlib Require Import String.
From S2P Require Import Prelude GoStrings GoTime Json Env.

Local Open Scope string_scope.

(** The state the node's methods act on: the environment and [localStore]. *)
Record nodew (E : Type) := NodeW {
  nw_env : E;
  nw_local : gmap string bytes
}.
Arguments NodeW {E}.
Arguments nw_env {E}.
Arguments nw_local {E}.

Section node.
Context {E : Type} `{!Env E}.

Local Abbreviation N := (M (nodew E)).

(** ** The environment's operations on the node's state *)

Definition Now : N Z := λ w,
  let (t, e) := env_Now (nw_env w) in (Ret t, NodeW e (nw_local w)).
Definition Sleep (d : Z) : N unit := λ w,
  (Ret tt, NodeW (env_Sleep d (nw_env w)) (nw_local w)).
Definition Intn (n : Z) : N Z := λ w,
  let (z, e) := env_Intn n (nw_env w) in (Ret z, NodeW e (nw_local w)).
Definition Nonce : N string := λ w,
  let (s, e) := env_Nonce (nw_env w) in (Ret s, NodeW e (nw_local w)).
Definition Range (l : list string) : N (list string) := λ w,
  let (z, e) := env_Range l (nw_env w) in (Ret z, NodeW e (nw_local w)).
Definition PutValue (tmo : Z) (k : string) (b : bytes) : N (option goerror) := λ w,
  let (r, e) := env_PutValue tmo k b (nw_env w) in (Ret r, NodeW e (nw_local w)).
Definition GetValue (tmo : Z) (k : string) : N (result bytes) := λ w,
  let (r, e) := env_GetValue tmo k (nw_env w) in (Ret r, NodeW e (nw_local w)).

Definition local_load (k : string) : N (option bytes) := gets (λ w, nw_local w !! k).
Definition local_store (k : string) (b : bytes) : N unit :=
  modify (λ w, NodeW (nw_env w) (<[k := b]> (nw_local w))).
Definition local_delete (k : string) : N unit :=
  modify (λ w, NodeW (nw_env w) (delete k (nw_local w))).

(** ** [node.go] *)

Definition nsKey (namespace key : string) : string :=
  if String.eqb namespace "" then "/" ++ key else "/" ++ namespace ++ "/" ++ key.

(** The duration of the context [withTimeout] makes. *)
Definition withTimeout (d : Z) : Z := if (d <=? 0)%Z then (5 * Second)%Z else d.

Definition Put (namespace key : string) (val : bytes) (timeout : Z) : N (option goerror) :=
  PutValue (withTimeout timeout) (nsKey namespace key) val.

Definition Get (namespace key : string) (timeout : Z) : N (result bytes) :=
  GetValue (withTimeout timeout) (nsKey namespace key).

Definition jitterBackoff (i : Z) : N Z :=
  let base := (100 * Millisecond * 2 ^ i)%Z in
  j ← Intn 200;
  mret (base + j * Millisecond)%Z.

(** A read of the network, or of [localStore] when it fails. *)
Definition read_fallback (tmo : Z) (nk : string) : N (result bytes) :=
  r ← GetValue tmo nk;
  match r with
  | Ok val => mret (Ok val)
  | Err err =>
      lv ← local_load nk;
      match lv with
      | Some b => mret (Ok b)
      | None => mret (Err err)
      end
  end.

(** The read at the start of an attempt of [PutJSONCAS]. *)
Definition cas_prev (nk : string) : N bytes :=
  r ← read_fallback (withTimeout (3 * Second)) nk;
  mret (match r with Ok b => b | Err _ => BRaw "" end).

(** The rest of the attempt, from the answer of [check] on: [inl r] returns [r], [inr e]
    goes on with the last error [e]. *)
Definition cas_store (nk : string) (i : Z) (o : bool * bytes * option goerror)
    : N (option goerror + goerror) :=
  let '(ok, next, err) := o in
  match err with
  | Some e => mret (inl (Some e))
  | None =>
      if negb ok then
        (d ← jitterBackoff i; Sleep d;; mret (inr CASConflict))
      else
        err ← PutValue (withTimeout (5 * Second)) nk next;
        match err with
        | Some e =>
            if is_no_peer e then (local_store nk next;; mret (inl None))
            else (d ← jitterBackoff i; Sleep d;; mret (inr e))
        | None =>
            after ← read_fallback (withTimeout (3 * Second)) nk;
            match after with
            | Err e => d ← jitterBackoff i; Sleep d;; mret (inr e)
            | Ok b =>
                if bool_decide (b = next) then mret (inl None)
                else (d ← jitterBackoff i; Sleep d;; mret (inr CASConflict))
            end
        end
  end.

(** One attempt. *)
Definition cas_turn (nk : string) (i : Z)
    (check : bytes → N (bool * bytes * option goerror))
    : N (option goerror + goerror) :=
  prev ← cas_prev nk;
  o ← check prev;
  cas_store nk i o.

Fixpoint cas_loop (n : nat) (i : Z) (nk : string)
    (check : bytes → N (bool * bytes * option goerror)) (lastErr : option goerror)
    : N (option goerror) :=
  match n with
  | O => mret (Some (default CASConflict lastErr))
  | S n' =>
      r ← cas_turn nk i check;
      match r with
      | inl res => mret res
      | inr e => cas_loop n' (i + 1)%Z nk check (Some e)
      end
  end.

Definition PutJSONCAS (namespace key : string)
    (check : bytes → N (bool * bytes * option goerror)) : N (option goerror) :=
  cas_loop 5 0 (nsKey namespace key) check None.

(** ** [json.go] *)

Definition marshal_error : goerror := ErrMsg "json: error calling MarshalJSON".

Definition PutJSON {A} (c : codec A) (namespace key : string) (v : A) : N (option goerror) :=
  match Marshal c v with
  | None => mret (Some marshal_error)
  | Some b =>
      err ← PutValue (withTimeout (5 * Second)) (nsKey namespace key) b;
      match err with
      | Some e =>
          if is_no_peer e then (local_store (nsKey namespace key) b;; mret None)
          else mret (Some e)
      | None => mret None
      end
  end.

(** [struct{}{}], written [{}]. *)
Definition c_unit : codec unit := c_struct [] tt.
Definition tombstone : bytes := BJson (JObj []).

Definition DelJSON (namespace key : string) : N (option goerror) :=
  err ← PutJSON c_unit namespace key tt;
  match err with
  | Some e => mret (Some e)
  | None => local_delete (nsKey namespace key);; mret None
  end.

(** The value left in [out] and the error. *)
Definition GetJSON {A} (c : codec A) (namespace key : string) (out : A) (timeout : Z)
    : N (A * option goerror) :=
  r ← read_fallback (withTimeout timeout) (nsKey namespace key);
  match r with
  | Ok data => mret (Unmarshal c data out)
  | Err err => mret (out, Some err)
  end.

End node.

(** ** The clock of a computation *)

Section clock.
Context {E : Type} `{!Env E, !ForwardClock E}.

Local Abbreviation N := (M (nodew E)).

Definition node_clock (w : nodew E) : Z := clock_at (nw_env w).

(** The clock is not behind after [m]. *)
Class Mono {A} (m : N A) : Prop := mono_run w : (node_clock w <= node_clock (m w).2)%Z.

#[global] Instance mono_ret {A} (a : A) : Mono (mret a).
Proof. intros w. simpl. lia. Qed.
#[global] Instance mono_bind {A B} (m : N A) (k : A → N B) :
  Mono m → (∀ a, Mono (k a)) → Mono (m ≫= k).
Proof.
  intros Hm Hk w. pose proof (Hm w) as H1. unfold mbind, M_bind.
  destruct (m w) as [[a|msg] w1]; simpl in *; [|lia]. pose proof (Hk a w1). lia.
Qed.
#[global] Instance mono_gets {A} (f : nodew E → A) : Mono (gets f).
Proof. intros w. simpl. lia. Qed.
#[global] Instance mono_Now : Mono Now.
Proof.
  intros w. unfold Now, node_clock. pose proof (clock_now_mono (nw_env w)). by destruct (env_Now _).
Qed.
#[global] Instance mono_Sleep d : Mono (Sleep d).
Proof. intros w. apply clock_sleep_mono. Qed.
#[global] Instance mono_Intn n : Mono (Intn n).
Proof.
  intros w. unfold Intn, node_clock. pose proof (clock_intn n (nw_env w)). by destruct (env_Intn _ _).
Qed.
#[global] Instance mono_Nonce : Mono Nonce.
Proof.
  intros w. unfold Nonce, node_clock. pose proof (clock_nonce (nw_env w)). by destruct (env_Nonce _).
Qed.
#[global] Instance mono_PutValue tmo k b : Mono (PutValue tmo k b).
Proof.
  intros w. unfold PutValue, node_clock. pose proof (clock_put tmo k b (nw_env w)).
  by destruct (env_PutValue _ _ _ _).
Qed.
#[global] Instance mono_GetValue tmo k : Mono (GetValue tmo k).
Proof.
  intros w. unfold GetValue, node_clock. pose proof (clock_get tmo k (nw_env w)).
  by destruct (env_GetValue _ _ _).
Qed.
#[global] Instance mono_local_store k b : Mono (local_store k b).
Proof. intros w. unfold node_clock. simpl. lia. Qed.
#[global] Instance mono_local_delete k : Mono (local_delete k).
Proof. intros w. unfold node_clock. simpl. lia. Qed.

Lemma mono_eq {A} {m : N A} {w a w'} `{!Mono m} : m w = (Ret a, w') → (node_clock w <= node_clock w')%Z.
Proof. intros H. pose proof (mono_run (m := m) w) as Hm. by rewrite H in Hm. Qed.

End clock.

(** The branches of a computation. *)
Ltac solve_mono :=
  repeat (cbv zeta; first
    [ apply _
    | apply mono_bind; [|intros]
    | match goal with |- Mono (match ?x with _ => _ end) => destruct x end ]).

Section clock_of_methods.
Context {E : Type} `{!Env E, !ForwardClock E}.

#[global] Instance mono_read_fallback tmo nk : Mono (read_fallback (E := E) tmo nk).
Proof. unfold read_fallback, local_load. solve_mono. Qed.
#[global] Instance mono_cas_prev nk : Mono (cas_prev (E := E) nk).
Proof. unfold cas_prev. solve_mono. Qed.
#[global] Instance mono_cas_store nk i o : Mono (cas_store (E := E) nk i o).
Proof. destruct o as [[ok next] err]. unfold cas_store, jitterBackoff. solve_mono. Qed.
#[global] Instance mono_GetJSON {A} (c : codec A) ns key out tmo : Mono (GetJSON (E := E) c ns key out tmo).
Proof. unfold GetJSON. solve_mono. Qed.
#[global] Instance mono_PutJSON {A} (c : codec A) ns key v : Mono (PutJSON (E := E) c ns key v).
Proof. unfold PutJSON. solve_mono. Qed.
#[global] Instance mono_DelJSON ns key : Mono (DelJSON (E := E) ns key).
Proof. unfold DelJSON. solve_mono. Qed.

(** A reading of the clock is what it shows. *)
Lemma Now_reads (w : nodew E) : ∃ w', Now w = (Ret (node_clock w), w').
Proof.
  unfold Now, node_clock. pose proof (clock_now (nw_env w)) as H.
  destruct (env_Now (nw_env w)) as [t e]. simpl in H. subst. by eexists.
Qed.

End clock_of_methods.

(** ** The node as a map

    What a read at the node gives: the network's value, else the local one. *)

Section view.
Context {E : Type} `{!Env E, !StableDHT E}.

Local Abbreviation N := (M (nodew E)).

Definition node_view (w : nodew E) : gmap string bytes :=
  dht_view (nw_env w) ∪ nw_local w.

(** A computation that returns and leaves the map alone. *)
Definition quiet {A} (m : N A) : Prop :=
  ∀ w, ∃ a w', m w = (Ret a, w') ∧ node_view w' = node_view w.

Lemma quiet_ret {A} (a : A) : quiet (mret a).
Proof. intros w. by exists a, w. Qed.

Lemma quiet_bind {A B} (m : N A) (k : A → N B) :
  quiet m → (∀ a, quiet (k a)) → quiet (m ≫= k).
Proof.
  intros Hm Hk w. destruct (Hm w) as (a & w1 & Ha & Hv1).
  destruct (Hk a w1) as (b & w2 & Hb & Hv2).
  exists b, w2. run_step Ha. split; [done|]. by rewrite Hv2.
Qed.

Lemma quiet_Now : quiet Now.
Proof.
  intros w. unfold Now, node_view. pose proof (dht_now_view (nw_env w)) as H.
  destruct (env_Now (nw_env w)) as [t e]. exists t, (NodeW e (nw_local w)). simpl in *.
  by rewrite H.
Qed.
Lemma quiet_Sleep d : quiet (Sleep d).
Proof.
  intros w. eexists tt, _. split; [reflexivity|]. unfold node_view; simpl.
  by rewrite dht_sleep_view.
Qed.
Lemma quiet_Intn n : quiet (Intn n).
Proof.
  intros w. unfold Intn, node_view. pose proof (dht_intn_view n (nw_env w)) as H.
  destruct (env_Intn n (nw_env w)) as [t e]. exists t, (NodeW e (nw_local w)). simpl in *.
  by rewrite H.
Qed.
Lemma quiet_Nonce : quiet Nonce.
Proof.
  intros w. unfold Nonce, node_view. pose proof (dht_nonce_view (nw_env w)) as H.
  destruct (env_Nonce (nw_env w)) as [t e]. exists t, (NodeW e (nw_local w)). simpl in *.
  by rewrite H.
Qed.

Lemma quiet_Range l : quiet (Range l).
Proof.
  intros w. unfold Range, node_view. pose proof (dht_range_view l (nw_env w)) as H.
  destruct (env_Range l (nw_env w)) as [t e]. exists t, (NodeW e (nw_local w)). simpl in *.
  by rewrite H.
Qed.

Lemma quiet_backoff i : quiet (d ← jitterBackoff i; Sleep d).
Proof.
  repeat (apply quiet_bind; [|intros]);
    auto using quiet_Intn, quiet_Sleep, quiet_ret.
Qed.

Lemma read_fallback_view tmo nk w :
  ∃ r w', read_fallback tmo nk w = (Ret r, w') ∧ node_view w' = node_view w ∧
    nw_local w' = nw_local w ∧
    match node_view w !! nk with
    | Some b => r = Ok b
    | None => ∃ e, r = Err e
    end.
Proof.
  unfold read_fallback, GetValue, local_load, gets, node_view, mbind, M_bind.
  pose proof (dht_get tmo nk (nw_env w)) as Hg.
  pose proof (dht_get_view tmo nk (nw_env w)) as Hv.
  destruct (env_GetValue tmo nk (nw_env w)) as [r e]; simpl in *.
  destruct (dht_view (nw_env w) !! nk) as [b|] eqn:Hk.
  - subst r. eexists _, _. split; [done|]. simpl. rewrite Hv.
    by rewrite (lookup_union_Some_l _ _ _ _ Hk).
  - destruct Hg as [err ->]. rewrite (lookup_union_r _ _ _ Hk).
    cbn [nw_local].
    destruct (nw_local w !! nk) as [b|];
      (eexists _, _; split; [reflexivity|]; simpl; rewrite Hv; split_and!; eauto).
Qed.

Lemma PutValue_view tmo nk b w :
  ∃ r w', PutValue tmo nk b w = (Ret r, w') ∧ nw_local w' = nw_local w ∧
    (dht_view (nw_env w') = <[nk := b]> (dht_view (nw_env w)) ∨
     ∃ e, r = Some e ∧
       dht_view (nw_env w') =
         if is_no_peer e then delete nk (dht_view (nw_env w)) else dht_view (nw_env w)).
Proof.
  unfold PutValue.
  pose proof (dht_put tmo nk b (nw_env w)) as Hp.
  pose proof (dht_put_err tmo nk b (nw_env w)) as He.
  destruct (env_PutValue tmo nk b (nw_env w)) as [r e]; simpl in *.
  exists r, (NodeW e (nw_local w)). split_and!; [done..|].
  destruct r as [err|]; [|by left; apply Hp].
  destruct (He err eq_refl) as [?|?]; eauto.
Qed.

(** What [PutJSON] does to the network and to [localStore]. *)
Inductive put_effect (nk : string) (b : bytes) (w w' : nodew E) : option goerror → Prop :=
  | put_net :
      dht_view (nw_env w') = <[nk := b]> (dht_view (nw_env w)) →
      nw_local w' = nw_local w → put_effect nk b w w' None
  | put_local :
      dht_view (nw_env w') = <[nk := b]> (dht_view (nw_env w)) ∨
      dht_view (nw_env w') = delete nk (dht_view (nw_env w)) →
      nw_local w' = <[nk := b]> (nw_local w) → put_effect nk b w w' None
  | put_failed e :
      dht_view (nw_env w') = <[nk := b]> (dht_view (nw_env w)) ∨
      dht_view (nw_env w') = dht_view (nw_env w) →
      nw_local w' = nw_local w → put_effect nk b w w' (Some e).

Lemma PutJSON_effect {A} (c : codec A) ns key v b w :
  Marshal c v = Some b →
  ∃ r w', PutJSON c ns key v w = (Ret r, w') ∧ put_effect (nsKey ns key) b w w' r.
Proof.
  intros Hb. unfold PutJSON. rewrite Hb. set (nk := nsKey ns key).
  destruct (PutValue_view (withTimeout (5 * Second)) nk b w) as (r & w' & Hr & Hl & Hv).
  run_step Hr. destruct r as [e|].
  - destruct (is_no_peer e) eqn:Hnp; eexists _, _; (split; [reflexivity|]).
    + apply put_local; [|by simpl; rewrite Hl].
      destruct Hv as [?|(e' & [= <-] & Hv)]; [by left|]. rewrite Hnp in Hv. by right.
    + apply put_failed; [|done].
      destruct Hv as [?|(e' & [= <-] & Hv)]; [by left|]. rewrite Hnp in Hv. by right.
  - eexists _, _. split; [reflexivity|]. apply put_net; [|done].
    by destruct Hv as [?|(e' & [=] & _)].
Qed.

Lemma put_effect_view nk b w w' r :
  put_effect nk b w w' r →
  node_view w' = <[nk := b]> (node_view w) ∨ (r ≠ None ∧ node_view w' = node_view w).
Proof.
  unfold node_view. intros [-> ->|[->| ->] ->|e [->| ->] ->].
  - left. by rewrite insert_union_l.
  - left. apply map_eq; intros k. rewrite lookup_union, !lookup_insert.
    case_decide; [done|]. by rewrite lookup_union.
  - left. apply map_eq; intros k. rewrite lookup_union, lookup_delete, !lookup_insert.
    case_decide; [done|]. by rewrite lookup_union.
  - left. by rewrite insert_union_l.
  - right. done.
Qed.

(** [PutJSON] is an insertion into the map, or fails and is an insertion or
    nothing. *)
Lemma PutJSON_view {A} (c : codec A) ns key v w :
  ∃ r w', PutJSON c ns key v w = (Ret r, w') ∧
    ((∃ b, Marshal c v = Some b ∧ node_view w' = <[nsKey ns key := b]> (node_view w)) ∨
     (r ≠ None ∧ node_view w' = node_view w)).
Proof.
  destruct (Marshal c v) as [b|] eqn:Hb.
  - destruct (PutJSON_effect c ns key v b w Hb) as (r & w' & Hr & Heff%put_effect_view).
    exists r, w'. split; [done|]. destruct Heff as [?|?]; eauto.
  - unfold PutJSON. rewrite Hb. eexists _, w. split; [reflexivity|]. by right.
Qed.

(** [DelJSON] leaves the tombstone or nothing, or fails and leaves the tombstone or
    what was there. *)
Lemma DelJSON_view ns key w :
  ∃ r w', DelJSON ns key w = (Ret r, w') ∧
    (node_view w' = <[nsKey ns key := tombstone]> (node_view w) ∨
     node_view w' = delete (nsKey ns key) (node_view w) ∨
     (r ≠ None ∧ node_view w' = node_view w)).
Proof.
  unfold DelJSON. set (nk := nsKey ns key).
  destruct (PutJSON_effect c_unit ns key tt tombstone w eq_refl) as (r & w' & Hr & Heff).
  run_step Hr. fold nk in Heff.
  destruct r as [e|]; eexists _, _; (split; [reflexivity|]).
  { apply put_effect_view in Heff as [?|[? ?]]; eauto. }
  inversion Heff as [Hn Hl|Hn Hl|]; unfold node_view; simpl; rewrite Hl.
  - left. rewrite Hn. apply map_eq; intros k.
    rewrite lookup_union, lookup_delete, !lookup_insert.
    case_decide; [done|]. by rewrite lookup_union.
  - destruct Hn as [->| ->]; [left|right; left]; apply map_eq; intros k;
      rewrite ?lookup_union, ?lookup_delete, ?lookup_insert, ?lookup_union, ?lookup_delete;
      case_decide; try done; by rewrite ?lookup_insert_ne.
Qed.

(** [GetJSON] reads the map: the stored document is decoded into [out], and a
    missing key is an error that leaves [out] alone. *)
Lemma GetJSON_view {A} (c : codec A) ns key out tmo w :
  ∃ r w', GetJSON c ns key out tmo w = (Ret r, w') ∧ node_view w' = node_view w ∧
    match node_view w !! nsKey ns key with
    | Some b => r = Unmarshal c b out
    | None => ∃ e, r = (out, Some e)
    end.
Proof.
  unfold GetJSON.
  destruct (read_fallback_view (withTimeout tmo) (nsKey ns key) w) as (r & w' & Hr & Hv & _ & Hm).
  run_step Hr.
  destruct (node_view w !! nsKey ns key).
  - subst r. by eexists _, _.
  - destruct Hm as [e ->]. eexists _, _. split_and!; eauto.
Qed.

(** ** The compare-and-set loop *)

(** What a read of [prev] gives, the empty slice for a missing key. *)
Definition prev_of (w : nodew E) (nk : string) : bytes :=
  default (BRaw "") (node_view w !! nk).

(** One turn: the error of [check] ends the loop, a refusal or a failed store goes
    on, and [nil] is returned only when the value [check] made is in the map. *)
Inductive turn_spec (nk : string) (w w' : nodew E)
    : bool * bytes * option goerror → option goerror + goerror → Prop :=
  | turn_error ok next e :
      node_view w' = node_view w → turn_spec nk w w' (ok, next, Some e) (inl (Some e))
  | turn_refused next :
      node_view w' = node_view w → turn_spec nk w w' (false, next, None) (inr CASConflict)
  | turn_stored next :
      node_view w' = <[nk := next]> (node_view w) →
      turn_spec nk w w' (true, next, None) (inl None)
  | turn_failed next e :
      node_view w' = <[nk := next]> (node_view w) ∨ node_view w' = node_view w →
      turn_spec nk w w' (true, next, None) (inr e).

Lemma backoff_then {A} i (a : A) (w : nodew E) :
  ∃ w', (d ← jitterBackoff i; Sleep d;; mret a) w = (Ret a, w') ∧ node_view w' = node_view w.
Proof.
  assert (quiet (d ← jitterBackoff i; Sleep d;; mret a)) as Hq.
  { repeat (apply quiet_bind; [|intros]); auto using quiet_Intn, quiet_Sleep, quiet_ret. }
  destruct (Hq w) as (a' & w' & Ha & Hv). exists w'. split; [|done].
  revert Ha. unfold jitterBackoff, Sleep, Intn, mbind, M_bind, mret, M_ret.
  destruct (env_Intn 200 (nw_env w)). by intros [= <- <-].
Qed.

Lemma cas_prev_view nk w :
  ∃ w', cas_prev nk w = (Ret (prev_of w nk), w') ∧ node_view w' = node_view w.
Proof.
  unfold cas_prev.
  destruct (read_fallback_view (withTimeout (3 * Second)) nk w) as (r & w' & Hr & Hv & _ & Hm).
  run_step Hr. exists w'. split; [|done]. unfold prev_of.
  destruct (node_view w !! nk); [by subst|]. by destruct Hm as [? ->].
Qed.

(** A store that failed for want of peers went to [localStore]. *)
Lemma store_local_view nk next w w' :
  (dht_view (nw_env w') = <[nk := next]> (dht_view (nw_env w)) ∨
   dht_view (nw_env w') = delete nk (dht_view (nw_env w))) →
  nw_local w' = nw_local w →
  node_view (NodeW (nw_env w') (<[nk := next]> (nw_local w'))) = <[nk := next]> (node_view w).
Proof.
  intros Hv Hl. unfold node_view; simpl. rewrite Hl.
  destruct Hv as [->| ->]; apply map_eq; intros k;
    rewrite lookup_union, ?lookup_delete, !lookup_insert; case_decide; try done;
    by rewrite lookup_union.
Qed.

Lemma cas_store_spec nk i o w :
  ∃ r w', cas_store nk i o w = (Ret r, w') ∧ turn_spec nk w w' o r.
Proof.
  destruct o as [[ok next] [e|]]; unfold cas_store; [by eexists _, w; split; [|constructor]|].
  destruct ok; [change (negb true) with false|change (negb false) with true]; cbv iota.
  2: { destruct (backoff_then i (inr CASConflict : option goerror + goerror) w) as (w' & Hb & Hv).
       eexists _, w'. split; [done|by apply turn_refused]. }
  destruct (PutValue_view (withTimeout (5 * Second)) nk next w) as (rp & w1 & Hp & Hl & Hpv).
  run_step Hp. destruct rp as [e|].
  - destruct (is_no_peer e) eqn:Hnp.
    + eexists _, _. split; [reflexivity|]. apply turn_stored, store_local_view; [|done].
      destruct Hpv as [?|(e' & [= <-] & Hv)]; [by left|]. rewrite Hnp in Hv. by right.
    + destruct (backoff_then i (inr e : option goerror + goerror) w1) as (w2 & Hb & Hv2).
      eexists _, w2. split; [done|]. apply turn_failed. rewrite Hv2. unfold node_view. rewrite Hl.
      destruct Hpv as [->|(e' & [= <-] & ->)]; rewrite ?Hnp; [left|by right].
      by rewrite insert_union_l.
  - destruct Hpv as [Hpv|(? & [=] & _)].
    assert (node_view w1 = <[nk := next]> (node_view w)) as Hv1.
    { unfold node_view. by rewrite Hl, Hpv, insert_union_l. }
    destruct (read_fallback_view (withTimeout (3 * Second)) nk w1) as (ra & w2 & Ha & Hv2 & _ & Hma).
    run_step Ha. rewrite Hv1, lookup_insert_eq in Hma. subst ra.
    rewrite bool_decide_eq_true_2 by done.
    eexists _, w2. split; [reflexivity|]. apply turn_stored. congruence.
Qed.

(** The loop changes no other key. *)
Lemma cas_loop_frame n i nk check last w :
  (∀ prev, quiet (check prev)) →
  ∃ r w', cas_loop n i nk check last w = (Ret r, w') ∧
    ∀ k, k ≠ nk → node_view w' !! k = node_view w !! k.
Proof.
  intros Hq. revert i last w. induction n as [|n IH]; intros i last w; cbn [cas_loop].
  { by eexists _, w. }
  assert (∃ r w', cas_turn nk i check w = (Ret r, w') ∧
    ∀ k, k ≠ nk → node_view w' !! k = node_view w !! k) as (r & w' & Ht & Hk).
  { unfold cas_turn. destruct (cas_prev_view nk w) as (w1 & H1 & Hv1). run_step H1.
    destruct (Hq (prev_of w nk) w1) as (o & w2 & H2 & Hv2). run_step H2.
    destruct (cas_store_spec nk i o w2) as (r & w' & H3 & Ht). exists r, w'. split; [done|].
    intros k Hk. rewrite <- Hv1, <- Hv2.
    destruct Ht as [? ? ? Hv|? Hv|? Hv|? ? [Hv|Hv]]; by rewrite Hv, ?lookup_insert_ne. }
  run_step Ht. destruct r as [r|e]; [by exists r, w'|].
  destruct (IH (i + 1)%Z (Some e) w') as (r & w'' & Hl & Hf). exists r, w''. split; [done|].
  intros k Hne. by rewrite Hf, Hk.
Qed.

Context `{!ForwardClock E}.

(** An attempt from [w] to [w']: [check] is asked about the value stored in [w], at a
    time between the two, and its answer is acted on. *)
Definition attempt (nk : string) (check : bytes → N (bool * bytes * option goerror))
    (w w' : nodew E) (out : option goerror + goerror) : Prop :=
  ∃ o w1 w2, check (prev_of w nk) w1 = (Ret o, w2) ∧ node_view w1 = node_view w ∧
    (node_clock w <= node_clock w1)%Z ∧ (node_clock w2 <= node_clock w')%Z ∧
    turn_spec nk w w' o out.

(** A run with [n] attempts left: it ends with an attempt that returns, or goes on after
    one that failed; without attempts it ends with the last error. *)
Inductive cas_run (nk : string) (check : bytes → N (bool * bytes * option goerror))
    : nat → option goerror → nodew E → option goerror → nodew E → Prop :=
  | cas_spent last w : cas_run nk check 0 last w (Some (default CASConflict last)) w
  | cas_returned n last w r w' :
      attempt nk check w w' (inl r) → cas_run nk check (S n) last w r w'
  | cas_again n last w e w1 r w' :
      attempt nk check w w1 (inr e) → cas_run nk check n (Some e) w1 r w' →
      cas_run nk check (S n) last w r w'.

Lemma cas_turn_attempt nk i check w :
  (∀ prev, quiet (check prev)) → (∀ prev, Mono (check prev)) →
  ∃ r w', cas_turn nk i check w = (Ret r, w') ∧ attempt nk check w w' r.
Proof.
  intros Hq Hm. unfold cas_turn. destruct (cas_prev_view nk w) as (w1 & H1 & Hv1). run_step H1.
  destruct (Hq (prev_of w nk) w1) as (o & w2 & H2 & Hv2). run_step H2.
  destruct (cas_store_spec nk i o w2) as (r & w' & H3 & Ht). exists r, w'. split; [done|].
  exists o, w1, w2. split_and!; [done..| | |].
  - pose proof (mono_run (m := cas_prev nk) w). by rewrite H1 in *.
  - pose proof (mono_run (m := cas_store nk i o) w2). by rewrite H3 in *.
  - assert (node_view w2 = node_view w) as Hv by congruence.
    destruct Ht; constructor; by rewrite <- Hv.
Qed.

Lemma cas_loop_runs n i nk check last w :
  (∀ prev, quiet (check prev)) → (∀ prev, Mono (check prev)) →
  ∃ r w', cas_loop n i nk check last w = (Ret r, w') ∧ cas_run nk check n last w r w'.
Proof.
  intros Hq Hm. revert i last w. induction n as [|n IH]; intros i last w; cbn [cas_loop].
  { eexists _, w. split; [done|constructor]. }
  destruct (cas_turn_attempt nk i check w Hq Hm) as (r & w1 & H1 & Ha). run_step H1.
  destruct r as [r|e]; [eexists r, w1; split; [done|by constructor]|].
  destruct (IH (i + 1)%Z (Some e) w1) as (r & w' & Hr & Hrun).
  exists r, w'. split; [done|]. by econstructor.
Qed.

(** The clock goes forward. *)
Lemma attempt_clock nk check w w' out :
  (∀ prev, Mono (check prev)) → attempt nk check w w' out → (node_clock w <= node_clock w')%Z.
Proof.
  intros Hm (o & w1 & w2 & Hc & _ & ? & ? & _). pose proof (Hm (prev_of w nk) w1) as Hw.
  rewrite Hc in Hw. simpl in Hw. lia.
Qed.
Lemma cas_run_clock nk check n last w r w' :
  (∀ prev, Mono (check prev)) → cas_run nk check n last w r w' → (node_clock w <= node_clock w')%Z.
Proof.
  intros Hm Hr. induction Hr as [|n last w r w' Ha|n last w e w1 r w' Ha Hr IH]; [lia|..].
  - by eapply attempt_clock.
  - pose proof (attempt_clock _ _ _ _ _ Hm Ha). lia.
Qed.

(** Where stores fail only for want of peers, an accepted value is stored at once. *)
Lemma cas_store_reaches `{!Reachable E} nk i next w :
  ∃ w', cas_store nk i (true, next, None) w = (Ret (inl None), w').
Proof.
  unfold cas_store. cbn [negb].
  destruct (PutValue_view (withTimeout (5 * Second)) nk next w) as (rp & w1 & Hp & Hl & Hpv).
  run_step Hp. destruct rp as [e|].
  - assert (is_no_peer e = true) as ->; [|by eexists].
    unfold PutValue in Hp.
    pose proof (put_reaches (withTimeout (5 * Second)) nk next (nw_env w) e) as Hr.
    destruct (env_PutValue _ _ _ _). simpl in Hr. simplify_eq. by apply Hr.
  - destruct Hpv as [Hpv|(? & [=] & _)].
    destruct (read_fallback_view (withTimeout (3 * Second)) nk w1) as (ra & w2 & Ha & _ & _ & Hma).
    run_step Ha. unfold node_view in Hma.
    rewrite Hpv, <- insert_union_l, lookup_insert_eq in Hma. subst ra.
    rewrite bool_decide_eq_true_2 by done. by eexists.
Qed.

Lemma cas_loop_accepts `{!Reachable E} n i nk check last w :
  (∀ v, (node_clock w <= node_clock v)%Z →
     ∃ next v', check (prev_of w nk) v = (Ret (true, next, None), v')) →
  ∃ w', cas_loop (S n) i nk check last w = (Ret None, w').
Proof.
  intros Hc. cbn [cas_loop]. unfold cas_turn.
  destruct (cas_prev_view nk w) as (w1 & H1 & _).
  pose proof (mono_run (m := cas_prev nk) w) as Hm. rewrite H1 in Hm.
  destruct (Hc w1 Hm) as (next & w2 & H2).
  destruct (cas_store_reaches nk i next w2) as (w3 & H3).
  exists w3. unfold mbind, M_bind. by rewrite H1, H2, H3.
Qed.

End view.
