(* ===== verification/NodeTheorems.v ===== *)
(** * What the DHT node promises

    Round trips of [PutJSON], [GetJSON] and [DelJSON], and the contract of
    [PutJSONCAS]. *)
From Stdlib Require Import String.
From S2P Require Import Prelude GoStrings GoTime Json Env TaskTypes Node.

Local Open Scope string_scope.

Section node_theorems.
Context {E : Type} `{!Env E, !StableDHT E}.
Implicit Types (w : nodew E).

(** Distinct keys of a node stay distinct under its name space. *)
Lemma nsKey_inj ns k k' : nsKey ns k = nsKey ns k' → k = k'.
Proof.
  unfold nsKey. destruct (String.eqb ns ""); simpl; intros [= H]; [done|].
  by apply append_inj_l in H; simplify_eq/=.
Qed.

(** C22: a value that [PutJSON] accepted is the value [GetJSON] reads into a fresh
    variable, whether it went to the network or to the local fallback, and no other
    key is affected; a value that was refused is not lost silently: the call returns
    an error. *)
Theorem PutJSON_GetJSON {A} (c : codec A) ns key v tmo w w1 :
  rt_at c v → PutJSON c ns key v w = (Ret None, w1) →
  (∃ w2, GetJSON c ns key (czero c) tmo w1 = (Ret (v, None), w2) ∧ node_view w2 = node_view w1) ∧
  (∀ k, k ≠ nsKey ns key → node_view w1 !! k = node_view w !! k).
Proof.
  intros Hrt Hp. destruct (PutJSON_view c ns key v w) as (r & w' & Hp' & Hv).
  rewrite Hp in Hp'. simplify_eq. destruct Hv as [(b & Hb & Hv)|[? _]]; [|done].
  split.
  - destruct (GetJSON_view c ns key (czero c) tmo w') as (r & w2 & Hg & Hv2 & Hr).
    rewrite Hv, lookup_insert_eq in Hr. subst r. rewrite (Unmarshal_Marshal c v b Hrt Hb) in Hg.
    by exists w2.
  - intros k Hk. by rewrite Hv, lookup_insert_ne.
Qed.

(** C23: after [DelJSON] a struct reads as its zero value or as missing, never as what
    was stored before: a reader sees an empty document without an error, or an
    error. *)
Theorem DelJSON_GetJSON {A} (fs : list (field A)) (z : A) ns key tmo w w1 :
  DelJSON ns key w = (Ret None, w1) →
  ∃ err w2, GetJSON (c_struct fs z) ns key z tmo w1 = (Ret (z, err), w2) ∧
    (∀ k, k ≠ nsKey ns key → node_view w1 !! k = node_view w !! k).
Proof.
  intros Hd. destruct (DelJSON_view ns key w) as (r & w' & Hd' & Hv).
  rewrite Hd in Hd'. simplify_eq.
  destruct (GetJSON_view (c_struct fs z) ns key z tmo w') as (r & w2 & Hg & _ & Hr).
  destruct Hv as [Hv|[Hv|[? _]]]; [| |done]; rewrite Hv in Hr.
  - rewrite lookup_insert_eq in Hr. subst r. eexists _, w2. split; [exact Hg|].
    intros k Hk. by rewrite Hv, lookup_insert_ne.
  - rewrite lookup_delete_eq in Hr. destruct Hr as [e ->]. eexists _, w2. split; [exact Hg|].
    intros k Hk. by rewrite Hv, lookup_delete_ne.
Qed.

(** A call is a run of five attempts. *)
Lemma PutJSONCAS_run `{!ForwardClock E} ns key check w :
  let nk := nsKey ns key in
  (∀ prev, quiet (check prev)) → (∀ prev, Mono (check prev)) →
  ∃ r w', PutJSONCAS ns key check w = (Ret r, w') ∧ cas_run nk check 5 None w r w' ∧
    (∀ e, (∀ v, ∃ ok next v', check (prev_of w nk) v = (Ret (ok, next, Some e), v')) →
       r = Some e ∧ node_view w' = node_view w).
Proof.
  intros nk Hq Hm. destruct (cas_loop_runs 5 0 nk check None w Hq Hm) as (r & w' & Hr & Hrun).
  exists r, w'. split_and!; [done..|].
  intros e He. inversion Hrun as [|n last v r1 v' Ha|n last v e' v1 r1 v' Ha _]; subst;
    destruct Ha as (o & w1 & w2 & Hc & _ & _ & _ & Ht); destruct (He w1) as (ok & next & v2 & Hc');
    rewrite Hc in Hc'; simplify_eq; by inversion Ht.
Qed.

(** C21: [PutJSONCAS] is a run of at most five attempts, and it returns.  Each attempt
    asks [check] about the value that is stored when it starts; it ends the run with the
    error of [check], the map unchanged, or with [nil], the value [check] made in the
    map; a refusal and a failed store lead to the next attempt, and after the fifth the
    last error is returned.  No other key is touched, and an error of [check] about the
    value stored at the start is returned with nothing written. *)
Theorem PutJSONCAS_spec `{!ForwardClock E} ns key check w :
  let nk := nsKey ns key in
  (∀ prev, quiet (check prev)) → (∀ prev, Mono (check prev)) →
  ∃ r w', PutJSONCAS ns key check w = (Ret r, w') ∧ cas_run nk check 5 None w r w' ∧
    (∀ k, k ≠ nk → node_view w' !! k = node_view w !! k) ∧
    (∀ e, (∀ v, ∃ ok next v', check (prev_of w nk) v = (Ret (ok, next, Some e), v')) →
       r = Some e ∧ node_view w' = node_view w).
Proof.
  intros nk Hq Hm. destruct (PutJSONCAS_run ns key check w Hq Hm) as (r & w' & Hr & Hrun & He).
  destruct (cas_loop_frame 5 0 nk check None w Hq) as (r' & w'' & Hr' & Hk).
  unfold PutJSONCAS in Hr. fold nk in Hr. rewrite Hr in Hr'. simplify_eq. by exists r', w''.
Qed.

End node_theorems.

(** ** Witnesses *)

Definition demo_lease : Lease := MkLease "A" "n" 1000 1.

Definition demo_node : nodew SimEnv := NodeW sim_offline ∅.
Definition demo_node1 : nodew SimEnv :=
  (PutJSON c_Lease "mc" (KeyLease "j1") demo_lease demo_node).2.
Definition demo_node2 : nodew SimEnv := (DelJSON "mc" (KeyLease "j1") demo_node1).2.

Lemma PutJSON_GetJSON_witness :
  ∃ w2, GetJSON c_Lease "mc" (KeyLease "j1") zero_Lease 0 demo_node1 =
    (Ret (demo_lease, None), w2).
Proof.
  assert (PutJSON c_Lease "mc" (KeyLease "j1") demo_lease demo_node = (Ret None, demo_node1)) as Hp
    by (vm_compute; reflexivity).
  destruct (PutJSON_GetJSON c_Lease "mc" (KeyLease "j1") demo_lease 0 demo_node demo_node1
    (Lease_rt _) Hp) as [(w2 & Hg & _) _].
  exists w2. exact Hg.
Defined.

Lemma DelJSON_GetJSON_witness :
  ∃ err w2, GetJSON c_Lease "mc" (KeyLease "j1") zero_Lease 0 demo_node2 =
    (Ret (zero_Lease, err), w2).
Proof.
  assert (DelJSON "mc" (KeyLease "j1") demo_node1 = (Ret None, demo_node2)) as Hd
    by (vm_compute; reflexivity).
  destruct (DelJSON_GetJSON fields_Lease zero_Lease "mc" (KeyLease "j1") 0 demo_node1 demo_node2
    Hd) as (err & w2 & Hg & _).
  exists err, w2. exact Hg.
Defined.

(** A check that adds one to a stored number. *)
Definition demo_check (prev : bytes) : M (nodew SimEnv) (bool * bytes * option goerror) :=
  mret (match prev with
        | BJson (JNum n) => (true, BJson (JNum (n + 1)), None)
        | _ => (false, BRaw "", Some (ErrMsg "not a number"))
        end).

Lemma PutJSONCAS_spec_witness :
  ∃ r w', PutJSONCAS "mc" "k" demo_check (NodeW sim0 ∅) = (Ret r, w') ∧
    r = Some (ErrMsg "not a number") ∧ node_view w' = node_view (NodeW sim0 ∅).
Proof.
  destruct (PutJSONCAS_spec "mc" "k" demo_check (NodeW sim0 ∅) (λ _, quiet_ret _) (λ _, mono_ret _))
    as (r & w' & Hr & _ & _ & He).
  exists r, w'. split; [exact Hr|]. apply He. intros v. exists false, (BRaw ""), v. reflexivity.
Defined.
