(* ===== verification/Docs.v ===== *)
(** * The DHT node as a store of documents

    What the handlers of the control server see of the node: every key holds a
    document of some type, zero when it is missing or deleted, [PutJSON] replaces it
    and [DelJSON] makes it zero.  [same_but] says that only some keys
    change. *)
From Stdlib Require Import String.
From S2P Require Import Prelude GoStrings GoTime Json Env TaskTypes Node NodeTheorems.

Local Open Scope string_scope.

(** A value that has a JSON form and is read back as it is. *)
Definition writable {A} (c : codec A) (v : A) : Prop := rt_at c v ∧ is_Some (enc c v).

Lemma sane_ok t : sane t = true → time_ok t = true.
Proof. unfold sane, time_ok, day_ns, Second. lia. Qed.

Lemma sane_add t d :
  sane t = true → (0 <= d <= 3600 * Second)%Z → time_ok (Add t d) = true.
Proof. unfold sane, time_ok, Add, day_ns, Second. lia. Qed.

Lemma wrap64_in z : in_int64 (wrap64 z) = true.
Proof. unfold in_int64. pose proof (wrap64_range z). lia. Qed.

Section docs.
Context {E : Type} `{!Env E, !StableDHT E}.
Context (ns : string).
Implicit Types (w : nodew E).

(** The document a reader finds under a key when it starts from the zero value and
    ignores the error. *)
Definition doc {A} (c : codec A) (key : string) w : A :=
  match node_view w !! nsKey ns key with
  | Some b => (Unmarshal c b (czero c)).1
  | None => czero c
  end.

(** The error of the same read. *)
Definition doc_err {A} (c : codec A) (key : string) w : bool :=
  match node_view w !! nsKey ns key with
  | Some b => match (Unmarshal c b (czero c)).2 with Some _ => true | None => false end
  | None => true
  end.

(** [w'] differs from [w] at most at the keys [K]. *)
Definition same_but (K : list string) w w' : Prop :=
  ∀ k, k ∉ (nsKey ns <$> K) → node_view w' !! k = node_view w !! k.

Lemma same_but_refl K w : same_but K w w.
Proof. by intros k _. Qed.

Lemma same_but_trans K K' w1 w2 w3 :
  same_but K w1 w2 → same_but K' w2 w3 → same_but (K ++ K')%list w1 w3.
Proof.
  intros H1 H2 k Hk. rewrite fmap_app, not_elem_of_app in Hk. destruct Hk.
  by rewrite H2, H1.
Qed.

Lemma same_but_weaken K K' w w' : same_but K w w' → K ⊆ K' → same_but K' w w'.
Proof.
  intros H Hs k Hk. apply H. intros (x & -> & Hx)%list_elem_of_fmap.
  apply Hk, list_elem_of_fmap. exists x. split; [done|]. by apply Hs.
Qed.

Lemma doc_same {A} (c : codec A) K key w w' :
  same_but K w w' → key ∉ K → doc c key w' = doc c key w.
Proof.
  intros H Hk. unfold doc. rewrite H; [done|].
  intros (x & Hx%nsKey_inj & Hin)%list_elem_of_fmap. by subst.
Qed.

Lemma GetJSON_doc {A} (c : codec A) key tmo w :
  ∃ err w', GetJSON c ns key (czero c) tmo w = (Ret (doc c key w, err), w') ∧
    node_view w' = node_view w ∧ (is_Some err ↔ doc_err c key w = true).
Proof.
  destruct (GetJSON_view c ns key (czero c) tmo w) as (r & w' & Hg & Hv & Hr).
  unfold doc, doc_err. destruct (node_view w !! nsKey ns key) as [b|].
  - subst r. destruct (Unmarshal c b (czero c)) as [a err]. exists err, w'. split_and!; [done..|].
    destruct err; simpl; split; (done || by intros [? ?]).
  - destruct Hr as [e ->]. exists (Some e), w'. split_and!; [done..|]. by split.
Qed.

Context `{!Reachable E}.

Lemma PutJSON_doc {A} (c : codec A) key v w :
  writable c v →
  ∃ w', PutJSON c ns key v w = (Ret None, w') ∧ doc c key w' = v ∧
    doc_err c key w' = false ∧ same_but [key] w w'.
Proof.
  intros [Hrt [j Hj]].
  assert (Marshal c v = Some (BJson j)) as Hm by by unfold Marshal; rewrite Hj.
  assert (∃ w', PutJSON c ns key v w = (Ret None, w')) as [w' Hp].
  { unfold PutJSON. rewrite Hm. unfold PutValue, mbind, M_bind.
    pose proof (put_reaches (withTimeout (5 * Second)) (nsKey ns key) (BJson j) (nw_env w)) as Hr.
    destruct (env_PutValue _ _ _ _) as [[err|] e]; simpl in *; [|by eexists].
    rewrite (Hr err eq_refl). by eexists. }
  exists w'. split; [done|].
  destruct (PutJSON_view c ns key v w) as (r & w1 & Hp1 & Hv). rewrite Hp in Hp1. simplify_eq.
  destruct Hv as [(b & Hb & Hv)|[? _]]; [|done]. rewrite Hm in Hb. simplify_eq.
  unfold doc, doc_err. rewrite Hv, lookup_insert_eq.
  rewrite (Unmarshal_Marshal c v (BJson j) Hrt Hm). split_and!; [done..|].
  intros k Hk. rewrite Hv, lookup_insert_ne; [done|]. intros <-. apply Hk. by left.
Qed.

Lemma DelJSON_doc key w :
  ∃ w', DelJSON ns key w = (Ret None, w') ∧ same_but [key] w w' ∧
    ∀ A (fs : list (field A)) (z : A), doc (c_struct fs z) key w' = z.
Proof.
  assert (∃ w', DelJSON ns key w = (Ret None, w')) as [w' Hd].
  { unfold DelJSON.
    destruct (PutJSON_doc c_unit key tt w) as (w1 & Hp & _).
    { split; [|by eexists]. intros j [= <-]. done. }
    run_step Hp. by eexists. }
  exists w'. split; [done|].
  destruct (DelJSON_view ns key w) as (r & w1 & Hd1 & Hv). rewrite Hd in Hd1. simplify_eq.
  destruct Hv as [Hv|[Hv|[? _]]]; [| |done]; (split; [|intros A fs z; unfold doc; rewrite Hv]).
  - intros k Hk. rewrite Hv, lookup_insert_ne; [done|]. intros <-. apply Hk. by left.
  - by rewrite lookup_insert_eq.
  - intros k Hk. rewrite Hv, lookup_delete_ne; [done|]. intros <-. apply Hk. by left.
  - by rewrite lookup_delete_eq.
Qed.

End docs.
