(* ===== verification/TaskClaim.v ===== *)
(** * [internal/task/claim.go]: leases kept in the DHT

    [Claim], [Heartbeat] and [Release] change the lease document of a task with
    [PutJSONCAS].  Without another writer they keep the document exclusive and its
    version growing; the loop reads, stores and reads again without a lock, and two
    agents whose stores interleave can both believe they hold the task: [claim_begin]
    and [claim_end] are the parts of [Claim] before and after the answer of its first
    check, and [Claim_halves] proves that they make up the call. *)
From Stdlib Require Import String.
From S2P Require Import Prelude GoStrings GoTime Json Env TaskTypes Node NodeTheorems Docs.

Local Open Scope string_scope.

Module task.
Section claim.
Context {E : Type} `{!Env E}.

Local Abbreviation N := (M (nodew E)).

Definition DefaultLeaseTTL : Z := 20 * Second.

Definition randNonce : N string := Nonce.

Definition ttl_or_default (ttl : Z) : Z := if (ttl <=? 0)%Z then DefaultLeaseTTL else ttl.

(** The lease read from [prev], empty when [prev] is missing or corrupted. *)
Definition old_lease (prev : bytes) : Lease :=
  if nonempty prev then
    match Unmarshal c_Lease prev zero_Lease with
    | (old, None) => old
    | (_, Some _) => zero_Lease
    end
  else zero_Lease.

Definition alive (l : Lease) (now : Z) : bool :=
  negb (String.eqb (le_Owner l) "") && negb (IsZero (le_Expires l)) && After (le_Expires l) now.

Definition claim_check (myPeer nonce : string) (ttl : Z) (prev : bytes)
    : N (bool * bytes * option goerror) :=
  now ← Now;
  let old := old_lease prev in
  if alive old now then mret (false, BRaw "", Some LeaseBusy)
  else
    match Marshal c_Lease (MkLease myPeer nonce (Add now ttl) (wrap64 (le_Version old + 1))) with
    | None => mret (false, BRaw "", Some marshal_error)
    | Some next => mret (true, next, None)
    end.

Definition Claim (ns taskID myPeer : string) (ttl : Z) : N (result string) :=
  let ttl := ttl_or_default ttl in
  nonce ← randNonce;
  err ← PutJSONCAS ns (KeyLease taskID) (claim_check myPeer nonce ttl);
  match err with
  | Some e => mret (Err e)
  | None => mret (Ok nonce)
  end.

(** The guards [Heartbeat] and [Release] share, then [k] on the current lease. *)
Definition owner_check (myPeer myNonce : string) (prev : bytes) (k : Lease → Lease)
    : bool * bytes * option goerror :=
  if negb (nonempty prev) then (false, BRaw "", None)
  else
    match Unmarshal c_Lease prev zero_Lease with
    | (_, Some err) => (false, BRaw "", Some err)
    | (cur, None) =>
        if negb (String.eqb (le_Owner cur) myPeer) || negb (String.eqb (le_Nonce cur) myNonce)
        then (false, BRaw "", Some LeaseStolen)
        else (true, default (BRaw "") (Marshal c_Lease (k cur)), None)
    end.

Definition bump (l : Lease) : Lease := with_le_Version (wrap64 (le_Version l + 1)) l.

Definition Heartbeat (ns taskID myPeer myNonce : string) (ttl : Z) : N (option goerror) :=
  let ttl := ttl_or_default ttl in
  PutJSONCAS ns (KeyLease taskID) (λ prev,
    now ← Now;
    mret (owner_check myPeer myNonce prev (λ cur, bump (with_le_Expires (Add now ttl) cur)))).

(** The lease [Release] leaves. *)
Definition freed (cur : Lease) : Lease :=
  bump (with_le_Expires 0%Z (with_le_Nonce "" (with_le_Owner "" cur))).

Definition Release (ns taskID myPeer myNonce : string) : N (option goerror) :=
  PutJSONCAS ns (KeyLease taskID) (λ prev, mret (owner_check myPeer myNonce prev freed)).

(** The two halves of [Claim], before and after the answer of its first check: between
    them another node may write. *)
Definition claim_begin (ns taskID myPeer : string) (ttl : Z)
    : N (string * (bool * bytes * option goerror)) :=
  nonce ← randNonce;
  prev ← cas_prev (nsKey ns (KeyLease taskID));
  o ← claim_check myPeer nonce (ttl_or_default ttl) prev;
  mret (nonce, o).

Definition claim_end (ns taskID myPeer : string) (ttl : Z)
    (st : string * (bool * bytes * option goerror)) : N (result string) :=
  let nk := nsKey ns (KeyLease taskID) in
  r ← cas_store nk 0 st.2;
  err ← (match r with
         | inl res => mret res
         | inr e => cas_loop 4 1 nk (claim_check myPeer st.1 (ttl_or_default ttl)) (Some e)
         end);
  match err with
  | Some e => mret (Err e)
  | None => mret (Ok st.1)
  end.

Lemma Claim_halves ns id me ttl (w : nodew E) :
  Claim ns id me ttl w = (claim_begin ns id me ttl ≫= claim_end ns id me ttl) w.
Proof.
  unfold Claim, claim_begin. cbv zeta. rewrite bind_assoc_run. apply bind_ext. intros nonce w1.
  set (nk := nsKey ns (KeyLease id)). set (check := claim_check me nonce (ttl_or_default ttl)).
  change (PutJSONCAS ns (KeyLease id) check) with (cas_turn nk 0 check ≫= λ r,
    match r with inl res => mret res | inr e => cas_loop 4 1 nk check (Some e) end).
  unfold cas_turn. rewrite !bind_assoc_run. apply bind_ext. intros prev w2.
  rewrite !bind_assoc_run. apply bind_ext. intros o w3. by rewrite bind_ret_run.
Qed.

(** ** Without another writer *)

Context `{!StableDHT E, !ForwardClock E}.

Lemma quiet_claim_check me nonce ttl prev : quiet (claim_check me nonce ttl prev).
Proof.
  unfold claim_check. apply quiet_bind; [apply quiet_Now|]. intros now. cbv zeta.
  destruct (alive _ _); [apply quiet_ret|]. destruct (Marshal _ _); apply quiet_ret.
Qed.
#[global] Instance mono_claim_check me nonce ttl prev : Mono (claim_check me nonce ttl prev).
Proof. unfold claim_check. solve_mono. Qed.

(** What the check answers: it looks at the clock of its world. *)
Lemma claim_check_run me nonce ttl prev (w : nodew E) :
  let t := node_clock w in
  let old := old_lease prev in
  ∃ w', claim_check me nonce ttl prev w =
    (Ret (if alive old t then (false, BRaw "", Some LeaseBusy)
          else match Marshal c_Lease (MkLease me nonce (Add t ttl) (wrap64 (le_Version old + 1))) with
               | None => (false, BRaw "", Some marshal_error)
               | Some next => (true, next, None)
               end), w').
Proof.
  intros t old. unfold claim_check. destruct (Now_reads w) as [w' Hn]. run_step Hn. cbv zeta.
  fold t. fold old. exists w'. by destruct (alive old t); [|destruct (Marshal _ _)].
Qed.

(** A lease that is not alive stays so. *)
Lemma alive_later l t t' : (t <= t')%Z → alive l t = false → alive l t' = false.
Proof.
  unfold alive, After. intros Ht.
  destruct (negb (String.eqb (le_Owner l) "")), (negb (IsZero (le_Expires l))); simpl; lia.
Qed.

(** A new lease can be written. *)
Lemma new_lease_doc `{!SaneClock E} me nonce ttl v (w : nodew E) :
  (ttl <= 3600 * Second)%Z →
  is_Some (Marshal c_Lease (MkLease me nonce (Add (node_clock w) (ttl_or_default ttl)) (wrap64 v))).
Proof.
  intros Httl. pose proof (now_sane (nw_env w)) as Hs. rewrite clock_now in Hs.
  assert (time_ok (Add (node_clock w) (ttl_or_default ttl)) = true) as Hok.
  { apply sane_add; [done|]. unfold ttl_or_default, DefaultLeaseTTL, Second in *.
    destruct (Z.leb_spec ttl 0); lia. }
  cbn. rewrite Hok, wrap64_in. by eexists.
Qed.

Lemma claim_check_takes `{!SaneClock E} me nonce ttl prev (w : nodew E) :
  (ttl <= 3600 * Second)%Z → alive (old_lease prev) (node_clock w) = false →
  ∃ next w', claim_check me nonce (ttl_or_default ttl) prev w = (Ret (true, next, None), w').
Proof.
  intros Httl Hal. destruct (claim_check_run me nonce (ttl_or_default ttl) prev w) as [w' Hc].
  rewrite Hal in Hc. destruct (new_lease_doc me nonce ttl (le_Version (old_lease prev) + 1) w Httl) as [next Hm].
  rewrite Hm in Hc. eauto.
Qed.

(** A written lease is read back as itself. *)
Lemma old_lease_Marshal l b : Marshal c_Lease l = Some b → old_lease b = l.
Proof.
  intros Hb. unfold old_lease.
  rewrite (Unmarshal_Marshal c_Lease l b (Lease_rt l) Hb : Unmarshal c_Lease b zero_Lease = _).
  unfold Marshal in Hb. destruct (enc c_Lease l); [|done]. by injection Hb as <-.
Qed.

(** An attempt of [Claim]: at a time [t] in between, it is refused for a lease that is
    alive, fails, or writes the lease it asks for. *)
Inductive claim_attempt (me nonce : string) (ttl : Z) (nk : string) (w w' : nodew E)
    : option goerror + goerror → Prop :=
  | claim_busy t :
      (node_clock w <= t <= node_clock w')%Z → alive (old_lease (prev_of w nk)) t = true →
      node_view w' = node_view w → claim_attempt me nonce ttl nk w w' (inl (Some LeaseBusy))
  | claim_failed t e out :
      (node_clock w <= t <= node_clock w')%Z → alive (old_lease (prev_of w nk)) t = false →
      out = inl (Some e) ∨ out = inr e →
      old_lease (prev_of w' nk) = old_lease (prev_of w nk) ∨
      le_Version (old_lease (prev_of w' nk)) = wrap64 (le_Version (old_lease (prev_of w nk)) + 1) →
      claim_attempt me nonce ttl nk w w' out
  | claim_stored t :
      (node_clock w <= t <= node_clock w')%Z → alive (old_lease (prev_of w nk)) t = false →
      old_lease (prev_of w' nk) =
        MkLease me nonce (Add t ttl) (wrap64 (le_Version (old_lease (prev_of w nk)) + 1)) →
      claim_attempt me nonce ttl nk w w' (inl None).

Lemma claim_attemptP me nonce ttl nk (w w' : nodew E) out :
  attempt nk (claim_check me nonce ttl) w w' out → claim_attempt me nonce ttl nk w w' out.
Proof.
  intros (o & w1 & w2 & Hc & Hv1 & Hle1 & Hle2 & Ht).
  pose proof (mono_claim_check me nonce ttl (prev_of w nk) w1) as Hmono. rewrite Hc in Hmono. simpl in Hmono.
  destruct (claim_check_run me nonce ttl (prev_of w nk) w1) as [w2' Hc']. rewrite Hc in Hc'.
  assert (node_clock w <= node_clock w1 <= node_clock w')%Z as Htime by lia.
  destruct (alive (old_lease (prev_of w nk)) (node_clock w1)) eqn:Ha.
  { simplify_eq. inversion Ht; subst. by eapply claim_busy. }
  destruct (Marshal c_Lease _) as [next'|] eqn:Hm.
  2: { simplify_eq. inversion Ht as [? ? ? Hv| | |]; subst.
       eapply claim_failed; eauto. left. unfold prev_of. by rewrite Hv. }
  simplify_eq. inversion Ht as [| |? Hv|? e Hv]; subst.
  - eapply claim_stored; [done..|]. unfold prev_of. rewrite Hv, lookup_insert_eq. simpl.
    by apply old_lease_Marshal.
  - eapply (claim_failed _ _ _ _ _ _ _ e); eauto. unfold prev_of at 1 3. destruct Hv as [-> | ->]; [right|by left].
    rewrite lookup_insert_eq. simpl. by rewrite (old_lease_Marshal _ _ Hm).
Qed.

(** A run that succeeded left a lease of the caller with a larger version. *)
Lemma claim_run me nonce ttl nk n last (w : nodew E) r w' v :
  cas_run nk (claim_check me nonce ttl) n last w r w' → r = None →
  (v <= le_Version (old_lease (prev_of w nk)) <= max_int64 - Z.of_nat n)%Z → (0 <= v)%Z →
  ∃ t ver, (node_clock w <= t <= node_clock w')%Z ∧ (v < ver)%Z ∧
    old_lease (prev_of w' nk) = MkLease me nonce (Add t ttl) ver.
Proof.
  intros Hr. induction Hr as [|n last w r w' Ha|n last w e w1 r w' Ha Hr IH]; intros Hn Hv H0; [done|..].
  - subst r. apply claim_attemptP in Ha. inversion Ha as [|? e ? _ _ [?|?]|t Ht _ Hl]; try done.
    eexists t, _. split_and!; [lia..| |exact Hl].
    rewrite wrap64_id by (unfold max_int64, two63 in *; lia). lia.
  - pose proof (attempt_clock _ _ _ _ _ (mono_claim_check me nonce ttl) Ha) as Hc.
    apply claim_attemptP in Ha. destruct IH as (t & ver & Ht & Hver & Hl); [done| |done|].
    + inversion Ha as [|? e' ? _ _ _ [Hl|Hl]|]; subst; rewrite Hl; [lia|].
      rewrite wrap64_id by (unfold max_int64, two63 in *; lia). lia.
    + exists t, ver. split_and!; [lia..|done].
Qed.

(** The first attempt of a run looks at the lease at a time [t]: alive, it is refused. *)
Lemma claim_first me nonce ttl nk n last (w : nodew E) r w' :
  cas_run nk (claim_check me nonce ttl) n last w r w' → n ≠ 0 →
  ∃ t, (node_clock w <= t <= node_clock w')%Z ∧
    (alive (old_lease (prev_of w nk)) t = true → r = Some LeaseBusy ∧ node_view w' = node_view w) ∧
    (r = None → alive (old_lease (prev_of w nk)) t = false).
Proof.
  intros Hrun Hn. inversion Hrun as [|n' last' v r1 v' Ha|n' last' v e v1 r1 v' Ha Hmore]; subst; [done|..].
  - apply claim_attemptP in Ha.
    inversion Ha as [t Ht Hal Hv'|t e out Ht Hal Hout _|t Ht Hal _]; subst; exists t;
      (split; [lia|]); by rewrite Hal.
  - pose proof (cas_run_clock _ _ _ _ _ _ _ (mono_claim_check me nonce ttl) Hmore) as Hc2.
    apply claim_attemptP in Ha. inversion Ha as [|t e' out Ht Hal Hout _|]; subst.
    exists t. split; [lia|]. by rewrite Hal.
Qed.

(** C24: without another writer, [Claim] looks at the lease at a time [t] between its
    start and its end.  If the lease is alive then, it is refused with "lease busy" and
    nothing is written; if it succeeds, the lease was not alive then, and the document
    is the caller's, with the nonce it returned, an expiry [ttl] after a time during the
    call, and a larger version than before.  A lease that is not alive when the call
    starts is taken, where stores fail only for want of peers. *)
Theorem Claim_exclusive ns id me ttl (w : nodew E) :
  let nk := nsKey ns (KeyLease id) in
  let old := old_lease (prev_of w nk) in
  (0 <= le_Version old <= max_int64 - 5)%Z →
  ∃ r w' t, Claim ns id me ttl w = (Ret r, w') ∧ (node_clock w <= t <= node_clock w')%Z ∧
    (alive old t = true → r = Err LeaseBusy ∧ node_view w' = node_view w) ∧
    (∀ nonce, r = Ok nonce → alive old t = false ∧
       ∃ now ver, (node_clock w <= now <= node_clock w')%Z ∧ (le_Version old < ver)%Z ∧
         old_lease (prev_of w' nk) = MkLease me nonce (Add now (ttl_or_default ttl)) ver) ∧
    (Reachable E → SaneClock E → (ttl <= 3600 * Second)%Z → alive old (node_clock w) = false →
       ∃ nonce, r = Ok nonce).
Proof.
  intros nk old Hov. unfold Claim. cbv zeta.
  destruct (quiet_Nonce w) as (nonce & w0 & Hn & Hv).
  pose proof (mono_Nonce w) as Hc0. rewrite Hn in Hc0. simpl in Hc0.
  change randNonce with (Nonce (E := E)). run_step Hn.
  assert (prev_of w0 nk = prev_of w nk) as Hprev by (unfold prev_of; by rewrite Hv).
  destruct (cas_loop_runs 5 0 nk (claim_check me nonce (ttl_or_default ttl)) None w0
    (quiet_claim_check me nonce _) (mono_claim_check me nonce _)) as (r & w' & Hr & Hrun).
  pose proof (cas_run_clock _ _ _ _ _ _ _ (mono_claim_check me nonce _) Hrun) as Hc1.
  unfold PutJSONCAS. fold nk. run_step Hr.
  assert (r = None → ∃ now ver, (node_clock w <= now <= node_clock w')%Z ∧ (le_Version old < ver)%Z ∧
    old_lease (prev_of w' nk) = MkLease me nonce (Add now (ttl_or_default ttl)) ver) as Hok.
  { intros Hnone. destruct (claim_run _ _ _ _ _ _ _ _ _ (le_Version old) Hrun Hnone)
      as (t & ver & Ht & Hver & Hl); [rewrite Hprev; fold old; lia|lia|].
    exists t, ver. split_and!; [lia..|done]. }
  destruct (claim_first _ _ _ _ _ _ _ _ _ Hrun) as (t & Ht0 & Hbusy & Hfree); [lia|].
  rewrite Hprev in Hbusy, Hfree. fold old in Hbusy, Hfree. rewrite Hv in Hbusy.
  assert (node_clock w <= t <= node_clock w')%Z as Ht by lia.
  assert (Reachable E → SaneClock E → (ttl <= 3600 * Second)%Z → alive old (node_clock w) = false →
    r = None) as Hlive.
  { intros HR HS Httl Hal. destruct (cas_loop_accepts 4 0 nk (claim_check me nonce (ttl_or_default ttl))
      None w0) as [w2 H2]; [|by rewrite H2 in Hr; simplify_eq].
    intros v Hv0. rewrite Hprev. apply claim_check_takes; [done|].
    apply (alive_later old (node_clock w)); [lia|done]. }
  destruct r as [e|]; eexists _, w', t; (split; [done|]); (split; [done|]); split_and!.
  - intros Ha. by destruct (Hbusy Ha) as [[= ->] ?].
  - intros ? [=].
  - intros HR HS Httl Hal. by pose proof (Hlive HR HS Httl Hal).
  - intros Ha. by destruct (Hbusy Ha).
  - intros ? [= <-]. split; [by apply Hfree|by apply Hok].
  - by exists nonce.
Qed.

(** ** The owner's operations *)

(** An accepted check: the stored lease is the caller's. *)
Lemma owner_check_accepts me nonce prev k next :
  owner_check me nonce prev k = (true, next, None) →
  nonempty prev = true ∧ ∃ cur, Unmarshal c_Lease prev zero_Lease = (cur, None) ∧
    le_Owner cur = me ∧ le_Nonce cur = nonce ∧ next = default (BRaw "") (Marshal c_Lease (k cur)).
Proof.
  unfold owner_check. destruct (nonempty prev); [|done]. simpl.
  destruct (Unmarshal c_Lease prev zero_Lease) as [cur [e|]]; [done|].
  destruct (String.eqb_spec (le_Owner cur) me), (String.eqb_spec (le_Nonce cur) nonce);
    simpl; intros; simplify_eq. split; [done|]. by exists cur.
Qed.

Lemma owner_check_stolen me nonce prev k cur :
  nonempty prev = true → Unmarshal c_Lease prev zero_Lease = (cur, None) →
  le_Owner cur ≠ me ∨ le_Nonce cur ≠ nonce →
  owner_check me nonce prev k = (false, BRaw "", Some LeaseStolen).
Proof.
  unfold owner_check. intros -> -> Hown. simpl.
  by destruct (String.eqb_spec (le_Owner cur) me), (String.eqb_spec (le_Nonce cur) nonce), Hown.
Qed.

Lemma owner_check_owner me nonce prev k cur :
  nonempty prev = true → Unmarshal c_Lease prev zero_Lease = (cur, None) →
  le_Owner cur = me → le_Nonce cur = nonce →
  owner_check me nonce prev k = (true, default (BRaw "") (Marshal c_Lease (k cur)), None).
Proof. unfold owner_check. intros -> -> <- <-. by rewrite !String.eqb_refl. Qed.

Lemma freed_doc cur : ∃ b, Marshal c_Lease (freed cur) = Some b ∧ nonempty b = true ∧
  Unmarshal c_Lease b zero_Lease = (freed cur, None).
Proof.
  assert (in_int64 (wrap64 (le_Version cur + 1)) = true) as Hin.
  { pose proof (wrap64_range (le_Version cur + 1)). unfold in_int64. lia. }
  assert (is_Some (Marshal c_Lease (freed cur))) as [b Hb].
  { destruct cur. cbn in *. rewrite Hin. by eexists. }
  exists b. split_and!; [done| |].
  - unfold Marshal in Hb. destruct (enc c_Lease _); [|done]. by injection Hb as <-.
  - exact (Unmarshal_Marshal c_Lease _ b (Lease_rt _) Hb).
Qed.

Lemma release_run me nonce nk n last (w : nodew E) r w' :
  cas_run nk (λ prev, mret (owner_check me nonce prev freed)) n last w r w' → r = None → me ≠ "" →
  nonempty (prev_of w nk) = true ∧ ∃ cur, Unmarshal c_Lease (prev_of w nk) zero_Lease = (cur, None) ∧
    le_Owner cur = me ∧ le_Nonce cur = nonce ∧ old_lease (prev_of w' nk) = freed cur.
Proof.
  intros Hr. induction Hr as [|n last w r w' Ha|n last w e w1 r w' Ha Hr IH]; intros Hn Hme; [done|..];
    destruct Ha as (o & v1 & v2 & [= <- <-] & _ & _ & _ & Ht).
  - subst r. inversion Ht as [| |next Hv Ho|]; subst. symmetry in Ho.
    apply owner_check_accepts in Ho as (Hne & cur & Hu & Ho & Hno & ->).
    split; [done|]. exists cur. split_and!; [done..|].
    unfold prev_of. rewrite Hv, lookup_insert_eq. simpl.
    destruct (freed_doc cur) as (b & Hb & _). rewrite Hb. simpl. by apply old_lease_Marshal.
  - destruct (IH Hn Hme) as (Hne & cur & Hu & Ho & Hno & Hl).
    inversion Ht as [|next Hv Hc|next Hv Hc|next e' Hv Hc]; subst.
    + unfold prev_of in Hne, Hu. rewrite Hv in Hne, Hu. by eauto 10.
    + destruct Hv as [Hv|Hv]; unfold prev_of in Hne, Hu; rewrite Hv in Hne, Hu; [|by eauto 10].
      rewrite lookup_insert_eq in Hu. simpl in Hu. symmetry in Hc.
      apply owner_check_accepts in Hc as (_ & cur' & _ & _ & _ & ->).
      destruct (freed_doc cur') as (b & Hb & _ & Hu'). rewrite Hb in Hu. simpl in Hu.
      rewrite Hu' in Hu. simplify_eq. by destruct cur'.
Qed.

(** C25: [Release] by someone who does not own the lease is "lease stolen" and writes
    nothing.  One that succeeded was by the owner, and left the lease free at every
    time: no owner, no nonce, no expiry, and a version one larger than before.  The
    owner's call succeeds where stores fail only for want of peers. *)
Theorem Release_frees ns id me nonce (w : nodew E) :
  me ≠ "" →
  let nk := nsKey ns (KeyLease id) in
  ∃ r w', Release ns id me nonce w = (Ret r, w') ∧
    (nonempty (prev_of w nk) = true → ∀ cur, Unmarshal c_Lease (prev_of w nk) zero_Lease = (cur, None) →
       (le_Owner cur ≠ me ∨ le_Nonce cur ≠ nonce) →
       r = Some LeaseStolen ∧ node_view w' = node_view w) ∧
    (r = None → ∃ cur, Unmarshal c_Lease (prev_of w nk) zero_Lease = (cur, None) ∧
       le_Owner cur = me ∧ le_Nonce cur = nonce ∧
       old_lease (prev_of w' nk) = MkLease "" "" 0 (wrap64 (le_Version cur + 1)) ∧
       ∀ t, alive (old_lease (prev_of w' nk)) t = false) ∧
    (Reachable E → nonempty (prev_of w nk) = true → ∀ cur,
       Unmarshal c_Lease (prev_of w nk) zero_Lease = (cur, None) →
       le_Owner cur = me → le_Nonce cur = nonce → r = None).
Proof.
  intros Hme nk. unfold Release.
  destruct (PutJSONCAS_run ns (KeyLease id) (λ prev, mret (owner_check me nonce prev freed)) w)
    as (r & w' & Hr & Hrun & Herr); [intros; apply quiet_ret|intros; apply mono_ret|].
  exists r, w'. split_and!; [done|..].
  - intros Hne cur Hu Hown. apply Herr. intros v. fold nk.
    rewrite (owner_check_stolen me nonce _ freed cur Hne Hu Hown). by eexists _, _, _.
  - intros Hn. destruct (release_run _ _ _ _ _ _ _ _ Hrun Hn Hme) as (_ & cur & Hu & Ho & Hno & Hl).
    fold nk in Hl. exists cur. rewrite Hl. by destruct cur.
  - intros HR Hne cur Hu Ho Hno.
    destruct (cas_loop_accepts 4 0 nk (λ prev, mret (M := N) (owner_check me nonce prev freed)) None w) as [w2 H2].
    { intros v _. rewrite (owner_check_owner me nonce _ freed cur Hne Hu Ho Hno). by eexists _, _. }
    unfold PutJSONCAS in Hr. fold nk in Hr. rewrite H2 in Hr. by simplify_eq.
Qed.

(** A [Heartbeat] under another owner or nonce is "lease stolen" and writes
    nothing; one that succeeded leaves the caller's lease in place. *)
Theorem Heartbeat_owner ns id me nonce ttl (w : nodew E) :
  let nk := nsKey ns (KeyLease id) in
  ∃ r w', Heartbeat ns id me nonce ttl w = (Ret r, w') ∧
    (nonempty (prev_of w nk) = true → ∀ cur, Unmarshal c_Lease (prev_of w nk) zero_Lease = (cur, None) →
       (le_Owner cur ≠ me ∨ le_Nonce cur ≠ nonce) →
       r = Some LeaseStolen ∧ node_view w' = node_view w) ∧
    (r = None → ∃ b, node_view w' !! nk = Some b ∧
       (nonempty b = true → le_Owner (old_lease b) = me ∧ le_Nonce (old_lease b) = nonce)).
Proof.
  intros nk. unfold Heartbeat. cbv zeta. set (chk := λ prev : bytes, Now ≫= _).
  assert (∀ prev v, ∃ t v', chk prev v = (Ret (owner_check me nonce prev
    (λ cur, bump (with_le_Expires (Add t (ttl_or_default ttl)) cur))), v')) as Hchk.
  { intros prev v. unfold chk. destruct (Now_reads v) as [v' Hn]. run_step Hn. by eexists _, v'. }
  destruct (PutJSONCAS_run ns (KeyLease id) chk w) as (r & w' & Hr & Hrun & Herr).
  { intros prev. apply quiet_bind; [apply quiet_Now|]. intros. apply quiet_ret. }
  { intros prev. unfold chk. solve_mono. }
  exists r, w'. split_and!; [done|..].
  - intros Hne cur Hu Hown. apply Herr. intros v. destruct (Hchk (prev_of w nk) v) as (t & v' & Hv).
    fold nk. rewrite Hv, (owner_check_stolen me nonce _ _ cur Hne Hu Hown). by eexists _, _, _.
  - fold nk in Hrun. clear Herr Hr. remember (@None goerror) as last eqn:Hl in Hrun. clear Hl.
    induction Hrun as [|n last w r w' Ha|n last w e w1 r w' Ha Hr IH]; [done| |exact IH].
    intros ->. destruct Ha as (o & v1 & v2 & Hc & _ & _ & _ & Ht).
    destruct (Hchk (prev_of w nk) v1) as (t & v' & Hc'). rewrite Hc in Hc'. simplify_eq.
    inversion Ht as [| |next Hv Ho|]; subst. symmetry in Ho.
    apply owner_check_accepts in Ho as (_ & cur & _ & Hown & Hno & ->).
    eexists. rewrite Hv, lookup_insert_eq. split; [done|].
    destruct (Marshal c_Lease _) as [b|] eqn:Hm; [|done]. intros _. simpl.
    rewrite (old_lease_Marshal _ _ Hm). by destruct cur.
Qed.

(** ** With another writer

    Two nodes share the network [e] and have a [localStore] each.  Where stores reach
    peers, the steps of a node leave its [localStore] alone. *)

Context `{!SaneClock E, !Connected E}.
Implicit Types (e : E) (l : gmap string bytes).

(** What a node without a local value reads. *)
Definition net_prev e (nk : string) : bytes := default (BRaw "") (dht_view e !! nk).

Lemma cas_prev_net nk e l :
  l !! nk = None →
  ∃ e', cas_prev nk (NodeW e l) = (Ret (net_prev e nk), NodeW e' l) ∧
    dht_view e' = dht_view e ∧ (clock_at e <= clock_at e')%Z.
Proof.
  intros Hl. unfold cas_prev, read_fallback, GetValue, local_load, gets, net_prev, mbind, M_bind.
  cbn [nw_env nw_local]. set (tmo := withTimeout _).
  pose proof (dht_get tmo nk e) as Hg. pose proof (dht_get_view tmo nk e) as Hv.
  pose proof (clock_get tmo nk e) as Hc.
  destruct (env_GetValue tmo nk e) as [r e']; simpl in *.
  destruct (dht_view e !! nk) as [b|].
  - subst r. by exists e'.
  - destruct Hg as [err ->]. cbn [nw_local]. rewrite Hl. by exists e'.
Qed.

Lemma cas_store_net nk i next e l :
  ∃ e', cas_store nk i (true, next, None) (NodeW e l) = (Ret (inl None), NodeW e' l) ∧
    dht_view e' = <[nk := next]> (dht_view e) ∧ (clock_at e <= clock_at e')%Z.
Proof.
  unfold cas_store, read_fallback, PutValue, GetValue, mbind, M_bind. cbn [negb nw_env nw_local].
  set (tp := withTimeout (5 * Second)). set (tg := withTimeout (3 * Second)).
  pose proof (put_connected tp nk next e) as Hr. pose proof (dht_put tp nk next e Hr) as Hv.
  pose proof (clock_put tp nk next e) as Hc.
  destruct (env_PutValue tp nk next e) as [r e1]; simpl in *. subst r. cbn [nw_env nw_local].
  pose proof (dht_get tg nk e1) as Hg. pose proof (dht_get_view tg nk e1) as Hv2.
  pose proof (clock_get tg nk e1) as Hc2. rewrite Hv, lookup_insert_eq in Hg.
  destruct (env_GetValue tg nk e1) as [r e2]; simpl in *. subst r. simpl.
  rewrite bool_decide_eq_true_2 by done. exists e2. split_and!; [done|congruence|lia].
Qed.

(** The first half, on a lease that is not alive. *)
Lemma claim_begin_net ns id me ttl e l :
  let nk := nsKey ns (KeyLease id) in
  let old := old_lease (net_prev e nk) in
  l !! nk = None → (ttl <= 3600 * Second)%Z → alive old (clock_at e) = false →
  ∃ nonce t next e', claim_begin ns id me ttl (NodeW e l) =
      (Ret (nonce, (true, next, None)), NodeW e' l) ∧
    dht_view e' = dht_view e ∧ (clock_at e <= t <= clock_at e')%Z ∧ sane t = true ∧
    Marshal c_Lease (MkLease me nonce (Add t (ttl_or_default ttl)) (wrap64 (le_Version old + 1))) = Some next.
Proof.
  intros nk old Hl Httl Hal. unfold claim_begin, randNonce, Nonce, mbind, M_bind.
  cbn [nw_env nw_local]. fold nk.
  pose proof (dht_nonce_view e) as Hv0. pose proof (clock_nonce e) as Hc0.
  destruct (env_Nonce e) as [nonce e0]; simpl in *.
  destruct (cas_prev_net nk e0 l Hl) as (e1 & H1 & Hv1 & Hc1). rewrite H1.
  assert (net_prev e0 nk = net_prev e nk) as -> by (unfold net_prev; by rewrite Hv0).
  unfold claim_check, Now, mbind, M_bind. cbn [nw_env nw_local]. fold old.
  destruct (new_lease_doc me nonce ttl (le_Version old + 1) (NodeW e1 l) Httl) as [next Hm].
  unfold node_clock in Hm. cbn [nw_env] in Hm.
  pose proof (clock_now e1) as Hn. pose proof (clock_now_mono e1) as Hc2.
  pose proof (dht_now_view e1) as Hv2. pose proof (now_sane e1) as Hs.
  destruct (env_Now e1) as [t e2]; simpl in Hn, Hc2, Hv2, Hs. subst t.
  rewrite (alive_later old (clock_at e)) by (lia || done). rewrite Hm.
  exists nonce, (clock_at e1), next, e2. split_and!; [done|congruence|lia..|done|done].
Qed.

(** The second half, on any network. *)
Lemma claim_end_net ns id me ttl nonce next e l :
  ∃ e', claim_end ns id me ttl (nonce, (true, next, None)) (NodeW e l) = (Ret (Ok nonce), NodeW e' l) ∧
    dht_view e' = <[nsKey ns (KeyLease id) := next]> (dht_view e) ∧ (clock_at e <= clock_at e')%Z.
Proof.
  unfold claim_end. cbv zeta. cbn [fst snd].
  destruct (cas_store_net (nsKey ns (KeyLease id)) 0 next e l) as (e' & He & Hv & Hc).
  run_step He. by exists e'.
Qed.

(** C26: with another writer the lease in the DHT is not exclusive.  [b] calls [Claim]
    on a lease that is not alive and passes its check; before [b] stores, [a]'s whole
    call of [Claim] succeeds and its lease is in the network; then the rest of [b]'s
    call succeeds too and replaces it.  Both leases carry the same version, so it fences
    neither, and [a]'s is alive until its own expiry: until then both believe they hold
    the task. *)
Theorem Claim_race ns id a b ttlA ttlB e lA lB :
  let nk := nsKey ns (KeyLease id) in
  let old := old_lease (net_prev e nk) in
  lA !! nk = None → lB !! nk = None → a ≠ "" →
  (ttlA <= 3600 * Second)%Z → (ttlB <= 3600 * Second)%Z → alive old (clock_at e) = false →
  ∃ st e1 nA tA e2 nB tB e3,
    claim_begin ns id b ttlB (NodeW e lB) = (Ret st, NodeW e1 lB) ∧
    Claim ns id b ttlB (NodeW e lB) = claim_end ns id b ttlB st (NodeW e1 lB) ∧
    Claim ns id a ttlA (NodeW e1 lA) = (Ret (Ok nA), NodeW e2 lA) ∧
    claim_end ns id b ttlB st (NodeW e2 lB) = (Ret (Ok nB), NodeW e3 lB) ∧
    (clock_at e <= tB <= clock_at e1)%Z ∧ (clock_at e1 <= tA <= clock_at e2)%Z ∧
    (clock_at e2 <= clock_at e3)%Z ∧
    old_lease (net_prev e2 nk) =
      MkLease a nA (Add tA (ttl_or_default ttlA)) (wrap64 (le_Version old + 1)) ∧
    old_lease (net_prev e3 nk) =
      MkLease b nB (Add tB (ttl_or_default ttlB)) (wrap64 (le_Version old + 1)) ∧
    (∀ t, (t < Add tA (ttl_or_default ttlA))%Z → alive (old_lease (net_prev e2 nk)) t = true).
Proof.
  intros nk old HlA HlB Ha HtA HtB Hal.
  destruct (claim_begin_net ns id b ttlB e lB HlB HtB Hal)
    as (nB & tB & nextB & e1 & HB & Hv1 & HcB & _ & HmB). fold nk in HmB. fold old in HmB.
  assert (old_lease (net_prev e1 nk) = old) as Hold by (unfold net_prev; by rewrite Hv1).
  destruct (claim_begin_net ns id a ttlA e1 lA HlA HtA) as (nA & tA & nextA & e1' & HA & Hv1' & HcA & HsA & HmA).
  { fold nk. rewrite Hold. apply (alive_later old (clock_at e)); [lia|done]. }
  fold nk in HmA. rewrite Hold in HmA.
  destruct (claim_end_net ns id a ttlA nA nextA e1' lA) as (e2 & HA2 & Hv2 & Hc2).
  destruct (claim_end_net ns id b ttlB nB nextB e2 lB) as (e3 & HB2 & Hv3 & Hc3).
  assert (old_lease (net_prev e2 nk) = MkLease a nA (Add tA (ttl_or_default ttlA)) (wrap64 (le_Version old + 1)))
    as HlA2 by (unfold net_prev; rewrite Hv2; fold nk; rewrite lookup_insert_eq; by apply old_lease_Marshal).
  exists (nB, (true, nextB, None)), e1, nA, tA, e2, nB, tB, e3.
  split_and!; [done|by rewrite Claim_halves; run_step HB|by rewrite Claim_halves; run_step HA|done|lia..|done| |].
  - unfold net_prev; rewrite Hv3; fold nk; rewrite lookup_insert_eq. by apply old_lease_Marshal.
  - intros t Ht. rewrite HlA2. unfold alive. cbn [le_Owner le_Expires]. str_ne Ha.
    unfold sane, day_ns, Second in HsA. unfold IsZero, After, ttl_or_default, DefaultLeaseTTL, Second, Add in *.
    destruct (Z.leb_spec ttlA 0); lia.
Qed.

End claim.
End task.

(** ** Witnesses *)

Definition held_net : gmap string bytes := <[nsKey "mc" (KeyLease "j1") :=
  default (BRaw "") (Marshal c_Lease (MkLease "A" "n" (738001 * day_ns) 3))]> ∅.
Definition held_node : nodew WallEnv :=
  NodeW (Wall (MkSim (738000 * day_ns) 0 true held_net)) ∅.

(** A lease that outlives the call is refused, and an expired one is taken. *)
Lemma Claim_exclusive_witness :
  (∃ w', task.Claim "mc" "j1" "B" Second held_node = (Ret (Err LeaseBusy), w') ∧
    node_view w' = node_view held_node) ∧
  (∃ nonce w', task.Claim "mc" "j2" "B" Second held_node = (Ret (Ok nonce), w')).
Proof.
  split.
  - destruct (task.Claim_exclusive "mc" "j1" "B" Second held_node) as (r & w' & t & Hr & Ht & Hbusy & _).
    { vm_compute; split; discriminate. }
    assert (node_clock w' <= 738000 * day_ns + 10)%Z as Hend.
    { assert (w' = (task.Claim "mc" "j1" "B" Second held_node).2) as -> by (rewrite Hr; reflexivity).
      vm_compute. discriminate. }
    exists w'. destruct Hbusy as [-> Hv]; [|split; [exact Hr|exact Hv]].
    assert (task.old_lease (prev_of held_node (nsKey "mc" (KeyLease "j1"))) = MkLease "A" "n" (738001 * day_ns) 3)
      as -> by (vm_compute; reflexivity).
    unfold task.alive, IsZero, After, day_ns, Second in *. cbn [le_Owner le_Expires String.eqb negb andb]. lia.
  - destruct (task.Claim_exclusive "mc" "j2" "B" Second held_node) as (r & w' & t & Hr & _ & _ & _ & Hok).
    { vm_compute; split; discriminate. }
    destruct Hok as [nonce ->]; [apply _|apply _|vm_compute; discriminate|vm_compute; reflexivity|].
    exists nonce, w'. exact Hr.
Defined.

Lemma Release_frees_witness :
  ∃ w', task.Release "mc" "j1" "A" "n" held_node = (Ret None, w') ∧
    task.old_lease (prev_of w' (nsKey "mc" (KeyLease "j1"))) = MkLease "" "" 0 4.
Proof.
  destruct (task.Release_frees "mc" "j1" "A" "n" held_node) as (r & w' & Hr & _ & Hok & Hown); [done|].
  assert (Unmarshal c_Lease (prev_of held_node (nsKey "mc" (KeyLease "j1"))) zero_Lease =
    (MkLease "A" "n" (738001 * day_ns) 3, None)) as Hu by (vm_compute; reflexivity).
  assert (r = None) as ->.
  { apply (Hown _ ltac:(vm_compute; reflexivity) _ Hu); reflexivity. }
  destruct (Hok eq_refl) as (cur & Hu' & _ & _ & Hl & _). rewrite Hu in Hu'. injection Hu' as <-.
  exists w'. split; [exact Hr|exact Hl].
Defined.

Lemma Heartbeat_owner_witness :
  ∃ w', task.Heartbeat "mc" "j1" "B" "n" Second held_node = (Ret (Some LeaseStolen), w').
Proof.
  destruct (task.Heartbeat_owner "mc" "j1" "B" "n" Second held_node) as (r & w' & Hr & Hst & _).
  destruct (Hst ltac:(vm_compute; reflexivity) (MkLease "A" "n" (738001 * day_ns) 3)) as [-> _].
  { vm_compute. reflexivity. }
  { left. discriminate. }
  exists w'. exact Hr.
Defined.

Lemma Claim_race_witness :
  ∃ st e1 nA e2 nB e3,
    task.claim_begin "mc" "j1" "B" 0 (NodeW wall0 ∅) = (Ret st, NodeW e1 ∅) ∧
    task.Claim "mc" "j1" "B" 0 (NodeW wall0 ∅) = task.claim_end "mc" "j1" "B" 0 st (NodeW e1 ∅) ∧
    task.Claim "mc" "j1" "A" 0 (NodeW e1 ∅) = (Ret (Ok nA), NodeW e2 ∅) ∧
    task.claim_end "mc" "j1" "B" 0 st (NodeW e2 ∅) = (Ret (Ok nB), NodeW e3 ∅).
Proof.
  destruct (task.Claim_race "mc" "j1" "A" "B" 0 0 wall0 ∅ ∅ (lookup_empty _) (lookup_empty _)
    ltac:(discriminate) ltac:(vm_compute; discriminate) ltac:(vm_compute; discriminate)
    ltac:(vm_compute; reflexivity)) as (st & e1 & nA & tA & e2 & nB & tB & e3 & H0 & H1 & H2 & H3 & _).
  exists st, e1, nA, e2, nB, e3. split; [exact H0|]. split; [exact H1|]. split; [exact H2|exact H3].
Defined.
