(* ===== verification/LeaseTypes.v ===== *)
(** * Package [internal/lease]: the store interface

    [store.go]: the job, manifest and lease records of the demand
    store, its errors, and the interface the control server is written against. *)
From Stdlib Require Import String.
From S2P Require Import Prelude GoStrings GoTime Json.

Local Open Scope string_scope.

(** ** Job status *)

Definition JobStatus : Type := string.
Definition JobQueued : JobStatus := "queued".
Definition JobAssigned : JobStatus := "assigned".
Definition JobRunning : JobStatus := "running".
Definition JobSucceeded : JobStatus := "succeeded".
Definition JobFailed : JobStatus := "failed".

(** ** Records *)

Record DBJob := MkDBJob {
  j_ID : string;
  j_Image : string;
  j_Command : slice string;
  j_Status : JobStatus;
  j_CreatedAt : Z;
  j_RetryCount : Z
}.

(** [lease.Manifest] *)
Record StoreManifest := MkStoreManifest {
  sm_RootCID : string;
  sm_Providers : slice string;
  sm_EncMeta : string
}.

(** [lease.Lease]; the token is a [uint64]. *)
Record StoreLease := MkStoreLease {
  sl_AgentID : string;
  sl_ExpireAt : Z;
  sl_FencingToken : Z
}.

(** ** Errors *)

Definition ErrJobNotFound : goerror := LeaseErr "job not found".
Definition ErrNoManifest : goerror := LeaseErr "manifest not attached".
Definition ErrLeaseConflict : goerror := LeaseErr "lease still valid".
Definition ErrBadToken : goerror := LeaseErr "fencing token mismatch".

(** ** The interface

    [lease.Store], on a state [S] of the store.  [metrics] is the value of type
    [any] the caller passes, [None] for [nil]. *)
Class Store (S : Type) := {
  CreateJob : DBJob → M S (option goerror);
  GetJob : string → M S (result DBJob);
  AttachManifest : string → StoreManifest → M S (option goerror);
  TryClaim : string → string → Z → M S (result StoreLease);
  Heartbeat : string → string → Z → Z → M S (option goerror);
  Finish : string → string → Z → bool → string → slice string → option json →
    M S (option goerror);
  ListExpiredLeases : Z → M S (result (list string));
  SetStatusQueued : string → M S (option goerror);
  ListQueued : M S (result (list DBJob));
  ListManifestMissingSince : Z → M S (result (list string));
  ListAll : M S (result (list DBJob));
  ListPaged : Z → Z → M S (result (list DBJob));
  CountByStatus : M S (result (gmap string Z))
}.
