(* ===== verification/PGStore.v ===== *)
(** * [internal/lease/pg_store.go]: the PostgreSQL store

    The table [demand_jobs] of [configs/schema.sql] and the SQL statements of
    [PGStore], each as a function on the table, then the Go methods around them.
    The server is a parameter: when a statement fails and with which error, what
    [now()] is, in which order an unordered scan meets the rows, how many rows of a
    result arrive before its stream breaks, and how a timestamp is rounded to the
    resolution of [timestamptz].  A statement is atomic.  The table is the state
    between two statements of this server; the statements of one method run one
    after the other. *)
From Stdlib Require Import String.
From stdpp Require Import sorting.
From S2P Require Import Prelude GoStrings GoTime Json LeaseTypes.

Local Open Scope string_scope.

(** ** The table

    A nullable column is an [option]. *)
Record row := MkRow {
  r_id : string;
  r_image : string;
  r_command : json;
  r_status : string;
  r_created_at : Z;
  r_retry_count : Z;
  r_manifest_root_cid : option string;
  r_manifest_providers : option json;
  r_manifest_enc_meta : option string;
  r_lease_agent : option string;
  r_lease_expires_at : option Z;
  r_lease_token : Z;
  r_result_root_cid : option string;
  r_artifacts : option json;
  r_metrics : option json
}.
Definition set_status (a : string) (r : row) : row :=
  let '(MkRow x0 x1 x2 _ x4 x5 x6 x7 x8 x9 x10 x11 x12 x13 x14) := r in
  MkRow x0 x1 x2 a x4 x5 x6 x7 x8 x9 x10 x11 x12 x13 x14.
Definition set_retry_count (a : Z) (r : row) : row :=
  let '(MkRow x0 x1 x2 x3 x4 _ x6 x7 x8 x9 x10 x11 x12 x13 x14) := r in
  MkRow x0 x1 x2 x3 x4 a x6 x7 x8 x9 x10 x11 x12 x13 x14.
Definition set_manifest_root_cid (a : option string) (r : row) : row :=
  let '(MkRow x0 x1 x2 x3 x4 x5 _ x7 x8 x9 x10 x11 x12 x13 x14) := r in
  MkRow x0 x1 x2 x3 x4 x5 a x7 x8 x9 x10 x11 x12 x13 x14.
Definition set_manifest_providers (a : option json) (r : row) : row :=
  let '(MkRow x0 x1 x2 x3 x4 x5 x6 _ x8 x9 x10 x11 x12 x13 x14) := r in
  MkRow x0 x1 x2 x3 x4 x5 x6 a x8 x9 x10 x11 x12 x13 x14.
Definition set_manifest_enc_meta (a : option string) (r : row) : row :=
  let '(MkRow x0 x1 x2 x3 x4 x5 x6 x7 _ x9 x10 x11 x12 x13 x14) := r in
  MkRow x0 x1 x2 x3 x4 x5 x6 x7 a x9 x10 x11 x12 x13 x14.
Definition set_lease_agent (a : option string) (r : row) : row :=
  let '(MkRow x0 x1 x2 x3 x4 x5 x6 x7 x8 _ x10 x11 x12 x13 x14) := r in
  MkRow x0 x1 x2 x3 x4 x5 x6 x7 x8 a x10 x11 x12 x13 x14.
Definition set_lease_expires_at (a : option Z) (r : row) : row :=
  let '(MkRow x0 x1 x2 x3 x4 x5 x6 x7 x8 x9 _ x11 x12 x13 x14) := r in
  MkRow x0 x1 x2 x3 x4 x5 x6 x7 x8 x9 a x11 x12 x13 x14.
Definition set_lease_token (a : Z) (r : row) : row :=
  let '(MkRow x0 x1 x2 x3 x4 x5 x6 x7 x8 x9 x10 _ x12 x13 x14) := r in
  MkRow x0 x1 x2 x3 x4 x5 x6 x7 x8 x9 x10 a x12 x13 x14.
Definition set_result_root_cid (a : option string) (r : row) : row :=
  let '(MkRow x0 x1 x2 x3 x4 x5 x6 x7 x8 x9 x10 x11 _ x13 x14) := r in
  MkRow x0 x1 x2 x3 x4 x5 x6 x7 x8 x9 x10 x11 a x13 x14.
Definition set_artifacts (a : option json) (r : row) : row :=
  let '(MkRow x0 x1 x2 x3 x4 x5 x6 x7 x8 x9 x10 x11 x12 _ x14) := r in
  MkRow x0 x1 x2 x3 x4 x5 x6 x7 x8 x9 x10 x11 x12 a x14.
Definition set_metrics (a : option json) (r : row) : row :=
  let '(MkRow x0 x1 x2 x3 x4 x5 x6 x7 x8 x9 x10 x11 x12 x13 _) := r in
  MkRow x0 x1 x2 x3 x4 x5 x6 x7 x8 x9 x10 x11 x12 x13 a.

(** ** Statements *)

Definition out_of_range : goerror := ErrMsg "pq: value out of range".

(** [UPDATE demand_jobs SET set WHERE id = id AND cond], with the number of rows
    affected.  [set] is [None] when an expression of it overflows its column. *)
Definition sql_update (id : string) (cond : row → bool) (set : row → option row)
    (t : gmap string row) : result nat * gmap string row :=
  match t !! id with
  | Some r =>
      if cond r then
        match set r with
        | Some r' => (Ok 1, <[id := r']> t)
        | None => (Err out_of_range, t)
        end
      else (Ok 0, t)
  | None => (Ok 0, t)
  end.

(** [BIGINT] and [INTEGER] addition. *)
Definition bigint_succ (z : Z) : option Z :=
  if (z <? max_int64)%Z then Some (z + 1)%Z else None.
Definition int_succ (z : Z) : option Z :=
  if (z <? max_int32)%Z then Some (z + 1)%Z else None.

(** [now() + ($n || ' seconds')::interval]. *)
Definition seconds_from (now secs : Z) : Z := (now + secs * Second)%Z.

(** [lease_expires_at < now()], unknown on [NULL]. *)
Definition expired_before (now : Z) (r : row) : bool :=
  match r_lease_expires_at r with Some x => (x <? now)%Z | None => false end.

Definition is_null {A} (o : option A) : bool := match o with None => true | _ => false end.

(** [lease_agent = $2], unknown on [NULL]. *)
Definition agent_is (a : string) (r : row) : bool :=
  match r_lease_agent r with Some b => String.eqb b a | None => false end.

(** [status IN ('assigned', 'running')]. *)
Definition active (r : row) : bool :=
  String.eqb (r_status r) "assigned" || String.eqb (r_status r) "running".

(** [INSERT ... ON CONFLICT (id) DO NOTHING]: the columns not named take the
    defaults of the schema. *)
Definition insert_job (ts : Z → Z) (job : DBJob) (cmdJSON : json)
    (t : gmap string row) : gmap string row :=
  match t !! j_ID job with
  | Some _ => t
  | None =>
      <[j_ID job := MkRow (j_ID job) (j_Image job) cmdJSON (j_Status job)
         (ts (j_CreatedAt job)) 0 None None None None None 0 None None None]> t
  end.

Definition manifest_update (m : StoreManifest) (provJSON : json) (r : row) : row :=
  set_manifest_enc_meta (Some (sm_EncMeta m))
    (set_manifest_providers (Some provJSON)
      (set_manifest_root_cid (Some (sm_RootCID m)) r)).

Definition claim_cond (now : Z) (r : row) : bool :=
  String.eqb (r_status r) "queued" &&
  (is_null (r_lease_expires_at r) || expired_before now r).

Definition claim_set (now : Z) (agentID : string) (secs : Z) (r : row) : option row :=
  tok ← bigint_succ (r_lease_token r);
  Some (set_status "assigned"
    (set_lease_token tok
      (set_lease_expires_at (Some (seconds_from now secs))
        (set_lease_agent (Some agentID) r)))).

(** [UPDATE ... RETURNING lease_token, lease_expires_at]: the row returned, if any. *)
Definition claim_stmt (now : Z) (id agentID : string) (secs : Z) (t : gmap string row)
    : result (option (Z * Z)) * gmap string row :=
  match sql_update id (claim_cond now) (claim_set now agentID secs) t with
  | (Err e, t') => (Err e, t')
  | (Ok 0, t') => (Ok None, t')
  | (Ok _, t') =>
      (Ok (match t' !! id with
           | Some r => Some (r_lease_token r, seconds_from now secs)
           | None => None
           end), t')
  end.

(** [SELECT manifest_root_cid, (lease_expires_at IS NOT NULL AND lease_expires_at >=
    now()) AS lease_valid]. *)
Definition claim_probe (now : Z) (r : row) : option string * bool :=
  (r_manifest_root_cid r,
   match r_lease_expires_at r with Some x => (now <=? x)%Z | None => false end).

Definition heartbeat_cond (agentID : string) (token : Z) (r : row) : bool :=
  agent_is agentID r && (r_lease_token r =? token)%Z.

Definition heartbeat_set (now secs : Z) (r : row) : row :=
  set_status "running" (set_lease_expires_at (Some (seconds_from now secs)) r).

Definition heartbeat_stmt (now : Z) (id agentID : string) (token secs : Z)
    (t : gmap string row) : result nat * gmap string row :=
  sql_update id (heartbeat_cond agentID token) (λ r, Some (heartbeat_set now secs r)) t.

Definition finish_cond (agentID : string) (token : Z) (r : row) : bool :=
  (agent_is agentID r || is_null (r_lease_agent r)) && (r_lease_token r <=? token)%Z.

Definition finish_set (st resultCID : string) (artsJSON metricsJSON : json) (r : row) : row :=
  set_lease_expires_at None (set_lease_agent None
    (set_metrics (Some metricsJSON) (set_artifacts (Some artsJSON)
      (set_result_root_cid (Some resultCID) (set_status st r))))).

Definition finish_stmt (id agentID : string) (token : Z) (st resultCID : string)
    (artsJSON metricsJSON : json) (t : gmap string row) : result nat * gmap string row :=
  sql_update id (finish_cond agentID token)
    (λ r, Some (finish_set st resultCID artsJSON metricsJSON r)) t.

Definition is_expired (now : Z) (r : row) : bool :=
  active r && negb (is_null (r_lease_expires_at r)) && expired_before now r.

Definition requeue_set (r : row) : option row :=
  n ← int_succ (r_retry_count r);
  Some (set_retry_count n (set_lease_expires_at None (set_lease_agent None
    (set_status "queued" r)))).

Definition requeue_stmt (now : Z) (id : string) (t : gmap string row)
    : result nat * gmap string row :=
  sql_update id (is_expired now) requeue_set t.

(** [metrics->>'reason' = 'manifest_not_found']; of two equal keys JSONB keeps the
    last. *)
Definition reason_not_found (r : row) : bool :=
  match r_metrics r with
  | Some (JObj kvs) =>
      match List.find (λ kv, String.eqb kv.1 "reason") (rev kvs) with
      | Some (_, JStr s) => String.eqb s "manifest_not_found"
      | _ => false
      end
  | _ => false
  end.

Definition manifest_missing (cutoff : Z) (r : row) : bool :=
  String.eqb (r_status r) "failed" && reason_not_found r && (r_created_at r <=? cutoff)%Z.

Definition older (r s : row) : Prop := (r_created_at r <= r_created_at s)%Z.
#[global] Instance older_dec r s : Decision (older r s).
Proof. unfold older. apply _. Defined.
Definition newer (r s : row) : Prop := older s r.
#[global] Instance newer_dec r s : Decision (newer r s).
Proof. unfold newer. apply _. Defined.

(** ** The server *)

(** What happens to the next statement: it fails, or runs at [now()] and delivers
    its first [sx_rows] rows ([None]: all of them). *)
Record stmt := MkStmt {
  sx_err : option goerror;
  sx_now : Z;
  sx_rows : option nat
}.

Class PGServer (P : Type) := {
  pg_stmt : P → stmt * P;
  pg_scan : P → gmap string row → list row;
  pg_ts : Z → Z
}.

(** A scan meets every row of the table once. *)
Class PGScan (P : Type) `{!PGServer P} : Prop :=
  pg_scan_perm p t : pg_scan p t ≡ₚ (map_to_list t).*2.

Record PGStore (P : Type) := MkPGStore {
  pg_srv : P;
  pg_table : gmap string row
}.
Arguments MkPGStore {P}.
Arguments pg_srv {P}.
Arguments pg_table {P}.

Section pgstore.
Context {P : Type} `{!PGServer P}.

Local Abbreviation D := (M (PGStore P)).

(** [ExecContext] of a statement: it fails with the server's error and changes
    nothing, or runs on the table at the server's time. *)
Definition exec {A} (f : Z → gmap string row → result A * gmap string row) : D (result A) :=
  λ s,
    let (x, p) := pg_stmt (pg_srv s) in
    match sx_err x with
    | Some e => (Ret (Err e), MkPGStore p (pg_table s))
    | None => let (r, t) := f (sx_now x) (pg_table s) in (Ret r, MkPGStore p t)
    end.

(** [QueryContext] with the loop over [rows.Next()], which does not look at
    [rows.Err()]: the rows that arrived are the result. *)
Definition query {A} (q : list row → list A) : D (result (list A)) :=
  λ s,
    let (x, p) := pg_stmt (pg_srv s) in
    match sx_err x with
    | Some e => (Ret (Err e), MkPGStore p (pg_table s))
    | None =>
        let rs := q (pg_scan (pg_srv s) (pg_table s)) in
        (Ret (Ok (match sx_rows x with Some n => take n rs | None => rs end)),
         MkPGStore p (pg_table s))
    end.

(** The same, for a query that depends on [now()]. *)
Definition query_now {A} (q : Z → list row → list A) : D (result (list A)) :=
  λ s, query (q (sx_now (pg_stmt (pg_srv s)).1)) s.

Definition toJSON {A} (c : codec A) (v : A) : result json :=
  match enc c v with
  | Some j => Ok j
  | None => Err (ErrMsg "json: unsupported value")
  end.

Definition pg_CreateJob (job : DBJob) : D (option goerror) :=
  match toJSON (c_slice c_string) (j_Command job) with
  | Err e => mret (Some e)
  | Ok cmdJSON =>
      r ← exec (λ _ t, (Ok tt, insert_job pg_ts job cmdJSON t));
      mret (match r with Err e => Some e | Ok _ => None end)
  end.

(** [if len(cmdJSON) > 0 && string(cmdJSON) != "null" { _ = json.Unmarshal }]. *)
Definition scan_command (cmdJSON : json) : slice string :=
  match cmdJSON with
  | JNull => None
  | j => (Unmarshal (c_slice c_string) (BJson j) None).1
  end.

Definition job_of_row (r : row) : DBJob :=
  MkDBJob (r_id r) (r_image r) (scan_command (r_command r)) (r_status r)
    (r_created_at r) (r_retry_count r).

Definition pg_GetJob (id : string) : D (result DBJob) :=
  r ← exec (λ _ t, (Ok (t !! id), t));
  match r with
  | Err e => mret (Err e)
  | Ok None => mret (Err ErrJobNotFound)
  | Ok (Some r) => mret (Ok (job_of_row r))
  end.

Definition pg_AttachManifest (id : string) (m : StoreManifest) : D (option goerror) :=
  match toJSON (c_slice c_string) (sm_Providers m) with
  | Err e => mret (Some e)
  | Ok provJSON =>
      res ← exec (λ _, sql_update id (λ _, true) (λ r, Some (manifest_update m provJSON r)));
      match res with
      | Err e => mret (Some e)
      | Ok 0 => mret (Some ErrJobNotFound)
      | Ok _ => mret None
      end
  end.

Definition pg_TryClaim (id agentID : string) (ttl : Z) : D (result StoreLease) :=
  res ← exec (λ now, claim_stmt now id agentID (int_Seconds ttl));
  match res with
  | Err e => mret (Err e)
  | Ok (Some (token, expireAt)) =>
      mret (Ok (MkStoreLease agentID expireAt (uint64_of token)))
  | Ok None =>
      j ← pg_GetJob id;
      match j with
      | Err gerr => mret (Err gerr)
      | Ok _ =>
          r2 ← exec (λ now t, (Ok (claim_probe now <$> t !! id), t));
          match r2 with
          | Ok (Some (rootCID, leaseValid)) =>
              if String.eqb (default "" rootCID) "" then mret (Err ErrNoManifest)
              else mret (Err ErrLeaseConflict)
          | _ => mret (Err ErrLeaseConflict)
          end
      end
  end.

Definition pg_Heartbeat (id agentID : string) (token ttl : Z) : D (option goerror) :=
  res ← exec (λ now, heartbeat_stmt now id agentID (wrap64 token) (int_Seconds ttl));
  match res with
  | Err e => mret (Some e)
  | Ok 0 => mret (Some ErrBadToken)
  | Ok _ => mret None
  end.

Definition pg_Finish (id agentID : string) (token : Z) (succeeded : bool)
    (resultCID : string) (arts : slice string) (metr : option json) : D (option goerror) :=
  match toJSON (c_slice c_string) arts with
  | Err e => mret (Some e)
  | Ok artsJSON =>
      let metricsJSON := default JNull metr in
      let status := if succeeded then "succeeded" else "failed" in
      res ← exec (λ _, finish_stmt id agentID (wrap64 token) status resultCID
                         artsJSON metricsJSON);
      mret (match res with Err e => Some e | Ok _ => None end)
  end.

(** The argument is not used: the statement compares with [now()]. *)
Definition pg_ListExpiredLeases (now : Z) : D (result (list string)) :=
  query_now (λ dbnow rs, r_id <$> List.filter (is_expired dbnow) rs).

Definition pg_SetStatusQueued (id : string) : D (option goerror) :=
  res ← exec (λ now, requeue_stmt now id);
  match res with
  | Err e => mret (Some e)
  | Ok 0 => mret (Some ErrJobNotFound)
  | Ok _ => mret None
  end.

(** [retry_count] is not selected, the field stays zero. *)
Definition queued_job_of_row (r : row) : DBJob :=
  MkDBJob (r_id r) (r_image r) (scan_command (r_command r)) (r_status r) (r_created_at r) 0.

Definition pg_ListQueued : D (result (list DBJob)) :=
  query (λ rs, queued_job_of_row <$>
    merge_sort older (List.filter (λ r, String.eqb (r_status r) "queued") rs)).

Definition pg_ListManifestMissingSince (cutoff : Z) : D (result (list string)) :=
  query (λ rs, r_id <$> List.filter (manifest_missing cutoff) rs).

Definition pg_ListAll : D (result (list DBJob)) :=
  query (λ rs, job_of_row <$> merge_sort older rs).

Definition clamp_limit (limit : Z) : Z :=
  let limit := if (limit <=? 0)%Z then 100%Z else limit in
  if (1000 <? limit)%Z then 1000%Z else limit.
Definition clamp_offset (offset : Z) : Z := if (offset <? 0)%Z then 0%Z else offset.

Definition pg_ListPaged (limit offset : Z) : D (result (list DBJob)) :=
  query (λ rs, job_of_row <$>
    take (Z.to_nat (clamp_limit limit))
      (drop (Z.to_nat (clamp_offset offset)) (merge_sort newer rs))).

(** [SELECT status, COUNT( * ) ... GROUP BY status], one pair per status. *)
Definition count_status (s : string) (rs : list row) : Z :=
  Z.of_nat (length (List.filter (λ r, String.eqb (r_status r) s) rs)).
Definition group_by_status (rs : list row) : list (string * Z) :=
  (λ s, (s, count_status s rs)) <$> remove_dups (r_status <$> rs).

Definition pg_CountByStatus : D (result (gmap string Z)) :=
  r ← query group_by_status;
  mret (match r with
        | Err e => Err e
        | Ok l => Ok (foldl (λ m kv, <[kv.1 := kv.2]> m) ∅ l)
        end).

#[global] Instance pg_store : Store (PGStore P) := {|
  CreateJob := pg_CreateJob;
  GetJob := pg_GetJob;
  AttachManifest := pg_AttachManifest;
  TryClaim := pg_TryClaim;
  Heartbeat := pg_Heartbeat;
  Finish := pg_Finish;
  ListExpiredLeases := pg_ListExpiredLeases;
  SetStatusQueued := pg_SetStatusQueued;
  ListQueued := pg_ListQueued;
  ListManifestMissingSince := pg_ListManifestMissingSince;
  ListAll := pg_ListAll;
  ListPaged := pg_ListPaged;
  CountByStatus := pg_CountByStatus
|}.

End pgstore.

(** ** A simulated server: a clock that advances, no failures *)

Definition SimPG : Type := Z.
#[global] Instance sim_pg : PGServer SimPG := {|
  pg_stmt p := (MkStmt None p None, (p + 1)%Z);
  pg_scan _ t := (map_to_list t).*2;
  pg_ts t := (t / 1000 * 1000)%Z
|}.
#[global] Instance sim_pg_scan : PGScan SimPG.
Proof. by intros p t. Qed.
