(* ===== verification/LeaseProtocol.v ===== *)
(** * The lease protocol

    The statements of [PGStore] as a transition system on the table, in any order
    and by any number of callers: a history of grants, renewals, completions and
    requeues.  The invariant of the rows, the fencing tokens as a count of the grants,
    and the holder of a lease as the last grantee. *)
From Stdlib Require Import String.
From S2P Require Import Prelude GoStrings GoTime Json LeaseTypes PGStore.

Local Open Scope string_scope.

(** ** Events and histories *)

Inductive event :=
  | Created (id : string)
  | Attached (id : string)
  | Granted (id agent : string) (token expires : Z)
  | Renewed (id agent : string) (token : Z)
  | Completed (id agent : string) (token : Z) (ok : bool)
  | Requeued (id : string)
  | Nothing.

Definition status_of (ok : bool) : string := if ok then "succeeded" else "failed".

(** One statement on the table and what it did.  Jobs are created queued, which is
    what both callers of [CreateJob] pass. *)
Inductive step (ts : Z → Z) (t : gmap string row) : event → gmap string row → Prop :=
  | step_create job cmd :
      j_Status job = JobQueued → step ts t (Created (j_ID job)) (insert_job ts job cmd t)
  | step_attach id m prov t' n :
      sql_update id (λ _, true) (λ r, Some (manifest_update m prov r)) t = (Ok n, t') →
      step ts t (Attached id) t'
  | step_claim now id a secs tok exp t' :
      claim_stmt now id a secs t = (Ok (Some (tok, exp)), t') →
      step ts t (Granted id a tok exp) t'
  | step_heartbeat now id a tok secs t' :
      heartbeat_stmt now id a tok secs t = (Ok 1, t') → step ts t (Renewed id a tok) t'
  | step_finish id a tok ok cid arts metr t' :
      finish_stmt id a tok (status_of ok) cid arts metr t = (Ok 1, t') →
      step ts t (Completed id a tok ok) t'
  | step_requeue now id t' :
      requeue_stmt now id t = (Ok 1, t') → step ts t (Requeued id) t'
  | step_nothing : step ts t Nothing t.

(** A history, the newest event first, and the table it leads to. *)
Inductive run (ts : Z → Z) : list event → gmap string row → Prop :=
  | run_start : run ts [] ∅
  | run_step h t ev t' : run ts h t → step ts t ev t' → run ts (ev :: h) t'.

(** ** What a history says *)

Fixpoint grants (id : string) (h : list event) : list (string * Z) :=
  match h with
  | [] => []
  | Granted id' a k _ :: h' =>
      if String.eqb id' id then (a, k) :: grants id h' else grants id h'
  | _ :: h' => grants id h'
  end.

Fixpoint requeues (id : string) (h : list event) : nat :=
  match h with
  | [] => 0
  | Requeued id' :: h' => if String.eqb id' id then S (requeues id h') else requeues id h'
  | _ :: h' => requeues id h'
  end.

(** The agent and token of the last grant that was neither completed nor requeued. *)
Fixpoint holder (id : string) (h : list event) : option (string * Z) :=
  match h with
  | [] => None
  | Granted id' a k _ :: h' => if String.eqb id' id then Some (a, k) else holder id h'
  | Completed id' _ _ _ :: h' => if String.eqb id' id then None else holder id h'
  | Requeued id' :: h' => if String.eqb id' id then None else holder id h'
  | _ :: h' => holder id h'
  end.

(** ** The invariant of a row *)

Definition is_status (s : string) : Prop :=
  s = JobQueued ∨ s = JobAssigned ∨ s = JobRunning ∨ s = JobSucceeded ∨ s = JobFailed.

(** A job is held by an agent, with an expiry time, exactly while it is assigned or
    running; every requeue was preceded by a grant of its own. *)
Record row_ok (id : string) (r : row) : Prop := {
  ok_id : r_id r = id;
  ok_status : is_status (r_status r);
  ok_agent : is_Some (r_lease_agent r) ↔ active r = true;
  ok_expires : is_Some (r_lease_expires_at r) ↔ active r = true;
  ok_token : (0 <= r_lease_token r <= max_int64)%Z;
  ok_retry : (0 <= r_retry_count r <= max_int32)%Z;
  ok_retry_token : (r_retry_count r + (if active r then 1 else 0) <= r_lease_token r)%Z
}.

Definition table_ok (t : gmap string row) : Prop := map_Forall row_ok t.

(** ** [sql_update] *)

Inductive sql_update_spec (id : string) (cond : row → bool) (set : row → option row)
    (t : gmap string row) : result nat * gmap string row → Prop :=
  | upd_hit r r' :
      t !! id = Some r → cond r = true → set r = Some r' →
      sql_update_spec id cond set t (Ok 1, <[id := r']> t)
  | upd_miss :
      (∀ r, t !! id = Some r → cond r = false) →
      sql_update_spec id cond set t (Ok 0, t)
  | upd_range r :
      t !! id = Some r → cond r = true → set r = None →
      sql_update_spec id cond set t (Err out_of_range, t).

Lemma sql_updateP id cond set t : sql_update_spec id cond set t (sql_update id cond set t).
Proof.
  unfold sql_update. destruct (t !! id) as [r|] eqn:Hr.
  - destruct (cond r) eqn:Hc.
    + destruct (set r) as [r'|] eqn:Hs; [by apply (upd_hit _ _ _ _ r)|by apply (upd_range _ _ _ _ r)].
    + apply upd_miss. rewrite Hr. by intros r' [= <-].
  - apply upd_miss. rewrite Hr. by intros r'.
Qed.

Lemma sql_update_hit id cond set t r r' :
  t !! id = Some r → cond r = true → set r = Some r' →
  sql_update id cond set t = (Ok 1, <[id := r']> t).
Proof. unfold sql_update. intros Ht Hc Hs. by rewrite Ht, Hc, Hs. Qed.

Lemma sql_update_miss id cond set t :
  (∀ r, t !! id = Some r → cond r = false) → sql_update id cond set t = (Ok 0, t).
Proof. unfold sql_update. intros H. destruct (t !! id) as [r|]; [|done]. by rewrite H. Qed.

Lemma sql_update_answers id cond set t res t' :
  sql_update id cond set t = (res, t') →
  match res with Ok (S _) => is_Some (t' !! id) | _ => True end.
Proof.
  destruct (sql_updateP id cond set t); intros; simplify_eq; [|done..]. by rewrite lookup_insert_eq.
Qed.

Lemma sql_update_total id cond set t res t' :
  (∀ r, is_Some (set r)) → sql_update id cond set t = (res, t') → ∃ n, res = Ok n.
Proof.
  intros Hs. destruct (sql_updateP id cond set t) as [| |r _ _ Hn]; intros; simplify_eq; eauto.
  destruct (Hs r). congruence.
Qed.

Lemma sql_update_inv1 id cond set t t' :
  sql_update id cond set t = (Ok 1, t') →
  ∃ r r', t !! id = Some r ∧ cond r = true ∧ set r = Some r' ∧ t' = <[id := r']> t.
Proof. destruct (sql_updateP id cond set t); [|done..]. intros [= <-]. eauto 10. Qed.

(** A successful claim and the row it returns. *)
Lemma claim_inv now id a secs t tok exp t' :
  claim_stmt now id a secs t = (Ok (Some (tok, exp)), t') →
  ∃ r r', t !! id = Some r ∧ claim_cond now r = true ∧ claim_set now a secs r = Some r' ∧
    t' = <[id := r']> t ∧ tok = (r_lease_token r + 1)%Z ∧ exp = seconds_from now secs ∧
    (r_lease_token r < max_int64)%Z.
Proof.
  unfold claim_stmt. destruct (sql_updateP id (claim_cond now) (claim_set now a secs) t)
    as [r r' Hr Hc Hs| |]; [|done..].
  rewrite lookup_insert_eq. intros [= <- <- <-]. exists r, r'. split_and!; try done.
  - revert Hs. unfold claim_set, bigint_succ. case_match; [|done]. intros [= <-].
    by destruct r.
  - revert Hs. unfold claim_set, bigint_succ. destruct (Z.ltb_spec (r_lease_token r) max_int64); done.
Qed.

(** ** The invariant is preserved *)

(** A row with its columns in sight. *)
Ltac open_row r := destruct r; cbn in *; simplify_eq/=.

Lemma active_status r : active r = true ↔ r_status r = JobAssigned ∨ r_status r = JobRunning.
Proof. unfold active. by rewrite orb_true_iff, !String.eqb_eq. Qed.

Lemma active_queued r : r_status r = JobQueued → active r = false.
Proof. unfold active. by intros ->. Qed.

Lemma bigint_succ_Some z z' :
  bigint_succ z = Some z' → z' = (z + 1)%Z ∧ (z < max_int64)%Z.
Proof. unfold bigint_succ. destruct (Z.ltb_spec z max_int64); naive_solver. Qed.

Lemma int_succ_Some z z' : int_succ z = Some z' → z' = (z + 1)%Z ∧ (z < max_int32)%Z.
Proof. unfold int_succ. destruct (Z.ltb_spec z max_int32); naive_solver. Qed.

Lemma claim_set_inv now a secs r r' :
  claim_set now a secs r = Some r' →
  (r_lease_token r < max_int64)%Z ∧
  r' = set_status "assigned" (set_lease_token (r_lease_token r + 1)
    (set_lease_expires_at (Some (seconds_from now secs)) (set_lease_agent (Some a) r))).
Proof.
  unfold claim_set. destruct (bigint_succ (r_lease_token r)) as [z|] eqn:E; [|done]; simpl.
  apply bigint_succ_Some in E as [-> ?]. by intros [= <-].
Qed.

Lemma requeue_set_inv r r' :
  requeue_set r = Some r' →
  (r_retry_count r < max_int32)%Z ∧
  r' = set_retry_count (r_retry_count r + 1) (set_lease_expires_at None
    (set_lease_agent None (set_status "queued" r))).
Proof.
  unfold requeue_set. destruct (int_succ (r_retry_count r)) as [z|] eqn:E; [|done]; simpl.
  apply int_succ_Some in E as [-> ?]. by intros [= <-].
Qed.

Lemma is_some_iff {A} (x : A) (b : bool) : b = true → is_Some (Some x) ↔ b = true.
Proof. intros ->. split; eauto. Qed.
Lemma is_none_iff {A} (b : bool) : b = false → is_Some (None : option A) ↔ b = true.
Proof. intros ->. split; [by intros [? ?]|done]. Qed.

Create HintDb lease discriminated.
#[export] Hint Resolve is_some_iff is_none_iff : lease.

(** The columns of a row against [row_ok]. *)
Ltac solve_row_ok :=
  split; cbn; auto with lease;
  unfold is_status, JobQueued, JobAssigned, JobRunning, JobSucceeded, JobFailed,
    max_int64, max_int32, two63 in *;
  try lia; auto.

Lemma claim_row_ok now a secs id r r' :
  row_ok id r → claim_cond now r = true → claim_set now a secs r = Some r' → row_ok id r'.
Proof.
  intros [Hid Hst Hag Hex Htok Hre Hrt] Hc Hs.
  apply claim_set_inv in Hs as [Hlt ->].
  apply andb_true_iff in Hc as [Hq%String.eqb_eq _].
  rewrite (active_queued r Hq) in *. open_row r. solve_row_ok.
Qed.

Lemma heartbeat_row_ok now secs a tok id r :
  row_ok id r → heartbeat_cond a tok r = true → row_ok id (heartbeat_set now secs r).
Proof.
  intros [Hid Hst Hag Hex Htok Hre Hrt] Hc.
  apply andb_true_iff in Hc as [Ha _].
  assert (active r = true) as Hact.
  { apply Hag. unfold agent_is in Ha. destruct (r_lease_agent r); [eauto|done]. }
  rewrite Hact in Hrt, Hag.
  open_row r. solve_row_ok.
Qed.

Lemma finish_row_ok ok cid arts metr id r :
  row_ok id r → row_ok id (finish_set (status_of ok) cid arts metr r).
Proof.
  intros [Hid Hst Hag Hex Htok Hre Hrt].
  assert (r_retry_count r <= r_lease_token r)%Z by (destruct (active r); lia).
  open_row r. destruct ok; solve_row_ok.
Qed.

Lemma requeue_row_ok now id r r' :
  row_ok id r → is_expired now r = true → requeue_set r = Some r' → row_ok id r'.
Proof.
  intros [Hid Hst Hag Hex Htok Hre Hrt] Hc Hs.
  apply requeue_set_inv in Hs as [Hlt ->].
  unfold is_expired in Hc. apply andb_true_iff in Hc as [Hc _].
  apply andb_true_iff in Hc as [Hact _]. rewrite Hact in Hrt.
  open_row r. solve_row_ok.
Qed.

Lemma manifest_row_ok m prov id r : row_ok id r → row_ok id (manifest_update m prov r).
Proof. intros [Hid Hst Hag Hex Htok Hre Hrt]. open_row r. by split. Qed.

Lemma insert_job_ok ts job cmd t :
  j_Status job = JobQueued → table_ok t → table_ok (insert_job ts job cmd t).
Proof.
  intros Hq Ht. unfold insert_job. destruct (t !! j_ID job) eqn:E; [done|].
  apply map_Forall_insert_2; [|done]. rewrite Hq.
  solve_row_ok.
Qed.

#[export] Hint Resolve claim_row_ok heartbeat_row_ok finish_row_ok requeue_row_ok
  manifest_row_ok insert_job_ok : lease.

Lemma table_ok_lookup t id r : table_ok t → t !! id = Some r → row_ok id r.
Proof. intros Ht Hr. exact (Ht id r Hr). Qed.

Lemma table_ok_insert t id r : table_ok t → row_ok id r → table_ok (<[id := r]> t).
Proof. intros. by apply map_Forall_insert_2. Qed.
#[export] Hint Resolve table_ok_lookup table_ok_insert : lease.

Lemma sql_update_ok id cond set t :
  table_ok t →
  (∀ r r', row_ok id r → cond r = true → set r = Some r' → row_ok id r') →
  table_ok (sql_update id cond set t).2.
Proof.
  intros Ht Hset. destruct (sql_updateP id cond set t); simpl; [|done..].
  eauto with lease.
Qed.

Lemma step_table_ok ts t ev t' : table_ok t → step ts t ev t' → table_ok t'.
Proof.
  intros Ht Hs. destruct Hs as [job cmd|id m prov t' n Hu|now id a secs tok exp t' Hc
    |now id a tok secs t' Hh|id a tok ok cid arts metr t' Hf|now id t' Hr|].
  - by apply insert_job_ok.
  - pose proof (sql_update_ok id (λ _, true) (λ r, Some (manifest_update m prov r)) t Ht) as Hok.
    rewrite Hu in Hok. apply Hok. intros r r' ? _ [= <-]. auto with lease.
  - apply claim_inv in Hc as (r & r' & ? & ? & ? & -> & _). eauto with lease.
  - apply sql_update_inv1 in Hh as (r & r' & ? & ? & [= <-] & ->). eauto with lease.
  - apply sql_update_inv1 in Hf as (r & r' & ? & ? & [= <-] & ->). eauto with lease.
  - apply sql_update_inv1 in Hr as (r & r' & ? & ? & ? & ->). eauto with lease.
  - done.
Qed.

Lemma run_table_ok ts h t : run ts h t → table_ok t.
Proof. induction 1; [apply map_Forall_empty|]. by eapply step_table_ok. Qed.

(** ** The row of a job against its history *)

Fixpoint countdown (n : nat) : list Z :=
  match n with O => [] | S m => Z.of_nat n :: countdown m end.

Record hist_row (id : string) (h : list event) (r : row) : Prop := {
  hr_token : r_lease_token r = Z.of_nat (length (grants id h));
  hr_tokens : (grants id h).*2 = countdown (length (grants id h));
  hr_retry : r_retry_count r = Z.of_nat (requeues id h);
  hr_agent : r_lease_agent r = fst <$> holder id h;
  hr_holder a k : holder id h = Some (a, k) → k = r_lease_token r
}.

Definition hist_ok (h : list event) (t : gmap string row) : Prop :=
  ∀ id, match t !! id with
        | None => grants id h = [] ∧ requeues id h = 0 ∧ holder id h = None
        | Some r => hist_row id h r
        end.

(** The id an event is about. *)
Definition event_id (ev : event) : option string :=
  match ev with
  | Created id | Attached id | Granted id _ _ _ | Renewed id _ _
  | Completed id _ _ _ | Requeued id => Some id
  | Nothing => None
  end.

Lemma history_other id ev h :
  event_id ev ≠ Some id →
  grants id (ev :: h) = grants id h ∧ requeues id (ev :: h) = requeues id h ∧
  holder id (ev :: h) = holder id h.
Proof.
  intros Hne. destruct ev; simpl in *; try done;
    by rewrite (proj2 (String.eqb_neq _ _)) by (intros ->; done).
Qed.

(** A step changes the row of its own id only. *)
Lemma step_other ts t ev t' id :
  step ts t ev t' → event_id ev ≠ Some id → t' !! id = t !! id.
Proof.
  intros Hs Hne. destruct Hs as [job cmd|i m prov t' n Hu|now i a secs tok exp t' Hc
    |now i a tok secs t' Hh|i a tok ok cid arts metr t' Hf|now i t' Hr|]; simpl in Hne;
    try (assert (i ≠ id) by congruence).
  - unfold insert_job. destruct (t !! j_ID job); [done|].
    rewrite lookup_insert_ne; [done|congruence].
  - destruct (sql_updateP i (λ _, true) (λ r, Some (manifest_update m prov r)) t);
      simplify_eq; [|done..]. by rewrite lookup_insert_ne.
  - apply claim_inv in Hc as (r & r' & ? & ? & ? & -> & _). by rewrite lookup_insert_ne.
  - apply sql_update_inv1 in Hh as (r & r' & ? & ? & ? & ->). by rewrite lookup_insert_ne.
  - apply sql_update_inv1 in Hf as (r & r' & ? & ? & ? & ->). by rewrite lookup_insert_ne.
  - apply sql_update_inv1 in Hr as (r & r' & ? & ? & ? & ->). by rewrite lookup_insert_ne.
  - done.
Qed.

(** What each statement does to a row, as the history sees it. *)
Lemma claim_hist now a secs exp id h r r' :
  hist_row id h r → claim_set now a secs r = Some r' →
  hist_row id (Granted id a (r_lease_token r + 1) exp :: h) r'.
Proof.
  intros [Ht Hts Hr Ha Hh] Hs. apply claim_set_inv in Hs as [_ ->].
  split; simpl; rewrite ?String.eqb_refl; destruct r; cbn in *; try done; simplify_eq/=.
  - rewrite Nat2Z.inj_succ. lia.
  - f_equal; [lia|done].
  - by intros ? ? [= <- <-].
Qed.

Lemma heartbeat_hist now secs a tok id h r :
  hist_row id h r → hist_row id (Renewed id a tok :: h) (heartbeat_set now secs r).
Proof. intros [Ht Hts Hr Ha Hh]. by destruct r; split. Qed.

Lemma finish_hist a tok ok cid arts metr id h r :
  hist_row id h r →
  hist_row id (Completed id a tok ok :: h) (finish_set (status_of ok) cid arts metr r).
Proof.
  intros [Ht Hts Hr Ha Hh]. destruct r; split; simpl; rewrite ?String.eqb_refl; done.
Qed.

Lemma requeue_hist id h r r' :
  hist_row id h r → requeue_set r = Some r' → hist_row id (Requeued id :: h) r'.
Proof.
  intros [Ht Hts Hr Ha Hh] Hs. apply requeue_set_inv in Hs as [_ ->].
  destruct r; split; simpl in *; rewrite ?String.eqb_refl; try done.
  rewrite Nat2Z.inj_succ. lia.
Qed.

Lemma manifest_hist m prov id h r :
  hist_row id h r → hist_row id (Attached id :: h) (manifest_update m prov r).
Proof. intros [Ht Hts Hr Ha Hh]. by destruct r; split. Qed.

#[export] Hint Resolve claim_hist heartbeat_hist finish_hist requeue_hist manifest_hist : lease.

Lemma hist_ok_insert ev h t id r r' :
  hist_ok h t → event_id ev = Some id → t !! id = Some r →
  (hist_row id h r → hist_row id (ev :: h) r') →
  hist_ok (ev :: h) (<[id := r']> t).
Proof.
  intros Hh Hev Hr Hrow id'. destruct (decide (id = id')) as [<-|Hne].
  - rewrite lookup_insert_eq. apply Hrow. specialize (Hh id). by rewrite Hr in Hh.
  - rewrite lookup_insert_ne by done. specialize (Hh id').
    destruct (history_other id' ev h ltac:(congruence)) as (Hg & Hq & Hho).
    destruct (t !! id') as [r0|]; [|by rewrite Hg, Hq, Hho].
    destruct Hh as [H1 H2 H3 H4 H5]. split; rewrite ?Hg, ?Hq, ?Hho; done.
Qed.

Lemma hist_ok_nop ev h t :
  (∀ id, grants id (ev :: h) = grants id h ∧ requeues id (ev :: h) = requeues id h ∧
    holder id (ev :: h) = holder id h) →
  hist_ok h t → hist_ok (ev :: h) t.
Proof.
  intros Hev Hh id. destruct (Hev id) as (Hg & Hq & Hho). specialize (Hh id).
  destruct (t !! id) as [r0|]; [|by rewrite Hg, Hq, Hho].
  destruct Hh as [H1 H2 H3 H4 H5]. split; rewrite ?Hg, ?Hq, ?Hho; done.
Qed.

Lemma create_hist_ok ts job cmd h t :
  hist_ok h t → hist_ok (Created (j_ID job) :: h) (insert_job ts job cmd t).
Proof.
  intros Hh. apply hist_ok_nop; [done|]. unfold insert_job.
  destruct (t !! j_ID job) eqn:E; [done|]. intros id.
  destruct (decide (j_ID job = id)) as [<-|Hne].
  - rewrite lookup_insert_eq. specialize (Hh (j_ID job)). rewrite E in Hh.
    destruct Hh as (Hg & Hq & Hho). split; rewrite ?Hg, ?Hq, ?Hho; done.
  - rewrite lookup_insert_ne by done. apply Hh.
Qed.

Lemma step_hist_ok ts h t ev t' : hist_ok h t → step ts t ev t' → hist_ok (ev :: h) t'.
Proof.
  intros Hh Hs. destruct Hs as [job cmd Hq|i m prov t' n Hu|now i a secs tok exp t' Hc
    |now i a tok secs t' Hb|i a tok ok cid arts metr t' Hf|now i t' Hr|].
  - by apply create_hist_ok.
  - destruct (sql_updateP i (λ _, true) (λ r, Some (manifest_update m prov r)) t)
      as [r r' ? ? [= <-]| |]; simplify_eq;
      [eapply hist_ok_insert; eauto with lease|by apply hist_ok_nop].
  - apply claim_inv in Hc as (r & r' & ? & ? & ? & -> & -> & -> & _).
    eapply hist_ok_insert; eauto with lease.
  - apply sql_update_inv1 in Hb as (r & r' & ? & ? & [= <-] & ->).
    eapply hist_ok_insert; eauto with lease.
  - apply sql_update_inv1 in Hf as (r & r' & ? & ? & [= <-] & ->).
    eapply hist_ok_insert; eauto with lease.
  - apply sql_update_inv1 in Hr as (r & r' & ? & ? & ? & ->).
    eapply hist_ok_insert; eauto with lease.
  - by apply hist_ok_nop.
Qed.

Lemma run_hist_ok ts h t : run ts h t → hist_ok h t.
Proof. induction 1; [by intros id; rewrite lookup_empty|]. by eapply step_hist_ok. Qed.

Lemma run_hist_row ts h t id r : run ts h t → t !! id = Some r → hist_row id h r.
Proof. intros Hr Hl. pose proof (run_hist_ok _ _ _ Hr id) as H. by rewrite Hl in H. Qed.
