(* ===== verification/LeaseSpec.v ===== *)
(** * An abstract lease service, and the store as its implementation

    The service keeps, per job, one phase, an epoch (the fencing token of the last
    grant) and a count of the requeues.  A phase [Held] names its one holder, so
    exclusion is part of the type.  [spec_call] is the service's reply to a call and the
    state after it.  [abs_row] reads a row of [demand_jobs] as a job of the service, and
    every statement of [PGStore] that changes a lease is the service's operation under
    it. *)
From Stdlib Require Import String.
From S2P Require Import Prelude GoStrings GoTime Json LeaseTypes PGStore LeaseProtocol.

Local Open Scope string_scope.

(** ** The service *)

Inductive phase :=
  | Waiting
  | Held (agent : string) (expires : Z) (beating : bool)
  | Done (ok : bool).

Record ajob := MkAJob {
  a_phase : phase;
  a_epoch : Z;
  a_requeues : Z
}.

Abbreviation service := (gmap string ajob).

Definition spec_create (id : string) (s : service) : service :=
  match s !! id with
  | Some _ => s
  | None => <[id := MkAJob Waiting 0 0]> s
  end.

(** A job that is waiting is granted to whoever asks, under a new epoch, until the
    epochs run out. *)
Definition spec_claim (until : Z) (agent : string) (j : ajob) : option ajob :=
  match a_phase j with
  | Waiting =>
      if (a_epoch j <? max_int64)%Z
      then Some (MkAJob (Held agent until false) (a_epoch j + 1) (a_requeues j)) else None
  | _ => None
  end.

(** The holder renews its lease under its own epoch, expired or not. *)
Definition spec_renew (until : Z) (agent : string) (token : Z) (j : ajob) : option ajob :=
  match a_phase j with
  | Held a _ _ =>
      if String.eqb a agent && (a_epoch j =? token)%Z
      then Some (MkAJob (Held a until true) (a_epoch j) (a_requeues j)) else None
  | _ => None
  end.

(** The holder completes its job; a job nobody holds is completed by anyone whose
    token is not behind the epoch. *)
Definition spec_complete (agent : string) (token : Z) (ok : bool) (j : ajob) : option ajob :=
  let done := MkAJob (Done ok) (a_epoch j) (a_requeues j) in
  if (a_epoch j <=? token)%Z then
    match a_phase j with
    | Held a _ _ => if String.eqb a agent then Some done else None
    | _ => Some done
    end
  else None.

(** A lease that ran out is taken back, until the count of requeues is full. *)
Definition spec_expire (now : Z) (j : ajob) : option ajob :=
  match a_phase j with
  | Held _ x _ =>
      if (x <? now)%Z && (a_requeues j <? max_int32)%Z then Some (MkAJob Waiting (a_epoch j) (a_requeues j + 1)) else None
  | _ => None
  end.

(** An operation on the service, and the job after it when it took place. *)
Definition spec_op (f : ajob → option ajob) (id : string) (s : service) : option ajob * service :=
  match s !! id ≫= f with
  | Some j => (Some j, <[id := j]> s)
  | None => (None, s)
  end.

(** *** Calls and replies *)

Inductive call :=
  | CallCreate (job : DBJob)
  | CallGet (id : string)
  | CallAttach (id : string) (m : StoreManifest)
  | CallClaim (id agent : string) (ttl : Z)
  | CallHeartbeat (id agent : string) (token ttl : Z)
  | CallFinish (id agent : string) (token : Z) (ok : bool) (cid : string)
      (arts : slice string) (metr : option json)
  | CallExpired (now : Z)
  | CallRequeue (id : string)
  | CallList
  | CallMissing (cutoff : Z)
  | CallListAll
  | CallPage (limit offset : Z)
  | CallCount.

(** What a caller learns: an error, [nil], a lease, the state of a job, or a listing,
    whose rows are not told apart here. *)
Inductive reply :=
  | RErr
  | RNil
  | RLease (agent : string) (until token : Z)
  | RJob (status : JobStatus) (requeues : Z)
  | RList.

Definition phase_status (p : phase) : JobStatus :=
  match p with
  | Waiting => JobQueued
  | Held _ _ false => JobAssigned
  | Held _ _ true => JobRunning
  | Done true => JobSucceeded
  | Done false => JobFailed
  end.

(** [nil] for an operation that took place, an error for one that did not. *)
Definition nil_if (r : option ajob * service) : reply * service :=
  (match r.1 with Some _ => RNil | None => RErr end, r.2).

(** The service's answer to a call at the server's time, when the server executes
    it.  A completion is answered by [nil] whether it took place or not. *)
Definition spec_answer (now : Z) (c : call) (s : service) : reply * service :=
  match c with
  | CallCreate job => (RNil, spec_create (j_ID job) s)
  | CallGet id =>
      (match s !! id with
       | Some j => RJob (phase_status (a_phase j)) (a_requeues j)
       | None => RErr
       end, s)
  | CallAttach id _ => (match s !! id with Some _ => RNil | None => RErr end, s)
  | CallClaim id a ttl =>
      let until := seconds_from now (int_Seconds ttl) in
      let (o, s') := spec_op (spec_claim until a) id s in
      (match o with Some j => RLease a until (uint64_of (a_epoch j)) | None => RErr end, s')
  | CallHeartbeat id a tok ttl =>
      nil_if (spec_op (spec_renew (seconds_from now (int_Seconds ttl)) a (wrap64 tok)) id s)
  | CallFinish id a tok ok _ _ _ => (RNil, (spec_op (spec_complete a (wrap64 tok) ok) id s).2)
  | CallRequeue id => nil_if (spec_op (spec_expire now) id s)
  | CallExpired _ | CallList | CallMissing _ | CallListAll | CallPage _ _ | CallCount => (RList, s)
  end.

(** A call whose statement the server does not execute is an error, and nothing
    happens. *)
Definition spec_call (x : stmt) (c : call) (s : service) : reply * service :=
  match sx_err x with
  | Some _ => (RErr, s)
  | None => spec_answer (sx_now x) c s
  end.

Fixpoint spec_calls (xs : list stmt) (cs : list call) (s : service) : list reply * service :=
  match xs, cs with
  | x :: xs', c :: cs' =>
      let (r, s1) := spec_call x c s in
      let (rs, s2) := spec_calls xs' cs' s1 in
      (r :: rs, s2)
  | _, _ => ([], s)
  end.

(** ** The abstraction *)

Definition abs_phase (r : row) : phase :=
  match r_lease_agent r, r_lease_expires_at r with
  | Some a, Some x => Held a x (String.eqb (r_status r) "running")
  | _, _ =>
      if String.eqb (r_status r) "queued" then Waiting
      else Done (String.eqb (r_status r) "succeeded")
  end.

Definition abs_row (r : row) : ajob :=
  MkAJob (abs_phase r) (r_lease_token r) (r_retry_count r).

Definition abs_table (t : gmap string row) : service := abs_row <$> t.

(** ** Rows *)

(** The three shapes of a row that satisfies the invariant. *)
Inductive row_shape (r : row) : phase → Prop :=
  | shape_waiting :
      r_status r = JobQueued → r_lease_agent r = None → r_lease_expires_at r = None →
      row_shape r Waiting
  | shape_held a x b :
      r_lease_agent r = Some a → r_lease_expires_at r = Some x →
      r_status r = (if b : bool then JobRunning else JobAssigned) → row_shape r (Held a x b)
  | shape_done b :
      r_status r = status_of b → r_lease_agent r = None → r_lease_expires_at r = None →
      row_shape r (Done b).

Lemma row_shapeP id r : row_ok id r → row_shape r (abs_phase r).
Proof.
  intros [_ Hst Hag Hex _ _ _]. unfold abs_phase.
  rewrite active_status in Hag, Hex.
  destruct (r_lease_agent r) as [a|] eqn:Ea, (r_lease_expires_at r) as [x|] eqn:Ex.
  - apply shape_held; [done..|]. destruct (proj1 Hag ltac:(eauto)) as [-> | ->]; done.
  - destruct (proj2 Hex (proj1 Hag ltac:(eauto))) as [? [=]].
  - destruct (proj2 Hag (proj1 Hex ltac:(eauto))) as [? [=]].
  - assert (¬ (r_status r = JobAssigned ∨ r_status r = JobRunning)) as Hna.
    { intros H. destruct (proj2 Hag H) as [? [=]]. }
    destruct Hst as [H|[H|[H|[H|H]]]]; try (destruct Hna; auto; fail); rewrite H; simpl.
    + by apply shape_waiting.
    + by apply (shape_done r true).
    + by apply (shape_done r false).
Qed.

Lemma shape_active r p : row_shape r p →
  active r = match p with Held _ _ _ => true | _ => false end.
Proof.
  unfold active. intros [->|a x b _ _ ->|b -> _ _]; [done|by destruct b|by destruct b].
Qed.

Lemma claim_cond_shape now r p : row_shape r p →
  claim_cond now r = match p with Waiting => true | _ => false end.
Proof.
  unfold claim_cond. intros [-> _ ->|a x b _ -> ->|b -> _ ->]; [done|by destruct b|by destruct b].
Qed.

Lemma heartbeat_cond_shape a tok r p : row_shape r p →
  heartbeat_cond a tok r =
  match p with Held b _ _ => String.eqb b a && (r_lease_token r =? tok)%Z | _ => false end.
Proof. unfold heartbeat_cond, agent_is. by intros [_ -> _|b x c -> _ _|b _ -> _]. Qed.

Lemma finish_cond_shape a tok r p : row_shape r p →
  finish_cond a tok r =
  match p with Held b _ _ => String.eqb b a | _ => true end && (r_lease_token r <=? tok)%Z.
Proof.
  unfold finish_cond, agent_is.
  intros [_ -> _|b x c -> _ _|b _ -> _]; simpl; [done| |done]. by rewrite orb_false_r.
Qed.

Lemma is_expired_shape now r p : row_shape r p →
  is_expired now r = match p with Held _ x _ => (x <? now)%Z | _ => false end.
Proof.
  intros Hp. unfold is_expired, expired_before. rewrite (shape_active r p Hp).
  by destruct Hp as [_ _ _|b x c _ -> _|b _ _ _].
Qed.

(** ** Refinement of a conditional update *)

Lemma sql_update_refines id (cond : row → bool) (set : row → option row) f t res t' :
  table_ok t →
  (∀ r, row_ok id r → f (abs_row r) = if cond r then abs_row <$> set r else None) →
  sql_update id cond set t = (res, t') →
  spec_op f id (abs_table t) =
    (match res with Ok (S _) => abs_row <$> t' !! id | _ => None end, abs_table t').
Proof.
  intros Ht Hf. unfold spec_op, abs_table. rewrite lookup_fmap.
  destruct (sql_updateP id cond set t) as [r r' Hr Hc Hs|Hm|r Hr Hc Hs].
  - intros [= <- <-]. rewrite Hr; simpl. rewrite Hf by eauto with lease.
    rewrite Hc, Hs, lookup_insert_eq; simpl. by rewrite fmap_insert.
  - intros [= <- <-]. destruct (t !! id) as [r|] eqn:Hr; simpl; [|done].
    rewrite Hf by eauto with lease. by rewrite Hm.
  - intros [= <- <-]. rewrite Hr; simpl. rewrite Hf by eauto with lease. by rewrite Hc, Hs.
Qed.

(** A grant, with the token and the expiry the statement returns. *)
Lemma spec_op_claim_stmt now id a secs t res t' :
  table_ok t → claim_stmt now id a secs t = (res, t') →
  ∃ o, spec_op (spec_claim (seconds_from now secs) a) id (abs_table t) = (o, abs_table t') ∧
    match o with
    | Some j => res = Ok (Some (a_epoch j, seconds_from now secs))
    | None => res = Ok None ∨ ∃ e, res = Err e
    end.
Proof.
  intros Ht Hc. unfold claim_stmt in Hc.
  destruct (sql_update id (claim_cond now) (claim_set now a secs) t) as [ru t1] eqn:Hu.
  eexists. split.
  - assert (t' = t1) as -> by (repeat case_match; congruence).
    eapply sql_update_refines; [done| |exact Hu].
    intros r Hok. pose proof (row_shapeP id r Hok) as Hsh. unfold spec_claim, claim_set, bigint_succ; simpl.
    rewrite (claim_cond_shape now r _ Hsh). destruct Hsh; [|done..].
    destruct (r_lease_token r <? max_int64)%Z; [|done]. by destruct r.
  - revert Hc. destruct ru as [[|n]|e]; intros; simplify_eq/=; eauto.
    by destruct (t' !! id) eqn:Hl; simpl; eauto.
Qed.

Lemma spec_op_heartbeat_stmt now id a tok secs t res t' :
  table_ok t → heartbeat_stmt now id a tok secs t = (res, t') →
  spec_op (spec_renew (seconds_from now secs) a tok) id (abs_table t) =
    (match res with Ok (S _) => abs_row <$> t' !! id | _ => None end, abs_table t').
Proof.
  intros Ht Hu. eapply sql_update_refines; [done| |exact Hu].
  intros r Hok. pose proof (row_shapeP id r Hok) as Hsh. unfold spec_renew; simpl.
  rewrite (heartbeat_cond_shape a tok r _ Hsh).
  destruct Hsh as [|b x c Hb|]; [done| |done]. destruct (String.eqb b a && _); [|done].
  by destruct r; simpl in *; subst.
Qed.

Lemma spec_op_finish_stmt id a tok ok cid arts metr t res t' :
  table_ok t → finish_stmt id a tok (status_of ok) cid arts metr t = (res, t') →
  spec_op (spec_complete a tok ok) id (abs_table t) =
    (match res with Ok (S _) => abs_row <$> t' !! id | _ => None end, abs_table t').
Proof.
  intros Ht Hu. eapply sql_update_refines; [done| |exact Hu].
  intros r Hok. pose proof (row_shapeP id r Hok) as Hsh. unfold spec_complete; simpl.
  rewrite (finish_cond_shape a tok r _ Hsh).
  assert (abs_row (finish_set (status_of ok) cid arts metr r) =
    MkAJob (Done ok) (r_lease_token r) (r_retry_count r)) as Habs by by destruct r, ok.
  destruct (r_lease_token r <=? tok)%Z; rewrite ?andb_false_r, ?andb_true_r; [|done].
  destruct Hsh as [|b x c|]; simpl; rewrite Habs; [done| |done]. by destruct (String.eqb b a).
Qed.

Lemma spec_op_requeue_stmt now id t res t' :
  table_ok t → requeue_stmt now id t = (res, t') →
  spec_op (spec_expire now) id (abs_table t) =
    (match res with Ok (S _) => abs_row <$> t' !! id | _ => None end, abs_table t').
Proof.
  intros Ht Hu. eapply sql_update_refines; [done| |exact Hu].
  intros r Hok. pose proof (row_shapeP id r Hok) as Hsh. unfold spec_expire, requeue_set, int_succ; simpl.
  rewrite (is_expired_shape now r _ Hsh).
  destruct Hsh as [|b x c|]; [done| |done]. destruct (x <? now)%Z; [|done]. simpl.
  destruct (r_retry_count r <? max_int32)%Z; [|done]. by destruct r.
Qed.

Lemma spec_create_insert ts job cmd t :
  j_Status job = JobQueued →
  spec_create (j_ID job) (abs_table t) = abs_table (insert_job ts job cmd t).
Proof.
  intros Hq. unfold spec_create, insert_job, abs_table. rewrite lookup_fmap.
  destruct (t !! j_ID job); simpl; [done|]. rewrite fmap_insert.
  unfold abs_row, abs_phase; simpl. by rewrite Hq.
Qed.

Lemma abs_attach m prov id t :
  ∃ t', sql_update id (λ _, true) (λ r, Some (manifest_update m prov r)) t =
      (Ok (match t !! id with Some _ => 1 | None => 0 end), t') ∧ abs_table t' = abs_table t.
Proof.
  unfold sql_update. destruct (t !! id) as [r|] eqn:Hr; eexists; (split; [reflexivity|]); [|done].
  unfold abs_table. rewrite fmap_insert, insert_id; [done|].
  rewrite lookup_fmap, Hr. by destruct r.
Qed.

(** The status column of a well-formed row is its phase. *)
Lemma phase_status_row id r : row_ok id r → r_status r = phase_status (abs_phase r).
Proof. intros Hsh%row_shapeP. by destruct Hsh as [-> _ _|a x [] _ _ ->|[] -> _ _]. Qed.
