(* ===== verification/PGMethods.v ===== *)
(** * The methods of [PGStore] as steps of the lease protocol

    Each method runs to its end and is one step of the transition system, or none;
    its result on every branch, when the server executes its statements. *)
From Stdlib Require Import String.
From stdpp Require Import sorting.
From S2P Require Import Prelude GoStrings GoTime Json LeaseTypes PGStore LeaseProtocol LeaseSpec.

Local Open Scope string_scope.

(** A list of strings is written and read back. *)
Lemma enc_strings (l : slice string) :
  ∃ j, toJSON (c_slice c_string) l = Ok j ∧ scan_command j = l.
Proof.
  unfold toJSON; simpl. destruct l as [l|]; [|by eexists].
  assert (∃ js, enc_list c_string l = Some js ∧ dec_list c_string js = (l, DOk)) as (js & -> & Hd).
  { induction l as [|x l (js & IH & Hd)]; simpl; [by eexists|]. rewrite IH. simpl.
    eexists. split; [done|]. simpl. by rewrite Hd. }
  eexists. split; [done|]. simpl. by rewrite Hd.
Qed.

Section methods.
Context {P : Type} `{!PGServer P}.
Implicit Types (s : PGStore P).

(** The outcome of the next statement and the server after it. *)
Definition nxt s : stmt := (pg_stmt (pg_srv s)).1.
Definition after s : P := (pg_stmt (pg_srv s)).2.

(** The server executes the next statement. *)
Definition healthy s : Prop := sx_err (nxt s) = None.

Lemma exec_ok {A} (f : Z → gmap string row → result A * gmap string row) s :
  healthy s →
  exec f s = (Ret (f (sx_now (nxt s)) (pg_table s)).1,
              MkPGStore (after s) (f (sx_now (nxt s)) (pg_table s)).2).
Proof.
  unfold healthy, exec, nxt, after. destruct (pg_stmt (pg_srv s)) as [x p]; simpl.
  intros ->. by destruct (f (sx_now x) (pg_table s)).
Qed.

Lemma exec_err {A} (f : Z → gmap string row → result A * gmap string row) s e :
  sx_err (nxt s) = Some e → exec f s = (Ret (Err e), MkPGStore (after s) (pg_table s)).
Proof.
  unfold exec, nxt, after. destruct (pg_stmt (pg_srv s)) as [x p]; simpl. by intros ->.
Qed.

Lemma query_ok {A} (q : list row → list A) s :
  healthy s → sx_rows (nxt s) = None →
  query q s = (Ret (Ok (q (pg_scan (pg_srv s) (pg_table s)))), MkPGStore (after s) (pg_table s)).
Proof.
  unfold healthy, query, nxt, after. destruct (pg_stmt (pg_srv s)) as [x p]; simpl.
  by intros -> ->.
Qed.

(** A query fails with the server's error or gives some rows, and changes nothing. *)
Lemma query_replies {A} (q : list row → list A) s :
  ∃ r s', query q s = (Ret r, s') ∧ pg_table s' = pg_table s ∧
    match sx_err (nxt s) with Some e => r = Err e | None => ∃ l, r = Ok l end.
Proof.
  unfold query, nxt. destruct (pg_stmt (pg_srv s)) as [x p]; simpl.
  destruct (sx_err x); eexists _, _; eauto.
Qed.

(** ** Every method is a step *)

(** [m] returns, and what it did to the table is one step. *)
Definition is_step {A} (m : M (PGStore P) A) : Prop :=
  ∀ s, ∃ a s' ev, m s = (Ret a, s') ∧ step pg_ts (pg_table s) ev (pg_table s').

(** [m] returns and leaves the table alone. *)
Definition read_only {A} (m : M (PGStore P) A) : Prop :=
  ∀ s, ∃ a s', m s = (Ret a, s') ∧ pg_table s' = pg_table s.

Lemma read_only_step {A} (m : M (PGStore P) A) : read_only m → is_step m.
Proof.
  intros Hm s. destruct (Hm s) as (a & s' & Ha & Ht). exists a, s', Nothing.
  split; [done|]. rewrite Ht. constructor.
Qed.

Lemma read_only_ret {A} (a : A) : read_only (mret a).
Proof. intros s. by exists a, s. Qed.

Lemma read_only_bind {A B} (m : M (PGStore P) A) (k : A → M (PGStore P) B) :
  read_only m → (∀ a, read_only (k a)) → read_only (m ≫= k).
Proof.
  intros Hm Hk s. destruct (Hm s) as (a & s1 & Ha & H1). destruct (Hk a s1) as (b & s2 & Hb & H2).
  exists b, s2. run_step Ha. split; [done|]. congruence.
Qed.

Lemma step_bind {A B} (m : M (PGStore P) A) (k : A → M (PGStore P) B) :
  is_step m → (∀ a, read_only (k a)) → is_step (m ≫= k).
Proof.
  intros Hm Hk s. destruct (Hm s) as (a & s1 & ev & Ha & H1).
  destruct (Hk a s1) as (b & s2 & Hb & H2).
  exists b, s2, ev. run_step Ha. split; [done|]. by rewrite H2.
Qed.

Lemma exec_step {A} (f : Z → gmap string row → result A * gmap string row) :
  (∀ now t, ∃ ev, step pg_ts t ev (f now t).2) → is_step (exec f).
Proof.
  intros Hf s. destruct (sx_err (nxt s)) as [e|] eqn:He.
  - rewrite (exec_err f s e He). eexists _, _, Nothing. split; [done|constructor].
  - rewrite (exec_ok f s He). destruct (Hf (sx_now (nxt s)) (pg_table s)) as [ev Hev].
    by eexists _, _, ev.
Qed.

Lemma exec_read_only {A} (f : Z → gmap string row → result A * gmap string row) :
  (∀ now t, (f now t).2 = t) → read_only (exec f).
Proof.
  intros Hf s. destruct (sx_err (nxt s)) as [e|] eqn:He.
  - rewrite (exec_err f s e He). by eexists _, _.
  - rewrite (exec_ok f s He). eexists _, _. split; [done|]. apply Hf.
Qed.

Lemma query_read_only {A} (q : list row → list A) : read_only (query q).
Proof.
  intros s. unfold query. destruct (pg_stmt (pg_srv s)) as [x p].
  destruct (sx_err x); by eexists _, _.
Qed.

Lemma query_now_read_only {A} (q : Z → list row → list A) : read_only (query_now q).
Proof. intros s. apply query_read_only. Qed.

Create HintDb pgstep discriminated.
#[local] Hint Resolve read_only_ret exec_read_only query_read_only query_now_read_only : pgstep.

Lemma sql_update_step id cond set t ev :
  (∀ t', sql_update id cond set t = (Ok 1, t') → step pg_ts t ev t') →
  ∃ ev', step pg_ts t ev' (sql_update id cond set t).2.
Proof.
  intros H. destruct (sql_updateP id cond set t) as [r r'| |]; simpl;
    [by eexists; apply H|exists Nothing; constructor..].
Qed.

Lemma CreateJob_step job : j_Status job = JobQueued → is_step (CreateJob job).
Proof.
  intros Hq. simpl. unfold pg_CreateJob.
  destruct (toJSON _ _); [|by apply read_only_step, read_only_ret].
  apply step_bind; [|auto with pgstep]. apply exec_step. intros now t.
  eexists. by constructor.
Qed.

Lemma GetJob_read_only id : read_only (GetJob id).
Proof.
  simpl. unfold pg_GetJob. apply read_only_bind; [by apply exec_read_only|].
  intros [[r|]|e]; auto with pgstep.
Qed.

Lemma AttachManifest_step id m : is_step (AttachManifest id m).
Proof.
  simpl. unfold pg_AttachManifest.
  destruct (toJSON _ _) as [prov|]; [|by apply read_only_step, read_only_ret].
  apply step_bind; [|intros [[|n]|e]; auto with pgstep].
  apply exec_step. intros now t. eapply sql_update_step.
  intros t' Ht. by econstructor.
Qed.

(** A claim that was not granted looks for the reason: whatever it finds, the result
    is an error. *)
Lemma claim_reason id s :
  ∃ e s', (j ← pg_GetJob id;
    match j with
    | Err gerr => mret (Err gerr)
    | Ok _ =>
        r2 ← exec (λ now t, (Ok (claim_probe now <$> t !! id), t));
        match r2 with
        | Ok (Some (rootCID, _)) =>
            if String.eqb (default "" rootCID) "" then mret (Err ErrNoManifest)
            else mret (Err ErrLeaseConflict)
        | _ => mret (Err ErrLeaseConflict)
        end
    end) s = (Ret (Err e : result StoreLease), s') ∧ pg_table s' = pg_table s.
Proof.
  destruct (GetJob_read_only id s) as (j & s1 & Hj & Ht). simpl in Hj. run_step Hj.
  destruct j as [j|e]; [|by eexists _, _].
  destruct (exec_read_only (λ now t, (Ok (claim_probe now <$> t !! id), t)) ltac:(done) s1)
    as (r2 & s2 & H2 & Ht2). run_step H2. rewrite <- Ht, <- Ht2.
  destruct r2 as [[[rc lv]|]|e]; [destruct (String.eqb _ _)|..]; by eexists _, _.
Qed.

Lemma TryClaim_step id a ttl : is_step (TryClaim id a ttl).
Proof.
  simpl. unfold pg_TryClaim. apply step_bind.
  - apply exec_step. intros now t.
    destruct (claim_stmt now id a (int_Seconds ttl) t) as [[[[tok exp]|]|e] t'] eqn:Hc; simpl.
    + eexists. by econstructor.
    + exists Nothing. unfold claim_stmt in Hc.
      destruct (sql_updateP id (claim_cond now) (claim_set now a (int_Seconds ttl)) t);
        rewrite ?lookup_insert_eq in Hc; simplify_eq. constructor.
    + exists Nothing. unfold claim_stmt in Hc.
      destruct (sql_updateP id (claim_cond now) (claim_set now a (int_Seconds ttl)) t);
        simplify_eq. constructor.
  - intros [[[tok exp]|]|e]; [auto with pgstep| |auto with pgstep].
    apply read_only_bind; [apply GetJob_read_only|]. intros [j|e]; [|auto with pgstep].
    apply read_only_bind; [by apply exec_read_only|].
    intros [[[rc lv]|]|e]; repeat case_match; auto with pgstep.
Qed.

Lemma Heartbeat_step id a tok ttl : is_step (Heartbeat id a tok ttl).
Proof.
  simpl. unfold pg_Heartbeat. apply step_bind; [|intros [[|n]|e]; auto with pgstep].
  apply exec_step. intros now t. eapply sql_update_step. intros t' Ht. by econstructor.
Qed.

Lemma Finish_step id a tok ok cid arts metr : is_step (Finish id a tok ok cid arts metr).
Proof.
  simpl. unfold pg_Finish.
  destruct (toJSON _ _) as [aj|]; [|by apply read_only_step, read_only_ret].
  apply step_bind; [|auto with pgstep]. apply exec_step. intros now t.
  eapply sql_update_step. intros t' Ht. by eapply (step_finish _ _ id a (wrap64 tok) ok).
Qed.

Lemma SetStatusQueued_step id : is_step (SetStatusQueued id).
Proof.
  simpl. unfold pg_SetStatusQueued. apply step_bind; [|intros [[|n]|e]; auto with pgstep].
  apply exec_step. intros now t. eapply sql_update_step. intros t' Ht. by econstructor.
Qed.

Lemma ListExpiredLeases_read_only now : read_only (ListExpiredLeases now).
Proof. simpl. unfold pg_ListExpiredLeases. auto with pgstep. Qed.
Lemma ListQueued_read_only : read_only ListQueued.
Proof. simpl. unfold pg_ListQueued. auto with pgstep. Qed.
Lemma ListManifestMissingSince_read_only now : read_only (ListManifestMissingSince now).
Proof. simpl. unfold pg_ListManifestMissingSince. auto with pgstep. Qed.
Lemma ListAll_read_only : read_only ListAll.
Proof. simpl. unfold pg_ListAll. auto with pgstep. Qed.
Lemma ListPaged_read_only l o : read_only (ListPaged l o).
Proof. simpl. unfold pg_ListPaged. auto with pgstep. Qed.
Lemma CountByStatus_read_only : read_only CountByStatus.
Proof.
  simpl. unfold pg_CountByStatus. apply read_only_bind; auto with pgstep.
Qed.

End methods.
