(* ===== verification/LeaseTheorems.v ===== *)
(** * What the lease store guarantees

    Sequences of calls of the store, in any order and by any number of callers, from
    an empty table: they are histories of the protocol, and every reply and the table
    after them are those of the abstract service.  The invariant of the rows, exclusion
    and fencing. *)
From Stdlib Require Import String.
From stdpp Require Import sorting.
From S2P Require Import Prelude GoStrings GoTime Json LeaseTypes.
From S2P Require Import PGStore LeaseProtocol LeaseSpec PGMethods.

Local Open Scope string_scope.

(** ** Calls *)

(** The two callers of [CreateJob] create queued jobs. *)
Definition call_ok (c : call) : Prop :=
  match c with CallCreate job => j_Status job = JobQueued | _ => True end.

Section calls.
Context {P : Type} `{!PGServer P}.

Definition reply_nil (err : option goerror) : reply :=
  match err with Some _ => RErr | None => RNil end.
Definition reply_job (r : result DBJob) : reply :=
  match r with Ok j => RJob (j_Status j) (j_RetryCount j) | Err _ => RErr end.
Definition reply_lease (r : result StoreLease) : reply :=
  match r with Ok l => RLease (sl_AgentID l) (sl_ExpireAt l) (sl_FencingToken l) | Err _ => RErr end.
Definition reply_list {A} (r : result A) : reply :=
  match r with Ok _ => RList | Err _ => RErr end.

Definition do_call (c : call) : M (PGStore P) reply :=
  match c with
  | CallCreate job => r ← CreateJob job; mret (reply_nil r)
  | CallGet id => r ← GetJob id; mret (reply_job r)
  | CallAttach id m => r ← AttachManifest id m; mret (reply_nil r)
  | CallClaim id a ttl => r ← TryClaim id a ttl; mret (reply_lease r)
  | CallHeartbeat id a tok ttl => r ← Heartbeat id a tok ttl; mret (reply_nil r)
  | CallFinish id a tok ok cid arts metr => r ← Finish id a tok ok cid arts metr; mret (reply_nil r)
  | CallExpired now => r ← ListExpiredLeases now; mret (reply_list r)
  | CallRequeue id => r ← SetStatusQueued id; mret (reply_nil r)
  | CallList => r ← ListQueued; mret (reply_list r)
  | CallMissing cutoff => r ← ListManifestMissingSince cutoff; mret (reply_list r)
  | CallListAll => r ← ListAll; mret (reply_list r)
  | CallPage limit offset => r ← ListPaged limit offset; mret (reply_list r)
  | CallCount => r ← CountByStatus; mret (reply_list r)
  end.

(** Calls one after the other, with their replies. *)
Fixpoint do_calls (cs : list call) : M (PGStore P) (list reply) :=
  match cs with
  | [] => mret []
  | c :: cs' => r ← do_call c; rs ← do_calls cs'; mret (r :: rs)
  end.

(** What the server did to the first statement of each call. *)
Fixpoint outcomes (cs : list call) (s : PGStore P) : list stmt :=
  match cs with
  | [] => []
  | c :: cs' => nxt s :: outcomes cs' (do_call c s).2
  end.

Lemma do_call_step c : call_ok c → is_step (do_call c).
Proof.
  intros Hc. destruct c; simpl in Hc; unfold do_call;
    (apply step_bind; [|intros; apply read_only_ret]);
    auto using CreateJob_step, AttachManifest_step, TryClaim_step, Heartbeat_step,
      Finish_step, SetStatusQueued_step, read_only_step, GetJob_read_only,
      ListExpiredLeases_read_only, ListQueued_read_only, ListManifestMissingSince_read_only,
      ListAll_read_only, ListPaged_read_only, CountByStatus_read_only.
Qed.

Lemma do_calls_run cs s h :
  Forall call_ok cs → run pg_ts h (pg_table s) →
  ∃ rs s' h', do_calls cs s = (Ret rs, s') ∧ run pg_ts (h' ++ h)%list (pg_table s').
Proof.
  intros Hcs. revert s h. induction Hcs as [|c cs Hc Hcs IH]; intros s h Hr.
  - by exists [], s, [].
  - destruct (do_call_step c Hc s) as (r & s1 & ev & Hd & Hs).
    destruct (IH s1 (ev :: h)) as (rs & s' & h' & Hd' & Hr'); [by eapply run_step|].
    exists (r :: rs), s', (h' ++ [ev])%list. split.
    + simpl. run_step Hd. by run_step Hd'.
    + by rewrite <- app_assoc.
Qed.

(** *** The reply to each call *)

(** The call is answered as the service answers it. *)
Definition answered (c : call) (s : PGStore P) : Prop :=
  ∃ s', do_call c s = (Ret (spec_call (nxt s) c (abs_table (pg_table s))).1, s') ∧
    abs_table (pg_table s') = (spec_call (nxt s) c (abs_table (pg_table s))).2.

(** A listing. *)
Lemma list_answered {A} (q : list row → list A) (f : result (list A) → reply) c s :
  do_call c s = (r ← query q; mret (f r)) s →
  (∀ e, f (Err e) = RErr) → (∀ l, f (Ok l) = RList) →
  spec_answer (sx_now (nxt s)) c (abs_table (pg_table s)) = (RList, abs_table (pg_table s)) →
  answered c s.
Proof.
  intros Hd He Ho Hs. destruct (query_replies q s) as (r & s' & Hq & Ht & Hr). exists s'.
  rewrite Hd. run_step Hq. unfold spec_call. rewrite Hs, Ht. destruct (sx_err (nxt s)) as [e|].
  - subst. by rewrite He.
  - destruct Hr as [l ->]. by rewrite Ho.
Qed.

(** One statement: an error of the server, or its answer and its effect. *)
Lemma exec_answered {A} (f : Z → gmap string row → result A * gmap string row)
    (k : result A → M (PGStore P) reply) c s :
  do_call c s = (exec f ≫= k) s →
  (∀ e s', ∃ s'', k (Err e) s' = (Ret RErr, s'') ∧ pg_table s'' = pg_table s') →
  (∀ res t' s', f (sx_now (nxt s)) (pg_table s) = (res, t') → pg_table s' = t' →
     ∃ s'', k res s' = (Ret (spec_answer (sx_now (nxt s)) c (abs_table (pg_table s))).1, s'') ∧
       abs_table (pg_table s'') = (spec_answer (sx_now (nxt s)) c (abs_table (pg_table s))).2) →
  answered c s.
Proof.
  intros Hd He Hk. unfold answered, spec_call. rewrite Hd.
  destruct (sx_err (nxt s)) as [e|] eqn:Hx.
  - run_step (exec_err f s e Hx). destruct (He e (MkPGStore (after s) (pg_table s))) as (s'' & Hs & Ht).
    exists s''. by rewrite Ht.
  - run_step (exec_ok f s Hx). destruct (f (sx_now (nxt s)) (pg_table s)) as [res t'] eqn:Hf.
    exact (Hk res t' (MkPGStore (after s) t') eq_refl eq_refl).
Qed.

Lemma create_answered job s : j_Status job = JobQueued → answered (CallCreate job) s.
Proof.
  intros Hq. destruct (enc_strings (j_Command job)) as (cmd & Hcmd & _).
  eapply (exec_answered (λ _ t, (Ok tt, insert_job pg_ts job cmd t))).
  - simpl. unfold pg_CreateJob. rewrite Hcmd. apply bind_assoc_run.
  - by eexists.
  - intros res t' s' [= <- <-] Ht. exists s'. split; [done|].
    by rewrite Ht; simpl; rewrite (spec_create_insert pg_ts job cmd _ Hq).
Qed.

Lemma get_answered id s : table_ok (pg_table s) → answered (CallGet id) s.
Proof.
  intros Hok. eapply (exec_answered (λ _ t, (Ok (t !! id), t))).
  - simpl. unfold pg_GetJob. apply bind_assoc_run.
  - by eexists.
  - intros res t' s' [= <- <-] Ht. exists s'. rewrite Ht. split; [|done].
    unfold abs_table; simpl. rewrite lookup_fmap.
    destruct (pg_table s !! id) as [r|] eqn:Hr; simpl; [|done].
    rewrite bind_ret_run. simpl. by rewrite (phase_status_row id r) by eauto with lease.
Qed.

Lemma attach_answered id m s : answered (CallAttach id m) s.
Proof.
  destruct (enc_strings (sm_Providers m)) as (prov & Hp & _).
  destruct (abs_attach m prov id (pg_table s)) as (t1 & Hu & Ha).
  eapply (exec_answered (λ _, sql_update id (λ _, true) (λ r, Some (manifest_update m prov r)))).
  - simpl. unfold pg_AttachManifest. rewrite Hp. apply bind_assoc_run.
  - by eexists.
  - intros res t' s' Hf Ht. rewrite Hu in Hf. injection Hf as <- <-. exists s'. rewrite Ht, Ha.
    split; [|done]. unfold abs_table; simpl. rewrite lookup_fmap. by destruct (pg_table s !! id).
Qed.

Lemma heartbeat_answered id a tok ttl s : table_ok (pg_table s) → answered (CallHeartbeat id a tok ttl) s.
Proof.
  intros Hok. eapply (exec_answered (λ now, heartbeat_stmt now id a (wrap64 tok) (int_Seconds ttl))).
  - simpl. unfold pg_Heartbeat. apply bind_assoc_run.
  - by eexists.
  - intros res t' s' Hf Ht. exists s'. pose proof (spec_op_heartbeat_stmt _ _ _ _ _ _ _ _ Hok Hf) as Hsp.
    simpl. rewrite Hsp, Ht. split; [|done]. apply sql_update_answers in Hf.
    destruct res as [[|n]|e]; [done| |done]. by destruct Hf as [r ->].
Qed.

Lemma requeue_answered id s : table_ok (pg_table s) → answered (CallRequeue id) s.
Proof.
  intros Hok. eapply (exec_answered (λ now, requeue_stmt now id)).
  - simpl. unfold pg_SetStatusQueued. apply bind_assoc_run.
  - by eexists.
  - intros res t' s' Hf Ht. exists s'. pose proof (spec_op_requeue_stmt _ _ _ _ _ Hok Hf) as Hsp.
    simpl. rewrite Hsp, Ht. split; [|done]. apply sql_update_answers in Hf.
    destruct res as [[|n]|e]; [done| |done]. by destruct Hf as [r ->].
Qed.

Lemma finish_answered id a tok ok cid arts metr s :
  table_ok (pg_table s) → answered (CallFinish id a tok ok cid arts metr) s.
Proof.
  intros Hok. destruct (enc_strings arts) as (aj & Hj & _).
  eapply (exec_answered (λ _, finish_stmt id a (wrap64 tok) (status_of ok) cid aj (default JNull metr))).
  - simpl. unfold pg_Finish. rewrite Hj. apply bind_assoc_run.
  - by eexists.
  - intros res t' s' Hf Ht. exists s'.
    pose proof (spec_op_finish_stmt _ _ _ _ _ _ _ _ _ _ Hok Hf) as Hsp. simpl. rewrite Hsp, Ht.
    split; [|done]. apply sql_update_total in Hf; [|by eexists]. by destruct Hf as [n ->].
Qed.

Lemma claim_answered id a ttl s : table_ok (pg_table s) → answered (CallClaim id a ttl) s.
Proof.
  intros Hok. eapply (exec_answered (λ now, claim_stmt now id a (int_Seconds ttl))).
  - simpl. unfold pg_TryClaim. apply bind_assoc_run.
  - by eexists.
  - intros res t' s' Hf Ht. destruct (spec_op_claim_stmt _ _ _ _ _ _ _ Hok Hf) as (o & Hsp & Ho).
    simpl. rewrite Hsp. simpl. destruct o as [j|]; [subst res; exists s'; by rewrite Ht|].
    destruct Ho as [->|[e ->]]; [|exists s'; by rewrite Ht].
    destruct (claim_reason id s') as (e & s'' & Hr & Hts). exists s''. run_step Hr.
    by rewrite Hts, Ht.
Qed.

Lemma do_call_answered c s : call_ok c → table_ok (pg_table s) → answered c s.
Proof.
  intros Hc Hok. destruct c; auto using create_answered, get_answered, attach_answered,
    claim_answered, heartbeat_answered, finish_answered, requeue_answered;
    try (by eapply (list_answered _ reply_list)).
  eapply (list_answered group_by_status (λ r, reply_list
    (match r with Err e => Err e | Ok l => Ok (foldl (λ m kv, <[kv.1 := kv.2]> m) (∅ : gmap string Z) l) end)));
    [apply bind_assoc_run|done..].
Qed.

Lemma do_calls_answered cs s :
  Forall call_ok cs → table_ok (pg_table s) →
  ∃ s', do_calls cs s = (Ret (spec_calls (outcomes cs s) cs (abs_table (pg_table s))).1, s') ∧
    abs_table (pg_table s') = (spec_calls (outcomes cs s) cs (abs_table (pg_table s))).2.
Proof.
  intros Hcs. revert s. induction Hcs as [|c cs Hc Hcs IH]; intros s Hok; [by exists s|].
  destruct (do_call_answered c s Hc Hok) as (s1 & Hd & Ha).
  destruct (do_call_step c Hc s) as (r & s2 & ev & Hd2 & Hs).
  rewrite Hd in Hd2. injection Hd2 as <- <-.
  destruct (IH s1) as (s' & Hd' & Ha'); [by eapply step_table_ok|].
  exists s'. cbn [do_calls outcomes spec_calls]. run_step Hd. run_step Hd'. rewrite Hd. cbn [snd].
  rewrite Ha in Ha' |- *. destruct (spec_call (nxt s) c (abs_table (pg_table s))) as [r s1'].
  cbn [fst snd] in *. rewrite Ha'. destruct (spec_calls (outcomes cs s1) cs s1') as [rs s2]. by split.
Qed.

(** The empty table, before the first call. *)
Definition fresh_store (p : P) : PGStore P := MkPGStore p ∅.

(** C1: any sequence of calls that creates jobs only as queued, from an empty table,
    whatever the server does to each statement, ends (no call blocks or panics), gives
    every caller exactly the reply of the abstract lease service to the same calls at
    the same server times, and leaves a table that abstracts to exactly the service's
    state: the grants with their agent, token and expiry, the refusals, the renewals and
    completions that took place or not, the requeues. *)
Theorem store_refines_service (p : P) (cs : list call) :
  Forall call_ok cs →
  ∃ rs s, do_calls cs (fresh_store p) = (Ret rs, s) ∧
    spec_calls (outcomes cs (fresh_store p)) cs ∅ = (rs, abs_table (pg_table s)).
Proof.
  intros Hcs. destruct (do_calls_answered cs (fresh_store p) Hcs) as (s & Hd & Ha).
  { apply map_Forall_empty. }
  eexists _, s. split; [exact Hd|]. rewrite Ha. unfold abs_table. simpl. rewrite fmap_empty.
  by destruct (spec_calls _ _ _).
Qed.

(** C2: whatever calls were made (jobs being created as queued), every row is well formed: one of the five statuses,
    an agent and an expiry exactly while assigned or running, a token and a retry
    count within their columns, and never more requeues than grants. *)
Theorem store_invariant (p : P) (cs : list call) rs s :
  Forall call_ok cs → do_calls cs (fresh_store p) = (Ret rs, s) →
  map_Forall row_ok (pg_table s).
Proof.
  intros Hcs Hd. destruct (do_calls_run cs (fresh_store p) [] Hcs) as (rs' & s' & h & Hd' & Hr);
    [constructor|].
  rewrite Hd in Hd'. simplify_eq. by eapply run_table_ok.
Qed.

End calls.

(** A store of the simulated server, and calls that go through every phase. *)
Definition demo_job : DBJob := MkDBJob "j1" "alpine" (Some ["echo"; "hi"]) JobQueued 5000 0.
Definition demo_calls : list call :=
  [CallCreate demo_job; CallClaim "j1" "A" (15 * Second); CallClaim "j1" "B" (15 * Second);
   CallHeartbeat "j1" "A" 1 (15 * Second); CallHeartbeat "j1" "A" 2 (15 * Second);
   CallFinish "j1" "A" 1 true "" None None; CallFinish "j1" "B" 0 false "" None None; CallGet "j1"].

Lemma demo_calls_ok : Forall call_ok demo_calls.
Proof. unfold demo_calls. repeat constructor. Qed.

Lemma store_refines_service_witness :
  ∃ rs (s : PGStore SimPG), do_calls demo_calls (fresh_store (0%Z : SimPG)) = (Ret rs, s) ∧
    spec_calls (outcomes demo_calls (fresh_store (0%Z : SimPG))) demo_calls ∅ =
      (rs, abs_table (pg_table s)).
Proof. apply (store_refines_service (P := SimPG)). apply demo_calls_ok. Defined.

(** The replies of the calls: a grant of token 1, a refusal, a renewal, a renewal with a
    wrong token, a completion, and one that is too late. *)
Example demo_replies :
  (do_calls (P := SimPG) demo_calls (fresh_store (0%Z : SimPG))).1 =
    Ret [RNil; RLease "A" (1 + 15 * Second) 1; RErr; RNil; RErr; RNil; RNil;
         RJob JobSucceeded 0].
Proof. vm_compute. reflexivity. Qed.

Lemma store_invariant_witness :
  map_Forall row_ok (pg_table (do_calls (P := SimPG) demo_calls (fresh_store (0%Z : SimPG))).2).
Proof.
  eapply (store_invariant (P := SimPG) (0%Z : SimPG) demo_calls).
  - apply demo_calls_ok.
  - vm_compute. reflexivity.
Defined.

(** ** Exclusion and fencing *)

Lemma grants_lt id h a k n :
  (grants id h).*2 = countdown n → (a, k) ∈ grants id h → (1 <= k <= Z.of_nat n)%Z.
Proof.
  intros Hc Hin.
  assert (k ∈ countdown n) as Hk.
  { rewrite <- Hc. apply list_elem_of_fmap. by exists (a, k). }
  clear Hc Hin. induction n as [|n IH]; simpl in Hk; [by apply not_elem_of_nil in Hk|].
  apply elem_of_cons in Hk as [->|Hk]; [lia|]. specialize (IH Hk). lia.
Qed.

(** C3: a lease is granted only while nobody holds it, and its token is larger than
    every token granted before for the job: the first grant has token 1, and the
    n-th has token n. *)
Theorem grant_exclusive ts h t id a k exp t' :
  run ts h t → step ts t (Granted id a k exp) t' →
  holder id h = None ∧ k = Z.of_nat (S (length (grants id h))) ∧
  (∀ a' k', (a', k') ∈ grants id h → (k' < k)%Z).
Proof.
  intros Hr Hs. inversion Hs as [| |now ? ? secs ? ? ? Hc| | | |]; subst.
  apply claim_inv in Hc as (r & r' & Hl & Hc & _ & _ & -> & _).
  destruct (run_hist_row _ _ _ _ _ Hr Hl) as [Ht Hts _ Ha _].
  pose proof (row_shapeP id r (run_table_ok _ _ _ Hr id r Hl)) as Hsh.
  rewrite (claim_cond_shape now r _ Hsh) in Hc. destruct Hsh as [_ Hn _| |]; [|done..].
  rewrite Hn in Ha. split_and!.
  - by destruct (holder id h).
  - rewrite Ht. lia.
  - intros a' k' Hin. pose proof (grants_lt id h a' k' _ Hts Hin). lia.
Qed.

(** C4: only the agent that received the last grant, with the token of that grant,
    can renew a lease, and only until the job is completed or requeued; a renewal by
    anyone else is not a step of the store. *)
Theorem renewal_only_by_holder ts h t id a k t' :
  run ts h t → step ts t (Renewed id a k) t' → holder id h = Some (a, k).
Proof.
  intros Hr Hs. inversion Hs as [| | |now ? ? ? secs ? Hb| | |]; subst.
  apply sql_update_inv1 in Hb as (r & r' & Hl & Hc & _ & _).
  destruct (run_hist_row _ _ _ _ _ Hr Hl) as [_ _ _ Ha Hk].
  pose proof (row_shapeP id r (run_table_ok _ _ _ Hr id r Hl)) as Hsh.
  rewrite (heartbeat_cond_shape a k r _ Hsh) in Hc.
  destruct Hsh as [|b x c Hb _ _|]; [done| |done].
  apply andb_true_iff in Hc as [->%String.eqb_eq Ht%Z.eqb_eq].
  rewrite Hb in Ha. destruct (holder id h) as [[a' k']|] eqn:Eh; [|done].
  simplify_eq/=. by rewrite (Hk a' k' eq_refl).
Qed.

(** C5: a completion is recorded for the agent that holds the lease, or for anyone
    when nobody holds it, and never with a token behind the last one granted. *)
Theorem completion_fenced ts h t id a k ok t' :
  run ts h t → step ts t (Completed id a k ok) t' →
  (Z.of_nat (length (grants id h)) <= k)%Z ∧
  (holder id h = None ∨ ∃ k', holder id h = Some (a, k')).
Proof.
  intros Hr Hs. inversion Hs as [| | | |? ? ? ? cid arts metr ? Hf| |]; subst.
  apply sql_update_inv1 in Hf as (r & r' & Hl & Hc & _ & _).
  destruct (run_hist_row _ _ _ _ _ Hr Hl) as [Ht _ _ Ha _].
  apply andb_true_iff in Hc as [Hc Hle%Z.leb_le]. rewrite <- Ht. split; [done|].
  unfold agent_is, is_null in Hc. rewrite Ha in Hc.
  destruct (holder id h) as [[a' k']|]; simpl in Hc; [|by left].
  rewrite orb_false_r in Hc. apply String.eqb_eq in Hc as ->. eauto.
Qed.

(** The history of the first demo, up to the grant. *)
Lemma demo_run :
  run (pg_ts (P := SimPG)) [Created "j1"]
    (insert_job pg_ts demo_job (JArr [JStr "echo"; JStr "hi"]) ∅).
Proof. econstructor; [constructor|]. by apply (step_create _ _ demo_job). Qed.

Definition demo_t1 : gmap string row :=
  insert_job (pg_ts (P := SimPG)) demo_job (JArr [JStr "echo"; JStr "hi"]) ∅.
Definition demo_t2 : gmap string row := (claim_stmt 10 "j1" "A" 15 demo_t1).2.

Lemma demo_grant :
  step (pg_ts (P := SimPG)) demo_t1 (Granted "j1" "A" 1 (seconds_from 10 15)) demo_t2.
Proof. apply (step_claim _ _ 10 "j1" "A" 15). vm_compute. reflexivity. Qed.

Lemma grant_exclusive_witness :
  holder "j1" [Created "j1"] = None ∧
  1%Z = Z.of_nat (S (length (grants "j1" [Created "j1"]))) ∧
  (∀ a' k', (a', k') ∈ grants "j1" [Created "j1"] → (k' < 1)%Z).
Proof. exact (grant_exclusive _ _ _ _ _ _ _ _ demo_run demo_grant). Defined.

Lemma demo_run2 :
  run (pg_ts (P := SimPG)) [Granted "j1" "A" 1 (seconds_from 10 15); Created "j1"] demo_t2.
Proof. econstructor; [apply demo_run|apply demo_grant]. Qed.

Lemma renewal_only_by_holder_witness :
  holder "j1" [Granted "j1" "A" 1 (seconds_from 10 15); Created "j1"] = Some ("A", 1%Z).
Proof.
  refine (renewal_only_by_holder _ _ _ "j1" "A" 1 (heartbeat_stmt 20 "j1" "A" 1 15 demo_t2).2
    demo_run2 _).
  apply (step_heartbeat _ _ 20 "j1" "A" 1 15). vm_compute. reflexivity.
Defined.

Lemma completion_fenced_witness :
  (Z.of_nat (length (grants "j1" [Granted "j1" "A" 1 (seconds_from 10 15); Created "j1"])) <= 1)%Z ∧
  (holder "j1" [Granted "j1" "A" 1 (seconds_from 10 15); Created "j1"] = None ∨
   ∃ k', holder "j1" [Granted "j1" "A" 1 (seconds_from 10 15); Created "j1"] = Some ("A", k')).
Proof.
  refine (completion_fenced _ _ _ "j1" "A" 1 true
    (finish_stmt "j1" "A" 1 "succeeded" "" JNull JNull demo_t2).2 demo_run2 _).
  apply (step_finish _ _ "j1" "A" 1 true "" JNull JNull). vm_compute. reflexivity.
Defined.
