(* ===== verification/StoreTheorems.v ===== *)
(** * The methods of the store, branch by branch

    What each method returns and does to the table when the server executes its
    statements: claims, heartbeats, completions and requeues, creation and reading,
    and the listings. *)
From Stdlib Require Import String.
From stdpp Require Import sorting.
From S2P Require Import Prelude GoStrings GoTime Json LeaseTypes.
From S2P Require Import PGStore LeaseProtocol LeaseSpec PGMethods LeaseTheorems.

Local Open Scope string_scope.

Section results.
Context {P : Type} `{!PGServer P}.
Implicit Types (s : PGStore P) (p : P).

(** The server executes the next [n] statements and delivers all their rows. *)
Fixpoint up (n : nat) p : Prop :=
  match n with
  | O => True
  | S n' => sx_err (pg_stmt p).1 = None ∧ sx_rows (pg_stmt p).1 = None ∧ up n' (pg_stmt p).2
  end.

(** [now()] of the next statement. *)
Definition db_now s : Z := sx_now (nxt s).

Lemma up_healthy n s : up (S n) (pg_srv s) → healthy s ∧ up n (after s).
Proof. intros (? & _ & ?). done. Qed.

Lemma exec_up {A} (f : Z → gmap string row → result A * gmap string row) n s :
  up (S n) (pg_srv s) →
  exec f s = (Ret (f (db_now s) (pg_table s)).1,
              MkPGStore (after s) (f (db_now s) (pg_table s)).2) ∧ up n (after s).
Proof. intros [Hh Hu]%up_healthy. split; [by apply exec_ok|done]. Qed.

Lemma query_up {A} (q : list row → list A) n s :
  up (S n) (pg_srv s) →
  query q s = (Ret (Ok (q (pg_scan (pg_srv s) (pg_table s)))), MkPGStore (after s) (pg_table s)).
Proof. intros (? & ? & _). by apply query_ok. Qed.

Lemma GetJob_run id s :
  up 1 (pg_srv s) →
  GetJob id s = (Ret (match pg_table s !! id with
                      | Some r => Ok (job_of_row r)
                      | None => Err ErrJobNotFound
                      end), MkPGStore (after s) (pg_table s)).
Proof.
  intros Hu. simpl. unfold pg_GetJob.
  destruct (exec_up (λ _ t, (Ok (t !! id), t)) 0 s Hu) as [He _].
  run_step He; simpl. by destruct (pg_table s !! id).
Qed.

(** ** Claims *)

(** The row a claim leaves. *)
Definition claimed_row (now : Z) (a : string) (ttl : Z) (r : row) : row :=
  set_status "assigned" (set_lease_token (r_lease_token r + 1)
    (set_lease_expires_at (Some (seconds_from now (int_Seconds ttl)))
      (set_lease_agent (Some a) r))).

(** Why a claim of a job that is not waiting fails. *)
Definition refusal (r : row) : goerror :=
  if String.eqb (default "" (r_manifest_root_cid r)) "" then ErrNoManifest
  else ErrLeaseConflict.

Lemma TryClaim_granted id a ttl s r :
  up 1 (pg_srv s) → pg_table s !! id = Some r → claim_cond (db_now s) r = true →
  (r_lease_token r < max_int64)%Z →
  TryClaim id a ttl s =
    (Ret (Ok (MkStoreLease a (seconds_from (db_now s) (int_Seconds ttl))
                (uint64_of (r_lease_token r + 1)))),
     MkPGStore (after s) (<[id := claimed_row (db_now s) a ttl r]> (pg_table s))).
Proof.
  intros Hu Hr Hc Hlt. simpl. unfold pg_TryClaim.
  destruct (exec_up (λ now, claim_stmt now id a (int_Seconds ttl)) 0 s Hu) as [He _].
  run_step He. unfold claim_stmt.
  rewrite (sql_update_hit id _ _ _ r (claimed_row (db_now s) a ttl r) Hr Hc).
  - simpl. rewrite lookup_insert_eq. simpl. by destruct r.
  - unfold claim_set, bigint_succ. by rewrite (proj2 (Z.ltb_lt _ _) Hlt).
Qed.

Lemma TryClaim_refused id a ttl s :
  up 3 (pg_srv s) → (∀ r, pg_table s !! id = Some r → claim_cond (db_now s) r = false) →
  ∃ p', TryClaim id a ttl s =
    (Ret (Err (match pg_table s !! id with Some r => refusal r | None => ErrJobNotFound end)),
     MkPGStore p' (pg_table s)).
Proof.
  intros Hu Hm. simpl. unfold pg_TryClaim.
  destruct (exec_up (λ now, claim_stmt now id a (int_Seconds ttl)) 2 s Hu) as [He Hu2].
  assert (claim_stmt (db_now s) id a (int_Seconds ttl) (pg_table s) = (Ok None, pg_table s))
    as Hst.
  { unfold claim_stmt. by rewrite sql_update_miss. }
  rewrite Hst in He. simpl in He. run_step He.
  set (s1 := MkPGStore (after s) (pg_table s)) in *.
  assert (up 1 (pg_srv s1)) as Hu1 by (by destruct Hu2 as (? & ? & _)).
  pose proof (GetJob_run id s1 Hu1) as Hg. simpl in Hg.
  run_step Hg. simpl.
  destruct (pg_table s !! id) as [r|] eqn:Hr; [|by eexists].
  destruct (exec_up (λ now t, (Ok (claim_probe now <$> t !! id), t)) 0
    (MkPGStore (after s1) (pg_table s))) as [Hp _]; [by destruct Hu2 as (_ & _ & ? & ? & _)|].
  run_step Hp. simpl. rewrite Hr. simpl. unfold refusal.
  destruct (String.eqb _ ""); by eexists.
Qed.

(** C12: a claim on a table that satisfies the invariant.  A waiting job goes to the
    caller, with the next token and an expiry [ttl] after the server's time; a job
    that is held or done is refused with "lease still valid", or with "manifest not
    attached" when the store has no manifest of it, and nothing changes; an unknown
    job is "not found". *)
Theorem TryClaim_result id a ttl s :
  up 3 (pg_srv s) → table_ok (pg_table s) →
  ∃ res s', TryClaim id a ttl s = (Ret res, s') ∧
    match pg_table s !! id with
    | None => res = Err ErrJobNotFound ∧ pg_table s' = pg_table s
    | Some r =>
        match abs_phase r with
        | Waiting =>
            (r_lease_token r < max_int64)%Z →
            res = Ok (MkStoreLease a (seconds_from (db_now s) (int_Seconds ttl))
                        (r_lease_token r + 1)) ∧
            pg_table s' = <[id := claimed_row (db_now s) a ttl r]> (pg_table s)
        | _ => res = Err (refusal r) ∧ pg_table s' = pg_table s
        end
    end.
Proof.
  intros Hu Hok. destruct (pg_table s !! id) as [r|] eqn:Hr.
  - pose proof (row_shapeP id r (Hok id r Hr)) as Hsh.
    pose proof (claim_cond_shape (db_now s) r _ Hsh) as Hc.
    destruct (abs_phase r) eqn:Hp.
    + destruct (Z.ltb_spec (r_lease_token r) max_int64).
      * rewrite (TryClaim_granted id a ttl s r); [|by destruct Hu as (? & ? & _)|done..].
        eexists _, _. split; [done|]. intros _. rewrite uint64_of_id; [done|].
        pose proof (ok_token id r (Hok id r Hr)). unfold max_int64, two63, two64 in *. lia.
      * destruct (TryClaim_step (P := P) id a ttl s) as (res & s' & ev & Heq & _).
        exists res, s'. split; [done|]. lia.
    + destruct (TryClaim_refused id a ttl s Hu) as [p' He]; [by intros ? [= <-]%(eq_trans (eq_sym Hr))|].
      rewrite Hr in He. eexists _, _. by split.
    + destruct (TryClaim_refused id a ttl s Hu) as [p' He]; [by intros ? [= <-]%(eq_trans (eq_sym Hr))|].
      rewrite Hr in He. eexists _, _. by split.
  - destruct (TryClaim_refused id a ttl s Hu) as [p' He]; [by rewrite Hr|].
    rewrite Hr in He. eexists _, _. by split.
Qed.

(** ** Heartbeats, completions and requeues *)

Lemma exec_update id cond set s :
  up 1 (pg_srv s) →
  exec (λ _, sql_update id cond set) s =
    (Ret (sql_update id cond set (pg_table s)).1,
     MkPGStore (after s) (sql_update id cond set (pg_table s)).2).
Proof. intros Hu. by destruct (exec_up (λ _, sql_update id cond set) 0 s Hu). Qed.

Lemma Heartbeat_run id a tok ttl s :
  up 1 (pg_srv s) →
  Heartbeat id a tok ttl s =
    match pg_table s !! id with
    | Some r =>
        if heartbeat_cond a (wrap64 tok) r then
          (Ret None, MkPGStore (after s)
            (<[id := heartbeat_set (db_now s) (int_Seconds ttl) r]> (pg_table s)))
        else (Ret (Some ErrBadToken), MkPGStore (after s) (pg_table s))
    | None => (Ret (Some ErrBadToken), MkPGStore (after s) (pg_table s))
    end.
Proof.
  intros Hu. simpl. unfold pg_Heartbeat.
  destruct (exec_up (λ now, heartbeat_stmt now id a (wrap64 tok) (int_Seconds ttl)) 0 s Hu)
    as [He _].
  run_step He. unfold heartbeat_stmt, sql_update.
  destruct (pg_table s !! id) as [r|]; [|done]. by destruct (heartbeat_cond _ _ r).
Qed.

Lemma Finish_run id a tok ok cid arts metr s :
  up 1 (pg_srv s) →
  ∃ aj, Finish id a tok ok cid arts metr s =
    (Ret None, MkPGStore (after s)
      match pg_table s !! id with
      | Some r =>
          if finish_cond a (wrap64 tok) r then
            <[id := finish_set (status_of ok) cid aj (default JNull metr) r]> (pg_table s)
          else pg_table s
      | None => pg_table s
      end).
Proof.
  intros Hu. simpl. unfold pg_Finish.
  destruct (enc_strings arts) as (aj & -> & _).
  exists aj. cbv zeta. unfold finish_stmt. run_step (exec_update _ _ _ s Hu).
  unfold sql_update, status_of.
  destruct (pg_table s !! id) as [r|]; [|done]. by destruct (finish_cond _ _ r).
Qed.

Lemma SetStatusQueued_run id s r :
  up 1 (pg_srv s) → pg_table s !! id = Some r →
  SetStatusQueued id s =
    if is_expired (db_now s) r then
      match requeue_set r with
      | Some r' => (Ret None, MkPGStore (after s) (<[id := r']> (pg_table s)))
      | None => (Ret (Some out_of_range), MkPGStore (after s) (pg_table s))
      end
    else (Ret (Some ErrJobNotFound), MkPGStore (after s) (pg_table s)).
Proof.
  intros Hu Hr. simpl. unfold pg_SetStatusQueued.
  destruct (exec_up (λ now, requeue_stmt now id) 0 s Hu) as [He _].
  run_step He. unfold requeue_stmt, sql_update. rewrite Hr.
  destruct (is_expired (db_now s) r); [|done]. by destruct (requeue_set r).
Qed.

(** A heartbeat renews the lease exactly when the job is held by this agent under this
    token: the expiry moves to [ttl] from now and the job is running.  In every other
    case (another agent, an old token, a job that is waiting, done or unknown) the
    answer is "fencing token mismatch" and nothing changes. *)
Lemma Heartbeat_result id a tok ttl s :
  up 1 (pg_srv s) → table_ok (pg_table s) → (0 <= tok <= max_int64)%Z →
  (∃ r x b, pg_table s !! id = Some r ∧ abs_phase r = Held a x b ∧ r_lease_token r = tok ∧
     Heartbeat id a tok ttl s = (Ret None, MkPGStore (after s)
       (<[id := heartbeat_set (db_now s) (int_Seconds ttl) r]> (pg_table s)))) ∨
  ((∀ r x b, pg_table s !! id = Some r → abs_phase r = Held a x b → r_lease_token r ≠ tok) ∧
     Heartbeat id a tok ttl s = (Ret (Some ErrBadToken), MkPGStore (after s) (pg_table s))).
Proof.
  intros Hu Hok Htok. rewrite (Heartbeat_run id a tok ttl s Hu).
  rewrite wrap64_id by (unfold two63 in *; lia).
  destruct (pg_table s !! id) as [r|] eqn:Hr; [|right; by split].
  pose proof (row_shapeP id r (Hok id r Hr)) as Hsh.
  rewrite (heartbeat_cond_shape a tok r _ Hsh).
  destruct (abs_phase r) as [|b x c|] eqn:Hp; [right; split; [|done]; intros; congruence| |
    right; split; [|done]; intros; congruence].
  destruct (String.eqb_spec b a) as [->|Hne], (Z.eqb_spec (r_lease_token r) tok) as [<-|Hnt];
    simpl; [left; eauto 10|right; split; [|done]; intros; simplify_eq; congruence..].
Qed.

(** C13: [Finish] answers [nil] whether or not it did anything: the job becomes
    succeeded or failed and loses its lease when the caller may complete it, and
    otherwise (a stale token, another agent's lease, an unknown job) the table stays
    as it is, with the same answer. *)
Theorem Finish_result id a tok ok cid arts metr s :
  up 1 (pg_srv s) → table_ok (pg_table s) → (0 <= tok <= max_int64)%Z →
  ∃ s', Finish id a tok ok cid arts metr s = (Ret None, s') ∧
    (∀ id', id' ≠ id → pg_table s' !! id' = pg_table s !! id') ∧
    match pg_table s !! id with
    | None => pg_table s' = pg_table s
    | Some r =>
        match spec_complete a tok ok (abs_row r) with
        | Some j => abs_row <$> pg_table s' !! id = Some j
        | None => pg_table s' = pg_table s
        end
    end.
Proof.
  intros Hu Hok Htok. destruct (Finish_run id a tok ok cid arts metr s Hu) as [aj ->].
  rewrite wrap64_id by (unfold two63 in *; lia). eexists. split; [done|]. simpl.
  destruct (pg_table s !! id) as [r|] eqn:Hr; [|done].
  pose proof (row_shapeP id r (Hok id r Hr)) as Hsh.
  rewrite (finish_cond_shape a tok r _ Hsh). unfold spec_complete. simpl.
  destruct (r_lease_token r <=? tok)%Z; rewrite ?andb_false_r, ?andb_true_r; [|done].
  assert (abs_row (finish_set (status_of ok) cid aj (default JNull metr) r) =
    MkAJob (Done ok) (r_lease_token r) (r_retry_count r)) as Habs by by destruct r, ok.
  destruct (abs_phase r) as [|b x c|]; [|destruct (String.eqb b a); [|done]|];
    (split; [intros; by rewrite lookup_insert_ne|rewrite lookup_insert_eq; simpl; by rewrite Habs]).
Qed.

(** C8: recovery.  When a lease has run out, the requeue makes the job waiting again
    and counts it, another agent's claim then succeeds with the next token, and after
    that neither a heartbeat nor a completion of the first agent, under its old
    token, changes the store. *)
Theorem expired_job_recovered id a b x beat r ttl ok cid arts metr s :
  up 4 (pg_srv s) → table_ok (pg_table s) → a ≠ b →
  pg_table s !! id = Some r → abs_phase r = Held a x beat → (x < db_now s)%Z →
  (r_lease_token r < max_int64)%Z → (r_retry_count r < max_int32)%Z →
  ∃ s1 s2 lease, SetStatusQueued id s = (Ret None, s1) ∧
    abs_row <$> pg_table s1 !! id = Some (MkAJob Waiting (r_lease_token r) (r_retry_count r + 1)) ∧
    TryClaim id b ttl s1 = (Ret (Ok lease), s2) ∧
    sl_FencingToken lease = (r_lease_token r + 1)%Z ∧
    (∃ p, Heartbeat id a (r_lease_token r) ttl s2 =
       (Ret (Some ErrBadToken), MkPGStore p (pg_table s2))) ∧
    (∃ p, Finish id a (r_lease_token r) ok cid arts metr s2 =
       (Ret None, MkPGStore p (pg_table s2))).
Proof.
  intros Hu Hok Hab Hr Hp Hx Htk Hre.
  pose proof (Hok id r Hr) as Hrow. pose proof (row_shapeP id r Hrow) as Hsh. rewrite Hp in Hsh.
  pose proof (ok_token id r Hrow) as Htok.
  assert (up 1 (pg_srv s) ∧ up 1 (after s)) as [Hu1 Hu2] by (destruct Hu as (? & ? & ? & ? & _); done).
  set (r1 := set_retry_count (r_retry_count r + 1) (set_lease_expires_at None
    (set_lease_agent None (set_status "queued" r)))).
  assert (requeue_set r = Some r1) as Hrq.
  { unfold requeue_set, int_succ. by rewrite (proj2 (Z.ltb_lt _ _) Hre). }
  set (s1 := MkPGStore (after s) (<[id := r1]> (pg_table s))).
  assert (SetStatusQueued id s = (Ret None, s1)) as Hq.
  { rewrite (SetStatusQueued_run id s r Hu1 Hr), (is_expired_shape _ _ _ Hsh), Hrq.
    by rewrite (proj2 (Z.ltb_lt _ _) Hx). }
  assert (pg_table s1 !! id = Some r1) as Hr1 by apply lookup_insert_eq.
  assert (abs_row r1 = MkAJob Waiting (r_lease_token r) (r_retry_count r + 1)) as Ha1
    by by destruct r.
  assert (claim_cond (db_now s1) r1 = true) as Hc1 by by destruct r.
  assert (r_lease_token r1 = r_lease_token r) as Ht1 by by destruct r.
  pose proof (TryClaim_granted id b ttl s1 r1 Hu2 Hr1 Hc1 ltac:(by rewrite Ht1)) as Hcl.
  eexists s1, _, _. split_and!; [exact Hq|by rewrite Hr1, <- Ha1|exact Hcl| | |].
  - simpl. rewrite Ht1, uint64_of_id; [done|]. unfold max_int64, two63, two64 in *. lia.
  - eexists. rewrite Heartbeat_run by (destruct Hu as (? & ? & ? & ? & ? & ? & _); done).
    simpl. rewrite !lookup_insert_eq. rewrite wrap64_id by (unfold two63 in *; lia).
    unfold heartbeat_cond, agent_is.
    destruct r; simpl. by rewrite (proj2 (String.eqb_neq b a)) by done.
  - destruct (Finish_run id a (r_lease_token r) ok cid arts metr
      (MkPGStore (after s1) (<[id := claimed_row (db_now s1) b ttl r1]> (pg_table s1))))
      as [aj ->]; [destruct Hu as (? & ? & ? & ? & ? & ? & _); done|].
    eexists. simpl. rewrite !lookup_insert_eq. rewrite wrap64_id by (unfold two63 in *; lia).
    unfold finish_cond, agent_is.
    destruct r; simpl. by rewrite (proj2 (String.eqb_neq b a)) by done.
Qed.

(** ** Creation and reading *)

(** C37: a created job is read back with its id, image, command and status, a zero
    retry count and its creation time at the server's resolution; creating a job
    whose id is taken changes nothing, not even with another image or command. *)
Theorem CreateJob_GetJob job s :
  up 2 (pg_srv s) →
  ∃ s1 s2, CreateJob job s = (Ret None, s1) ∧
    GetJob (j_ID job) s1 =
      (Ret (Ok (match pg_table s !! j_ID job with
                | Some r => job_of_row r
                | None => MkDBJob (j_ID job) (j_Image job) (j_Command job) (j_Status job)
                            (pg_ts (j_CreatedAt job)) 0
                end)), s2) ∧
    (∀ id, is_Some (pg_table s !! id) → pg_table s1 !! id = pg_table s !! id).
Proof.
  intros Hu. simpl. unfold pg_CreateJob.
  destruct (enc_strings (j_Command job)) as (j & -> & Hj).
  destruct (exec_up (λ _ t, (Ok tt, insert_job pg_ts job j t)) 1 s Hu) as [He Hu1].
  run_step He. simpl. eexists _, _. split; [done|].
  pose proof (GetJob_run (j_ID job) (MkPGStore (after s) (insert_job pg_ts job j (pg_table s))) Hu1)
    as Hg. simpl in Hg. split.
  - etransitivity; [exact Hg|]. f_equal. f_equal. unfold insert_job.
    destruct (pg_table s !! j_ID job) as [r|] eqn:Hr.
    + by rewrite Hr.
    + rewrite lookup_insert_eq. unfold job_of_row. cbn -[scan_command]. by rewrite Hj.
  - simpl. intros id [r Hr]. unfold insert_job.
    destruct (pg_table s !! j_ID job) eqn:E; [done|]. rewrite lookup_insert_ne; [done|congruence].
Qed.

(** ** Listings *)

Context `{!PGScan P}.

Lemma elem_of_scan p t r :
  r ∈ pg_scan p t ↔ ∃ id, t !! id = Some r.
Proof.
  rewrite (pg_scan_perm p t), list_elem_of_fmap. split.
  - intros ([id r'] & -> & H%elem_of_map_to_list). by exists id.
  - intros [id H]. exists (id, r). split; [done|]. by apply elem_of_map_to_list.
Qed.

Lemma length_scan p t : length (pg_scan p t) = size t.
Proof. rewrite (pg_scan_perm p t), length_fmap. apply length_map_to_list. Qed.

Lemma elem_of_lfilter {A} (f : A → bool) (l : list A) x :
  x ∈ List.filter f l ↔ x ∈ l ∧ f x = true.
Proof. rewrite !list_elem_of_In. apply filter_In. Qed.

Lemma NoDup_scan_ids p t : table_ok t → NoDup (r_id <$> pg_scan p t).
Proof.
  intros Hok. rewrite (pg_scan_perm p t), <- list_fmap_compose.
  rewrite (list_fmap_ext _ fst (map_to_list t)); [apply NoDup_fst_map_to_list|].
  intros _ [id r] Hl%list_elem_of_lookup_2%elem_of_map_to_list. simpl.
  by rewrite (ok_id _ _ (Hok id r Hl)).
Qed.

Lemma NoDup_filter_ids (f : row → bool) l :
  NoDup (r_id <$> l) → NoDup (r_id <$> List.filter f l).
Proof.
  induction l as [|r l IH]; simpl; [done|]. intros [Hr Hl]%NoDup_cons.
  destruct (f r); simpl; [|auto]. apply NoDup_cons. split; [|auto].
  intros (r' & Hid & [Hin _]%elem_of_lfilter)%list_elem_of_fmap.
  apply Hr. rewrite Hid. apply list_elem_of_fmap. by exists r'.
Qed.

(** The ids [ListExpiredLeases] returns are those of the jobs whose lease ran out
    before the server's [now()], each of them; the time the caller passes plays no
    part. *)
Lemma ListExpiredLeases_result arg s :
  up 1 (pg_srv s) → table_ok (pg_table s) →
  ∃ ids, ListExpiredLeases arg s = (Ret (Ok ids), MkPGStore (after s) (pg_table s)) ∧
    NoDup ids ∧ ∀ id, id ∈ ids ↔ ∃ r a x b, pg_table s !! id = Some r ∧ abs_phase r = Held a x b ∧
      (x < db_now s)%Z.
Proof.
  intros Hu Hok. simpl. unfold pg_ListExpiredLeases, query_now.
  rewrite (query_up _ 0 s Hu). eexists. split_and!; [done|by apply NoDup_filter_ids, NoDup_scan_ids|].
  intros id. rewrite list_elem_of_fmap. split.
  - intros (r & -> & [[id' Hr]%elem_of_scan He]%elem_of_lfilter).
    rewrite (ok_id _ _ (Hok id' r Hr)).
    pose proof (row_shapeP id' r (Hok id' r Hr)) as Hsh.
    rewrite (is_expired_shape _ r _ Hsh) in He.
    destruct (abs_phase r) as [|a x b|] eqn:Hp; [done| |done].
    exists r, a, x, b. split_and!; [done..|]. by apply Z.ltb_lt.
  - intros (r & a & x & b & Hr & Hp & Hx). exists r.
    rewrite (ok_id _ _ (Hok id r Hr)). split; [done|]. apply elem_of_lfilter.
    split; [apply elem_of_scan; eauto|].
    pose proof (row_shapeP id r (Hok id r Hr)) as Hsh. rewrite Hp in Hsh.
    rewrite (is_expired_shape _ r _ Hsh). by apply Z.ltb_lt.
Qed.

#[local] Instance older_total : Total older.
Proof. intros r1 r2. unfold older. lia. Qed.
#[local] Instance older_trans : Transitive older.
Proof. intros r1 r2 r3. unfold older. lia. Qed.
#[local] Instance newer_total : Total newer.
Proof. intros r1 r2. unfold newer, older. lia. Qed.
#[local] Instance newer_trans : Transitive newer.
Proof. intros r1 r2 r3. unfold newer, older. lia. Qed.

(** [ListQueued] returns each queued job, once, and the oldest first. *)
Theorem ListQueued_result s :
  up 1 (pg_srv s) → table_ok (pg_table s) →
  ∃ jobs s', ListQueued s = (Ret (Ok jobs), s') ∧ pg_table s' = pg_table s ∧
    StronglySorted (λ j k, (j_CreatedAt j <= j_CreatedAt k)%Z) jobs ∧
    NoDup (j_ID <$> jobs) ∧
    ∀ id, id ∈ (j_ID <$> jobs) ↔ ∃ r, pg_table s !! id = Some r ∧ r_status r = JobQueued.
Proof.
  intros Hu Hok. simpl. unfold pg_ListQueued. rewrite (query_up _ 0 s Hu).
  eexists _, _. split_and!; [done|done|..];
    set (l := List.filter (λ r, String.eqb (r_status r) "queued") (pg_scan (pg_srv s) (pg_table s))).
  - pose proof (StronglySorted_merge_sort older l) as Hs.
    induction Hs as [|r l' Hs IH Hf]; simpl; constructor; [done|].
    apply Forall_fmap. eapply Forall_impl; [exact Hf|]. done.
  - rewrite <- list_fmap_compose.
    change (j_ID ∘ queued_job_of_row) with r_id. rewrite merge_sort_Permutation.
    by apply NoDup_filter_ids, NoDup_scan_ids.
  - intros id. rewrite <- list_fmap_compose. change (j_ID ∘ queued_job_of_row) with r_id.
    rewrite merge_sort_Permutation, list_elem_of_fmap. split.
    + intros (r & -> & [[id' Hr]%elem_of_scan He%String.eqb_eq]%elem_of_lfilter).
      rewrite (ok_id _ _ (Hok id' r Hr)). by exists r.
    + intros (r & Hr & Hq). exists r. rewrite (ok_id _ _ (Hok id r Hr)). split; [done|].
      apply elem_of_lfilter. split; [apply elem_of_scan; eauto|]. by apply String.eqb_eq.
Qed.

(** The jobs of a table, the newest first. *)
Definition newest_first (t : gmap string row) : list DBJob :=
  job_of_row <$> merge_sort newer (map_to_list t).*2.

(** No two jobs were created at the same time. *)
Definition distinct_times (t : gmap string row) : Prop :=
  ∀ id id' r r', t !! id = Some r → t !! id' = Some r' →
    r_created_at r = r_created_at r' → id = id'.

Lemma distinct_times_NoDup t :
  NoDup ((λ kv, r_created_at kv.2) <$> map_to_list t) → distinct_times t.
Proof.
  intros Hn id id' r r' Hr%elem_of_map_to_list Hr'%elem_of_map_to_list Ht.
  apply list_elem_of_lookup in Hr as [i Hi]. apply list_elem_of_lookup in Hr' as [j Hj].
  assert (i = j) as <-; [|congruence].
  apply (proj1 (NoDup_alt _) Hn i j (r_created_at r)); rewrite list_lookup_fmap, ?Hi, ?Hj; simpl; congruence.
Qed.

(** Then the order of the scan does not matter. *)
Lemma sort_scan p t :
  distinct_times t → merge_sort newer (pg_scan p t) = merge_sort newer (map_to_list t).*2.
Proof.
  intros Hd. apply (StronglySorted_unique_strong newer).
  - intros r r'. rewrite !merge_sort_Permutation, elem_of_scan, list_elem_of_fmap.
    intros [id Hr] ([id' r''] & -> & Hr'%elem_of_map_to_list) H1 H2. simpl in *.
    assert (id = id') as <-; [|congruence].
    apply (Hd id id' r r''); [done..|]. unfold newer, older in *. lia.
  - apply (StronglySorted_merge_sort newer).
  - apply (StronglySorted_merge_sort newer).
  - by rewrite !merge_sort_Permutation, (pg_scan_perm p t).
Qed.

Lemma ListPaged_run limit offset s :
  up 1 (pg_srv s) → distinct_times (pg_table s) →
  ListPaged limit offset s =
    (Ret (Ok (take (Z.to_nat (clamp_limit limit)) (drop (Z.to_nat (clamp_offset offset))
       (newest_first (pg_table s))))), MkPGStore (after s) (pg_table s)).
Proof.
  intros Hu Hd. simpl. unfold pg_ListPaged. rewrite (query_up _ 0 s Hu), (sort_scan _ _ Hd).
  unfold newest_first. by rewrite fmap_take, fmap_drop.
Qed.

Lemma newest_first_sorted t : StronglySorted (λ j k, (j_CreatedAt k <= j_CreatedAt j)%Z) (newest_first t).
Proof.
  unfold newest_first. pose proof (StronglySorted_merge_sort newer (map_to_list t).*2) as Hs.
  induction Hs as [|r l' Hs IH Hf]; simpl; constructor; [done|].
  apply Forall_fmap. eapply Forall_impl; [exact Hf|]. done.
Qed.

Lemma elem_of_newest_first t j :
  j ∈ newest_first t ↔ ∃ id r, t !! id = Some r ∧ j = job_of_row r.
Proof.
  unfold newest_first. rewrite list_elem_of_fmap. setoid_rewrite merge_sort_Permutation.
  setoid_rewrite list_elem_of_fmap. split.
  - intros (r & -> & ([id r'] & -> & Hr%elem_of_map_to_list)). eauto.
  - intros (id & r & Hr%elem_of_map_to_list & ->). exists r. split; [done|]. by exists (id, r).
Qed.

(** C36: where no two jobs were created at the same time, [ListPaged] gives a page of
    one list that depends on the table only, its jobs from the newest to the oldest: at
    most 1000 of them, [limit] many after the first [offset].  The next call, with the
    offset moved by the limit, goes on where the page ends: the two pages together are
    one page of twice the size, without an overlap or a gap.  (Jobs created in the same
    microsecond have no order of their own, and may move between two calls.) *)
Theorem ListPaged_result limit offset s :
  up 2 (pg_srv s) → distinct_times (pg_table s) →
  let all := newest_first (pg_table s) in
  let n := Z.to_nat (clamp_limit limit) in
  let o := Z.to_nat (clamp_offset offset) in
  (0 < n ≤ 1000) ∧ StronglySorted (λ j k, (j_CreatedAt k <= j_CreatedAt j)%Z) all ∧
  length all = size (pg_table s) ∧
  (∀ j, j ∈ all ↔ ∃ id r, pg_table s !! id = Some r ∧ j = job_of_row r) ∧
  ∃ page1 s1 page2 s2,
    ListPaged limit offset s = (Ret (Ok page1), s1) ∧ pg_table s1 = pg_table s ∧
    ListPaged limit (clamp_offset offset + clamp_limit limit) s1 = (Ret (Ok page2), s2) ∧
    pg_table s2 = pg_table s ∧
    page1 = take n (drop o all) ∧ (page1 ++ page2)%list = take (n + n) (drop o all).
Proof.
  intros Hu Hd all n o.
  assert (0 < clamp_limit limit <= 1000)%Z as Hl.
  { unfold clamp_limit. repeat case_match; lia. }
  assert (0 <= clamp_offset offset)%Z as Ho by (unfold clamp_offset; case_match; lia).
  split_and!; [lia..|apply newest_first_sorted| |apply elem_of_newest_first|].
  { unfold all, newest_first. rewrite length_fmap, merge_sort_Permutation, length_fmap.
    apply length_map_to_list. }
  eexists _, _, _, _. split_and!; [apply ListPaged_run; [by destruct Hu as (? & ? & _)|done]|done| |..].
  - apply ListPaged_run; [by destruct Hu as (_ & _ & ? & ? & _)|done].
  - done.
  - done.
  - cbn [pg_table]. fold all. fold n.
    replace (Z.to_nat (clamp_offset (clamp_offset offset + clamp_limit limit))) with (o + n).
    + by rewrite <- (take_take_drop (drop o all) n n), drop_drop.
    + unfold clamp_offset at 1. destruct (Z.ltb_spec (clamp_offset offset + clamp_limit limit) 0); lia.
Qed.

Lemma foldl_insert_lookup (l : list (string * Z)) (m : gmap string Z) k v :
  NoDup l.*1 → (k, v) ∈ l → foldl (λ m kv, <[kv.1 := kv.2]> m) m l !! k = Some v.
Proof.
  revert m. induction l as [|[k' v'] l IH]; intros m; simpl; [by intros _ ?%not_elem_of_nil|].
  intros [Hk Hl]%NoDup_cons [[= <- <-]|Hin]%elem_of_cons; [|by apply IH].
  clear IH Hl. assert (∀ (m : gmap string Z), k ∉ l.*1 →
    foldl (λ m kv, <[kv.1 := kv.2]> m) m l !! k = m !! k) as Hfr.
  { clear. induction l as [|[k' v'] l IH]; intros m; simpl; [done|].
    intros [? ?]%not_elem_of_cons. rewrite IH by done. by rewrite lookup_insert_ne. }
  rewrite Hfr by done. apply lookup_insert_eq.
Qed.

(** [CountByStatus] maps every status that occurs to the number of its jobs. *)
Theorem CountByStatus_result s :
  up 1 (pg_srv s) →
  ∃ m s', CountByStatus s = (Ret (Ok m), s') ∧ pg_table s' = pg_table s ∧
    ∀ id r, pg_table s !! id = Some r →
      m !! r_status r = Some (count_status (r_status r) (pg_scan (pg_srv s) (pg_table s))).
Proof.
  intros Hu. simpl. unfold pg_CountByStatus.
  run_step (query_up _ 0 s Hu). eexists _, _. split_and!; [done..|].
  intros id r Hr. unfold group_by_status. apply foldl_insert_lookup.
  - rewrite <- list_fmap_compose. rewrite (list_fmap_ext _ (λ x, x) (remove_dups _)) by done.
    rewrite list_fmap_id. apply NoDup_remove_dups.
  - apply list_elem_of_fmap. exists (r_status r). split; [done|].
    apply elem_of_remove_dups, list_elem_of_fmap. exists r. split; [done|].
    apply elem_of_scan. eauto.
Qed.

End results.

(** ** Witnesses: the store of the simulated server with one job, held by "A" *)

Definition demo_s : PGStore SimPG := MkPGStore (20%Z : SimPG) demo_t2.
(** The same table, after the lease of "A" has run out. *)
Definition demo_late : PGStore SimPG := MkPGStore ((30 * Second)%Z : SimPG) demo_t2.

Lemma demo_ok : table_ok demo_t2.
Proof. exact (run_table_ok _ _ _ demo_run2). Qed.

Lemma sim_up n (p : SimPG) : up n p.
Proof. revert p. induction n as [|n IH]; intros p; simpl; auto. Qed.

Lemma TryClaim_result_witness :
  (TryClaim "j1" "B" (15 * Second) demo_s).1 = Ret (Err ErrNoManifest) ∧
  (TryClaim "nope" "B" (15 * Second) demo_s).1 = Ret (Err ErrJobNotFound).
Proof.
  split.
  - destruct (TryClaim_result "j1" "B" (15 * Second) demo_s (sim_up 3 _) demo_ok)
      as (res & s' & -> & Hres & _). rewrite Hres. reflexivity.
  - destruct (TryClaim_result "nope" "B" (15 * Second) demo_s (sim_up 3 _) demo_ok)
      as (res & s' & -> & Hres & _). by rewrite Hres.
Defined.

Lemma Finish_result_witness :
  ∃ s', Finish "j1" "B" 1 true "" None None demo_s = (Ret None, s') ∧ pg_table s' = demo_t2.
Proof.
  destruct (Finish_result "j1" "B" 1 true "" None None demo_s (sim_up 1 _) demo_ok
    ltac:(by vm_compute)) as (s' & Hf & _ & Ht).
  exists s'. split; [exact Hf|exact Ht].
Defined.

(** The row of the held job. *)
Definition demo_row : row := default (MkRow "" "" JNull "" 0 0 None None None None None 0 None None None)
  (demo_t2 !! "j1").

Lemma expired_job_recovered_witness :
  ∃ s1 s2 lease, SetStatusQueued "j1" demo_late = (Ret None, s1) ∧
    TryClaim "j1" "B" (15 * Second) s1 = (Ret (Ok lease), s2) ∧ sl_FencingToken lease = 2%Z.
Proof.
  assert (pg_table demo_late !! "j1" = Some demo_row) as Hr by (vm_compute; reflexivity).
  assert (abs_phase demo_row = Held "A" (seconds_from 10 15) false) as Hp
    by (vm_compute; reflexivity).
  destruct (expired_job_recovered "j1" "A" "B" (seconds_from 10 15) false demo_row (15 * Second)
    true "" None None demo_late (sim_up 4 _) demo_ok ltac:(discriminate) Hr Hp
    ltac:(vm_compute; reflexivity) ltac:(vm_compute; reflexivity) ltac:(vm_compute; reflexivity))
    as (s1 & s2 & lease & Hq & _ & Hc & Ht & _).
  exists s1, s2, lease. split; [exact Hq|]. split; [exact Hc|exact Ht].
Defined.

Lemma CreateJob_GetJob_witness :
  ∃ s1 s2, CreateJob demo_job (MkPGStore (0%Z : SimPG) ∅) = (Ret None, s1) ∧
    GetJob "j1" s1 = (Ret (Ok demo_job), s2).
Proof.
  destruct (CreateJob_GetJob demo_job (MkPGStore (0%Z : SimPG) ∅) (sim_up 2 _))
    as (s1 & s2 & Hc & Hg & _).
  exists s1, s2. split; [exact Hc|exact Hg].
Defined.

Definition demo_queued : PGStore SimPG := MkPGStore (20%Z : SimPG) demo_t1.

Lemma ListQueued_result_witness :
  ∃ jobs s', ListQueued demo_queued = (Ret (Ok jobs), s') ∧ "j1" ∈ (j_ID <$> jobs).
Proof.
  destruct (ListQueued_result demo_queued (sim_up 1 _) (run_table_ok _ _ _ demo_run))
    as (jobs & s' & Hl & _ & _ & _ & Hids).
  exists jobs, s'. split; [exact Hl|]. apply Hids.
  eexists. split; vm_compute; reflexivity.
Defined.

(** Two jobs on two pages. *)
Definition demo_two : PGStore SimPG := MkPGStore (20%Z : SimPG)
  (insert_job pg_ts (MkDBJob "j2" "alpine" None JobQueued 9000 0) (JArr []) demo_t1).

Lemma ListPaged_result_witness :
  ∃ page1 s1 page2 s2, ListPaged 1 0 demo_two = (Ret (Ok page1), s1) ∧
    ListPaged 1 1 s1 = (Ret (Ok page2), s2) ∧ j_ID <$> (page1 ++ page2)%list = ["j2"; "j1"].
Proof.
  destruct (ListPaged_result 1 0 demo_two (sim_up 2 _))
    as (_ & _ & _ & _ & page1 & s1 & page2 & s2 & H1 & _ & H2 & _ & _ & Happ).
  { apply distinct_times_NoDup, (bool_decide_eq_true_1 _). vm_compute. reflexivity. }
  exists page1, s1, page2, s2. split; [exact H1|]. split; [exact H2|].
  rewrite Happ. vm_compute. reflexivity.
Defined.

Lemma CountByStatus_result_witness :
  ∃ m s', CountByStatus demo_queued = (Ret (Ok m), s') ∧ m !! "queued" = Some 1%Z.
Proof.
  destruct (CountByStatus_result demo_queued (sim_up 1 _)) as (m & s' & Hc & _ & Hm).
  exists m, s'. split; [exact Hc|].
  destruct (demo_t1 !! "j1") as [r|] eqn:Hr; [|discriminate Hr].
  specialize (Hm "j1" r Hr). vm_compute in Hr. injection Hr as <-. exact Hm.
Defined.
