(* ===== verification/ControlTypes.v ===== *)
(** * [cmd/control]: requests, responses and documents

    The DTOs of [control_http.go] with their JSON forms, the DHT keys of the
    advertisements, an HTTP request and a response as the handlers see them, and the
    validation of a manifest. *)
From Stdlib Require Import String Ascii.
From stdpp Require Import sorting.
From S2P Require Import Prelude GoStrings GoTime Json TaskTypes LeaseTypes.

Local Open Scope string_scope.

(** ** DTOs *)

(** [providerDTO] *)
Record providerDTO := MkproviderDTO {
  pd_PeerID : string;
  pd_Addrs : slice string;
  pd_Relays : slice string;
  pd_Caps : slice string
}.
Definition zero_providerDTO : providerDTO :=
  MkproviderDTO "" None None None.
Definition fields_providerDTO : list (field providerDTO) := [
  Field "peer_id" never c_string pd_PeerID
    (λ a '(MkproviderDTO _ x1 x2 x3), MkproviderDTO a x1 x2 x3);
  Field "addrs" never (c_slice c_string) pd_Addrs
    (λ a '(MkproviderDTO x0 _ x2 x3), MkproviderDTO x0 a x2 x3);
  Field "relays" empty_slice (c_slice c_string) pd_Relays
    (λ a '(MkproviderDTO x0 x1 _ x3), MkproviderDTO x0 x1 a x3);
  Field "caps" empty_slice (c_slice c_string) pd_Caps
    (λ a '(MkproviderDTO x0 x1 x2 _), MkproviderDTO x0 x1 x2 a)
].
Definition c_providerDTO : codec providerDTO := c_struct fields_providerDTO zero_providerDTO.

(** [manifestInDTO] *)
Record manifestInDTO := MkmanifestInDTO {
  mi_RootCID : string;
  mi_Providers : slice providerDTO;
  mi_EncMeta : string;
  mi_Rendezvous : string;
  mi_Transports : slice string;
  mi_Version : Z;
  mi_UpdatedAt : Z
}.
Definition zero_manifestInDTO : manifestInDTO :=
  MkmanifestInDTO "" None "" "" None 0%Z 0%Z.
Definition fields_manifestInDTO : list (field manifestInDTO) := [
  Field "root_cid" never c_string mi_RootCID
    (λ a '(MkmanifestInDTO _ x1 x2 x3 x4 x5 x6), MkmanifestInDTO a x1 x2 x3 x4 x5 x6);
  Field "providers" never (c_slice c_providerDTO) mi_Providers
    (λ a '(MkmanifestInDTO x0 _ x2 x3 x4 x5 x6), MkmanifestInDTO x0 a x2 x3 x4 x5 x6);
  Field "enc_meta" empty_string c_string mi_EncMeta
    (λ a '(MkmanifestInDTO x0 x1 _ x3 x4 x5 x6), MkmanifestInDTO x0 x1 a x3 x4 x5 x6);
  Field "rendezvous" empty_string c_string mi_Rendezvous
    (λ a '(MkmanifestInDTO x0 x1 x2 _ x4 x5 x6), MkmanifestInDTO x0 x1 x2 a x4 x5 x6);
  Field "transports" empty_slice (c_slice c_string) mi_Transports
    (λ a '(MkmanifestInDTO x0 x1 x2 x3 _ x5 x6), MkmanifestInDTO x0 x1 x2 x3 a x5 x6);
  Field "version" never c_int64 mi_Version
    (λ a '(MkmanifestInDTO x0 x1 x2 x3 x4 _ x6), MkmanifestInDTO x0 x1 x2 x3 x4 a x6);
  Field "updated_at" never c_time mi_UpdatedAt
    (λ a '(MkmanifestInDTO x0 x1 x2 x3 x4 x5 _), MkmanifestInDTO x0 x1 x2 x3 x4 x5 a)
].
Definition c_manifestInDTO : codec manifestInDTO := c_struct fields_manifestInDTO zero_manifestInDTO.

(** [manifestOutDTO]: no [enc_meta] *)
Record manifestOutDTO := MkmanifestOutDTO {
  mo_RootCID : string;
  mo_Providers : slice providerDTO;
  mo_Rendezvous : string;
  mo_Transports : slice string;
  mo_Version : Z;
  mo_UpdatedAt : Z
}.
Definition zero_manifestOutDTO : manifestOutDTO :=
  MkmanifestOutDTO "" None "" None 0%Z 0%Z.
Definition fields_manifestOutDTO : list (field manifestOutDTO) := [
  Field "root_cid" never c_string mo_RootCID
    (λ a '(MkmanifestOutDTO _ x1 x2 x3 x4 x5), MkmanifestOutDTO a x1 x2 x3 x4 x5);
  Field "providers" never (c_slice c_providerDTO) mo_Providers
    (λ a '(MkmanifestOutDTO x0 _ x2 x3 x4 x5), MkmanifestOutDTO x0 a x2 x3 x4 x5);
  Field "rendezvous" empty_string c_string mo_Rendezvous
    (λ a '(MkmanifestOutDTO x0 x1 _ x3 x4 x5), MkmanifestOutDTO x0 x1 a x3 x4 x5);
  Field "transports" empty_slice (c_slice c_string) mo_Transports
    (λ a '(MkmanifestOutDTO x0 x1 x2 _ x4 x5), MkmanifestOutDTO x0 x1 x2 a x4 x5);
  Field "version" never c_int64 mo_Version
    (λ a '(MkmanifestOutDTO x0 x1 x2 x3 _ x5), MkmanifestOutDTO x0 x1 x2 x3 a x5);
  Field "updated_at" never c_time mo_UpdatedAt
    (λ a '(MkmanifestOutDTO x0 x1 x2 x3 x4 _), MkmanifestOutDTO x0 x1 x2 x3 x4 a)
].
Definition c_manifestOutDTO : codec manifestOutDTO := c_struct fields_manifestOutDTO zero_manifestOutDTO.

(** [manifestOutWithSecretDTO]: the embedded struct's fields, then [enc_meta]. *)
Record manifestOutWithSecretDTO := MkWithSecret {
  so_Out : manifestOutDTO;
  so_EncMeta : string
}.
Definition enc_WithSecret (o : manifestOutWithSecretDTO) : option json :=
  match enc c_manifestOutDTO (so_Out o) with
  | Some (JObj kvs) => Some (JObj (kvs ++ [("enc_meta", JStr (so_EncMeta o))])%list)
  | _ => None
  end.

(** [tryClaimIn] *)
Record tryClaimIn := MktryClaimIn {
  tc_AgentID : string;
  tc_TTLSec : Z
}.
Definition zero_tryClaimIn : tryClaimIn :=
  MktryClaimIn "" 0%Z.
Definition fields_tryClaimIn : list (field tryClaimIn) := [
  Field "agent_id" never c_string tc_AgentID
    (λ a '(MktryClaimIn _ x1), MktryClaimIn a x1);
  Field "ttl_sec" never c_int64 tc_TTLSec
    (λ a '(MktryClaimIn x0 _), MktryClaimIn x0 a)
].
Definition c_tryClaimIn : codec tryClaimIn := c_struct fields_tryClaimIn zero_tryClaimIn.

(** [hbIn] *)
Record hbIn := MkhbIn {
  hb_AgentID : string;
  hb_Nonce : string;
  hb_TTLSec : Z;
  hb_LeaseVersion : Z
}.
Definition zero_hbIn : hbIn :=
  MkhbIn "" "" 0%Z 0%Z.
Definition fields_hbIn : list (field hbIn) := [
  Field "agent_id" never c_string hb_AgentID
    (λ a '(MkhbIn _ x1 x2 x3), MkhbIn a x1 x2 x3);
  Field "nonce" never c_string hb_Nonce
    (λ a '(MkhbIn x0 _ x2 x3), MkhbIn x0 a x2 x3);
  Field "ttl_sec" never c_int64 hb_TTLSec
    (λ a '(MkhbIn x0 x1 _ x3), MkhbIn x0 x1 a x3);
  Field "lease_version" never c_int64 hb_LeaseVersion
    (λ a '(MkhbIn x0 x1 x2 _), MkhbIn x0 x1 x2 a)
].
Definition c_hbIn : codec hbIn := c_struct fields_hbIn zero_hbIn.

(** [releaseIn] *)
Record releaseIn := MkreleaseIn {
  re_AgentID : string;
  re_Nonce : string
}.
Definition zero_releaseIn : releaseIn :=
  MkreleaseIn "" "".
Definition fields_releaseIn : list (field releaseIn) := [
  Field "agent_id" never c_string re_AgentID
    (λ a '(MkreleaseIn _ x1), MkreleaseIn a x1);
  Field "nonce" never c_string re_Nonce
    (λ a '(MkreleaseIn x0 _), MkreleaseIn x0 a)
].
Definition c_releaseIn : codec releaseIn := c_struct fields_releaseIn zero_releaseIn.

(** [leaseOut] *)
Record leaseOut := MkleaseOut {
  lo_OK : bool;
  lo_Lease : Lease
}.
Definition zero_leaseOut : leaseOut :=
  MkleaseOut false zero_Lease.
Definition fields_leaseOut : list (field leaseOut) := [
  Field "ok" never c_bool lo_OK
    (λ a '(MkleaseOut _ x1), MkleaseOut a x1);
  Field "lease" never c_Lease lo_Lease
    (λ a '(MkleaseOut x0 _), MkleaseOut x0 a)
].
Definition c_leaseOut : codec leaseOut := c_struct fields_leaseOut zero_leaseOut.

(** [finishIn] *)
Record finishIn := MkfinishIn {
  fi_Status : string;
  fi_Metrics : option (gmap string json);
  fi_Artifacts : slice string;
  fi_ResultCID : string;
  fi_Error : string
}.
Definition zero_finishIn : finishIn :=
  MkfinishIn "" None None "" "".
Definition fields_finishIn : list (field finishIn) := [
  Field "status" never c_string fi_Status
    (λ a '(MkfinishIn _ x1 x2 x3 x4), MkfinishIn a x1 x2 x3 x4);
  Field "metrics" empty_map c_map fi_Metrics
    (λ a '(MkfinishIn x0 _ x2 x3 x4), MkfinishIn x0 a x2 x3 x4);
  Field "artifacts" empty_slice (c_slice c_string) fi_Artifacts
    (λ a '(MkfinishIn x0 x1 _ x3 x4), MkfinishIn x0 x1 a x3 x4);
  Field "result_root_cid" empty_string c_string fi_ResultCID
    (λ a '(MkfinishIn x0 x1 x2 _ x4), MkfinishIn x0 x1 x2 a x4);
  Field "error" empty_string c_string fi_Error
    (λ a '(MkfinishIn x0 x1 x2 x3 _), MkfinishIn x0 x1 x2 x3 a)
].
Definition c_finishIn : codec finishIn := c_struct fields_finishIn zero_finishIn.

(** [taskAd]: the advertisement of a job *)
Record taskAd := MktaskAd {
  ta_JobID : string;
  ta_Namespace : string;
  ta_Topic : string;
  ta_DemandURL : string;
  ta_Exp : Z;
  ta_Sig : string
}.
Definition zero_taskAd : taskAd :=
  MktaskAd "" "" "" "" 0%Z "".
Definition fields_taskAd : list (field taskAd) := [
  Field "job_id" never c_string ta_JobID
    (λ a '(MktaskAd _ x1 x2 x3 x4 x5), MktaskAd a x1 x2 x3 x4 x5);
  Field "ns" empty_string c_string ta_Namespace
    (λ a '(MktaskAd x0 _ x2 x3 x4 x5), MktaskAd x0 a x2 x3 x4 x5);
  Field "topic" empty_string c_string ta_Topic
    (λ a '(MktaskAd x0 x1 _ x3 x4 x5), MktaskAd x0 x1 a x3 x4 x5);
  Field "demand_url" empty_string c_string ta_DemandURL
    (λ a '(MktaskAd x0 x1 x2 _ x4 x5), MktaskAd x0 x1 x2 a x4 x5);
  Field "exp" never c_time ta_Exp
    (λ a '(MktaskAd x0 x1 x2 x3 _ x5), MktaskAd x0 x1 x2 x3 a x5);
  Field "sig" empty_string c_string ta_Sig
    (λ a '(MktaskAd x0 x1 x2 x3 x4 _), MktaskAd x0 x1 x2 x3 x4 a)
].
Definition c_taskAd : codec taskAd := c_struct fields_taskAd zero_taskAd.

(** [manifestMirror] *)
Record manifestMirror := MkmanifestMirror {
  mm_Providers : slice Provider;
  mm_Exp : Z
}.
Definition zero_manifestMirror : manifestMirror :=
  MkmanifestMirror None 0%Z.
Definition fields_manifestMirror : list (field manifestMirror) := [
  Field "providers" never (c_slice c_Provider) mm_Providers
    (λ a '(MkmanifestMirror _ x1), MkmanifestMirror a x1);
  Field "exp" never c_time mm_Exp
    (λ a '(MkmanifestMirror x0 _), MkmanifestMirror x0 a)
].
Definition c_manifestMirror : codec manifestMirror := c_struct fields_manifestMirror zero_manifestMirror.

(** [CreateTaskReq] *)
Record CreateTaskReq := MkCreateTaskReq {
  cr_ID : string;
  cr_Image : string;
  cr_Command : slice string
}.
Definition zero_CreateTaskReq : CreateTaskReq :=
  MkCreateTaskReq "" "" None.
Definition fields_CreateTaskReq : list (field CreateTaskReq) := [
  Field "id" never c_string cr_ID
    (λ a '(MkCreateTaskReq _ x1 x2), MkCreateTaskReq a x1 x2);
  Field "image" never c_string cr_Image
    (λ a '(MkCreateTaskReq x0 _ x2), MkCreateTaskReq x0 a x2);
  Field "command" never (c_slice c_string) cr_Command
    (λ a '(MkCreateTaskReq x0 x1 _), MkCreateTaskReq x0 x1 a)
].
Definition c_CreateTaskReq : codec CreateTaskReq := c_struct fields_CreateTaskReq zero_CreateTaskReq.

(** ** Keys *)
Definition keyTaskAd (ns id : string) : string := "ad/" ++ ns ++ "/task/" ++ id.
Definition keyP2PManifestMirror (id : string) : string := "p2p/" ++ id ++ "/manifest".

(** ** Requests and responses *)

(** [r.Method], [r.URL.Path], [r.Header.Get], [r.URL.Query().Get] and the body. *)
Record request := MkRequest {
  rq_Method : string;
  rq_Path : string;
  rq_Header : gmap string string;
  rq_Query : gmap string string;
  rq_Body : bytes
}.
Definition Header_Get (r : request) (k : string) : string := default "" (rq_Header r !! k).
Definition Query_Get (r : request) (k : string) : string := default "" (rq_Query r !! k).

Inductive rbody :=
  | REmpty
  | RText (s : string)
  | RJson (j : json).

Record response := MkResponse {
  rs_Code : Z;
  rs_Type : string;
  rs_Body : rbody
}.

Definition StatusOK : Z := 200.
Definition StatusCreated : Z := 201.
Definition StatusNoContent : Z := 204.
Definition StatusMovedPermanently : Z := 301.
Definition StatusBadRequest : Z := 400.
Definition StatusUnauthorized : Z := 401.
Definition StatusForbidden : Z := 403.
Definition StatusNotFound : Z := 404.
Definition StatusMethodNotAllowed : Z := 405.
Definition StatusConflict : Z := 409.
Definition StatusInternalServerError : Z := 500.

Definition http_Error (msg : string) (code : Z) : response :=
  MkResponse code "text/plain; charset=utf-8" (RText msg).
Definition NotFound : response := http_Error "404 page not found" StatusNotFound.

(** What [json.NewEncoder(w).Encode(v)] writes: nothing when [v] has no JSON form. *)
Definition Encode (j : option json) : rbody :=
  match j with Some j => RJson j | None => REmpty end.
Definition writeJSON (code : Z) (j : option json) : response :=
  MkResponse code "application/json" (Encode j).

(** [Encode] to a writer whose Content-Type is not set: the server finds plain text in
    what is written. *)
Definition encoded (j : option json) : response :=
  MkResponse StatusOK (match j with Some _ => "text/plain; charset=utf-8" | None => "" end) (Encode j).

(** A [map[string]any] of values that may fail to encode, keys sorted. *)
Fixpoint obj_values (kvs : list (string * option json)) : option (list (string * json)) :=
  match kvs with
  | [] => Some []
  | (k, o) :: kvs' => j ← o; l ← obj_values kvs'; Some ((k, j) :: l)
  end.
Definition json_map (kvs : list (string * option json)) : option json :=
  l ← obj_values kvs; Some (JObj (merge_sort key_le l)).

(** [json.NewDecoder(r.Body).Decode(&in)] into a fresh variable. *)
Definition decode_body {A} (c : codec A) (r : request) : A * option goerror :=
  Decode c (rq_Body r) (czero c).

(** [strings.Split(strings.Trim(r.URL.Path, "/"), "/")]. *)
Definition path_parts (r : request) : list string :=
  Split (Trim (rq_Path r) "/"%char) "/"%char.

(** ** Small helpers of the handlers *)

Definition ttlOrDefault (sec : Z) : Z :=
  if (sec <=? 0)%Z || (3600 <? sec)%Z then (15 * Second)%Z else (sec * Second)%Z.

Definition requireAuth (getenv : string → string) (r : request) : bool :=
  if String.eqb (getenv "MC_DISABLE_AUTH") "1" then true
  else
    let want := getenv "CONTROL_TOKEN" in
    if String.eqb want "" then false
    else String.eqb (Header_Get r "Authorization") ("Bearer " ++ want).

Definition getNamespace (getenv : string → string) : string :=
  if negb (String.eqb (getenv "MC_NS") "") then getenv "MC_NS" else "default".

Definition validateAgentToken (token taskID : string) : bool :=
  Nat.ltb 10 (String.length token) && Contains token taskID.

Definition allowedTransports (t : string) : bool :=
  String.eqb t "quic-v1" || String.eqb t "webrtc".

Fixpoint validateTransports (ts : list string) : option goerror :=
  match ts with
  | [] => None
  | t :: ts' =>
      if negb (allowedTransports (ToLower t)) then Some (ErrMsg ("transport not allowed: " ++ t))
      else validateTransports ts'
  end.

Definition providerIDs (ps : slice providerDTO) : slice string := Some (pd_PeerID <$> elems ps).

(** The copies between the DTO and the stored form. *)
Definition dto_of_provider (p : Provider) : providerDTO :=
  MkproviderDTO (pv_PeerID p) (pv_Addrs p) (pv_Relays p) (pv_Caps p).
Definition provider_of_dto (p : providerDTO) : Provider :=
  MkProvider (pd_PeerID p) (pd_Addrs p) (pd_Relays p) (pd_Caps p).
Definition dto_of_manifest (man : Manifest) : manifestOutDTO :=
  MkmanifestOutDTO (mf_RootCID man) (Some (dto_of_provider <$> elems (mf_Providers man)))
    (mf_Rendezvous man) (mf_Transports man) (mf_Version man) (mf_UpdatedAt man).

(** [peer.Decode] and [ma.NewMultiaddr] of libp2p: the error, if any. *)
Class P2P := {
  peer_Decode : string → option goerror;
  NewMultiaddr : string → option goerror
}.

Section validate.
Context `{!P2P}.

Fixpoint validate_addrs (addrs : list string) : option goerror :=
  match addrs with
  | [] => None
  | a :: addrs' =>
      match NewMultiaddr a with
      | Some _ => Some (ErrMsg ("invalid multiaddr: " ++ a))
      | None =>
          if HasPrefix a "http://" || HasPrefix a "https://" then
            Some (ErrMsg ("http(s) not allowed in addrs: " ++ a))
          else validate_addrs addrs'
      end
  end.

Definition validateProvider (p : providerDTO) : option goerror :=
  if String.eqb (pd_PeerID p) "" then Some (ErrMsg "missing peer_id")
  else
    match peer_Decode (pd_PeerID p) with
    | Some err => Some (ErrMsg ("invalid peer_id: " ++ Error err))
    | None =>
        match elems (pd_Addrs p) with
        | [] => Some (ErrMsg "addrs empty")
        | addrs => validate_addrs addrs
        end
    end.

(** The loop of [manifestHandler] over the providers. *)
Fixpoint validate_providers (i : Z) (ps : list providerDTO) : option goerror :=
  match ps with
  | [] => None
  | p :: ps' =>
      match validateProvider p with
      | Some err => Some (ErrMsg ("provider[" ++ Itoa i ++ "]: " ++ Error err))
      | None => validate_providers (i + 1) ps'
      end
  end.

End validate.
