(* ===== verification/Announce.v ===== *)
(** * The control server's state, and its advertiser

    [control] is what the handlers and loops of [cmd/control] act on: the DHT node,
    the store and the [AnnounceManager].  [announceAds] is of [control_http.go], the
    manager of [main.go]. *)
From Stdlib Require Import String.
From S2P Require Import Prelude GoStrings GoTime Json Env TaskTypes Node LeaseTypes ControlTypes.

Local Open Scope string_scope.

(** [AnnounceManager]: [dirty], [last] and whether [trigger] (capacity 1) is full. *)
Record manager := MkManager {
  am_dirty : gset string;
  am_last : gmap string Z;
  am_trigger : bool
}.
Definition NewAnnounceManager : manager := MkManager ∅ ∅ false.

Record control (E S : Type) := MkControl {
  ct_node : nodew E;
  ct_store : S;
  ct_mgr : manager
}.
Arguments MkControl {E S}.
Arguments ct_node {E S}.
Arguments ct_store {E S}.
Arguments ct_mgr {E S}.

(** A computation on a part of the state. *)
Definition onNode {E S A} (m : M (nodew E) A) : M (control E S) A := λ c,
  let (r, n) := m (ct_node c) in (r, MkControl n (ct_store c) (ct_mgr c)).
Definition onStore {E S A} (m : M S A) : M (control E S) A := λ c,
  let (r, s) := m (ct_store c) in (r, MkControl (ct_node c) s (ct_mgr c)).
Definition onMgr {E S} (f : manager → manager) : M (control E S) unit := λ c,
  (Ret tt, MkControl (ct_node c) (ct_store c) (f (ct_mgr c))).

(** The manager marks an id and fills [trigger], a second signal is dropped. *)
Definition mark (id : string) (m : manager) : manager :=
  MkManager ({[id]} ∪ am_dirty m) (am_last m) true.
Definition stamp (id : string) (t : Z) (m : manager) : manager :=
  MkManager (am_dirty m) (<[id := t]> (am_last m)) (am_trigger m).
Definition take_trigger (m : manager) : manager :=
  MkManager (am_dirty m) (am_last m) false.

(** [last.IsZero() || now.Sub(last) >= m.interval], with [m.last[id]] zero when
    missing. *)
Definition due (interval now : Z) (m : manager) (id : string) : bool :=
  let last := default 0%Z (am_last m !! id) in
  IsZero last || (interval <=? Sub now last)%Z.

Definition noop_manifest (now : Z) : Manifest := MkManifest "noop" None "" "" None 1 now.

Section announce.
Context {E S : Type} `{!Env E} (getenv : string → string) (ns : string).

Local Abbreviation N := (M (nodew E)).
Local Abbreviation C := (M (control E S)).

Definition Enqueue (id : string) : C unit := onMgr (mark id).

Definition demand_url : string :=
  let durl := getenv "CONTROL_PUBLIC_URL" in
  if String.eqb durl "" then
    let durl := "http://127.0.0.1:" ++ getenv "CONTROL_HTTP_PORT" in
    if String.eqb durl "http://127.0.0.1:" then "http://127.0.0.1:8080" else durl
  else durl.

Definition announceAds (id : string) (man : Manifest) (ttl : Z) : N unit :=
  now ← Now;
  let exp := Add now ttl in
  let ad := MktaskAd id ns (mf_Rendezvous man) demand_url exp "" in
  _ ← PutJSON c_taskAd ns (keyTaskAd ns id) ad;
  let m := MkmanifestMirror (mf_Providers man) exp in
  _ ← PutJSON c_manifestMirror ns (keyP2PManifestMirror id) m;
  mret tt.

(** [putManifestMirror], which no caller uses. *)
Definition putManifestMirror (id : string) (providers : slice Provider) (ttl : Z)
    : N (option goerror) :=
  now ← Now;
  PutJSON c_manifestMirror ns (keyP2PManifestMirror id) (MkmanifestMirror providers (Add now ttl)).

(** The manifest to advertise: the stored one, or a placeholder that is stored. *)
Definition announced_manifest (id : string) : N Manifest :=
  '(man, err) ← GetJSON c_Manifest ns (KeyManifest id) zero_Manifest (2 * Second)%Z;
  if match err with Some _ => true | None => false end || String.eqb (mf_RootCID man) "" then
    now ← Now;
    let man := noop_manifest now in
    _ ← PutJSON c_Manifest ns (KeyManifest id) man;
    mret man
  else mret man.

Definition announceOnce (ttl : Z) (id : string) : C unit :=
  onNode (man ← announced_manifest id; announceAds id man ttl);;
  now ← onNode Now;
  onMgr (stamp id now).

(** [process]: the dirty ids whose interval has elapsed, in the order [range] meets
    them. *)
Definition process (ttl interval : Z) : C unit :=
  m ← gets ct_mgr;
  now ← onNode Now;
  order ← onNode (Range (elements (am_dirty m)));
  for_each (List.filter (due interval now m) order) (announceOnce ttl).

(** One turn of [Run]: the ticker, or a signal taken from [trigger]. *)
Inductive run_event := RunTick | RunTrigger.
Definition run_turn (ttl interval : Z) (ev : run_event) : C unit :=
  match ev with
  | RunTick => process ttl interval
  | RunTrigger => onMgr take_trigger;; process ttl interval
  end.

End announce.
