(* ===== verification/ControlHTTP.v ===== *)
(** * [cmd/control/control_http.go]: the HTTP API

    One definition per handler, on the state of the control server and for any
    implementation of the interface [Store], and the routing of [mountHTTP] through
    [http.ServeMux].  A handler runs without interleaving with other handlers; a
    panic is the outcome [Panic] ([net/http] then drops the connection).  A request's
    path is taken to hold no escaped characters; [CONNECT] requests and the request
    for [*], which [ServeMux] treats apart, are left out, and so is what a redirect has
    beside its code. *)
From Stdlib Require Import String Ascii.
From S2P Require Import Prelude GoStrings GoTime Json Env TaskTypes Node LeaseTypes.
From S2P Require Import ControlTypes Announce.

Local Open Scope string_scope.

(** [time.Time.Unix]. *)
Definition Unix (t : Z) : Z := (t / Second - 62135596800)%Z.

Definition bump_state (st : TaskState) : TaskState :=
  with_ts_Version (wrap64 (ts_Version st + 1)) st.

Definition nil_deref : string := "invalid memory address or nil pointer dereference".

Section handlers.
Context {E S : Type} `{!Env E, !Store S, !P2P} (getenv : string → string) (ns : string).

Local Abbreviation N := (M (nodew E)).
Local Abbreviation C := (M (control E S)).

(** [_ = d.GetJSON(key, &v, 2*time.Second)] into a fresh variable. *)
Definition read_doc {A} (c : codec A) (key : string) : N A :=
  '(v, _) ← GetJSON c ns key (czero c) (2 * Second)%Z; mret v.

Definition unauthorized : response := http_Error "unauthorized" StatusUnauthorized.
Definition bad_method : response := http_Error "method not allowed" StatusMethodNotAllowed.
Definition bad_path : response := http_Error "bad path" StatusBadRequest.
Definition bad_json (err : goerror) : response :=
  http_Error ("bad json: " ++ Error err) StatusBadRequest.

Definition addToIndex (id : string) : N (option goerror) :=
  shard ← Intn TaskIndexShardCount;
  let key := KeyIndexShard ns shard in
  idx ← read_doc c_TaskIndex key;
  if existsb (λ x, String.eqb x id) (elems (ix_IDs idx)) then mret None
  else
    let idx := with_ix_IDs (append1 (ix_IDs idx) id) idx in
    now ← Now;
    let idx := with_ix_UpdatedAt now idx in
    let idx := with_ix_Version (wrap64 (ix_Version idx + 1)) idx in
    PutJSON c_TaskIndex ns key idx.

Definition healthHandler (r : request) : C response :=
  mret (MkResponse StatusOK "application/json" (RJson (JObj [("ok", JBool true)]))).

Definition debugLeaseHandler (r : request) : C response :=
  if negb (requireAuth getenv r) then mret (http_Error "unauthorized" 401)
  else
    let id := TrimSuffix (TrimPrefix (rq_Path r) "/internal/tasks/") "/lease" in
    st ← onNode (read_doc c_TaskState (KeyState id));
    le ← onNode (read_doc c_Lease (KeyLease id));
    mret (writeJSON 200 (json_map [
      ("id", Some (JStr id)); ("status", Some (JStr (ts_Status st)));
      ("owner", Some (JStr (ts_AssignedTo st))); ("lease_owner", Some (JStr (le_Owner le)));
      ("lease_expires", enc c_time (le_Expires le)); ("lease_ver", enc c_int64 (le_Version le));
      ("updated_at", enc c_time (ts_UpdatedAt st))])).

Definition createTaskHandler (r : request) : C response :=
  if negb (requireAuth getenv r) then mret unauthorized
  else if negb (String.eqb (rq_Method r) "POST") then mret bad_method
  else
    let '(req, err) := decode_body c_CreateTaskReq r in
    if match err with Some _ => true | None => false end || String.eqb (cr_ID req) "" then
      mret (http_Error "bad request" StatusBadRequest)
    else
      now ← onNode Now;
      err ← onStore (CreateJob (MkDBJob (cr_ID req) (cr_Image req) (cr_Command req) JobQueued now 0));
      match err with
      | Some e => mret (http_Error ("db create failed: " ++ Error e) StatusInternalServerError)
      | None =>
          err ← onNode (PutJSON c_TaskMeta ns (KeyMeta (cr_ID req))
            (MkTaskMeta (cr_ID req) now (cr_Image req) (cr_Command req) None "" 0 zero_Resources));
          match err with
          | Some e => mret (http_Error ("dht put meta failed: " ++ Error e) StatusInternalServerError)
          | None =>
              err ← onNode (PutJSON c_TaskState ns (KeyState (cr_ID req))
                (with_ts_Version 1 (with_ts_UpdatedAt now (with_ts_Status StatusQueued
                  (with_ts_ID (cr_ID req) zero_TaskState)))));
              match err with
              | Some e =>
                  mret (http_Error ("dht put state failed: " ++ Error e) StatusInternalServerError)
              | None =>
                  err ← onNode (addToIndex (cr_ID req));
                  match err with
                  | Some e =>
                      mret (http_Error ("index update failed: " ++ Error e) StatusInternalServerError)
                  | None =>
                      Enqueue (cr_ID req);;
                      mret (writeJSON StatusCreated (json_map [("job_id", Some (JStr (cr_ID req)))]))
                  end
              end
          end
      end.

Definition getTaskHandler (r : request) : C response :=
  if negb (requireAuth getenv r) then mret unauthorized
  else if negb (String.eqb (rq_Method r) "GET") then mret bad_method
  else
    let id := TrimPrefix (rq_Path r) "/api/tasks/" in
    if String.eqb id "" then mret NotFound
    else
      job ← onStore (GetJob id);
      match job with
      | Err _ => mret (http_Error "not found" StatusNotFound)
      | Ok job =>
          '(man, err) ← onNode (GetJSON c_Manifest ns (KeyManifest id) zero_Manifest (2 * Second)%Z);
          let outMan :=
            match err with
            | None => if negb (String.eqb (mf_RootCID man) "") then Some (dto_of_manifest man) else None
            | Some _ => None
            end in
          let meta := json_map [("id", Some (JStr (j_ID job))); ("image", Some (JStr (j_Image job)));
                                ("command", enc (c_slice c_string) (j_Command job))] in
          let state := json_map [("id", Some (JStr (j_ID job))); ("status", Some (JStr (j_Status job)))] in
          mret (writeJSON StatusOK (json_map (("meta", meta) :: ("state", state) ::
            match outMan with Some m => [("manifest", enc c_manifestOutDTO m)] | None => [] end)))
      end.

(** The stored form of a manifest that was posted. *)
Definition manifest_of_dto (inm : manifestInDTO) (updated : Z) : Manifest :=
  MkManifest (mi_RootCID inm) (Some (provider_of_dto <$> elems (mi_Providers inm)))
    (mi_EncMeta inm) (mi_Rendezvous inm) (mi_Transports inm) (mi_Version inm) updated.

(** The checks on a decoded manifest: the message of the 400, if any. *)
Definition check_manifest (inm : manifestInDTO) : option string :=
  if String.eqb (mi_RootCID inm) "" then Some "root_cid required"
  else
    match validateTransports (elems (mi_Transports inm)) with
    | Some err => Some (Error err)
    | None =>
        if negb (String.eqb (mi_RootCID inm) "noop" && empty_slice (mi_Providers inm)) then
          Error <$> validate_providers 0 (elems (mi_Providers inm))
        else None
    end.

(** What [manifestHandler] does with a manifest it accepted. *)
Definition store_manifest (id : string) (inm : manifestInDTO) : C response :=
  updated ← (if IsZero (mi_UpdatedAt inm) then onNode Now else mret (mi_UpdatedAt inm));
  let man := manifest_of_dto inm updated in
  err ← onNode (PutJSON c_Manifest ns (KeyManifest id) man);
  match err with
  | Some e => mret (http_Error ("store error: " ++ Error e) StatusInternalServerError)
  | None =>
      now ← onNode Now;
      err ← onNode (PutJSON c_manifestMirror ns (keyP2PManifestMirror id)
        (MkmanifestMirror (mf_Providers man) (Add now (2 * Minute))));
      match err with
      | Some e => mret (http_Error ("mirror store error: " ++ Error e) StatusInternalServerError)
      | None =>
          err ← onStore (AttachManifest id
            (MkStoreManifest (mi_RootCID inm) (providerIDs (mi_Providers inm)) (mi_EncMeta inm)));
          match err with
          | Some e =>
              mret (http_Error ("db attach manifest failed: " ++ Error e) StatusInternalServerError)
          | None => Enqueue id;; mret (MkResponse StatusNoContent "" REmpty)
          end
      end
  end.

Definition manifestHandler (r : request) : C response :=
  if negb (requireAuth getenv r) then mret unauthorized
  else
    match path_parts r with
    | [p0; id; p2] =>
        if negb (String.eqb p0 "jobs") || negb (String.eqb p2 "manifest") then mret bad_path
        else
          let '(inm, err) := decode_body c_manifestInDTO r in
          match err with
          | Some e => mret (bad_json e)
          | None =>
              match check_manifest inm with
              | Some msg => mret (http_Error msg StatusBadRequest)
              | None => store_manifest id inm
              end
          end
    | _ => mret bad_path
    end.

Definition logsHandler (r : request) : C response :=
  if negb (requireAuth getenv r) then mret unauthorized
  else
    let id := TrimSuffix (TrimPrefix (rq_Path r) "/api/tasks/") "/logs" in
    '(endp, err) ← onNode (GetJSON c_map ns (KeyWS id) None (2 * Second)%Z);
    match err with
    | Some _ => mret (http_Error "no ws endpoint" StatusNotFound)
    | None =>
        now ← onNode Now;
        let tkn := "demo-" ++ Itoa (Unix now) in
        issued ← onNode Now;
        _ ← (match json_map [("token", Some (JStr tkn)); ("issued", enc c_time issued)] with
             | Some (JObj kvs) =>
                 onNode (PutJSON c_map ns (KeyWS id ++ "_token") (Some (list_to_map kvs)))
             | _ => mret None
             end);
        mret (writeJSON 200 (json_map [("endpoint", enc c_map endp); ("token", Some (JStr tkn))]))
    end.

Definition lease_response (agentID : string) (l : StoreLease) : Lease :=
  MkLease agentID "" (sl_ExpireAt l) (wrap64 (sl_FencingToken l)).

(** The state a claim leaves in the DHT. *)
Definition assigned_state (id agentID : string) (now : Z) (st : TaskState) : TaskState :=
  let st := with_ts_UpdatedAt now (with_ts_AssignedTo agentID
    (with_ts_Status StatusAssigned (with_ts_ID id st))) in
  let st := match ts_StartedAt st with None => with_ts_StartedAt (Some now) st | Some _ => st end in
  bump_state st.

(** The part after [TryClaim]: [claimedLease] is [nil] when the store answered
    "manifest not attached". *)
Definition mirror_claim (id agentID : string) (claimedLease : option StoreLease) : C response :=
  now ← onNode Now;
  st ← onNode (read_doc c_TaskState (KeyState id));
  _ ← onNode (PutJSON c_TaskState ns (KeyState id) (assigned_state id agentID now st));
  match claimedLease with
  | None => panic nil_deref
  | Some l =>
      _ ← onNode (PutJSON c_Lease ns (KeyLease id) (lease_response agentID l));
      _ ← onNode Now;
      mret (encoded (enc c_leaseOut (MkleaseOut true (lease_response agentID l))))
  end.

Definition tryClaimHandler (r : request) : C response :=
  if negb (requireAuth getenv r) then mret unauthorized
  else
    match path_parts r with
    | [p0; p1; id; p3] =>
        if negb (String.eqb p0 "api") || negb (String.eqb p1 "tasks") ||
           negb (String.eqb p3 "try-claim") then mret bad_path
        else
          let '(inc, err) := decode_body c_tryClaimIn r in
          match err with
          | Some e => mret (bad_json e)
          | None =>
              if String.eqb (tc_AgentID inc) "" then
                mret (http_Error "agent_id required" StatusBadRequest)
              else
                res ← onStore (TryClaim id (tc_AgentID inc) (ttlOrDefault (tc_TTLSec inc)));
                match res with
                | Ok l => mirror_claim id (tc_AgentID inc) (Some l)
                | Err e =>
                    if decide (e = ErrLeaseConflict) then
                      mret (encoded (enc c_leaseOut (MkleaseOut false zero_Lease)))
                    else if decide (e = ErrJobNotFound) then
                      mret (http_Error "not found" StatusNotFound)
                    else if decide (e = ErrNoManifest) then mirror_claim id (tc_AgentID inc) None
                    else mret (http_Error ("store error: " ++ Error e) StatusInternalServerError)
                end
          end
    | _ => mret bad_path
    end.

(** [st.Status = queued; st.AssignedTo = ""; st.UpdatedAt = now; st.Version++]. *)
Definition requeued_state (now : Z) (st : TaskState) : TaskState :=
  bump_state (with_ts_UpdatedAt now (with_ts_AssignedTo "" (with_ts_Status StatusQueued st))).

Definition releaseHandler (r : request) : C response :=
  if negb (requireAuth getenv r) then mret unauthorized
  else
    match path_parts r with
    | [p0; p1; id; p3] =>
        if negb (String.eqb p0 "api") || negb (String.eqb p1 "tasks") ||
           negb (String.eqb p3 "release") then mret bad_path
        else
          let '(inre, err) := decode_body c_releaseIn r in
          match err with
          | Some e => mret (bad_json e)
          | None =>
              '(cur, err) ← onNode (GetJSON c_Lease ns (KeyLease id) zero_Lease (2 * Second)%Z);
              if match err with Some _ => true | None => false end || String.eqb (le_Owner cur) "" then
                mret (http_Error "no lease" StatusNotFound)
              else if negb (String.eqb (le_Owner cur) (re_AgentID inre)) ||
                      negb (String.eqb (le_Nonce cur) (re_Nonce inre)) then
                mret (http_Error "forbidden" StatusForbidden)
              else
                _ ← onNode (DelJSON ns (KeyLease id));
                st ← onNode (read_doc c_TaskState (KeyState id));
                _ ← (if negb (String.eqb (ts_ID st) "") &&
                        (String.eqb (ts_AssignedTo st) (re_AgentID inre) ||
                         String.eqb (ts_Status st) StatusAssigned ||
                         String.eqb (ts_Status st) StatusRunning)
                     then now ← onNode Now;
                          onNode (PutJSON c_TaskState ns (KeyState id) (requeued_state now st))
                     else mret None);
                mret (MkResponse StatusOK "application/json" (RJson (JObj [("ok", JBool true)])))
          end
    | _ => mret bad_path
    end.

Definition int_param (r : request) (k : string) (dflt : Z) : Z :=
  let v := Query_Get r k in
  if negb (String.eqb v "") then default dflt (Atoi v) else dflt.

Definition listTasksHandler (r : request) : C response :=
  if negb (requireAuth getenv r) then mret unauthorized
  else if negb (String.eqb (rq_Method r) "GET") then mret bad_method
  else
    res ← onStore (ListPaged (int_param r "limit" 100) (int_param r "offset" 0));
    match res with
    | Err e => mret (http_Error ("db list failed: " ++ Error e) StatusInternalServerError)
    | Ok jobs =>
        let row (j : DBJob) := json_map [
          ("id", Some (JStr (j_ID j))); ("status", Some (JStr (j_Status j)));
          ("image", Some (JStr (j_Image j))); ("command", enc (c_slice c_string) (j_Command j));
          ("created_at", enc c_time (j_CreatedAt j)); ("retry_count", enc c_int64 (j_RetryCount j))] in
        mret (writeJSON StatusOK (JArr <$> mapM row jobs))
    end.

Definition agentManifestHandler (r : request) : C response :=
  match path_parts r with
  | [p0; p1; id; p3] =>
      if negb (String.eqb p0 "internal") || negb (String.eqb p1 "agents") ||
         negb (String.eqb p3 "manifest") then mret bad_path
      else
        let token := Query_Get r "token" in
        if String.eqb token "" || negb (validateAgentToken token id) then mret unauthorized
        else
          '(man, err) ← onNode (GetJSON c_Manifest ns (KeyManifest id) zero_Manifest (2 * Second)%Z);
          if match err with Some _ => true | None => false end || String.eqb (mf_RootCID man) "" then
            mret (http_Error "manifest not found" StatusNotFound)
          else
            mret (writeJSON StatusOK
              (enc_WithSecret (MkWithSecret (dto_of_manifest man) (mf_EncMeta man))))
  | _ => mret bad_path
  end.

Definition statsHandler (r : request) : C response :=
  if negb (requireAuth getenv r) then mret unauthorized
  else
    res ← onStore CountByStatus;
    match res with
    | Err e => mret (http_Error ("count failed: " ++ Error e) StatusInternalServerError)
    | Ok m =>
        let count (st : string) := enc c_int64 (default 0%Z (m !! st)) in
        mret (writeJSON StatusOK (json_map [
          ("queued", count JobQueued); ("assigned", count JobAssigned);
          ("running", count JobRunning); ("succeeded", count JobSucceeded);
          ("failed", count JobFailed)]))
    end.

(** The token of a heartbeat: [lease_version], else the nonce, else the header. *)
Definition heartbeat_token (r : request) (inh : hbIn) : Z :=
  if (0 <? hb_LeaseVersion inh)%Z then uint64_of (hb_LeaseVersion inh)
  else
    let tokenStr := TrimSpace (hb_Nonce inh) in
    let tokenStr := if String.eqb tokenStr "" then Header_Get r "X-Lease-Token" else tokenStr in
    if negb (String.eqb tokenStr "") then default 0%Z (ParseUint tokenStr) else 0%Z.

Definition heartbeatHandler (r : request) : C response :=
  if negb (requireAuth getenv r) then mret unauthorized
  else
    match path_parts r with
    | [p0; p1; id; p3] =>
        if negb (String.eqb p0 "api") || negb (String.eqb p1 "tasks") ||
           negb (String.eqb p3 "heartbeat") then mret bad_path
        else
          let '(inh, err) := decode_body c_hbIn r in
          match err with
          | Some e => mret (bad_json e)
          | None =>
              let ttl := ttlOrDefault (hb_TTLSec inh) in
              let token := heartbeat_token r inh in
              if (token =? 0)%Z then mret (http_Error "missing lease token" StatusBadRequest)
              else
                err ← onStore (Heartbeat id (hb_AgentID inh) token ttl);
                match err with
                | Some e => mret (http_Error ("heartbeat failed: " ++ Error e) StatusConflict)
                | None =>
                    cur ← onNode (read_doc c_Lease (KeyLease id));
                    now ← onNode Now;
                    let cur := with_le_Expires (Add now ttl) (with_le_Owner (hb_AgentID inh) cur) in
                    let cur := with_le_Version (wrap64 (le_Version cur + 1)) cur in
                    _ ← onNode (PutJSON c_Lease ns (KeyLease id) cur);
                    mret (writeJSON StatusOK (json_map [("ok", Some (JBool true))]))
                end
          end
    | _ => mret bad_path
    end.

Definition forceRequeueHandler (r : request) : C response :=
  if negb (requireAuth getenv r) then mret unauthorized
  else if negb (String.eqb (rq_Method r) "POST") then mret bad_method
  else
    let id := TrimSuffix (TrimPrefix (rq_Path r) "/internal/requeue/") "/force-requeue" in
    now ← onNode Now;
    '(st, err) ← onNode (GetJSON c_TaskState ns (KeyState id) zero_TaskState (2 * Second)%Z);
    if match err with Some _ => true | None => false end || String.eqb (ts_ID st) "" then
      mret (http_Error "state not found" StatusNotFound)
    else
      _ ← onNode (DelJSON ns (KeyLease id));
      err ← onNode (PutJSON c_TaskState ns (KeyState id) (requeued_state now st));
      match err with
      | Some _ => mret (http_Error "put state failed" StatusInternalServerError)
      | None => Enqueue id;; mret (MkResponse StatusNoContent "" REmpty)
      end.

(** The state a completion leaves in the DHT. *)
Definition finished_state (succeeded : bool) (now : Z) (st : TaskState) : TaskState :=
  bump_state (with_ts_FinishedAt (Some now) (with_ts_UpdatedAt now
    (with_ts_Status (if succeeded then StatusSucceeded else StatusFailed) st))).

Definition finish_token (r : request) : Z :=
  let tokenStr := Header_Get r "X-Lease-Token" in
  if negb (String.eqb tokenStr "") then default 0%Z (ParseUint tokenStr) else 0%Z.

(** The part after [Finish]. *)
Definition mirror_finish (id : string) (succeeded : bool) : C response :=
  st ← onNode (read_doc c_TaskState (KeyState id));
  now ← onNode Now;
  _ ← onNode (PutJSON c_TaskState ns (KeyState id) (finished_state succeeded now st));
  _ ← onNode (DelJSON ns (KeyLease id));
  _ ← onNode (DelJSON ns (keyTaskAd ns id));
  _ ← onNode (DelJSON ns (keyP2PManifestMirror id));
  mret (MkResponse StatusNoContent "" REmpty).

Definition finishHandler (r : request) : C response :=
  if negb (requireAuth getenv r) then mret unauthorized
  else if negb (String.eqb (rq_Method r) "POST") then mret bad_method
  else
    match path_parts r with
    | [p0; id; p2] =>
        if negb (String.eqb p0 "jobs") || negb (String.eqb p2 "finish") then mret bad_path
        else
          let '(inf, err) := decode_body c_finishIn r in
          match err with
          | Some e => mret (bad_json e)
          | None =>
              let succeeded := String.eqb (ToLower (fi_Status inf)) "succeeded" in
              err ← onStore (Finish id (Header_Get r "X-Agent-ID") (finish_token r) succeeded
                (fi_ResultCID inf) (fi_Artifacts inf) (enc c_map (fi_Metrics inf)));
              match err with
              | Some e => mret (http_Error ("finish failed: " ++ Error e) StatusConflict)
              | None => mirror_finish id succeeded
              end
          end
    | _ => mret bad_path
    end.

(** ** Routing *)

(** [path.Clean] of a rooted path: the elements that remain, last first. *)
Fixpoint clean_elems (parts : list string) (acc : list string) : list string :=
  match parts with
  | [] => acc
  | p :: parts' =>
      if String.eqb p "" || String.eqb p "." then clean_elems parts' acc
      else if String.eqb p ".." then clean_elems parts' (tl acc)
      else clean_elems parts' (p :: acc)
  end.
Definition join_path (elems : list string) : string :=
  foldr (λ e s, "/" ++ e ++ s) "" elems.

(** [cleanPath] of [net/http]. *)
Definition cleanPath (p : string) : string :=
  let p := match p with
           | EmptyString => "/"
           | String c _ => if Ascii.eqb c "/" then p else "/" ++ p
           end in
  let np := join_path (rev (clean_elems (Split p "/"%char) [])) in
  if String.eqb np "" then "/" else if HasSuffix p "/" then np ++ "/" else np.

(** The handler [mountHTTP] registers for "/api/tasks/". *)
Definition tasksRoute (r : request) : C response :=
  let post := String.eqb (rq_Method r) "POST" in
  if post && HasSuffix (rq_Path r) "/try-claim" then tryClaimHandler r
  else if post && HasSuffix (rq_Path r) "/heartbeat" then heartbeatHandler r
  else if post && HasSuffix (rq_Path r) "/release" then releaseHandler r
  else if HasSuffix (rq_Path r) "/logs" then logsHandler r
  else getTaskHandler r.

Definition jobsRoute (r : request) : C response :=
  if HasSuffix (rq_Path r) "/manifest" then manifestHandler r
  else if HasSuffix (rq_Path r) "/finish" then finishHandler r
  else mret NotFound.

Definition apiJobsRoute (r : request) : C response :=
  if HasSuffix (rq_Path r) "/finish" then finishHandler r else mret NotFound.

Definition apiTasks (r : request) : C response :=
  if String.eqb (rq_Method r) "GET" then listTasksHandler r
  else if String.eqb (rq_Method r) "POST" then createTaskHandler r
  else mret bad_method.

(** The pattern that matches a path. *)
Definition route (p : string) : option (request → C response) :=
  if String.eqb p "/api/health" then Some healthHandler
  else if String.eqb p "/api/tasks" then Some apiTasks
  else if String.eqb p "/api/stats/tasks" then Some statsHandler
  else if HasPrefix p "/api/tasks/" then Some tasksRoute
  else if HasPrefix p "/jobs/" then Some jobsRoute
  else if HasPrefix p "/api/jobs/" then Some apiJobsRoute
  else if HasPrefix p "/internal/tasks/" then Some debugLeaseHandler
  else if HasPrefix p "/internal/requeue/" then Some forceRequeueHandler
  else None.

Definition subtree_root (p : string) : bool :=
  existsb (String.eqb p) ["/api/tasks/"; "/jobs/"; "/api/jobs/"; "/internal/tasks/"; "/internal/requeue/"].

Definition moved : response := MkResponse StatusMovedPermanently "" REmpty.

(** [mountHTTP(...).ServeHTTP]. *)
Definition serveHTTP (r : request) : C response :=
  let p := cleanPath (rq_Path r) in
  match route p with
  | Some h => if String.eqb p (rq_Path r) then h r else mret moved
  | None => mret (if subtree_root (p ++ "/") || negb (String.eqb p (rq_Path r)) then moved else NotFound)
  end.

End handlers.
