(* ===== verification/ControlMain.v ===== *)
(** * [cmd/control/main.go]: start-up and background loops

    The restoration of queued jobs, one tick of each loop, the creation of tasks from
    the command line, and the start-up sequence of [main].  A loop is the repetition
    of its tick. *)
From Stdlib Require Import String Ascii.
From S2P Require Import Prelude GoStrings GoTime Json Env TaskTypes Node LeaseTypes.
From S2P Require Import ControlTypes Announce ControlHTTP.

Local Open Scope string_scope.

Definition maxRetry : Z := 5.

(** The elements of a comma-separated list, trimmed, without the empty ones: the loop
    of [splitCSV], and those of [main] over [-create] and [-cmd]. *)
Definition csv_elems (s : string) : list string :=
  List.filter (λ p, negb (String.eqb p "")) (TrimSpace <$> Split s ","%char).

(** [nil] for an empty result. *)
Definition appended (l : list string) : slice string :=
  match l with [] => None | _ => Some l end.

Definition splitCSV (s : string) : slice string :=
  if String.eqb s "" then None else appended (csv_elems s).

(** The index with an id added, or only touched when it is there. *)
Definition index_with (id : string) (now : Z) (idx : TaskIndex) : TaskIndex :=
  let idx := if existsb (λ x, String.eqb x id) (elems (ix_IDs idx)) then idx
             else with_ix_IDs (append1 (ix_IDs idx) id) idx in
  with_ix_UpdatedAt now (with_ix_Version (wrap64 (ix_Version idx + 1)) idx).

Section main.
Context {E S : Type} `{!Env E, !Store S} (getenv : string → string) (ns : string).

Local Abbreviation N := (M (nodew E)).
Local Abbreviation C := (M (control E S)).

Definition createTask (id image : string) (cmd : slice string) : N (option goerror) :=
  now ← Now;
  err ← PutJSON c_TaskMeta ns (KeyMeta id) (MkTaskMeta id now image cmd None "" 0 zero_Resources);
  match err with
  | Some e => mret (Some e)
  | None =>
      err ← PutJSON c_TaskState ns (KeyState id)
        (with_ts_Version 1 (with_ts_UpdatedAt now (with_ts_Status StatusQueued
          (with_ts_ID id zero_TaskState))));
      match err with
      | Some e => mret (Some e)
      | None =>
          PutJSONCAS ns (KeyIndex ns) (λ prev,
            let idx := if nonempty prev then (Unmarshal c_TaskIndex prev zero_TaskIndex).1
                       else zero_TaskIndex in
            mret (true, default (BRaw "") (Marshal c_TaskIndex (index_with id now idx)), None))
      end
  end.

(** The body of the loop of [restoreJobsFromDemand]. *)
Definition restore_job (j : DBJob) : C unit :=
  _ ← onNode (PutJSON c_TaskMeta ns (KeyMeta (j_ID j))
    (MkTaskMeta (j_ID j) (j_CreatedAt j) (j_Image j) (j_Command j) None "" 0 zero_Resources));
  now ← onNode Now;
  _ ← onNode (PutJSON c_TaskState ns (KeyState (j_ID j))
    (with_ts_Version 1 (with_ts_UpdatedAt now (with_ts_Status StatusQueued
      (with_ts_ID (j_ID j) zero_TaskState)))));
  _ ← onNode (addToIndex ns (j_ID j));
  Enqueue (j_ID j).

Definition restoreJobsFromDemand : C unit :=
  res ← onStore ListQueued;
  match res with
  | Err _ => mret tt
  | Ok jobs => for_each jobs restore_job
  end.

Definition updateDHTStateQueued (id : string) (now : Z) : N unit :=
  st ← read_doc ns c_TaskState (KeyState id);
  _ ← PutJSON c_TaskState ns (KeyState id) (requeued_state now (with_ts_ID id st));
  mret tt.

(** What [requeueLoop] does with one expired id. *)
Definition requeue_job (now : Z) (id : string) : C unit :=
  err ← onStore (SetStatusQueued id);
  match err with
  | Some _ => mret tt
  | None =>
      _ ← onNode Now;
      _ ← onNode (DelJSON ns (KeyLease id));
      onNode (updateDHTStateQueued id now);;
      Enqueue id
  end.

Definition requeue_tick : C unit :=
  now ← onNode Now;
  res ← onStore (ListExpiredLeases (Add now (- (3 * Second))));
  match res with
  | Err _ => mret tt
  | Ok expired => for_each expired (requeue_job now)
  end.

Definition reannounce_tick : C unit :=
  res ← onStore ListQueued;
  match res with
  | Err _ => mret tt
  | Ok jobs => for_each jobs (λ j, Enqueue (j_ID j))
  end.

(** A tick of [snapshotLoop], which [main] does not start: the lines it logs. *)
Definition snapshot_tick : C (list (string * string)) :=
  res ← onStore ListAll;
  match res with
  | Err _ => mret []
  | Ok jobs => mret ((λ j, (j_ID j, j_Status j)) <$>
      List.filter (λ j, String.eqb (j_Status j) JobSucceeded || String.eqb (j_Status j) JobFailed) jobs)
  end.

(** The loop of [main] over [-create]. *)
Definition create_from_flag (image : string) (cmd : slice string) (id : string) : C unit :=
  _ ← onNode (createTask id image cmd);
  now ← onNode Now;
  _ ← onStore (CreateJob (MkDBJob id image cmd JobQueued now 0));
  Enqueue id.

(** [main] after the node and the store are up, until it blocks. *)
Definition control_start (createStr image cmdStr : string) : C unit :=
  restoreJobsFromDemand;;
  if negb (String.eqb createStr "") then
    for_each (csv_elems createStr) (create_from_flag image (appended (csv_elems cmdStr)))
  else mret tt.

End main.

(** The parameters [main] gives the manager. *)
Definition announce_ttl : Z := 30 * Second.
Definition announce_interval : Z := 3 * Second.
