(* ===== verification/ControlLemmas.v ===== *)
(** * Reasoning about the control server

    Runs of a computation on a part of the state, computations that always return,
    and the shape of an authorised request. *)
From Stdlib Require Import String Ascii.
From S2P Require Import Prelude GoStrings GoTime Json Env TaskTypes Node NodeTheorems Docs LeaseTypes.
From S2P Require Import ControlTypes Announce ControlHTTP ControlMain.

Local Open Scope string_scope.

(** ** Runs *)

Lemma onNode_run {E S A} (m : M (nodew E) A) (c : control E S) a n :
  m (ct_node c) = (Ret a, n) → onNode m c = (Ret a, MkControl n (ct_store c) (ct_mgr c)).
Proof. intros H. unfold onNode. by rewrite H. Qed.

Lemma onStore_run {E S A} (m : M S A) (c : control E S) a s :
  m (ct_store c) = (Ret a, s) → onStore m c = (Ret a, MkControl (ct_node c) s (ct_mgr c)).
Proof. intros H. unfold onStore. by rewrite H. Qed.

(** Run the first step of a sequence, known from an equation on the node or on the
    store. *)
Ltac node_step H := erewrite bind_run; [|apply onNode_run; simpl; exact H].
Ltac store_step H := erewrite bind_run; [|apply onStore_run; simpl; exact H].

(** ** Computations that always return *)

Class Total {W A} (m : M W A) : Prop := total_run w : ∃ a w', m w = (Ret a, w').

#[global] Instance total_ret {W A} (a : A) : Total (mret a : M W A).
Proof. intros w. by exists a, w. Qed.

#[global] Instance total_bind {W A B} (m : M W A) (k : A → M W B) :
  Total m → (∀ a, Total (k a)) → Total (m ≫= k).
Proof.
  intros Hm Hk w. destruct (Hm w) as (a & w1 & H1). destruct (Hk a w1) as (b & w2 & H2).
  exists b, w2. by run_step H1.
Qed.

#[global] Instance total_gets {W A} (f : W → A) : Total (gets f).
Proof. intros w. by eexists _, w. Qed.
#[global] Instance total_modify {W} (f : W → W) : Total (modify f).
Proof. intros w. by eexists _, _. Qed.

#[global] Instance total_for_each {W A} (l : list A) (body : A → M W unit) :
  (∀ x, Total (body x)) → Total (for_each l body).
Proof. intros Hb. induction l as [|x l IH]; simpl; apply _. Qed.

#[global] Instance total_onNode {E S A} (m : M (nodew E) A) :
  Total m → Total (onNode m : M (control E S) A).
Proof. intros H c. destruct (H (ct_node c)) as (a & n & Hn). eexists _, _. by apply onNode_run. Qed.
#[global] Instance total_onStore {E S A} (m : M S A) :
  Total m → Total (onStore m : M (control E S) A).
Proof. intros H c. destruct (H (ct_store c)) as (a & n & Hn). eexists _, _. by apply onStore_run. Qed.
#[global] Instance total_onMgr {E S} f : Total (onMgr f : M (control E S) unit).
Proof. intros c. by eexists _, _. Qed.

(** The branches of a handler. *)
Ltac solve_total :=
  repeat (cbv zeta; first
    [ apply _
    | apply total_bind; [|intros]
    | apply total_onNode
    | apply total_onStore
    | apply total_for_each; intros
    | match goal with |- Total (match ?x with _ => _ end) => destruct x end ]).

Section total.
Context {E : Type} `{!Env E}.

#[global] Instance total_Now : Total (Now (E := E)).
Proof. intros w. unfold Now. destruct (env_Now _). by eexists _, _. Qed.
#[global] Instance total_Intn n : Total (Intn (E := E) n).
Proof. intros w. unfold Intn. destruct (env_Intn _ _). by eexists _, _. Qed.
#[global] Instance total_Nonce : Total (Nonce (E := E)).
Proof. intros w. unfold Nonce. destruct (env_Nonce _). by eexists _, _. Qed.
#[global] Instance total_Sleep d : Total (Sleep (E := E) d).
Proof. intros w. by eexists _, _. Qed.
#[global] Instance total_Range l : Total (Range (E := E) l).
Proof. intros w. unfold Range. destruct (env_Range _ _). by eexists _, _. Qed.
#[global] Instance total_PutValue tmo k b : Total (PutValue (E := E) tmo k b).
Proof. intros w. unfold PutValue. destruct (env_PutValue _ _ _ _). by eexists _, _. Qed.
#[global] Instance total_GetValue tmo k : Total (GetValue (E := E) tmo k).
Proof. intros w. unfold GetValue. destruct (env_GetValue _ _ _). by eexists _, _. Qed.
#[global] Instance total_read_fallback tmo nk : Total (read_fallback (E := E) tmo nk).
Proof. unfold read_fallback, local_load. solve_total. Qed.
#[global] Instance total_GetJSON {A} (c : codec A) ns key out tmo :
  Total (GetJSON (E := E) c ns key out tmo).
Proof. unfold GetJSON. solve_total. Qed.
#[global] Instance total_PutJSON {A} (c : codec A) ns key v : Total (PutJSON (E := E) c ns key v).
Proof. unfold PutJSON, local_store. solve_total. Qed.
#[global] Instance total_DelJSON ns key : Total (DelJSON (E := E) ns key).
Proof. unfold DelJSON, local_delete. solve_total. Qed.
#[global] Instance total_cas_loop n i nk check lastErr :
  (∀ prev, Total (check prev)) → Total (cas_loop (E := E) n i nk check lastErr).
Proof.
  intros Hc. revert i lastErr. induction n as [|n IH]; intros i lastErr; cbn [cas_loop]; [apply _|].
  unfold cas_turn, cas_prev, cas_store, jitterBackoff, local_store. solve_total.
Qed.
#[global] Instance total_PutJSONCAS ns key check :
  (∀ prev, Total (check prev)) → Total (PutJSONCAS (E := E) ns key check).
Proof. intros. unfold PutJSONCAS. apply _. Qed.
#[global] Instance total_read_doc {A} (c : codec A) ns key : Total (read_doc (E := E) ns c key).
Proof. unfold read_doc. solve_total. Qed.
#[global] Instance total_addToIndex ns id : Total (addToIndex (E := E) ns id).
Proof. unfold addToIndex. solve_total. Qed.
#[global] Instance total_announceAds getenv ns id man ttl :
  Total (announceAds (E := E) getenv ns id man ttl).
Proof. unfold announceAds. solve_total. Qed.

End total.

(** A store whose methods return. *)
Class TotalStore (S : Type) `{!Store S} : Prop := {
  ts_CreateJob job : Total (CreateJob (S := S) job);
  ts_GetJob id : Total (GetJob (S := S) id);
  ts_AttachManifest id m : Total (AttachManifest (S := S) id m);
  ts_TryClaim id a ttl : Total (TryClaim (S := S) id a ttl);
  ts_Heartbeat id a tok ttl : Total (Heartbeat (S := S) id a tok ttl);
  ts_Finish id a tok ok cid arts metr : Total (Finish (S := S) id a tok ok cid arts metr);
  ts_ListExpiredLeases t : Total (ListExpiredLeases (S := S) t);
  ts_SetStatusQueued id : Total (SetStatusQueued (S := S) id);
  ts_ListQueued : Total (ListQueued (S := S));
  ts_ListAll : Total (ListAll (S := S));
  ts_ListPaged limit offset : Total (ListPaged (S := S) limit offset);
  ts_CountByStatus : Total (CountByStatus (S := S))
}.
#[global] Existing Instances ts_CreateJob ts_GetJob ts_AttachManifest ts_TryClaim ts_Heartbeat
  ts_Finish ts_ListExpiredLeases ts_SetStatusQueued ts_ListQueued ts_ListAll ts_ListPaged
  ts_CountByStatus.
