(* ===== verification/ControlSafety.v ===== *)
(** * The HTTP API as a whole

    Every request is answered without a change when it is not authorised, and the
    only panic is a claim the store refused for want of a manifest. *)
From Stdlib Require Import String Ascii.
From S2P Require Import Prelude GoStrings GoTime Json Env TaskTypes Node NodeTheorems Docs LeaseTypes.
From S2P Require Import PGStore ControlTypes Announce ControlHTTP ControlMain ControlLemmas.

Local Open Scope string_scope.

Section safety.
Context {E S : Type} `{!Env E, !Store S, !P2P} (getenv : string → string) (ns : string).
Implicit Types (c : control E S) (r : request).

Local Abbreviation serve := (serveHTTP (E := E) (S := S) getenv ns).

(** Answers an unauthorised request without touching the state. *)
Definition guarded (h : request → M (control E S) response) : Prop :=
  ∀ r c, requireAuth getenv r = false → ∃ resp, h r c = (Ret resp, c) ∧ rs_Code resp ≠ StatusOK ∧
    (rs_Code resp = StatusUnauthorized ∨ rs_Code resp = StatusNotFound ∨
     rs_Code resp = StatusMethodNotAllowed).

Lemma guarded_tasksRoute : guarded (tasksRoute getenv ns).
Proof.
  intros r c Ha. unfold tasksRoute, tryClaimHandler, heartbeatHandler, releaseHandler, logsHandler,
    getTaskHandler. rewrite Ha. simpl.
  repeat case_match; (eexists; split; [reflexivity|]; split; [done|auto]).
Qed.
Lemma guarded_jobsRoute : guarded (jobsRoute getenv ns).
Proof.
  intros r c Ha. unfold jobsRoute, manifestHandler, finishHandler. rewrite Ha. simpl.
  repeat case_match; (eexists; split; [reflexivity|]; split; [done|auto]).
Qed.
Lemma guarded_apiJobsRoute : guarded (apiJobsRoute getenv ns).
Proof.
  intros r c Ha. unfold apiJobsRoute, finishHandler. rewrite Ha. simpl.
  repeat case_match; (eexists; split; [reflexivity|]; split; [done|auto]).
Qed.
Lemma guarded_apiTasks : guarded (apiTasks getenv ns).
Proof.
  intros r c Ha. unfold apiTasks, listTasksHandler, createTaskHandler. rewrite Ha. simpl.
  repeat case_match; (eexists; split; [reflexivity|]; split; [done|auto]).
Qed.
Lemma guarded_internal :
  guarded (debugLeaseHandler getenv ns) ∧ guarded (forceRequeueHandler getenv ns) ∧
  guarded (statsHandler getenv).
Proof.
  split_and!; [unfold debugLeaseHandler|unfold forceRequeueHandler|unfold statsHandler];
    intros r c Ha; rewrite Ha; simpl; (eexists; split; [reflexivity|]; split; [done|auto]).
Qed.

Lemma requireAuth_refuses r :
  getenv "MC_DISABLE_AUTH" ≠ "1" →
  (getenv "CONTROL_TOKEN" = "" ∨ Header_Get r "Authorization" ≠ "Bearer " ++ getenv "CONTROL_TOKEN") →
  requireAuth getenv r = false.
Proof.
  intros Hd Ht. unfold requireAuth. str_ne Hd.
  destruct (String.eqb_spec (getenv "CONTROL_TOKEN") "") as [_|Hn]; [done|].
  destruct Ht as [He|Hh]; [done|]. by apply String.eqb_neq.
Qed.

(** C11: a request without the token, or any request to a server that has none, changes
    nothing while authorisation is on: not the database, not the DHT, not the
    advertiser; the answer is 401, 404, 405 or a redirect, and 200 only from the health
    check. *)
Theorem unauthorised_harmless r c :
  getenv "MC_DISABLE_AUTH" ≠ "1" →
  (getenv "CONTROL_TOKEN" = "" ∨ Header_Get r "Authorization" ≠ "Bearer " ++ getenv "CONTROL_TOKEN") →
  ∃ resp, serve r c = (Ret resp, c) ∧
    (rs_Code resp = StatusOK → rq_Path r = "/api/health") ∧
    (rs_Code resp = StatusOK ∨ rs_Code resp = StatusUnauthorized ∨ rs_Code resp = StatusNotFound ∨
     rs_Code resp = StatusMethodNotAllowed ∨ rs_Code resp = StatusMovedPermanently).
Proof.
  intros Hd Ht. pose proof (requireAuth_refuses r Hd Ht) as Ha.
  unfold serveHTTP, route. set (p := cleanPath (rq_Path r)).
  destruct guarded_internal as (Gd & Gf & Gs).
  assert (∀ h, guarded h → ∃ resp,
    (if String.eqb p (rq_Path r) then h r else mret moved) c = (Ret resp, c) ∧
    (rs_Code resp = StatusOK → rq_Path r = "/api/health") ∧
    (rs_Code resp = StatusOK ∨ rs_Code resp = StatusUnauthorized ∨ rs_Code resp = StatusNotFound ∨
     rs_Code resp = StatusMethodNotAllowed ∨ rs_Code resp = StatusMovedPermanently)) as Hg.
  { intros h Hh. destruct (String.eqb p (rq_Path r)).
    - destruct (Hh r c Ha) as (resp & Hr & Hn & Hc). exists resp. tauto.
    - eexists. split; [reflexivity|]. simpl. split; [done|tauto]. }
  destruct (String.eqb_spec p "/api/health") as [Hp|_].
  { destruct (String.eqb_spec p (rq_Path r)) as [He|_]; eexists; (split; [reflexivity|]); simpl;
      (split; [|tauto]); [congruence|done]. }
  repeat match goal with
  | |- context [if ?b then Some _ else _] => destruct b
  end; try (apply Hg; auto using guarded_tasksRoute, guarded_jobsRoute, guarded_apiJobsRoute,
    guarded_apiTasks).
  eexists. split; [reflexivity|]. destruct (_ || _); simpl; split; (done || tauto).
Qed.

(** ** Panics *)

Context `{!TotalStore S}.

(** The request is an authorised claim to which the store answers "manifest not
    attached". *)
Definition refused_claim r c : Prop :=
  ∃ id inc s', requireAuth getenv r = true ∧ path_parts r = ["api"; "tasks"; id; "try-claim"] ∧
    decode_body c_tryClaimIn r = (inc, None) ∧
    TryClaim id (tc_AgentID inc) (ttlOrDefault (tc_TTLSec inc)) (ct_store c) = (Ret (Err ErrNoManifest), s').
(** Returns, or panics on such a claim. *)
Definition safe r (h : M (control E S) response) : Prop :=
  ∀ c, (∃ resp c', h c = (Ret resp, c')) ∨ (refused_claim r c ∧ (h c).1 = Panic nil_deref).

Lemma safe_total r h : Total h → safe r h.
Proof. intros Ht c. left. apply Ht. Qed.

Lemma mirror_claim_total id a l : Total (mirror_claim (S := S) (E := E) ns id a (Some l)).
Proof. unfold mirror_claim. solve_total. Qed.

Lemma mirror_claim_nil id a c : ∃ c', mirror_claim ns id a None c = (Panic nil_deref, c').
Proof.
  unfold mirror_claim.
  destruct (total_run (m := onNode (E := E) (S := S) Now) c) as (now & c1 & H1).
  run_step H1.
  destruct (total_run (m := onNode (E := E) (S := S) (read_doc ns c_TaskState (KeyState id))) c1)
    as (st & c2 & H2).
  run_step H2.
  destruct (total_run (m := onNode (E := E) (S := S) (PutJSON c_TaskState ns (KeyState id)
    (assigned_state id a now st))) c2) as (e & c3 & H3).
  run_step H3. by exists c3.
Qed.

Lemma safe_tryClaim r : safe r (tryClaimHandler getenv ns r).
Proof.
  unfold tryClaimHandler. destruct (requireAuth getenv r) eqn:Ha; [|apply safe_total, _]. cbn [negb]. cbv iota.
  destruct (path_parts r) as [|p0 [|p1 [|id [|p3 [|]]]]] eqn:Hpp; try (apply safe_total, _).
  destruct (String.eqb_spec p0 "api") as [->|]; [|apply safe_total, _].
  destruct (String.eqb_spec p1 "tasks") as [->|]; [|apply safe_total, _].
  destruct (String.eqb_spec p3 "try-claim") as [->|]; [|apply safe_total, _]. cbn [negb orb]. cbv iota.
  destruct (decode_body c_tryClaimIn r) as [inc [e|]] eqn:Hd; [apply safe_total, _|].
  destruct (String.eqb _ _); [apply safe_total, _|].
  intros c.
  destruct (total_run (m := TryClaim (S := S) id (tc_AgentID inc) (ttlOrDefault (tc_TTLSec inc)))
    (ct_store c)) as (res & s' & Hs).
  erewrite bind_run by (apply onStore_run; exact Hs).
  set (c1 := MkControl _ _ _).
  destruct res as [l|e]; [left; apply mirror_claim_total|].
  destruct (decide (e = ErrLeaseConflict)); [left; by eexists _, _|].
  destruct (decide (e = ErrJobNotFound)); [left; by eexists _, _|].
  destruct (decide (e = ErrNoManifest)) as [->|]; [|left; by eexists _, _].
  right. destruct (mirror_claim_nil id (tc_AgentID inc) c1) as [c' ->].
  split; [by exists id, inc, s'|done].
Qed.

(** C10: no request can make the server panic except one: an authorised claim of a job
    to which the store answers "manifest not attached", which dereferences the lease
    that was not returned. *)
Theorem only_panic r c :
  (∃ resp c', serve r c = (Ret resp, c')) ∨ (refused_claim r c ∧ (serve r c).1 = Panic nil_deref).
Proof.
  revert c. change (safe r (serve r)). unfold serveHTTP, route.
  assert (∀ id inm, Total (store_manifest (E := E) (S := S) ns id inm)) as Hsm
    by (intros; unfold store_manifest, Enqueue; solve_total).
  assert (∀ id b, Total (mirror_finish (E := E) (S := S) ns id b)) as Hmf
    by (intros; unfold mirror_finish; solve_total).
  assert (Total (finishHandler (E := E) (S := S) getenv ns r)) as Hfin
    by (unfold finishHandler; solve_total).
  assert (Total (manifestHandler (E := E) (S := S) getenv ns r)) as Hman
    by (unfold manifestHandler; solve_total).
  assert (∀ (b : bool) (h : M (control E S) response),
    safe r h → safe r (if b then h else mret moved)) as Hif.
  { intros [] h Hh; [done|apply safe_total, _]. }
  repeat match goal with
  | |- context [if ?b then Some ?h else _] => destruct b; [apply Hif|]
  end.
  - apply safe_total. unfold healthHandler. solve_total.
  - apply safe_total. unfold apiTasks, listTasksHandler, createTaskHandler, Enqueue. solve_total.
  - apply safe_total. unfold statsHandler. solve_total.
  - unfold tasksRoute. destruct (_ && _); [apply safe_tryClaim|]. apply safe_total.
    unfold heartbeatHandler, releaseHandler, logsHandler, getTaskHandler. solve_total.
  - apply safe_total. unfold jobsRoute. solve_total.
  - apply safe_total. unfold apiJobsRoute. solve_total.
  - apply safe_total. unfold debugLeaseHandler. solve_total.
  - apply safe_total. unfold forceRequeueHandler, Enqueue. solve_total.
  - apply safe_total, _.
Qed.

End safety.

(** ** The PostgreSQL store returns *)

Section pg_total.
Context {P : Type} `{!PGServer P}.

#[global] Instance total_exec {A} (f : Z → gmap string row → result A * gmap string row) :
  Total (exec (P := P) f).
Proof.
  intros s. unfold exec. destruct (pg_stmt (pg_srv s)) as [x p]. destruct (sx_err x); [by eexists _, _|].
  destruct (f (sx_now x) (pg_table s)). by eexists _, _.
Qed.
#[global] Instance total_query {A} (q : list row → list A) : Total (query (P := P) q).
Proof.
  intros s. unfold query. destruct (pg_stmt (pg_srv s)) as [x p]. destruct (sx_err x); by eexists _, _.
Qed.
#[global] Instance total_query_now {A} (q : Z → list row → list A) : Total (query_now (P := P) q).
Proof. intros s. unfold query_now. apply total_query. Qed.

#[global] Instance pg_total_store : TotalStore (PGStore P).
Proof.
  assert (∀ id, Total (pg_GetJob (P := P) id)) by (intros; unfold pg_GetJob; solve_total).
  split; intros; simpl; unfold pg_CreateJob, pg_AttachManifest, pg_TryClaim, pg_Heartbeat,
    pg_Finish, pg_ListExpiredLeases, pg_SetStatusQueued, pg_ListQueued, pg_ListAll, pg_ListPaged,
    pg_CountByStatus; solve_total.
Qed.

End pg_total.

(** ** Witnesses *)

Definition demo_p2p : P2P := {| peer_Decode _ := None; NewMultiaddr _ := None |}.
#[local] Existing Instance demo_p2p.
Definition demo_control : control WallEnv (PGStore SimPG) :=
  MkControl (NodeW wall0 ∅) (MkPGStore (0%Z : SimPG) ∅) NewAnnounceManager.
Definition demo_getenv (k : string) : string :=
  if String.eqb k "CONTROL_TOKEN" then "secret" else "".
Definition demo_bad_request : request :=
  MkRequest "POST" "/jobs/j1/finish" {["Authorization" := "Bearer guess"]} ∅ (BJson (JObj [])).

Lemma unauthorised_harmless_witness :
  ∃ resp, serveHTTP demo_getenv "mc" demo_bad_request demo_control =
    (Ret resp, demo_control).
Proof.
  destruct (unauthorised_harmless demo_getenv "mc" demo_bad_request demo_control)
    as (resp & Hr & _).
  - discriminate.
  - right. discriminate.
  - exists resp. exact Hr.
Defined.

Lemma only_panic_witness :
  (∃ resp c', serveHTTP demo_getenv "mc" demo_bad_request demo_control = (Ret resp, c')) ∨
  (refused_claim demo_getenv demo_bad_request demo_control ∧
   (serveHTTP demo_getenv "mc" demo_bad_request demo_control).1 = Panic nil_deref).
Proof. exact (only_panic demo_getenv "mc" demo_bad_request demo_control). Defined.
