(* ===== verification/ControlClaims.v ===== *)
(** * Claims, heartbeats and completions through the API

    What the handlers of a job's life cycle do to the database and to the DHT
    documents, branch by branch. *)
From Stdlib Require Import String Ascii.
From S2P Require Import Prelude GoStrings GoTime Json Env TaskTypes Node NodeTheorems Docs LeaseTypes.
From S2P Require Import PGStore LeaseProtocol LeaseSpec PGMethods LeaseTheorems StoreTheorems.
From S2P Require Import ControlTypes Announce ControlHTTP ControlMain ControlLemmas ControlSafety.

Local Open Scope string_scope.

(** ** Documents that can be written *)

(** The field is left out or has a JSON form. *)
Definition field_ok {T} (v : T) (f : field T) : Prop := enc_field f v ≠ Some None.

Lemma enc_fields_ok {T} (fs : list (field T)) v :
  Forall (field_ok v) fs → is_Some (enc_fields fs v).
Proof.
  unfold field_ok. induction 1 as [|f fs Hf Hfs [l IH]]; simpl; [by eexists|]. rewrite IH.
  destruct (enc_field f v) as [[j|]|]; simpl; [by eexists|done|by eexists].
Qed.

(** A state document the server can write and read back. *)
Record state_ok (s : TaskState) : Prop := {
  so_canon : canon_TaskState s;
  so_version : is_Some (enc c_int64 (ts_Version s));
  so_updated : is_Some (enc c_time (ts_UpdatedAt s));
  so_lease : is_Some (enc (c_ptr c_Lease) (ts_Lease s));
  so_started : is_Some (enc (c_ptr c_time) (ts_StartedAt s));
  so_finished : is_Some (enc (c_ptr c_time) (ts_FinishedAt s));
  so_exit : is_Some (enc (c_ptr c_int64) (ts_ExitCode s));
  so_artifacts : is_Some (enc (c_slice c_Artifact) (ts_Artifacts s))
}.

Lemma field_ok_enc {T A} name omit (c : codec A) get set (v : T) :
  is_Some (enc c (get v)) → field_ok v (Field name omit c get set).
Proof. intros [j Hj]. unfold field_ok. simpl. rewrite Hj. by destruct (omit (get v)). Qed.

Lemma state_ok_writable s : state_ok s → writable c_TaskState s.
Proof.
  intros []. split; [by apply TaskState_rt|].
  assert (is_Some (enc_fields fields_TaskState s)) as [l Hl].
  { apply enc_fields_ok. unfold fields_TaskState.
    repeat (apply Forall_cons; split; [apply field_ok_enc; first
      [assumption|by eexists|by simpl; destruct (ts_Metrics s); eexists]|]).
    by apply Forall_nil. }
  unfold c_TaskState, c_struct. cbn [enc]. rewrite Hl. by eexists.
Qed.

Lemma zero_state_ok : state_ok zero_TaskState.
Proof. split; try done; by eexists. Qed.

Lemma enc_time_ok t : sane t = true → is_Some (enc c_time t).
Proof. simpl. intros ->%sane_ok. by eexists. Qed.
Lemma enc_version_ok z : is_Some (enc c_int64 (wrap64 z)).
Proof. simpl. rewrite wrap64_in. by eexists. Qed.

(** The edits of the handlers keep a state document good. *)
Ltac solve_state_ok :=
  intros [] Hn; match goal with st : TaskState |- _ => destruct st end; simpl in *;
  split; simpl; try assumption;
  first [by apply enc_version_ok | by apply enc_time_ok].

Lemma assigned_state_ok id a now st :
  state_ok st → sane now = true → state_ok (assigned_state id a now st).
Proof.
  unfold assigned_state, bump_state. intros [] Hn. destruct st as [? ? ? ? ? ? [t|] ? ? ? ? ? ? ?];
    simpl in *; split; simpl; try assumption;
    first [by apply enc_version_ok | by apply enc_time_ok].
Qed.
Lemma requeued_state_ok now st :
  state_ok st → sane now = true → state_ok (requeued_state now st).
Proof. unfold requeued_state, bump_state. solve_state_ok. Qed.
Lemma finished_state_ok b now st :
  state_ok st → sane now = true → state_ok (finished_state b now st).
Proof. unfold finished_state, bump_state. solve_state_ok. Qed.

(** ** Steps on the node *)

Section steps.
Context {E : Type} `{!Env E, !StableDHT E, !Reachable E, !SaneClock E} (ns : string).
Implicit Types (w : nodew E).

Lemma Now_step w : ∃ t w', Now w = (Ret t, w') ∧ sane t = true ∧ node_view w' = node_view w.
Proof.
  destruct (quiet_Now w) as (t & w' & Hn & Hv). exists t, w'. split_and!; [done| |done].
  unfold Now in Hn. pose proof (now_sane (nw_env w)) as Hs.
  destruct (env_Now (nw_env w)). by simplify_eq.
Qed.

Lemma read_step {A} (c : codec A) key w :
  ∃ w', read_doc ns c key w = (Ret (doc ns c key w), w') ∧ node_view w' = node_view w.
Proof.
  unfold read_doc. destruct (GetJSON_doc ns c key (2 * Second) w) as (err & w' & Hg & Hv & _).
  run_step Hg. by exists w'.
Qed.

Lemma doc_view {A} (c : codec A) key w w' :
  node_view w' = node_view w → doc ns c key w' = doc ns c key w.
Proof. intros H. unfold doc. by rewrite H. Qed.

Lemma same_view K w w' : node_view w' = node_view w → same_but ns K w w'.
Proof. intros H k _. by rewrite H. Qed.

End steps.

(** The two documents of a job in the DHT. *)
Definition dht_state {E} `{!Env E, !StableDHT E} (ns id : string) (w : nodew E) : TaskState :=
  doc ns c_TaskState (KeyState id) w.
Definition dht_lease {E} `{!Env E, !StableDHT E} (ns id : string) (w : nodew E) : Lease :=
  doc ns c_Lease (KeyLease id) w.

Section handlers.
Context {E S : Type} `{!Env E, !StableDHT E, !Reachable E, !SaneClock E, !Store S, !P2P}.
Context (getenv : string → string) (ns : string).
Implicit Types (c : control E S).

Lemma mirror_claim_ok id a l c :
  state_ok (dht_state ns id (ct_node c)) → time_ok (sl_ExpireAt l) = true →
  ∃ c' t, mirror_claim ns id a (Some l) c =
      (Ret (encoded (enc c_leaseOut (MkleaseOut true (lease_response a l)))), c') ∧
    sane t = true ∧ ct_store c' = ct_store c ∧ ct_mgr c' = ct_mgr c ∧
    dht_state ns id (ct_node c') = assigned_state id a t (dht_state ns id (ct_node c)) ∧
    dht_lease ns id (ct_node c') = lease_response a l ∧
    same_but ns [KeyState id; KeyLease id] (ct_node c) (ct_node c').
Proof.
  intros Hst Hex. unfold mirror_claim.
  destruct (Now_step (ct_node c)) as (t & w1 & H1 & Ht & V1). node_step H1.
  destruct (read_step ns c_TaskState (KeyState id) w1) as (w2 & H2 & V2). node_step H2.
  rewrite (doc_view ns _ _ _ _ V1). fold (dht_state ns id (ct_node c)).
  destruct (PutJSON_doc ns c_TaskState (KeyState id)
    (assigned_state id a t (dht_state ns id (ct_node c))) w2) as (w3 & H3 & D3 & _ & S3).
  { by apply state_ok_writable, assigned_state_ok. }
  node_step H3.
  destruct (PutJSON_doc ns c_Lease (KeyLease id) (lease_response a l) w3) as (w4 & H4 & D4 & _ & S4).
  { split; [apply Lease_rt|]. simpl. rewrite Hex, wrap64_in. by eexists. }
  node_step H4.
  destruct (Now_step w4) as (t' & w5 & H5 & _ & V5). node_step H5.
  eexists _, t. split_and!; [reflexivity|done|done|done|..]; simpl.
  - unfold dht_state at 1. rewrite (doc_view ns _ _ _ _ V5).
    rewrite (doc_same ns _ _ _ _ _ S4); [done|].
    intros ?%list_elem_of_singleton. by apply (KeyState_KeyLease id id).
  - unfold dht_lease. by rewrite (doc_view ns _ _ _ _ V5).
  - intros k Hk. rewrite V5, <- V1, <- V2. by apply (same_but_trans ns _ _ _ _ _ S3 S4).
Qed.

Lemma mirror_claim_nil_doc id a c :
  state_ok (dht_state ns id (ct_node c)) →
  ∃ c' t, mirror_claim ns id a None c = (Panic nil_deref, c') ∧ sane t = true ∧
    ct_store c' = ct_store c ∧
    dht_state ns id (ct_node c') = assigned_state id a t (dht_state ns id (ct_node c)).
Proof.
  intros Hst. unfold mirror_claim.
  destruct (Now_step (ct_node c)) as (t & w1 & H1 & Ht & V1). node_step H1.
  destruct (read_step ns c_TaskState (KeyState id) w1) as (w2 & H2 & V2). node_step H2.
  rewrite (doc_view ns _ _ _ _ V1). fold (dht_state ns id (ct_node c)).
  destruct (PutJSON_doc ns c_TaskState (KeyState id)
    (assigned_state id a t (dht_state ns id (ct_node c))) w2) as (w3 & H3 & D3 & _ & S3).
  { by apply state_ok_writable, assigned_state_ok. }
  node_step H3. by eexists _, t.
Qed.

Lemma mirror_finish_ok id ok c :
  state_ok (dht_state ns id (ct_node c)) →
  ∃ c' t, mirror_finish ns id ok c = (Ret (MkResponse StatusNoContent "" REmpty), c') ∧
    sane t = true ∧ ct_store c' = ct_store c ∧ ct_mgr c' = ct_mgr c ∧
    dht_state ns id (ct_node c') = finished_state ok t (dht_state ns id (ct_node c)) ∧
    dht_lease ns id (ct_node c') = zero_Lease ∧
    doc ns c_taskAd (keyTaskAd ns id) (ct_node c') = zero_taskAd ∧
    doc ns c_manifestMirror (keyP2PManifestMirror id) (ct_node c') = zero_manifestMirror ∧
    same_but ns [KeyState id; KeyLease id; keyTaskAd ns id; keyP2PManifestMirror id]
      (ct_node c) (ct_node c').
Proof.
  intros Hst. unfold mirror_finish.
  destruct (read_step ns c_TaskState (KeyState id) (ct_node c)) as (w1 & H1 & V1). node_step H1.
  fold (dht_state ns id (ct_node c)).
  destruct (Now_step w1) as (t & w2 & H2 & Ht & V2). node_step H2.
  destruct (PutJSON_doc ns c_TaskState (KeyState id)
    (finished_state ok t (dht_state ns id (ct_node c))) w2) as (w3 & H3 & D3 & _ & S3).
  { by apply state_ok_writable, finished_state_ok. }
  node_step H3.
  destruct (DelJSON_doc ns (KeyLease id) w3) as (w4 & H4 & S4 & D4). node_step H4.
  destruct (DelJSON_doc ns (keyTaskAd ns id) w4) as (w5 & H5 & S5 & D5). node_step H5.
  destruct (DelJSON_doc ns (keyP2PManifestMirror id) w5) as (w6 & H6 & S6 & D6). node_step H6.
  pose proof (same_but_trans ns _ _ _ _ _ S5 S6) as S56.
  pose proof (same_but_trans ns _ _ _ _ _ S4 S56) as S46.
  eexists _, t. split_and!; [reflexivity|done|done|done|..]; simpl.
  - unfold dht_state at 1. rewrite (doc_same ns _ _ _ _ _ S46); [done|].
    simpl. rewrite !elem_of_cons, elem_of_nil. intros [?|[[=]|[[=]|[]]]].
    by apply (KeyState_KeyLease id id).
  - unfold dht_lease. rewrite (doc_same ns _ _ _ _ _ S56); [apply D4|].
    simpl. rewrite !elem_of_cons, elem_of_nil. by intros [[=]|[[=]|[]]].
  - rewrite (doc_same ns _ _ _ _ _ S6); [apply D5|].
    rewrite elem_of_cons, elem_of_nil. by intros [[=]|[]].
  - apply D6.
  - intros k Hk. rewrite <- V1, <- V2. by apply (same_but_trans ns _ _ _ _ _ S3 S46).
Qed.

End handlers.

(** ** The life cycle of a job through the API, on the PostgreSQL store *)

Section api.
Context {E P : Type} `{!Env E, !StableDHT E, !Reachable E, !SaneClock E, !PGServer P, !P2P}.
Context (getenv : string → string) (ns : string).
Implicit Types (c : control E (PGStore P)) (r : request).

Local Abbreviation table c := (pg_table (ct_store c)).

(** [r] is an authorised claim of job [id] by agent [a]. *)
Definition claim_request r (id a : string) (secs : Z) : Prop :=
  requireAuth getenv r = true ∧ path_parts r = ["api"; "tasks"; id; "try-claim"] ∧
  decode_body c_tryClaimIn r = (MktryClaimIn a secs, None) ∧ a ≠ "".

Lemma tryClaim_run r id a secs c res s' :
  claim_request r id a secs →
  TryClaim id a (ttlOrDefault secs) (ct_store c) = (Ret res, s') →
  tryClaimHandler getenv ns r c =
    (match res with
     | Ok l => mirror_claim ns id a (Some l)
     | Err e =>
         if decide (e = ErrLeaseConflict) then
           mret (encoded (enc c_leaseOut (MkleaseOut false zero_Lease)))
         else if decide (e = ErrJobNotFound) then mret (http_Error "not found" StatusNotFound)
         else if decide (e = ErrNoManifest) then mirror_claim ns id a None
         else mret (http_Error ("store error: " ++ Error e) StatusInternalServerError)
     end) (MkControl (ct_node c) s' (ct_mgr c)).
Proof.
  intros (Ha & Hp & Hd & Hne) Hs. unfold tryClaimHandler. rewrite Ha, Hp, Hd. simpl negb. cbv iota.
  simpl. rewrite (proj2 (String.eqb_neq a "")) by done.
  erewrite bind_run by (apply onStore_run; exact Hs). by destruct res.
Qed.

(** An authorised claim of a waiting job is granted: the answer carries the agent,
    the expiry and the token the database recorded, the DHT state is assigned to the
    agent and the DHT lease is the one answered; no other document changes. *)
Lemma claim_granted r id a secs c row :
  claim_request r id a secs → up 1 (pg_srv (ct_store c)) → table_ok (table c) →
  table c !! id = Some row → abs_phase row = Waiting → (r_lease_token row < max_int64)%Z →
  state_ok (dht_state ns id (ct_node c)) →
  let exp := seconds_from (db_now (ct_store c)) (int_Seconds (ttlOrDefault secs)) in
  let lease := MkLease a "" exp (r_lease_token row + 1) in
  time_ok exp = true →
  ∃ c' t, tryClaimHandler getenv ns r c =
      (Ret (encoded (enc c_leaseOut (MkleaseOut true lease))), c') ∧
    table c' = <[id := claimed_row (db_now (ct_store c)) a (ttlOrDefault secs) row]> (table c) ∧
    dht_lease ns id (ct_node c') = lease ∧
    dht_state ns id (ct_node c') = assigned_state id a t (dht_state ns id (ct_node c)) ∧
    same_but ns [KeyState id; KeyLease id] (ct_node c) (ct_node c').
Proof.
  intros Hreq Hu Hok Hr Hp Htk Hst exp lease Hexp.
  pose proof (row_shapeP id row (Hok id row Hr)) as Hsh.
  pose proof (claim_cond_shape (db_now (ct_store c)) row _ Hsh) as Hc. rewrite Hp in Hc.
  pose proof (ok_token id row (Hok id row Hr)) as Htok.
  rewrite (tryClaim_run _ _ _ _ _ _ _ Hreq (TryClaim_granted id a _ _ row Hu Hr Hc Htk)).
  set (l := MkStoreLease a _ _). set (c1 := MkControl _ _ _).
  destruct (mirror_claim_ok (S := PGStore P) ns id a l c1 Hst Hexp)
    as (c' & t & Hm & _ & Hs' & _ & Hd & Hl & Hsame).
  assert (lease_response a l = lease) as Hle.
  { unfold lease_response, lease, l. simpl. f_equal.
    apply wrap64_uint64_of. unfold max_int64, two63 in *. lia. }
  rewrite Hle in *. exists c', t. split_and!; [exact Hm|by rewrite Hs'|done..].
Qed.

(** C15: a claim of a job that someone else holds, in a store that has no manifest of
    the job: the database refuses, the handler goes on as if it had been granted,
    overwrites the DHT state with the loser as the assignee and then panics. *)
Theorem lost_claim_panics r id a b secs x beat c row :
  claim_request r id b secs → up 3 (pg_srv (ct_store c)) → table_ok (table c) →
  table c !! id = Some row → abs_phase row = Held a x beat → r_manifest_root_cid row = None →
  state_ok (dht_state ns id (ct_node c)) →
  ∃ c', tryClaimHandler getenv ns r c = (Panic nil_deref, c') ∧ table c' = table c ∧
    ts_AssignedTo (dht_state ns id (ct_node c')) = b ∧
    ts_Status (dht_state ns id (ct_node c')) = StatusAssigned.
Proof.
  intros Hreq Hu Hok Hr Hp Hm Hst.
  pose proof (row_shapeP id row (Hok id row Hr)) as Hsh.
  destruct (TryClaim_refused id b (ttlOrDefault secs) (ct_store c) Hu) as [p' Ht].
  { intros row' Hr'. simplify_eq. rewrite (claim_cond_shape _ _ _ Hsh). by rewrite Hp. }
  rewrite Hr in Ht. unfold refusal in Ht. rewrite Hm in Ht. simpl in Ht.
  rewrite (tryClaim_run _ _ _ _ _ _ _ Hreq Ht). rewrite !decide_False by done.
  rewrite decide_True by done.
  destruct (mirror_claim_nil_doc (S := PGStore P) ns id b
    (MkControl (ct_node c) (MkPGStore p' (table c)) (ct_mgr c)) Hst) as (c' & t & Hm' & _ & Hs' & Hd).
  exists c'. split_and!; [exact Hm'|by rewrite Hs'|..]; rewrite Hd;
    unfold assigned_state, bump_state; by destruct (dht_state _ _ _) as [? ? ? ? ? ? [] ? ? ? ? ? ? ?].
Qed.

(** [r] is an authorised completion of job [id] by agent [a] under [tok]. *)
Definition finish_request r (id a : string) (tok : Z) (inf : finishIn) : Prop :=
  requireAuth getenv r = true ∧ rq_Method r = "POST" ∧ path_parts r = ["jobs"; id; "finish"] ∧
  decode_body c_finishIn r = (inf, None) ∧ Header_Get r "X-Agent-ID" = a ∧ finish_token r = tok.

Definition reports_success (inf : finishIn) : bool := String.eqb (ToLower (fi_Status inf)) "succeeded".

Lemma finish_run r id a tok inf c s' :
  finish_request r id a tok inf →
  Finish id a tok (reports_success inf) (fi_ResultCID inf) (fi_Artifacts inf)
    (enc c_map (fi_Metrics inf)) (ct_store c) = (Ret None, s') →
  finishHandler getenv ns r c =
    mirror_finish ns id (reports_success inf) (MkControl (ct_node c) s' (ct_mgr c)).
Proof.
  intros (Ha & Hm & Hp & Hd & Hag & Htk) Hs. unfold finishHandler. rewrite Ha, Hm, Hp, Hd, Hag, Htk.
  simpl negb. cbv iota. simpl.
  erewrite bind_run by (apply onStore_run; exact Hs). done.
Qed.

(** A completion by the agent that holds the job, under its token, is answered 204:
    the job is done in the database, the DHT state is succeeded or failed, and the
    lease, the advertisement and the manifest mirror are gone from the DHT. *)
Lemma finish_recorded r id a tok inf x beat c row :
  finish_request r id a tok inf → up 1 (pg_srv (ct_store c)) → table_ok (table c) →
  table c !! id = Some row → abs_phase row = Held a x beat → r_lease_token row = tok →
  state_ok (dht_state ns id (ct_node c)) →
  ∃ c' t, finishHandler getenv ns r c = (Ret (MkResponse StatusNoContent "" REmpty), c') ∧
    abs_row <$> table c' !! id =
      Some (MkAJob (Done (reports_success inf)) tok (r_retry_count row)) ∧
    dht_state ns id (ct_node c') =
      finished_state (reports_success inf) t (dht_state ns id (ct_node c)) ∧
    dht_lease ns id (ct_node c') = zero_Lease ∧
    doc ns c_taskAd (keyTaskAd ns id) (ct_node c') = zero_taskAd ∧
    doc ns c_manifestMirror (keyP2PManifestMirror id) (ct_node c') = zero_manifestMirror.
Proof.
  intros Hreq Hu Hok Hr Hp <- Hst.
  pose proof (ok_token id row (Hok id row Hr)) as Htok.
  destruct (Finish_run id a (r_lease_token row) (reports_success inf) (fi_ResultCID inf)
    (fi_Artifacts inf) (enc c_map (fi_Metrics inf)) (ct_store c) Hu) as [aj Hf].
  rewrite (finish_run _ _ _ _ _ _ _ Hreq Hf). set (c1 := MkControl _ _ _).
  destruct (mirror_finish_ok (S := PGStore P) ns id (reports_success inf) c1 Hst)
    as (c' & t & Hm & _ & Hs' & _ & Hd & Hl & Had & Hmm & _).
  exists c', t. split_and!; [exact Hm| |done..]. rewrite Hs'. simpl. rewrite Hr.
  pose proof (row_shapeP id row (Hok id row Hr)) as Hsh.
  rewrite wrap64_id by (unfold max_int64, two63 in *; lia).
  rewrite (finish_cond_shape a (r_lease_token row) row _ Hsh), Hp, String.eqb_refl, Z.leb_refl.
  simpl. rewrite lookup_insert_eq. simpl. by destruct row, (reports_success inf).
Qed.

(** A completion the database ignores (an old token, or another agent's lease) is
    answered 204 all the same, and the DHT then says the job is finished and holds no
    lease, while the database still has the job running under its holder. *)
Lemma stale_finish_misreported r id a b tok inf x beat c row :
  finish_request r id b tok inf → up 1 (pg_srv (ct_store c)) → table_ok (table c) →
  table c !! id = Some row → abs_phase row = Held a x beat →
  (0 <= tok <= max_int64)%Z → (a ≠ b ∨ (tok < r_lease_token row)%Z) →
  state_ok (dht_state ns id (ct_node c)) →
  ∃ c' t, finishHandler getenv ns r c = (Ret (MkResponse StatusNoContent "" REmpty), c') ∧
    table c' = table c ∧
    dht_state ns id (ct_node c') =
      finished_state (reports_success inf) t (dht_state ns id (ct_node c)) ∧
    dht_lease ns id (ct_node c') = zero_Lease.
Proof.
  intros Hreq Hu Hok Hr Hp Htok Hbad Hst.
  destruct (Finish_run id b tok (reports_success inf) (fi_ResultCID inf)
    (fi_Artifacts inf) (enc c_map (fi_Metrics inf)) (ct_store c) Hu) as [aj Hf].
  rewrite (finish_run _ _ _ _ _ _ _ Hreq Hf). set (c1 := MkControl _ _ _).
  destruct (mirror_finish_ok (S := PGStore P) ns id (reports_success inf) c1 Hst)
    as (c' & t & Hm & _ & Hs' & _ & Hd & Hl & _).
  exists c', t. split_and!; [exact Hm| |done..]. rewrite Hs'. simpl. rewrite Hr.
  pose proof (row_shapeP id row (Hok id row Hr)) as Hsh.
  rewrite wrap64_id by (unfold max_int64, two63 in *; lia).
  rewrite (finish_cond_shape b tok row _ Hsh), Hp.
  destruct (String.eqb_spec a b), (Z.leb_spec (r_lease_token row) tok); simpl; try done.
  destruct Hbad; [done|lia].
Qed.

(** [r] is an authorised heartbeat of job [id]. *)
Definition beat_request r (id : string) (inh : hbIn) : Prop :=
  requireAuth getenv r = true ∧ path_parts r = ["api"; "tasks"; id; "heartbeat"] ∧
  decode_body c_hbIn r = (inh, None).

(** The lease document after a heartbeat. *)
Definition beaten_lease (a : string) (exp : Z) (l : Lease) : Lease :=
  let l := with_le_Expires exp (with_le_Owner a l) in
  with_le_Version (wrap64 (le_Version l + 1)) l.

Lemma ttl_range secs : (0 <= ttlOrDefault secs <= 3600 * Second)%Z.
Proof. unfold ttlOrDefault, Second. destruct (_ || _) eqn:?; lia. Qed.

#[global] Instance mono_read_doc `{!ForwardClock E} {A} (cd : codec A) key : Mono (read_doc ns cd key).
Proof. unfold read_doc. solve_mono. Qed.

(** What a renewal does to the DHT. *)
Lemma renew_doc `{!ForwardClock E} id a ttl c :
  (0 <= ttl <= 3600 * Second)%Z →
  ∃ c' t, (cur ← onNode (read_doc ns c_Lease (KeyLease id)); now ← onNode Now;
    _ ← onNode (PutJSON c_Lease ns (KeyLease id) (beaten_lease a (Add now ttl) cur));
    mret (writeJSON StatusOK (json_map [("ok", Some (JBool true))]))) c =
    (Ret (writeJSON StatusOK (json_map [("ok", Some (JBool true))])), c') ∧
    (node_clock (ct_node c) <= t <= node_clock (ct_node c'))%Z ∧ ct_store c' = ct_store c ∧
    dht_lease ns id (ct_node c') = beaten_lease a (Add t ttl) (dht_lease ns id (ct_node c)) ∧
    same_but ns [KeyLease id] (ct_node c) (ct_node c').
Proof.
  intros Httl.
  destruct (read_step ns c_Lease (KeyLease id) (ct_node c)) as (w1 & H1 & V1).
  pose proof (mono_eq H1) as C1. node_step H1.
  destruct (Now_step w1) as (t & w2 & H2 & Ht & V2). pose proof (mono_eq H2) as C2.
  destruct (Now_reads w1) as [w2' H2']. rewrite H2 in H2'. injection H2' as Htc _. node_step H2.
  destruct (PutJSON_doc ns c_Lease (KeyLease id) (beaten_lease a (Add t ttl)
    (doc ns c_Lease (KeyLease id) (ct_node c))) w2) as (w3 & H3 & D3 & _ & S3).
  { split; [apply Lease_rt|]. pose proof (sane_add t ttl Ht Httl) as Hok.
    destruct (doc ns c_Lease (KeyLease id) (ct_node c)). simpl. rewrite Hok, wrap64_in. by eexists. }
  pose proof (mono_eq H3) as C3. node_step H3. eexists _, t. split; [reflexivity|]. simpl. split_and!; [lia..|done|done|].
  intros k Hk. rewrite <- V1, <- V2. by apply S3.
Qed.

Lemma heartbeat_run `{!ForwardClock E} r id inh c err s' :
  beat_request r id inh → heartbeat_token r inh ≠ 0%Z →
  Heartbeat id (hb_AgentID inh) (heartbeat_token r inh) (ttlOrDefault (hb_TTLSec inh)) (ct_store c)
    = (Ret err, s') →
  match err with
  | Some e => heartbeatHandler getenv ns r c =
      (Ret (http_Error ("heartbeat failed: " ++ Error e) StatusConflict),
       MkControl (ct_node c) s' (ct_mgr c))
  | None => ∃ c' t, heartbeatHandler getenv ns r c =
      (Ret (writeJSON StatusOK (json_map [("ok", Some (JBool true))])), c') ∧
      (node_clock (ct_node c) <= t <= node_clock (ct_node c'))%Z ∧ ct_store c' = s' ∧ dht_lease ns id (ct_node c') =
        beaten_lease (hb_AgentID inh) (Add t (ttlOrDefault (hb_TTLSec inh))) (dht_lease ns id (ct_node c)) ∧
      same_but ns [KeyLease id] (ct_node c) (ct_node c')
  end.
Proof.
  intros (Ha & Hp & Hd) Htok Hs. unfold heartbeatHandler. rewrite Ha, Hp, Hd.
  rewrite !String.eqb_refl. cbn [negb orb]. cbv iota zeta. rewrite (proj2 (Z.eqb_neq _ _) Htok).
  destruct err as [e|]; [by erewrite bind_run by (apply onStore_run; exact Hs)|].
  erewrite bind_run by (apply onStore_run; exact Hs).
  destruct (renew_doc id (hb_AgentID inh) (ttlOrDefault (hb_TTLSec inh))
    (MkControl (ct_node c) s' (ct_mgr c))) as (c' & t & Hrest & Hdocs); [apply ttl_range|].
  exists c', t. split; [|done]. rewrite <- Hrest. reflexivity.
Qed.

(** C14: a heartbeat over the API is the store's: it is answered 200 exactly when the job
    is held by this agent under this token, and then the database renews the lease, and
    the DHT lease names the agent with the next version and an expiry [ttl] after a time
    the server's clock showed during the request; otherwise it is answered 409 and
    neither the database nor the DHT changes. *)
Theorem heartbeat_answer `{!ForwardClock E} r id inh c :
  let a := hb_AgentID inh in
  let tok := heartbeat_token r inh in
  beat_request r id inh → up 1 (pg_srv (ct_store c)) → table_ok (table c) →
  (0 < tok <= max_int64)%Z →
  (∃ row x b c' t, table c !! id = Some row ∧ abs_phase row = Held a x b ∧ r_lease_token row = tok ∧
     heartbeatHandler getenv ns r c =
       (Ret (writeJSON StatusOK (json_map [("ok", Some (JBool true))])), c') ∧
     table c' = <[id := heartbeat_set (db_now (ct_store c))
       (int_Seconds (ttlOrDefault (hb_TTLSec inh))) row]> (table c) ∧
     (node_clock (ct_node c) <= t <= node_clock (ct_node c'))%Z ∧
     dht_lease ns id (ct_node c') =
       beaten_lease a (Add t (ttlOrDefault (hb_TTLSec inh))) (dht_lease ns id (ct_node c))) ∨
  ((∀ row x b, table c !! id = Some row → abs_phase row = Held a x b → r_lease_token row ≠ tok) ∧
   ∃ c', heartbeatHandler getenv ns r c =
     (Ret (http_Error "heartbeat failed: fencing token mismatch" StatusConflict), c') ∧
   table c' = table c ∧ ct_node c' = ct_node c).
Proof.
  intros a tok Hreq Hu Hok Htok.
  destruct (Heartbeat_result id a tok (ttlOrDefault (hb_TTLSec inh)) (ct_store c) Hu Hok)
    as [(row & x & b & Hr & Hp & Ht & Hh)|[Hno Hh]]; [lia|..];
    pose proof (heartbeat_run r id inh c _ _ Hreq ltac:(lia) Hh) as Hrun; simpl in Hrun.
  - left. destruct Hrun as (c' & t & Hrun & Ht' & Hs' & Hl & _).
    exists row, x, b, c', t. split_and!; [done|done|done|done|by rewrite Hs'|lia|lia|done].
  - right. split; [done|]. eexists. split; [exact Hrun|done].
Qed.

End api.

(** ** Witnesses: one job, waiting or held by "A" under token 1, an empty DHT *)

#[local] Existing Instance demo_p2p.

Definition demo_world (s : PGStore SimPG) : control WallEnv (PGStore SimPG) :=
  MkControl (NodeW wall0 ∅) s NewAnnounceManager.
Definition demo_request (method path token : string) (body : json) (agent : string) : request :=
  MkRequest method path
    (<["Authorization" := "Bearer secret"]> (<["X-Agent-ID" := agent]> {["X-Lease-Token" := token]})) ∅
    (BJson body).

Definition demo_claim (agent : string) : request :=
  demo_request "POST" "/api/tasks/j1/try-claim" "" (JObj [("agent_id", JStr agent); ("ttl_sec", JNum 15)]) "".
Definition demo_finish (agent : string) : request :=
  demo_request "POST" "/jobs/j1/finish" "1" (JObj [("status", JStr "succeeded")]) agent.
Definition demo_beat : request :=
  demo_request "POST" "/api/tasks/j1/heartbeat" "1" (JObj [("agent_id", JStr "A")]) "".

Lemma demo_claim_request agent :
  agent ≠ "" → claim_request demo_getenv (demo_claim agent) "j1" agent 15.
Proof. intros Ha. split_and!; [vm_compute; reflexivity..|done]. Qed.

Lemma demo_state_ok (s : PGStore SimPG) : state_ok (dht_state "mc" "j1" (ct_node (demo_world s))).
Proof. exact zero_state_ok. Qed.

Definition demo_row1 : row := default demo_row (demo_t1 !! "j1").

Lemma lost_claim_panics_witness :
  ∃ c', tryClaimHandler demo_getenv "mc" (demo_claim "B") (demo_world demo_s) =
      (Panic nil_deref, c') ∧
    ts_AssignedTo (dht_state "mc" "j1" (ct_node c')) = "B".
Proof.
  assert (pg_table (ct_store (demo_world demo_s)) !! "j1" = Some demo_row) as Hr
    by (vm_compute; reflexivity).
  destruct (lost_claim_panics demo_getenv "mc" (demo_claim "B") "j1" "A" "B" 15
    (seconds_from 10 15) false (demo_world demo_s) demo_row (demo_claim_request "B" ltac:(done))
    (sim_up 3 _) demo_ok Hr ltac:(vm_compute; reflexivity) ltac:(vm_compute; reflexivity)
    (demo_state_ok _)) as (c' & Hh & _ & Hd & _).
  exists c'. split; [exact Hh|exact Hd].
Defined.

Definition demo_finish_in : finishIn := MkfinishIn "succeeded" None None "" "".

Lemma demo_finish_request agent :
  finish_request demo_getenv (demo_finish agent) "j1" agent 1 demo_finish_in.
Proof. split_and!; vm_compute; reflexivity. Qed.

Lemma heartbeat_answer_witness :
  ∃ c', heartbeatHandler demo_getenv "mc" demo_beat (demo_world demo_s) =
    (Ret (writeJSON StatusOK (json_map [("ok", Some (JBool true))])), c').
Proof.
  assert (beat_request demo_getenv demo_beat "j1" (MkhbIn "A" "" 0 0)) as Hreq
    by (split_and!; vm_compute; reflexivity).
  destruct (heartbeat_answer demo_getenv "mc" demo_beat "j1" (MkhbIn "A" "" 0 0) (demo_world demo_s)
    Hreq (sim_up 1 _) demo_ok ltac:(by vm_compute))
    as [(row & x & b & c' & t & _ & _ & _ & Hh & _)|[Hno _]].
  - exists c'. exact Hh.
  - exfalso. apply (Hno demo_row (seconds_from 10 15) false); vm_compute; reflexivity.
Defined.
