(* ===== verification/ControlTasks.v ===== *)
(** * Creating tasks, attaching manifests, releasing leases

    What [createTaskHandler], [manifestHandler], [releaseHandler] and
    [getTaskHandler] do to the database, the DHT documents and the advertiser. *)
From Stdlib Require Import String Ascii.
From S2P Require Import Prelude GoStrings GoTime Json Env TaskTypes Node NodeTheorems Docs LeaseTypes.
From S2P Require Import PGStore LeaseProtocol LeaseSpec PGMethods LeaseTheorems StoreTheorems.
From S2P Require Import ControlTypes Announce ControlHTTP ControlMain ControlLemmas ControlSafety ControlClaims.

Set Warnings "-clear-no-such-hyp".

Local Open Scope string_scope.

(** ** Documents that can be written *)

Lemma enc_slice_strings (l : slice string) : is_Some (enc (c_slice c_string) l).
Proof.
  destruct (enc_strings l) as (j & Hj & _). unfold toJSON in Hj.
  destruct (enc _ l); [by eexists|done].
Qed.

Lemma writable_fields {T} (fs : list (field T)) z v :
  rt_at (c_struct fs z) v → Forall (field_ok v) fs → writable (c_struct fs z) v.
Proof.
  intros Hrt [l Hl]%enc_fields_ok. split; [done|]. cbn [c_struct enc]. rewrite Hl. by eexists.
Qed.

Ltac solve_fields :=
  repeat (apply Forall_cons; split; [apply field_ok_enc; first
    [assumption|by apply enc_slice_strings|by apply enc_version_ok|by apply enc_time_ok|by eexists]|]);
  by apply Forall_nil.

Definition meta_doc (id image : string) (cmd : slice string) (now : Z) : TaskMeta :=
  MkTaskMeta id now image cmd None "" 0 zero_Resources.
Definition queued_doc (id : string) (now : Z) : TaskState :=
  with_ts_Version 1 (with_ts_UpdatedAt now (with_ts_Status StatusQueued
    (with_ts_ID id zero_TaskState))).

Lemma writable_meta id image cmd now :
  is_Some (enc c_time now) → writable c_TaskMeta (meta_doc id image cmd now).
Proof.
  intros Hn. apply writable_fields; [by apply TaskMeta_rt|]. unfold fields_TaskMeta. solve_fields.
Qed.
Lemma writable_queued id now : is_Some (enc c_time now) → writable c_TaskState (queued_doc id now).
Proof. intros Hn. apply state_ok_writable. split; simpl; try done; by eexists. Qed.
Lemma writable_index idx now :
  sane now = true →
  writable c_TaskIndex (with_ix_Version (wrap64 (ix_Version idx + 1)) (with_ix_UpdatedAt now idx)).
Proof.
  intros Hn. apply writable_fields; [apply TaskIndex_rt|]. destruct idx. unfold fields_TaskIndex.
  solve_fields.
Qed.

(** ** The sharded index *)

Section tasks.
Context {E : Type} `{!Env E, !StableDHT E, !Reachable E, !SaneClock E, !FairRand E} (ns : string).

Definition shard_ids (shard : Z) (w : nodew E) : list string :=
  elems (ix_IDs (doc ns c_TaskIndex (KeyIndexShard ns shard) w)).

(** [addToIndex] puts the id into one of the shards, without repeating it there, and
    keeps what the shard had. *)
Lemma addToIndex_ok id w :
  ∃ shard w', addToIndex ns id w = (Ret None, w') ∧ (0 <= shard < TaskIndexShardCount)%Z ∧
    id ∈ shard_ids shard w' ∧
    (∀ x, x ∈ shard_ids shard w → x ∈ shard_ids shard w') ∧
    (NoDup (shard_ids shard w) → NoDup (shard_ids shard w')) ∧
    same_but ns [KeyIndexShard ns shard] w w'.
Proof.
  unfold addToIndex.
  destruct (quiet_Intn TaskIndexShardCount w) as (shard & w1 & H1 & V1).
  assert (0 <= shard < TaskIndexShardCount)%Z as Hs.
  { unfold Intn in H1. pose proof (intn_range TaskIndexShardCount (nw_env w) ltac:(done)) as Hf.
    destruct (env_Intn _ _). by simplify_eq. }
  destruct Hs as [Hs1 Hs2].
  run_step H1. cbv zeta.
  destruct (read_step ns c_TaskIndex (KeyIndexShard ns shard) w1) as (w2 & H2 & V2).
  rewrite (bind_run _ _ _ _ _ H2), (doc_view ns _ _ _ _ V1).
  unfold shard_ids. set (idx := doc ns c_TaskIndex (KeyIndexShard ns shard) w).
  destruct (existsb _ _) eqn:Hex.
  - apply existsb_exists in Hex as (x & Hx%list_elem_of_In & ->%String.eqb_eq).
    assert (node_view w2 = node_view w) as V by congruence.
    exists shard, w2. rewrite (doc_view ns _ _ _ _ V).
    split_and!; [done..|by apply same_view].
  - destruct (Now_step w2) as (now & w3 & H3 & Hn & V3). run_step H3.
    set (idx' := with_ix_IDs (append1 (ix_IDs idx) id) idx).
    destruct (PutJSON_doc ns c_TaskIndex (KeyIndexShard ns shard)
      (with_ix_Version (wrap64 (ix_Version idx' + 1)) (with_ix_UpdatedAt now idx')) w3)
      as (w4 & H4 & D4 & _ & S4); [by apply writable_index|].
    assert (ix_Version (with_ix_UpdatedAt now idx') = ix_Version idx') as -> by by destruct idx'.
    exists shard, w4. rewrite D4.
    assert (elems (ix_IDs (with_ix_Version (wrap64 (ix_Version idx' + 1))
      (with_ix_UpdatedAt now idx'))) = (elems (ix_IDs idx) ++ [id])%list) as ->.
    { unfold idx'. by destruct idx. }
    split_and!; [done..| | | |].
    + apply elem_of_app. right. by left.
    + intros x Hx. apply elem_of_app. by left.
    + intros Hnd. apply NoDup_app. split_and!; [done| |apply NoDup_singleton].
      intros x Hx ->%list_elem_of_singleton.
      assert (existsb (λ x, String.eqb x id) (elems (ix_IDs idx)) = true) as Ht; [|congruence].
      apply existsb_exists. exists id. by rewrite <- list_elem_of_In, String.eqb_refl.
    + intros k Hk. rewrite (S4 k Hk). congruence.
Qed.

End tasks.

(** Two different documents of tasks never share a key. *)
Ltac task_keys H :=
  first [ by apply KeyState_KeyMeta in H | by apply KeyState_KeyManifest in H
        | by apply KeyState_KeyLease in H | by apply KeyLease_KeyMeta in H
        | by apply KeyLease_KeyManifest in H | by apply KeyMeta_KeyManifest in H ].
(** Frames of a key that is not among those that changed. *)
Ltac not_key := rewrite ?elem_of_cons, ?elem_of_nil;
  let H := fresh in intros H; repeat destruct H as [H|H]; try discriminate H; try (by destruct H);
  first [ task_keys H | symmetry in H; task_keys H ].

Lemma writable_manifest m :
  canon_Manifest m → is_Some (enc c_int64 (mf_Version m)) → is_Some (enc c_time (mf_UpdatedAt m)) →
  is_Some (enc (c_slice c_Provider) (mf_Providers m)) → writable c_Manifest m.
Proof.
  intros Hc Hv Ht Hp. apply writable_fields; [by apply Manifest_rt|].
  unfold fields_Manifest. solve_fields.
Qed.

Lemma enc_providers ps : is_Some (enc (c_slice c_Provider) ps).
Proof.
  destruct ps as [l|]; [|by eexists]. simpl.
  assert (∀ p, is_Some (enc c_Provider p)) as Hp.
  { intros p. unfold c_Provider, c_struct. cbn [enc].
    assert (is_Some (enc_fields fields_Provider p)) as [x ->]; [|by eexists].
    apply enc_fields_ok. unfold fields_Provider. solve_fields. }
  assert (is_Some (enc_list c_Provider l)) as [x ->]; [|by eexists].
  induction l as [|p l [x IH]]; cbn [enc_list]; [by eexists|].
  destruct (Hp p) as [y Hy]. rewrite Hy, IH. by eexists.
Qed.

Lemma writable_mirror ps exp :
  Forall canon_Provider (elems ps) → is_Some (enc c_time exp) →
  writable c_manifestMirror (MkmanifestMirror ps exp).
Proof.
  intros Hc%providers_rt He. pose proof (enc_providers ps).
  apply writable_fields; [solve_struct_rt|]. unfold fields_manifestMirror. solve_fields.
Qed.

(** ** Which manifests are valid *)

Section validation.
Context `{!P2P}.

Lemma validateTransports_spec ts :
  validateTransports ts = None ↔ Forall (λ t, ToLower t = "quic-v1" ∨ ToLower t = "webrtc") ts.
Proof.
  induction ts as [|t ts IH]; simpl; [done|]. rewrite Forall_cons, <- IH. unfold allowedTransports.
  destruct (String.eqb_spec (ToLower t) "quic-v1"), (String.eqb_spec (ToLower t) "webrtc");
    simpl; naive_solver.
Qed.

Definition addr_ok (a : string) : Prop :=
  NewMultiaddr a = None ∧ HasPrefix a "http://" = false ∧ HasPrefix a "https://" = false.
Definition provider_ok (p : providerDTO) : Prop :=
  pd_PeerID p ≠ "" ∧ peer_Decode (pd_PeerID p) = None ∧ elems (pd_Addrs p) ≠ [] ∧
  Forall addr_ok (elems (pd_Addrs p)).
Definition manifest_ok (m : manifestInDTO) : Prop :=
  mi_RootCID m ≠ "" ∧
  Forall (λ t, ToLower t = "quic-v1" ∨ ToLower t = "webrtc") (elems (mi_Transports m)) ∧
  Forall provider_ok (elems (mi_Providers m)).

Lemma validate_addrs_spec l : validate_addrs l = None ↔ Forall addr_ok l.
Proof.
  induction l as [|a l IH]; simpl; [done|]. rewrite Forall_cons, <- IH. unfold addr_ok.
  destruct (NewMultiaddr a), (HasPrefix a "http://"), (HasPrefix a "https://"); simpl; naive_solver.
Qed.
Lemma validateProvider_spec p : validateProvider p = None ↔ provider_ok p.
Proof.
  unfold validateProvider, provider_ok.
  destruct (String.eqb_spec (pd_PeerID p) ""); [naive_solver|].
  destruct (peer_Decode (pd_PeerID p)); [naive_solver|].
  destruct (elems (pd_Addrs p)) as [|a l] eqn:Hl; [naive_solver|].
  rewrite validate_addrs_spec. naive_solver.
Qed.
Lemma validate_providers_spec i ps : validate_providers i ps = None ↔ Forall provider_ok ps.
Proof.
  revert i. induction ps as [|p ps IH]; intros i; simpl; [done|].
  rewrite Forall_cons, <- (IH (i + 1)%Z), <- validateProvider_spec.
  destruct (validateProvider p); naive_solver.
Qed.
Lemma check_manifest_spec m : check_manifest m = None ↔ manifest_ok m.
Proof.
  unfold check_manifest, manifest_ok.
  destruct (String.eqb_spec (mi_RootCID m) ""); [naive_solver|].
  pose proof (validateTransports_spec (elems (mi_Transports m))) as Ht.
  destruct (validateTransports _); [naive_solver|].
  pose proof (validate_providers_spec 0 (elems (mi_Providers m))) as Hp.
  assert ((if negb (String.eqb (mi_RootCID m) "noop" && empty_slice (mi_Providers m))
    then Error <$> validate_providers 0 (elems (mi_Providers m)) else None) = None ↔
    Forall provider_ok (elems (mi_Providers m))) as ->; [|naive_solver].
  destruct (_ && _) eqn:Hn; simpl.
  - apply andb_true_iff in Hn as [_ Hn]. unfold empty_slice in Hn.
    by destruct (elems (mi_Providers m)).
  - rewrite <- Hp. by destruct (validate_providers _ _).
Qed.

End validation.

Section api.
Context {E P : Type} `{!Env E, !StableDHT E, !Reachable E, !SaneClock E, !FairRand E}.
Context `{!PGServer P, !P2P} (getenv : string → string) (ns : string).
Implicit Types (c : control E (PGStore P)) (r : request).

Local Abbreviation table c := (pg_table (ct_store c)).

(** The row of a new job. *)
Definition new_row (req : CreateTaskReq) (now : Z) (r : row) : Prop :=
  r_id r = cr_ID req ∧ r_image r = cr_Image req ∧ scan_command (r_command r) = cr_Command req ∧
  r_status r = JobQueued ∧ r_created_at r = pg_ts now ∧ r_retry_count r = 0%Z ∧
  r_lease_token r = 0%Z ∧ r_lease_agent r = None ∧ r_manifest_root_cid r = None.

(** C17: an authorised, well-formed POST /api/tasks is answered 201.  A new job is in the
    database, queued and without a lease; an existing one keeps its row.  The DHT has
    its metadata and a fresh queued state, some shard of the index lists the id, and
    the advertiser is told about it. *)
Theorem createTask_ok r req c :
  requireAuth getenv r = true → rq_Method r = "POST" →
  decode_body c_CreateTaskReq r = (req, None) → cr_ID req ≠ "" → up 1 (pg_srv (ct_store c)) →
  ∃ c' now shard, createTaskHandler getenv ns r c =
      (Ret (writeJSON StatusCreated (json_map [("job_id", Some (JStr (cr_ID req)))])), c') ∧
    match table c !! cr_ID req with
    | Some _ => table c' = table c
    | None => ∃ row, new_row req now row ∧ table c' = <[cr_ID req := row]> (table c)
    end ∧
    doc ns c_TaskMeta (KeyMeta (cr_ID req)) (ct_node c') =
      meta_doc (cr_ID req) (cr_Image req) (cr_Command req) now ∧
    dht_state ns (cr_ID req) (ct_node c') = queued_doc (cr_ID req) now ∧
    (0 <= shard < TaskIndexShardCount)%Z ∧ cr_ID req ∈ shard_ids ns shard (ct_node c') ∧
    cr_ID req ∈ am_dirty (ct_mgr c') ∧ am_trigger (ct_mgr c') = true.
Proof.
  intros Ha Hm Hd Hid Hu. unfold createTaskHandler. rewrite Ha, Hm, Hd.
  rewrite String.eqb_refl, (proj2 (String.eqb_neq _ _) Hid). cbn [negb orb]. cbv iota.
  destruct (Now_step (ct_node c)) as (now & w1 & H1 & Hn & V1). node_step H1.
  set (id := cr_ID req) in *.
  set (job := MkDBJob id (cr_Image req) (cr_Command req) JobQueued now 0).
  destruct (enc_strings (cr_Command req)) as (j & Hj & Hsc).
  assert (CreateJob job (ct_store c) = (Ret None, MkPGStore (after (ct_store c))
    (insert_job pg_ts job j (table c)))) as Hcj.
  { change (CreateJob job (ct_store c)) with (pg_CreateJob job (ct_store c)).
    unfold pg_CreateJob. change (j_Command job) with (cr_Command req). rewrite Hj.
    destruct (exec_up (λ _ t, (Ok tt, insert_job pg_ts job j t)) 0 (ct_store c) Hu) as [He _].
    by run_step He. }
  erewrite bind_run by (apply onStore_run; exact Hcj).
  destruct (PutJSON_doc ns c_TaskMeta (KeyMeta id) (meta_doc id (cr_Image req) (cr_Command req) now) w1)
    as (w2 & H2 & D2 & _ & S2); [by apply writable_meta, enc_time_ok|]. node_step H2.
  destruct (PutJSON_doc ns c_TaskState (KeyState id) (queued_doc id now) w2)
    as (w3 & H3 & D3 & _ & S3); [by apply writable_queued, enc_time_ok|]. node_step H3.
  destruct (addToIndex_ok ns id w3) as (shard & w4 & H4 & Hs & Hin & _ & _ & S4). node_step H4.
  eexists _, now, shard. split_and!; [reflexivity|..|apply Hs|apply Hs|exact Hin|set_solver|done].
  - simpl. unfold insert_job. simpl j_ID. destruct (table c !! id); [done|].
    eexists. split; [|reflexivity]. by split_and!.
  - simpl. rewrite (doc_same ns _ _ _ _ _ S4), (doc_same ns _ _ _ _ _ S3); [done|not_key..].
  - simpl. unfold dht_state. rewrite (doc_same ns _ _ _ _ _ S4); [done|not_key].
Qed.

(** ** Manifests *)

(** [r] is an authorised post of manifest [inm] for job [id]. *)
Definition manifest_request r (id : string) (inm : manifestInDTO) : Prop :=
  requireAuth getenv r = true ∧ path_parts r = ["jobs"; id; "manifest"] ∧
  decode_body c_manifestInDTO r = (inm, None).

Lemma manifest_run r id inm c :
  manifest_request r id inm →
  manifestHandler getenv ns r c =
    match check_manifest inm with
    | Some msg => (Ret (http_Error msg StatusBadRequest), c)
    | None => store_manifest ns id inm c
    end.
Proof.
  intros (Ha & Hp & Hd). unfold manifestHandler. rewrite Ha, Hp, Hd, !String.eqb_refl.
  cbn [negb orb]. cbv iota. by destruct (check_manifest inm).
Qed.

(** C18: a manifest without a root, with a transport other than QUIC and WebRTC, or with
    a provider that has no valid peer id, no address, a bad address or an HTTP
    address, is refused with 400 and nothing is stored; every other manifest is taken
    on. *)
Theorem manifest_validated r id inm c :
  manifest_request r id inm →
  (manifest_ok inm ∧ manifestHandler getenv ns r c = store_manifest ns id inm c) ∨
  (¬ manifest_ok inm ∧
     ∃ msg, manifestHandler getenv ns r c = (Ret (http_Error msg StatusBadRequest), c)).
Proof.
  intros Hreq. rewrite (manifest_run r id inm c Hreq), <- check_manifest_spec.
  destruct (check_manifest inm) as [msg|]; [right|left]; eauto.
Qed.

Lemma AttachManifest_run id m s row :
  up 1 (pg_srv s) → pg_table s !! id = Some row →
  ∃ j, AttachManifest id m s =
    (Ret None, MkPGStore (after s) (<[id := manifest_update m j row]> (pg_table s))).
Proof.
  intros Hu Hr. simpl. unfold pg_AttachManifest.
  destruct (enc_strings (sm_Providers m)) as (j & -> & _). exists j.
  run_step (exec_update _ _ _ s Hu). unfold sql_update. by rewrite Hr.
Qed.


(** ** Releases *)

(** [r] is an authorised release of job [id]. *)
Definition release_request r (id : string) (inre : releaseIn) : Prop :=
  requireAuth getenv r = true ∧ path_parts r = ["api"; "tasks"; id; "release"] ∧
  decode_body c_releaseIn r = (inre, None).

(** The condition under which a release by agent [a] queues the task in the DHT. *)
Definition releasable (a : string) (st : TaskState) : Prop :=
  ts_ID st ≠ "" ∧ (ts_AssignedTo st = a ∨ ts_Status st = StatusAssigned ∨ ts_Status st = StatusRunning).

Lemma releasableP a st :
  negb (String.eqb (ts_ID st) "") &&
    (String.eqb (ts_AssignedTo st) a || String.eqb (ts_Status st) StatusAssigned ||
     String.eqb (ts_Status st) StatusRunning) = true ↔ releasable a st.
Proof.
  unfold releasable.
  rewrite andb_true_iff, negb_true_iff, !orb_true_iff, String.eqb_neq, !String.eqb_eq. tauto.
Qed.

(** C27: a release under the owner and the nonce of the DHT lease is answered 200, and the
    DHT lease is gone; the DHT state is queued again if it has an id and is assigned to
    the caller, assigned or running, and it is left as it is otherwise.  A release under
    another owner or another nonce is 403 and changes no document.  The database is not
    told in either case: whoever held the job there still holds it. *)
Theorem release_dht_only `{!ForwardClock E} r id inre c :
  release_request r id inre → state_ok (dht_state ns id (ct_node c)) →
  doc_err ns c_Lease (KeyLease id) (ct_node c) = false →
  le_Owner (dht_lease ns id (ct_node c)) ≠ "" →
  ∃ c', ct_store c' = ct_store c ∧
    if bool_decide (le_Owner (dht_lease ns id (ct_node c)) = re_AgentID inre ∧
                    le_Nonce (dht_lease ns id (ct_node c)) = re_Nonce inre)
    then (releaseHandler getenv ns r c =
           (Ret (MkResponse StatusOK "application/json" (RJson (JObj [("ok", JBool true)]))), c') ∧
         dht_lease ns id (ct_node c') = zero_Lease ∧
         (releasable (re_AgentID inre) (dht_state ns id (ct_node c)) →
          ∃ t, (node_clock (ct_node c) <= t <= node_clock (ct_node c'))%Z ∧
            dht_state ns id (ct_node c') = requeued_state t (dht_state ns id (ct_node c))) ∧
         (¬ releasable (re_AgentID inre) (dht_state ns id (ct_node c)) →
          dht_state ns id (ct_node c') = dht_state ns id (ct_node c)))
    else (releaseHandler getenv ns r c = (Ret (http_Error "forbidden" StatusForbidden), c') ∧
         node_view (ct_node c') = node_view (ct_node c)).
Proof.
  intros (Ha & Hp & Hd) Hst Herr Hown. unfold releaseHandler. rewrite Ha, Hp, Hd, !String.eqb_refl.
  cbn [negb orb]. cbv iota.
  destruct (GetJSON_doc ns c_Lease (KeyLease id) (2 * Second) (ct_node c)) as (err & w1 & H1 & V1 & He).
  pose proof (mono_eq H1) as C1.
  destruct err; [by destruct He as [He _]; rewrite He in Herr|].
  node_step H1. cbv beta iota. change (doc ns c_Lease (KeyLease id) (ct_node c)) with (dht_lease ns id (ct_node c)).
  str_ne Hown. cbn [orb]. cbv iota.
  case_bool_decide as Hmine.
  2: { eexists (MkControl w1 (ct_store c) (ct_mgr c)). split; [done|]. split; [|done].
       destruct (String.eqb_spec (le_Owner (dht_lease ns id (ct_node c))) (re_AgentID inre)),
         (String.eqb_spec (le_Nonce (dht_lease ns id (ct_node c))) (re_Nonce inre)); try done.
       by destruct Hmine. }
  destruct Hmine as [-> ->]. rewrite !String.eqb_refl. cbn [negb orb]. cbv iota.
  destruct (DelJSON_doc ns (KeyLease id) w1) as (w2 & H2 & S2 & D2).
  pose proof (mono_eq H2) as C2. node_step H2.
  destruct (read_step ns c_TaskState (KeyState id) w2) as (w3 & H3 & V3).
  pose proof (mono_eq H3) as C3. node_step H3.
  assert (doc ns c_TaskState (KeyState id) w2 = dht_state ns id (ct_node c)) as Hdoc.
  { rewrite (doc_same ns _ _ _ _ _ S2); [by apply doc_view|not_key]. }
  rewrite Hdoc. set (st := dht_state ns id (ct_node c)) in *.
  destruct (negb (String.eqb (ts_ID st) "") && _) eqn:Hq.
  - apply releasableP in Hq. destruct (Now_step w3) as (t & w4 & H4 & Ht & V4).
    destruct (Now_reads w3) as [w4' H4']. rewrite H4 in H4'. injection H4' as Htc _.
    destruct (PutJSON_doc ns c_TaskState (KeyState id) (requeued_state t st) w4)
      as (w5 & H5 & D5 & _ & S5); [by apply state_ok_writable, requeued_state_ok|].
    pose proof (mono_eq H4) as C4. pose proof (mono_eq H5) as C5.
    exists (MkControl w5 (ct_store c) (ct_mgr c)). split_and!; [done|..].
    + erewrite bind_run; [reflexivity|]. node_step H4. exact (onNode_run _ _ _ _ H5).
    + unfold dht_lease. simpl. rewrite (doc_same ns _ _ _ _ _ S5); [|not_key].
      rewrite (doc_view ns _ _ _ _ V4), (doc_view ns _ _ _ _ V3). apply D2.
    + intros _. exists t. split; [simpl; lia|exact D5].
    + done.
  - exists (MkControl w3 (ct_store c) (ct_mgr c)). split_and!; [done|done|..].
    + unfold dht_lease. simpl. rewrite (doc_view ns _ _ _ _ V3). apply D2.
    + intros Hr%releasableP. congruence.
    + intros _. unfold dht_state. simpl. by rewrite (doc_view ns _ _ _ _ V3).
Qed.

(** ** What a reader of a task is shown *)

(** The manifests are the same but for the secret [enc_meta]. *)
Definition same_but_secret (m1 m2 : Manifest) : Prop :=
  mf_RootCID m1 = mf_RootCID m2 ∧ mf_Providers m1 = mf_Providers m2 ∧
  mf_Rendezvous m1 = mf_Rendezvous m2 ∧ mf_Transports m1 = mf_Transports m2 ∧
  mf_Version m1 = mf_Version m2 ∧ mf_UpdatedAt m1 = mf_UpdatedAt m2.

(** C28: the answer of GET /api/tasks/... does not depend on the secret [enc_meta] of the
    manifest: two servers with the same database whose manifests of the task agree in
    every field but [enc_meta] give the same answer. *)
Theorem getTask_hides_secret r c1 c2 :
  let id := TrimPrefix (rq_Path r) "/api/tasks/" in
  let man c := doc ns c_Manifest (KeyManifest id) (ct_node c) in
  ct_store c1 = ct_store c2 →
  doc_err ns c_Manifest (KeyManifest id) (ct_node c1) =
    doc_err ns c_Manifest (KeyManifest id) (ct_node c2) →
  same_but_secret (man c1) (man c2) →
  (getTaskHandler getenv ns r c1).1 = (getTaskHandler getenv ns r c2).1.
Proof.
  intros id man Hs Herr Hman. unfold getTaskHandler.
  destruct (negb (requireAuth getenv r)); [done|]. destruct (negb (String.eqb (rq_Method r) _)); [done|].
  fold id. destruct (String.eqb id ""); [done|].
  destruct (pg_total_store.(ts_GetJob) id (ct_store c1)) as (res & s' & Hg).
  assert (GetJob id (ct_store c2) = (Ret res, s')) as Hg2 by by rewrite <- Hs.
  erewrite (bind_run _ _ c1) by (apply onStore_run; exact Hg).
  erewrite (bind_run _ _ c2) by (apply onStore_run; exact Hg2).
  destruct res as [job|e]; [|done].
  destruct (GetJSON_doc ns c_Manifest (KeyManifest id) (2 * Second) (ct_node c1))
    as (e1 & w1 & H1 & _ & E1).
  destruct (GetJSON_doc ns c_Manifest (KeyManifest id) (2 * Second) (ct_node c2))
    as (e2 & w2 & H2 & _ & E2).
  node_step H1. node_step H2. fold (man c1) (man c2).
  destruct Hman as (Hroot & Hprov & Hrv & Htr & Hver & Hup).
  assert (dto_of_manifest (man c1) = dto_of_manifest (man c2)) as Hdto
    by (unfold dto_of_manifest; congruence).
  rewrite Herr, <- E2 in E1.
  destruct e1 as [e1|], e2 as [e2|]; cbv zeta; try done.
  - by destruct E1 as [[? ?] _].
  - by destruct E1 as [_ [? ?]].
  - by rewrite Hroot, Hdto.
Qed.

End api.

(** ** Witnesses *)

#[local] Existing Instance demo_p2p.

Definition demo_create : request :=
  demo_request "POST" "/api/tasks" "" (JObj [("id", JStr "j9"); ("image", JStr "alpine");
    ("command", JArr [JStr "echo"])]) "".

Lemma createTask_ok_witness :
  ∃ c' shard, createTaskHandler demo_getenv "mc" demo_create (demo_world demo_queued) =
      (Ret (writeJSON StatusCreated (json_map [("job_id", Some (JStr "j9"))])), c') ∧
    "j9" ∈ shard_ids "mc" shard (ct_node c').
Proof.
  destruct (createTask_ok demo_getenv "mc" demo_create (MkCreateTaskReq "j9" "alpine" (Some ["echo"]))
    (demo_world demo_queued) ltac:(vm_compute; reflexivity) eq_refl ltac:(vm_compute; reflexivity)
    ltac:(discriminate) (sim_up 1 _)) as (c' & now & shard & Hh & _ & _ & _ & _ & Hin & _).
  exists c', shard. split; [exact Hh|exact Hin].
Defined.

Definition demo_manifest (transport : string) : request :=
  demo_request "POST" "/jobs/j1/manifest" "" (JObj [("root_cid", JStr "bafy"); ("providers",
    JArr [JObj [("peer_id", JStr "12D3"); ("addrs", JArr [JStr "/ip4/10.0.0.1/tcp/1"])]]);
    ("transports", JArr [JStr transport])]) "".
Definition demo_inm (transport : string) : manifestInDTO :=
  MkmanifestInDTO "bafy" (Some [MkproviderDTO "12D3" (Some ["/ip4/10.0.0.1/tcp/1"]) None None])
    "" "" (Some [transport]) 0 0.

Lemma demo_manifest_request transport :
  manifest_request demo_getenv (demo_manifest transport) "j1" (demo_inm transport).
Proof. split_and!; vm_compute; reflexivity. Qed.

Lemma manifest_validated_witness :
  ∃ msg, manifestHandler demo_getenv "mc" (demo_manifest "tcp") (demo_world demo_queued) =
    (Ret (http_Error msg StatusBadRequest), demo_world demo_queued).
Proof.
  destruct (manifest_validated demo_getenv "mc" (demo_manifest "tcp") "j1" (demo_inm "tcp")
    (demo_world demo_queued) (demo_manifest_request "tcp")) as [[(_ & Ht & _) _]|[_ (msg & Hh)]].
  - exfalso. apply Forall_cons in Ht as [[H|H] _]; vm_compute in H; discriminate H.
  - exists msg. exact Hh.
Defined.


(** A world in which "A" owns the DHT lease of "j1". *)
Definition demo_leased : control WallEnv (PGStore SimPG) :=
  MkControl (NodeW wall0 {[nsKey "mc" (KeyLease "j1") := BJson (JObj [("owner", JStr "A")])]})
    demo_s NewAnnounceManager.
Definition demo_release (agent : string) : request :=
  demo_request "POST" "/api/tasks/j1/release" "" (JObj [("agent_id", JStr agent)]) "".

Lemma release_dht_only_witness :
  ∃ c', releaseHandler demo_getenv "mc" (demo_release "A") demo_leased =
      (Ret (MkResponse StatusOK "application/json" (RJson (JObj [("ok", JBool true)]))), c') ∧
    ct_store c' = demo_s.
Proof.
  assert (release_request demo_getenv (demo_release "A") "j1" (MkreleaseIn "A" "")) as Hreq
    by (split_and!; vm_compute; reflexivity).
  destruct (release_dht_only demo_getenv "mc" (demo_release "A") "j1" (MkreleaseIn "A" "") demo_leased
    Hreq) as (c' & Hs & Hh).
  - exact zero_state_ok.
  - vm_compute. reflexivity.
  - vm_compute. discriminate.
  - rewrite bool_decide_eq_true_2 in Hh by (vm_compute; split; reflexivity).
    exists c'. split; [exact (proj1 Hh)|exact Hs].
Defined.

Definition demo_secret (s : string) : control WallEnv (PGStore SimPG) :=
  MkControl (NodeW wall0 {[nsKey "mc" (KeyManifest "j1") :=
    BJson (JObj [("root_cid", JStr "bafy"); ("enc_meta", JStr s)])]}) demo_s NewAnnounceManager.
Definition demo_get : request := demo_request "GET" "/api/tasks/j1" "" JNull "".

Lemma getTask_hides_secret_witness :
  (getTaskHandler demo_getenv "mc" demo_get (demo_secret "k1")).1 =
  (getTaskHandler demo_getenv "mc" demo_get (demo_secret "k2")).1.
Proof.
  apply (getTask_hides_secret demo_getenv "mc" demo_get (demo_secret "k1") (demo_secret "k2"));
    repeat split; vm_compute; reflexivity.
Defined.
