(* ===== verification/ControlLoops.v ===== *)
(** * The background work of the control server

    Advertisements, the requeue of expired jobs, the index, and the routes that lead
    nowhere. *)
From Stdlib Require Import String Ascii.
From S2P Require Import Prelude GoStrings GoTime Json Env TaskTypes Node NodeTheorems Docs LeaseTypes.
From S2P Require Import PGStore LeaseProtocol LeaseSpec PGMethods LeaseTheorems StoreTheorems.
From S2P Require Import ControlTypes Announce ControlHTTP ControlMain ControlLemmas ControlSafety.
From S2P Require Import ControlClaims ControlTasks.

Set Warnings "-clear-no-such-hyp".
Local Open Scope string_scope.

(** ** Advertisements *)

Lemma keyTaskAd_inj ns id id' : keyTaskAd ns id = keyTaskAd ns id' → id = id'.
Proof.
  unfold keyTaskAd. intros H%append_inj_l. apply append_inj_l in H. by apply append_inj_l in H.
Qed.
Lemma keyMirror_inj id id' : keyP2PManifestMirror id = keyP2PManifestMirror id' → id = id'.
Proof. unfold keyP2PManifestMirror. intros H%append_inj_l. by apply append_inj_r in H. Qed.

Section announce.
Context {E S : Type} `{!Env E, !StableDHT E, !Reachable E, !SaneClock E}.
Context (getenv : string → string) (ns : string).
Implicit Types (c : control E S) (w : nodew E).

Definition dht_manifest (id : string) w : Manifest := doc ns c_Manifest (KeyManifest id) w.
Definition dht_ad (id : string) w : taskAd := doc ns c_taskAd (keyTaskAd ns id) w.

(** The providers of the stored manifests can be written back. *)
Definition manifests_ok w : Prop :=
  ∀ id, Forall canon_Provider (elems (mf_Providers (dht_manifest id w))).

Lemma writable_ad ad : is_Some (enc c_time (ta_Exp ad)) → writable c_taskAd ad.
Proof.
  intros He. apply writable_fields; [solve_struct_rt|]. unfold fields_taskAd. solve_fields.
Qed.

Lemma announceAds_ok id man ttl w :
  Forall canon_Provider (elems (mf_Providers man)) → (0 <= ttl <= 3600 * Second)%Z →
  ∃ w' t, announceAds getenv ns id man ttl w = (Ret tt, w') ∧ sane t = true ∧
    dht_ad id w' = MktaskAd id ns (mf_Rendezvous man) (demand_url getenv) (Add t ttl) "" ∧
    same_but ns [keyTaskAd ns id; keyP2PManifestMirror id] w w'.
Proof.
  intros Hc Httl. unfold announceAds.
  destruct (Now_step w) as (t & w1 & H1 & Ht & V1). run_step H1. cbv zeta.
  assert (is_Some (enc c_time (Add t ttl))) as He by (simpl; rewrite sane_add by done; by eexists).
  destruct (PutJSON_doc ns c_taskAd (keyTaskAd ns id)
    (MktaskAd id ns (mf_Rendezvous man) (demand_url getenv) (Add t ttl) "") w1)
    as (w2 & H2 & D2 & _ & S2); [by apply writable_ad|].
  run_step H2.
  destruct (PutJSON_doc ns c_manifestMirror (keyP2PManifestMirror id)
    (MkmanifestMirror (mf_Providers man) (Add t ttl)) w2) as (w3 & H3 & D3 & _ & S3);
    [by apply writable_mirror|].
  run_step H3. exists w3, t. split_and!; [done|done|..].
  - unfold dht_ad. rewrite (doc_same ns _ _ _ _ _ S3); [done|not_key].
  - intros k Hk. rewrite <- V1. by apply (same_but_trans ns _ _ _ _ _ S2 S3).
Qed.

Lemma announced_manifest_ok id w :
  manifests_ok w →
  ∃ man w', announced_manifest ns id w = (Ret man, w') ∧ mf_RootCID man ≠ "" ∧
    dht_manifest id w' = man ∧ Forall canon_Provider (elems (mf_Providers man)) ∧
    same_but ns [KeyManifest id] w w'.
Proof.
  intros Hok. unfold announced_manifest.
  destruct (GetJSON_doc ns c_Manifest (KeyManifest id) (2 * Second) w) as (err & w1 & H1 & V1 & _).
  run_step H1. fold (dht_manifest id w).
  destruct (match err with Some _ => true | None => false end ||
    String.eqb (mf_RootCID (dht_manifest id w)) "") eqn:Hb.
  - destruct (Now_step w1) as (t & w2 & H2 & Ht & V2). run_step H2. cbv zeta.
    destruct (PutJSON_doc ns c_Manifest (KeyManifest id) (noop_manifest t) w2)
      as (w3 & H3 & D3 & _ & S3).
    { apply writable_manifest; [by split; [apply Forall_nil|]| |by apply enc_time_ok|apply enc_providers].
      by eexists. }
    run_step H3. exists (noop_manifest t), w3.
    split_and!; [done..|by apply Forall_nil|].
    intros k Hk. rewrite (S3 k Hk). congruence.
  - apply orb_false_iff in Hb as [_ Hb%String.eqb_neq].
    exists (dht_manifest id w), w1. split_and!; [done|done| |apply Hok|by apply same_view].
    by apply doc_view.
Qed.

(** What an advertisement leaves behind. *)
Definition advertised (ttl : Z) (id : string) w : Prop :=
  mf_RootCID (dht_manifest id w) ≠ "" ∧ ta_JobID (dht_ad id w) = id ∧
  ta_DemandURL (dht_ad id w) = demand_url getenv ∧
  ∃ t, sane t = true ∧ ta_Exp (dht_ad id w) = Add t ttl.

Lemma announceOnce_ok ttl id c :
  manifests_ok (ct_node c) → (0 <= ttl <= 3600 * Second)%Z →
  ∃ c' t, announceOnce getenv ns ttl id c = (Ret tt, c') ∧ advertised ttl id (ct_node c') ∧
    manifests_ok (ct_node c') ∧ ct_store c' = ct_store c ∧ ct_mgr c' = stamp id t (ct_mgr c) ∧
    same_but ns [KeyManifest id; keyTaskAd ns id; keyP2PManifestMirror id] (ct_node c) (ct_node c').
Proof.
  intros Hok Httl. unfold announceOnce.
  destruct (announced_manifest_ok id (ct_node c) Hok) as (man & w1 & H1 & Hroot & Hd & Hc & S1).
  destruct (announceAds_ok id man ttl w1 Hc Httl) as (w2 & t & H2 & Ht & Had & S2).
  assert ((man ← announced_manifest ns id; announceAds getenv ns id man ttl) (ct_node c) =
    (Ret tt, w2)) as H12 by by run_step H1.
  node_step H12. destruct (Now_step w2) as (t' & w3 & H3 & _ & V3). node_step H3.
  assert (∀ id', dht_manifest id' w3 = dht_manifest id' w1) as Hsame.
  { intros id'. unfold dht_manifest. rewrite (doc_view ns _ _ _ _ V3).
    apply (doc_same ns _ _ _ _ _ S2). not_key. }
  eexists _, t'. split; [reflexivity|]. simpl. split_and!; [|..|done|done|].
  - unfold advertised. rewrite Hsame, Hd. unfold dht_ad. rewrite (doc_view ns _ _ _ _ V3).
    fold (dht_ad id w2). rewrite Had. by eauto 6.
  - intros id'. rewrite Hsame. destruct (decide (id' = id)) as [->|Hne]; [by rewrite Hd|].
    unfold dht_manifest. rewrite (doc_same ns _ _ _ _ _ S1); [apply Hok|].
    by intros ?%list_elem_of_singleton%KeyManifest_inj.
  - intros k Hk. rewrite V3. by apply (same_but_trans ns _ _ _ _ _ S1 S2).
Qed.

Lemma advertised_same ttl id K w w' :
  same_but ns K w w' → KeyManifest id ∉ K → keyTaskAd ns id ∉ K →
  advertised ttl id w → advertised ttl id w'.
Proof.
  intros Hs Hm Ha. unfold advertised, dht_manifest, dht_ad.
  by rewrite (doc_same ns _ _ _ _ _ Hs Hm), (doc_same ns _ _ _ _ _ Hs Ha).
Qed.

Lemma announce_all ttl ids c :
  manifests_ok (ct_node c) → (0 <= ttl <= 3600 * Second)%Z →
  ∃ c', for_each ids (announceOnce getenv ns ttl) c = (Ret tt, c') ∧
    manifests_ok (ct_node c') ∧ ct_store c' = ct_store c ∧
    am_dirty (ct_mgr c') = am_dirty (ct_mgr c) ∧
    (∀ id, id ∈ ids → advertised ttl id (ct_node c')) ∧
    (∀ id, id ∉ ids → dht_ad id (ct_node c') = dht_ad id (ct_node c)) ∧
    (∀ id, advertised ttl id (ct_node c) → advertised ttl id (ct_node c')).
Proof.
  intros Hok Httl. revert c Hok. induction ids as [|x ids IH]; intros c Hok; simpl.
  { exists c. split_and!; [done..| |done|done]. by intros id ?%not_elem_of_nil. }
  destruct (announceOnce_ok ttl x c Hok Httl) as (c1 & t & H1 & Ha1 & Hok1 & Hs1 & Hm1 & S1).
  run_step H1.
  destruct (IH c1 Hok1) as (c' & H' & Hok' & Hs' & Hm' & Hin & Hout & Hkeep).
  exists c'. split_and!; [done|done|congruence|by rewrite Hm', Hm1|..].
  - intros id [->|Hid]%elem_of_cons; auto.
  - intros id [Hne Hid]%not_elem_of_cons. rewrite Hout by done. unfold dht_ad.
    rewrite (doc_same ns _ _ _ _ _ S1); [done|].
    rewrite !elem_of_cons, elem_of_nil.
    intros [[=]|[?%keyTaskAd_inj|[[=]|[]]]]; congruence.
  - intros id Ha. apply Hkeep. destruct (decide (id = x)) as [->|Hne]; [done|].
    eapply advertised_same; [exact S1|..|done]; rewrite !elem_of_cons, elem_of_nil.
    + intros [?%KeyManifest_inj|[[=]|[[=]|[]]]]; congruence.
    + intros [[=]|[?%keyTaskAd_inj|[[=]|[]]]]; congruence.
Qed.

Context `{!MapRange E}.

(** The time [process] reads. *)
Definition process_now c : Z := (env_Now (nw_env (ct_node c))).1.

Lemma process_run ttl interval c :
  manifests_ok (ct_node c) → (0 <= ttl <= 3600 * Second)%Z →
  let chosen id := id ∈ am_dirty (ct_mgr c) ∧ due interval (process_now c) (ct_mgr c) id = true in
  ∃ c', process getenv ns ttl interval c = (Ret tt, c') ∧
    am_dirty (ct_mgr c') = am_dirty (ct_mgr c) ∧ ct_store c' = ct_store c ∧
    (∀ id, chosen id → advertised ttl id (ct_node c')) ∧
    (∀ id, ¬ chosen id → dht_ad id (ct_node c') = dht_ad id (ct_node c)).
Proof.
  intros Hok Httl chosen. unfold process. rewrite bind_run with (a := ct_mgr c) (w' := c) by done.
  destruct (quiet_Now (ct_node c)) as (now & w1 & H1 & V1).
  assert (now = process_now c) as Hnow.
  { unfold Now in H1. unfold process_now. by destruct (env_Now _); simplify_eq. }
  node_step H1.
  destruct (quiet_Range (elements (am_dirty (ct_mgr c))) w1) as (order & w2 & H2 & V2).
  assert (order ≡ₚ elements (am_dirty (ct_mgr c))) as Hord.
  { unfold Range in H2. pose proof (range_perm (elements (am_dirty (ct_mgr c))) (nw_env w1)) as Hp.
    destruct (env_Range _ _). by simplify_eq/=. }
  node_step H2. set (c2 := MkControl w2 (ct_store c) (ct_mgr c)).
  assert (∀ A (cd : codec A) key, doc ns cd key w2 = doc ns cd key (ct_node c)) as Hdoc.
  { intros. apply doc_view. congruence. }
  assert (∀ id, id ∈ List.filter (due interval now (ct_mgr c)) order ↔ chosen id) as Hmem.
  { intros id. rewrite elem_of_lfilter, Hord, elem_of_elements, Hnow. done. }
  destruct (announce_all ttl (List.filter (due interval now (ct_mgr c)) order) c2)
    as (c' & H' & _ & Hs & Hd & Hin & Hout & _); [|done|].
  { intros id. unfold dht_manifest. simpl. rewrite Hdoc. apply Hok. }
  exists c'. split_and!; [done..| |].
  - intros id Hc. by apply Hin, Hmem.
  - intros id Hc. rewrite Hout by (by rewrite Hmem). unfold dht_ad. simpl. apply Hdoc.
Qed.


End announce.

(** ** Expired jobs *)

(** The server's clock does not go back from one statement to the next. *)
Class PGClock (P : Type) `{!PGServer P} : Prop :=
  pg_mono p : (sx_now (pg_stmt p).1 <= sx_now (pg_stmt (pg_stmt p).2).1)%Z.
#[global] Instance sim_pg_clock : PGClock SimPG.
Proof. intros p. simpl. lia. Qed.

Definition always_up {P} `{!PGServer P} (p : P) : Prop := ∀ n, up n p.

Section requeue.
Context {E P : Type} `{!Env E, !StableDHT E, !Reachable E, !SaneClock E, !PGServer P}.
Context (ns : string).
Implicit Types (c : control E (PGStore P)).

Local Abbreviation table c := (pg_table (ct_store c)).

Lemma always_up_after s : always_up (pg_srv s) → always_up (after (P := P) s).
Proof. intros Hu n. by destruct (Hu (S n)) as (_ & _ & ?). Qed.

(** The row is held and its lease has run out. *)
Definition overdue (now : Z) (row : row) : Prop :=
  (∃ a x b, abs_phase row = Held a x b ∧ (x < now)%Z) ∧ (r_retry_count row < max_int32)%Z.

Lemma update_state_ok id now w :
  state_ok (dht_state ns id w) → sane now = true →
  ∃ w', updateDHTStateQueued ns id now w = (Ret tt, w') ∧
    ts_Status (dht_state ns id w') = StatusQueued ∧ ts_AssignedTo (dht_state ns id w') = "" ∧
    state_ok (dht_state ns id w') ∧ same_but ns [KeyState id] w (w' : nodew E).
Proof.
  intros Hst Hn. unfold updateDHTStateQueued.
  destruct (read_step ns c_TaskState (KeyState id) w) as (w1 & H1 & V1).
  run_step H1. fold (dht_state ns id w).
  assert (state_ok (requeued_state now (with_ts_ID id (dht_state ns id w)))) as Hok.
  { apply requeued_state_ok; [|done]. destruct Hst. by destruct (dht_state ns id w). }
  destruct (PutJSON_doc ns c_TaskState (KeyState id)
    (requeued_state now (with_ts_ID id (dht_state ns id w))) w1) as (w2 & H2 & D2 & _ & S2);
    [by apply state_ok_writable|].
  run_step H2. exists w2. unfold dht_state. rewrite D2. fold (dht_state ns id w).
  split_and!; [done|..|done|].
  - by destruct (dht_state ns id w).
  - by destruct (dht_state ns id w).
  - intros k Hk. rewrite <- V1. by apply S2.
Qed.

(** What the requeue of one job leaves: waiting in the database, queued in the DHT, no
    lease, and on the advertiser's list. *)
Definition requeued (id : string) (row : row) c : Prop :=
  abs_row <$> table c !! id = Some (MkAJob Waiting (r_lease_token row) (r_retry_count row + 1)) ∧
  dht_lease ns id (ct_node c) = zero_Lease ∧
  ts_Status (dht_state ns id (ct_node c)) = StatusQueued ∧
  ts_AssignedTo (dht_state ns id (ct_node c)) = "" ∧ id ∈ am_dirty (ct_mgr c).

Lemma requeue_job_ok now id row c :
  up 1 (pg_srv (ct_store c)) → table_ok (table c) → table c !! id = Some row →
  overdue (db_now (ct_store c)) row → state_ok (dht_state ns id (ct_node c)) → sane now = true →
  ∃ c' row', requeue_job ns now id c = (Ret tt, c') ∧ requeued id row c' ∧
    pg_srv (ct_store c') = after (ct_store c) ∧ table c' = <[id := row']> (table c) ∧
    table_ok (table c') ∧ ct_mgr c' = mark id (ct_mgr c) ∧
    same_but ns [KeyLease id; KeyState id] (ct_node c) (ct_node c').
Proof.
  intros Hu Hok Hr [(a & x & b & Hp & Hx) Hre] Hst Hn. unfold requeue_job.
  pose proof (row_shapeP id row (Hok id row Hr)) as Hsh. rewrite Hp in Hsh.
  assert (∃ row', requeue_set row = Some row' ∧
    abs_row row' = MkAJob Waiting (r_lease_token row) (r_retry_count row + 1)) as (row' & Hrs & Habs).
  { unfold requeue_set, int_succ. rewrite (proj2 (Z.ltb_lt _ _) Hre). simpl.
    eexists. split; [reflexivity|]. by destruct row. }
  pose proof (SetStatusQueued_run id (ct_store c) row Hu Hr) as Hq.
  rewrite (is_expired_shape _ _ _ Hsh), (proj2 (Z.ltb_lt _ _) Hx), Hrs in Hq.
  erewrite bind_run by (apply onStore_run; exact Hq).
  destruct (Now_step (ct_node c)) as (t & w1 & H1 & _ & V1). node_step H1.
  destruct (DelJSON_doc ns (KeyLease id) w1) as (w2 & H2 & S2 & D2). node_step H2.
  assert (dht_state ns id w2 = dht_state ns id (ct_node c)) as Heq.
  { unfold dht_state. rewrite (doc_same ns _ _ _ _ _ S2); [by apply doc_view|not_key]. }
  destruct (update_state_ok id now w2) as (w3 & H3 & Hs3 & Ha3 & _ & S3); [by rewrite Heq|done|].
  node_step H3. eexists _, row'. split; [reflexivity|]. unfold requeued. simpl.
  split_and!; try done.
  4: { apply table_ok_insert; [done|]. eapply (requeue_row_ok (db_now (ct_store c))); [by apply Hok| |done].
       rewrite (is_expired_shape _ _ _ Hsh). by apply Z.ltb_lt. }
  - rewrite lookup_insert_eq. simpl. by rewrite Habs.
  - unfold dht_lease. rewrite (doc_same ns _ _ _ _ _ S3); [apply D2|not_key].
  - simpl. set_solver.
  - intros k Hk. rewrite <- V1. by apply (same_but_trans ns _ _ _ _ _ S2 S3).
Qed.

Lemma requeued_keep id id' row c c' row' :
  id ≠ id' → requeued id row c → table c' = <[id' := row']> (table c) →
  ct_mgr c' = mark id' (ct_mgr c) →
  same_but ns [KeyLease id'; KeyState id'] (ct_node c) (ct_node c') → requeued id row c'.
Proof.
  intros Hne (Ht & Hl & Hs & Ha & Hd) Htab Hm Hsame. unfold requeued.
  rewrite Htab, lookup_insert_ne, Hm by done. unfold dht_lease, dht_state in *.
  assert (¬ (KeyState id ∈ [KeyLease id'; KeyState id'])) as Hk1.
  { rewrite !elem_of_cons, elem_of_nil. intros [Hk|[Hk|[]]].
    - by apply KeyState_KeyLease in Hk.
    - by apply KeyState_inj in Hk. }
  assert (¬ (KeyLease id ∈ [KeyLease id'; KeyState id'])) as Hk2.
  { rewrite !elem_of_cons, elem_of_nil. intros [Hk|[Hk|[]]].
    - by apply KeyLease_inj in Hk.
    - by symmetry in Hk; apply KeyState_KeyLease in Hk. }
  rewrite !(doc_same ns _ _ _ _ _ Hsame) by done. split_and!; try done. simpl. set_solver.
Qed.

Context `{!PGClock P, !PGScan P}.

Lemma requeue_all now (rows : gmap string row) ids c :
  NoDup ids → always_up (pg_srv (ct_store c)) → table_ok (table c) → sane now = true →
  (∀ id, id ∈ ids → ∃ row, rows !! id = Some row ∧ table c !! id = Some row ∧
     overdue (db_now (ct_store c)) row) →
  (∀ id, id ∈ ids → state_ok (dht_state ns id (ct_node c))) →
  ∃ c', for_each ids (requeue_job ns now) c = (Ret tt, c') ∧
    (∀ id, id ∉ ids → table c' !! id = table c !! id) ∧
    (∀ id row, (rows !! id = Some row ∧ id ∈ ids) ∨ ((id ∉ ids) ∧ requeued id row c) → requeued id row c').
Proof.
  intros Hnd. revert c. induction Hnd as [|x ids Hx Hnd IH]; intros c Hu Hok Hn Hrows Hst; simpl.
  { exists c. split_and!; [done..|]. intros id row [[_ ?%not_elem_of_nil]|[_ ?]]; done. }
  destruct (Hrows x) as (rx & Hrx & Htx & Hov); [by left|].
  destruct (requeue_job_ok now x rx c (Hu 1) Hok Htx Hov (Hst x ltac:(by left)) Hn)
    as (c1 & rx' & H1 & Hq1 & Hsrv & Htab & Hok1 & Hm & Hs1).
  run_step H1.
  destruct (IH c1) as (c' & H' & Hkeep & Hall).
  - rewrite Hsrv. by apply always_up_after.
  - done.
  - done.
  - intros id Hid. destruct (Hrows id) as (row & ? & Ht & (a & y & b & Hp & Hy) & Hre); [by right|].
    exists row. rewrite Htab, lookup_insert_ne by (by intros <-). split_and!; [done..|].
    split; [|done]. exists a, y, b. split; [done|].
    unfold db_now, nxt in *. rewrite Hsrv. unfold after.
    pose proof (pg_mono (pg_srv (ct_store c))). lia.
  - intros id Hid. unfold dht_state. rewrite (doc_same ns _ _ _ _ _ Hs1); [apply Hst; by right|].
    rewrite !elem_of_cons, elem_of_nil. intros [Hk|[Hk|[]]].
    + by apply KeyState_KeyLease in Hk.
    + apply KeyState_inj in Hk. by subst.
  - exists c'. split_and!; [done| |].
    { intros id [Hne Hid]%not_elem_of_cons. by rewrite Hkeep, Htab, lookup_insert_ne. }
    intros id row [[Hr [->|Hid]%elem_of_cons]|[[Hne Hid]%not_elem_of_cons Hq]];
      apply Hall.
    + right. simplify_eq. by split.
    + by left.
    + right. split; [done|]. by eapply requeued_keep.
Qed.

(** C9: a tick of the requeue loop recovers every job whose lease had run out when it
    asked, and touches no other row: each is waiting in the database with its requeue
    counted, its DHT lease is gone, its DHT state is queued and unassigned, and it is on
    the advertiser's list.  A lease that ran out a moment ago is among them: the loop
    passes "three seconds ago" to [ListExpiredLeases] and its comment promises that
    delay, but the statement compares with [now()] and ignores the argument. *)
Theorem requeue_tick_recovers c :
  always_up (pg_srv (ct_store c)) → table_ok (table c) →
  map_Forall (λ _ row, (r_retry_count row < max_int32)%Z) (table c) →
  (∀ id, state_ok (dht_state ns id (ct_node c))) →
  ∃ c', requeue_tick ns c = (Ret tt, c') ∧
    ∀ id row a x b, table c !! id = Some row → abs_phase row = Held a x b →
      ((x < db_now (ct_store c))%Z → requeued id row c') ∧
      ((db_now (ct_store c) <= x)%Z → table c' !! id = Some row).
Proof.
  intros Hu Hok Hre Hst. unfold requeue_tick.
  destruct (Now_step (ct_node c)) as (now & w1 & H1 & Hn & V1). node_step H1.
  destruct (ListExpiredLeases_result (Add now (- (3 * Second))) (ct_store c) (Hu 1) Hok)
    as (ids & Hl & Hnd & Hids).
  erewrite bind_run by (apply onStore_run; exact Hl).
  destruct (requeue_all now (table c) ids
    (MkControl w1 (MkPGStore (after (ct_store c)) (table c)) (ct_mgr c)) Hnd)
    as (c' & H' & Hkeep & Hall); simpl; [by apply always_up_after|done|done|..].
  - intros id (row & a & x & b & Hr & Hp & Hx)%Hids. exists row. split_and!; [done..|].
    split; [|by apply (Hre id)]. exists a, x, b. split; [done|].
    unfold db_now, nxt, after in *. simpl. pose proof (pg_mono (pg_srv (ct_store c))). lia.
  - intros id _. unfold dht_state. rewrite (doc_view ns _ _ _ _ V1). apply Hst.
  - exists c'. split; [exact H'|]. intros id row a x b Hr Hp. split; intros Hx.
    + apply Hall. left. split; [done|]. apply Hids. eauto 8.
    + rewrite Hkeep; [done|]. intros (row' & a' & x' & b' & Hr' & Hp' & Hx')%Hids.
      assert (row' = row) as -> by (apply (inj Some); by rewrite <- Hr, <- Hr').
      rewrite Hp in Hp'. injection Hp' as _ -> _. lia.
Qed.

End requeue.

(** ** Jobs that come back, or are never seen *)

Section gaps.
Context {E P : Type} `{!Env E, !StableDHT E, !Reachable E, !SaneClock E, !FairRand E, !MapRange E}.
Context `{!PGServer P, !P2P} (getenv : string → string) (ns : string).
Implicit Types (c : control E (PGStore P)) (r : request).

(** C38: a completed job comes back.  [finishHandler] removes the advertisement, but the
    job stays on the advertiser's list, and the next run of [process] after its
    interval advertises it again. *)
Theorem finished_job_readvertised r id a tok inf ttl interval c c1 :
  finish_request getenv r id a tok inf → up 1 (pg_srv (ct_store c)) →
  state_ok (dht_state ns id (ct_node c)) → manifests_ok ns (ct_node c) →
  (0 <= ttl <= 3600 * Second)%Z → id ∈ am_dirty (ct_mgr c) →
  finishHandler getenv ns r c = (Ret (MkResponse StatusNoContent "" REmpty), c1) →
  due interval (process_now c1) (ct_mgr c1) id = true →
  dht_ad ns id (ct_node c1) = zero_taskAd ∧
  ∃ c2, process getenv ns ttl interval c1 = (Ret tt, c2) ∧
    ta_JobID (dht_ad ns id (ct_node c2)) = id.
Proof.
  intros Hreq Hu Hst Hman Httl Hd Hfin Hdue.
  destruct (Finish_run id a tok (reports_success inf) (fi_ResultCID inf)
    (fi_Artifacts inf) (enc c_map (fi_Metrics inf)) (ct_store c) Hu) as [aj Hf].
  rewrite (finish_run getenv ns _ _ _ _ _ _ _ Hreq Hf) in Hfin.
  match type of Hfin with mirror_finish _ _ _ ?x = _ => set (c0 := x) in Hfin end.
  destruct (mirror_finish_ok (S := PGStore P) ns id (reports_success inf) c0 Hst)
    as (c' & t & Hm & _ & _ & Hmgr & _ & _ & Had & _ & Hsame).
  rewrite Hfin in Hm. simplify_eq. split; [done|].
  destruct (process_run getenv ns ttl interval c') as (c2 & Hp & _ & _ & Hin & _); [|done|].
  - intros id'. unfold dht_manifest. rewrite (doc_same ns _ _ _ _ _ Hsame); [apply Hman|not_key].
  - exists c2. split; [done|]. apply (Hin id). split; [|done]. by rewrite Hmgr.
Qed.

(** C39: a task created from the command line is not in the index the agents read: it
    goes to the unsharded index, and every shard stays as it was. *)
Theorem createTask_not_in_shards id image cmd (w : nodew E) :
  ∃ err w', createTask ns id image cmd w = (Ret err, w') ∧
    ∀ shard, (0 <= shard < TaskIndexShardCount)%Z → shard_ids ns shard w' = shard_ids ns shard w.
Proof.
  unfold createTask.
  destruct (Now_step w) as (now & w1 & H1 & Hn & V1). run_step H1.
  destruct (PutJSON_doc ns c_TaskMeta (KeyMeta id) (meta_doc id image cmd now) w1)
    as (w2 & H2 & _ & _ & S2); [by apply writable_meta, enc_time_ok|].
  run_step H2.
  destruct (PutJSON_doc ns c_TaskState (KeyState id) (queued_doc id now) w2)
    as (w3 & H3 & _ & _ & S3); [by apply writable_queued, enc_time_ok|].
  run_step H3.
  match goal with |- context [PutJSONCAS ns (KeyIndex ns) ?ck] =>
    destruct (cas_loop_frame 5 0 (nsKey ns (KeyIndex ns)) ck None w3) as (err & w4 & H4 & S4) end.
  { intros prev. apply quiet_ret. }
  exists err, w4. split; [exact H4|]. intros shard Hs. unfold shard_ids. do 2 f_equal.
  assert (∀ k k' : string, k ≠ k' → nsKey ns k ≠ nsKey ns k') as Hne
    by (intros k k' Hk Heq%nsKey_inj; done).
  assert (¬ (KeyIndexShard ns shard ∈ [KeyMeta id; KeyState id])) as Hk by not_key.
  pose proof (same_but_trans ns _ _ _ _ _ S2 S3) as S23.
  unfold doc. rewrite S4 by (apply Hne, not_eq_sym, KeyIndex_not_shard; done).
  rewrite S23; [by rewrite V1|].
  intros (x & <-%nsKey_inj & Hin)%list_elem_of_fmap. done.
Qed.

Lemma apiJobs_parts r rest :
  rq_Path r = "/api/jobs/" ++ rest → ∃ l, path_parts r = "api" :: l.
Proof. intros Hp. unfold path_parts. rewrite Hp. simpl. by eexists. Qed.

(** C40: the route /api/jobs/.../finish never completes a job: whatever the request, it
    is answered with an error or a redirect and nothing changes. *)
Theorem api_finish_dead r rest c :
  rq_Path r = "/api/jobs/" ++ rest →
  ∃ resp, serveHTTP getenv ns r c = (Ret resp, c) ∧
    (rs_Code resp = StatusUnauthorized ∨ rs_Code resp = StatusMethodNotAllowed ∨
     rs_Code resp = StatusBadRequest ∨ rs_Code resp = StatusNotFound ∨
     rs_Code resp = StatusMovedPermanently).
Proof.
  intros Hp. destruct (apiJobs_parts r rest Hp) as [l Hl].
  assert (∃ resp, finishHandler getenv ns r c = (Ret resp, c) ∧
    (rs_Code resp = StatusUnauthorized ∨ rs_Code resp = StatusMethodNotAllowed ∨
     rs_Code resp = StatusBadRequest)) as (resp & Hf & Hcode).
  { unfold finishHandler. rewrite Hl.
    destruct (negb (requireAuth getenv r)); [eexists; split; [reflexivity|auto]|].
    destruct (negb (String.eqb (rq_Method r) "POST")); [eexists; split; [reflexivity|auto]|].
    destruct l as [|id [|p2 [|]]]; eexists; (split; [reflexivity|auto]). }
  unfold serveHTTP. destruct (String.eqb_spec (cleanPath (rq_Path r)) (rq_Path r)) as [->|Hne].
  - assert (route getenv ns (rq_Path r) = Some (apiJobsRoute (E := E) (S := PGStore P) getenv ns)) as ->.
    { rewrite Hp. by destruct rest. }
    unfold apiJobsRoute. destruct (HasSuffix _ _).
    + exists resp. split; [done|]. tauto.
    + eexists. split; [reflexivity|]. simpl. tauto.
  - exists moved. rewrite orb_true_r. split; [|simpl; tauto].
    by destruct (route getenv ns (cleanPath (rq_Path r))).
Qed.

End gaps.

(** The index can list a job twice: [addToIndex] looks for the id in the one shard
    it drew, and a second call (a restart restores every queued job) that draws
    another shard adds it again. *)
Theorem index_duplicates :
  ∃ w1 w2, addToIndex "mc" "j1" (NodeW wall0 ∅) = (Ret None, w1) ∧
    addToIndex "mc" "j1" w1 = (Ret None, w2) ∧
    "j1" ∈ shard_ids "mc" 0 w2 ∧ "j1" ∈ shard_ids "mc" 1 w2.
Proof.
  eexists _, _. split; [vm_compute; reflexivity|]. split; [vm_compute; reflexivity|].
  split; vm_compute; by constructor.
Qed.

(** ** Witnesses *)

#[local] Existing Instance demo_p2p.

Definition demo_dirty : control WallEnv (PGStore SimPG) :=
  MkControl (NodeW wall0 ∅) demo_s (mark "j1" NewAnnounceManager).

Lemma demo_manifests_ok : manifests_ok "mc" (ct_node demo_dirty).
Proof.
  intros id. unfold dht_manifest, doc.
  assert (node_view (ct_node demo_dirty) = ∅) as -> by (vm_compute; reflexivity).
  rewrite lookup_empty. apply Forall_nil. done.
Qed.


Definition demo_overdue : control WallEnv (PGStore SimPG) :=
  MkControl (NodeW wall0 ∅) demo_late NewAnnounceManager.

Lemma requeue_tick_recovers_witness :
  ∃ c', requeue_tick "mc" demo_overdue = (Ret tt, c') ∧ requeued "mc" "j1" demo_row c'.
Proof.
  destruct (requeue_tick_recovers "mc" demo_overdue) as (c' & Ht & Hall).
  - intros n. apply sim_up.
  - exact demo_ok.
  - apply (bool_decide_unpack _). vm_compute. exact I.
  - intros id. unfold dht_state, doc.
    assert (node_view (ct_node demo_overdue) = ∅) as -> by (vm_compute; reflexivity).
    rewrite lookup_empty. exact zero_state_ok.
  - exists c'. split; [exact Ht|].
    refine (proj1 (Hall "j1" demo_row "A" (seconds_from 10 15) false _ _) _); vm_compute; reflexivity.
Defined.

Definition demo_finished : control WallEnv (PGStore SimPG) :=
  (finishHandler demo_getenv "mc" (demo_finish "A") demo_dirty).2.

Lemma finished_job_readvertised_witness :
  ∃ c2, process demo_getenv "mc" announce_ttl announce_interval demo_finished = (Ret tt, c2) ∧
    ta_JobID (dht_ad "mc" "j1" (ct_node c2)) = "j1".
Proof.
  assert (0 <= announce_ttl <= 3600 * Second)%Z as Httl by (by vm_compute).
  assert ("j1" ∈ am_dirty (ct_mgr demo_dirty)) as Hin by (apply elem_of_union_l, elem_of_singleton; reflexivity).
  assert (finishHandler demo_getenv "mc" (demo_finish "A") demo_dirty =
    (Ret (MkResponse StatusNoContent "" REmpty), demo_finished)) as Hf by (vm_compute; reflexivity).
  assert (due announce_interval (process_now demo_finished) (ct_mgr demo_finished) "j1" = true) as Hd
    by (vm_compute; reflexivity).
  assert (state_ok (dht_state "mc" "j1" (ct_node demo_dirty))) as Hst by exact (demo_state_ok demo_s).
  destruct (finished_job_readvertised demo_getenv "mc" (demo_finish "A") "j1" "A" 1 demo_finish_in
    announce_ttl announce_interval demo_dirty demo_finished (demo_finish_request "A")
    (sim_up 1 (pg_srv demo_s)) Hst demo_manifests_ok Httl Hin Hf Hd) as [_ (c2 & Hp & Hj)].
  exists c2. split; [exact Hp|exact Hj].
Defined.

Lemma createTask_not_in_shards_witness :
  ∃ err w', createTask "mc" "j1" "alpine" None (NodeW wall0 ∅) = (Ret err, w') ∧
    shard_ids "mc" 0 w' = [].
Proof.
  destruct (createTask_not_in_shards "mc" "j1" "alpine" None (NodeW wall0 ∅))
    as (err & w' & Hc & Hs).
  exists err, w'. split; [exact Hc|].
  rewrite (Hs 0%Z) by (unfold TaskIndexShardCount; lia). vm_compute. reflexivity.
Defined.

Lemma api_finish_dead_witness :
  ∃ resp, serveHTTP demo_getenv "mc"
    (demo_request "POST" "/api/jobs/j1/finish" "1" (JObj [("status", JStr "succeeded")]) "A")
    demo_dirty = (Ret resp, demo_dirty).
Proof.
  destruct (api_finish_dead demo_getenv "mc"
    (demo_request "POST" "/api/jobs/j1/finish" "1" (JObj [("status", JStr "succeeded")]) "A")
    "j1/finish" demo_dirty eq_refl) as (resp & Hs & _).
  exists resp. exact Hs.
Defined.
