(* ===== verification/Routing.v ===== *)
(** * The routes of the API

    For an id that is one plain path element, every documented endpoint reaches its
    handler, with the id the client wrote. *)
From Stdlib Require Import String Ascii.
From S2P Require Import Prelude GoStrings GoTime Json Env TaskTypes Node LeaseTypes.
From S2P Require Import ControlTypes Announce ControlHTTP.

Local Open Scope string_scope.

(** One path element: no slash, not empty, not a dot element. *)
Definition plain_id (id : string) : bool :=
  all_str (λ x, negb (Ascii.eqb x "/")) id &&
  negb (String.eqb id "" || String.eqb id "." || String.eqb id "..").

Lemma trim_right_app p s t :
  all_str p t = false → trim_right p (s ++ t) = s ++ trim_right p t.
Proof.
  intros Ht. induction s as [|c s IH]; [done|]. simpl. rewrite <- IH.
  assert (all_str p (s ++ t) = false) as ->.
  { clear IH. induction s as [|d s IH]; simpl; [done|]. by rewrite IH, andb_false_r. }
  by rewrite andb_false_r.
Qed.

Lemma all_str_app p s t : all_str p (s ++ t) = all_str p s && all_str p t.
Proof. induction s as [|c s IH]; simpl; [done|]. by rewrite IH, andb_assoc. Qed.

(** A path of plain elements. *)
Definition path_of (l : list string) : string := foldr (λ e s, "/" ++ e ++ s) "" l.

Lemma Split_path l :
  Forall (λ e, plain_id e = true) l →
  Split (path_of l) "/" = match l with [] => [""] | _ => "" :: l end.
Proof.
  induction 1 as [|e l He Hl IH]; [done|]. simpl. f_equal.
  apply andb_true_iff in He as [He _].
  destruct l as [|e' l]; simpl path_of in *.
  - rewrite append_nil_r. by apply Split_single.
  - change ("/" ++ e' ++ path_of l) with (String "/" (e' ++ path_of l)).
    rewrite Split_app by done. simpl in IH. injection IH as IH. by rewrite IH.
Qed.

Lemma clean_plain l acc :
  Forall (λ e, plain_id e = true) l → clean_elems l acc = (rev l ++ acc)%list.
Proof.
  intros Hl. revert acc. induction Hl as [|e l He Hl IH]; intros acc; [done|].
  simpl. apply andb_true_iff in He as [_ He]. apply negb_true_iff, orb_false_iff in He as [He ->].
  rewrite He, IH, <- app_assoc. done.
Qed.

Lemma cleanPath_plain l :
  l ≠ [] → Forall (λ e, plain_id e = true) l → HasSuffix (path_of l) "/" = false →
  cleanPath (path_of l) = path_of l.
Proof.
  intros Hne Hl Hs. unfold cleanPath.
  assert (∃ s, path_of l = String "/" s) as [s Hp] by (destruct l; [done|by eexists]).
  assert (match path_of l with
          | EmptyString => "/"
          | String c _ => if Ascii.eqb c "/" then path_of l else "/" ++ path_of l
          end = path_of l) as -> by by rewrite Hp.
  cbv zeta.
  assert (Split (path_of l) "/" = "" :: l) as Hsp by (rewrite Split_path by done; by destruct l).
  rewrite Hsp. cbn [clean_elems String.eqb orb]. rewrite clean_plain by done.
  rewrite app_nil_r, rev_involutive. change (join_path l) with (path_of l).
  rewrite Hs. by rewrite Hp.
Qed.

(** A path that ends in a plain element does not end in a slash, and its elements are
    the parts the handlers see. *)
Lemma path_last l e :
  ∃ s, path_of (l ++ [e])%list = s ++ e.
Proof.
  induction l as [|x l [s IH]]; simpl.
  - exists "/". by rewrite append_nil_r.
  - exists ("/" ++ x ++ s). rewrite IH. simpl. by rewrite append_assoc.
Qed.

Lemma plain_last_char e : plain_id e = true → ∃ s c, e = s ++ String c "" ∧ c ≠ "/"%char.
Proof.
  intros [Ha Hb]%andb_true_iff.
  assert (e ≠ "") as Hne by (by intros ->).
  clear Hb. induction e as [|c e IH]; [done|]. simpl in Ha. apply andb_true_iff in Ha as [Hc Ha].
  destruct (decide (e = "")) as [->|He].
  - exists "", c. split; [done|]. intros ->. done.
  - destruct (IH Ha He) as (s & d & -> & Hd). by exists (String c s), d.
Qed.

Lemma suffix_last_char s c suf d :
  HasSuffix (s ++ String c "") (suf ++ String d "") = true → c = d.
Proof.
  intros (t & Ht)%HasSuffix_spec. rewrite <- append_assoc in Ht.
  apply append_suffix_eq in Ht; [by injection Ht|done].
Qed.

Lemma path_no_slash l e : plain_id e = true → HasSuffix (path_of (l ++ [e])%list) "/" = false.
Proof.
  intros He. destruct (path_last l e) as [s ->].
  destruct (plain_last_char e He) as (t & c & -> & Hc).
  apply not_true_is_false. rewrite <- append_assoc. intros H%(suffix_last_char _ _ "" "/"). done.
Qed.

(** What [strings.Trim] leaves of a path: everything but the first slash. *)
Lemma trim_path l e :
  Forall (λ e, plain_id e = true) (l ++ [e])%list →
  ∃ t, path_of (l ++ [e])%list = String "/" t ∧ trim_left (Ascii.eqb "/") t = t ∧
    trim_right (Ascii.eqb "/") t = t.
Proof.
  intros Hl. destruct (path_last l e) as [s Hs].
  assert (plain_id e = true) as He by (rewrite Forall_app, Forall_singleton in Hl; by destruct Hl).
  destruct (plain_last_char e He) as (t' & c & Het & Hc).
  destruct (l ++ [e])%list as [|x l'] eqn:Hle; [by destruct l|].
  apply Forall_cons in Hl as [Hx _]. apply andb_true_iff in Hx as [Hx1 Hx2].
  exists (x ++ path_of l'). split_and!; [done| |].
  - destruct x as [|d x]; [done|]. cbn [String.append trim_left all_str] in *.
    apply andb_true_iff in Hx1 as [Hd _]. rewrite Ascii.eqb_sym. by destruct (Ascii.eqb d "/").
  - simpl in Hs. rewrite Het, <- append_assoc in Hs.
    destruct (s ++ t') as [|d u]; simpl in Hs.
    + injection Hs as Hd _. by subst.
    + injection Hs as _ ->. assert (all_str (Ascii.eqb "/") (String c "") = false) as Hf.
      { cbn [all_str]. destruct (Ascii.eqb_spec "/" c); [by subst|done]. }
      rewrite trim_right_app by done. cbn [trim_right]. by rewrite Hf.
Qed.

Lemma path_parts_plain r l e :
  rq_Path r = path_of (l ++ [e])%list → Forall (λ e, plain_id e = true) (l ++ [e])%list →
  path_parts r = (l ++ [e])%list.
Proof.
  intros Hp Hl. unfold path_parts. rewrite Hp. unfold Trim.
  pose proof (Split_path _ Hl) as Hs. destruct (trim_path l e Hl) as (t & Ht & H1 & H2).
  rewrite Ht. cbn [trim_left]. rewrite Ascii.eqb_refl, H1, H2.
  rewrite Ht in Hs. cbn [Split] in Hs. rewrite Ascii.eqb_refl in Hs.
  destruct (l ++ [e])%list eqn:Hle; [by destruct l|]. injection Hs as Hs. done.
Qed.

Section routes.
Context {E S : Type} `{!Env E, !Store S, !P2P} (getenv : string → string) (ns : string).
Implicit Types (r : request).

Local Abbreviation serve := (serveHTTP (E := E) (S := S) getenv ns).

(** A request for a clean path goes to the handler of its pattern. *)
Lemma serve_plain r l e (h : request → M (control E S) response) :
  rq_Path r = path_of (l ++ [e])%list → Forall (λ e, plain_id e = true) (l ++ [e])%list →
  route getenv ns (rq_Path r) = Some h → serve r = h r.
Proof.
  intros Hp Hl Hr. unfold serveHTTP.
  assert (cleanPath (rq_Path r) = rq_Path r) as ->.
  { rewrite Hp. apply cleanPath_plain; [by destruct l|done|].
    apply path_no_slash. rewrite Forall_app, Forall_singleton in Hl. by destruct Hl. }
  by rewrite Hr, String.eqb_refl.
Qed.

Lemma tasks_route id op :
  plain_id id = true →
  route (E := E) (S := S) getenv ns ("/api/tasks/" ++ id ++ "/" ++ op) = Some (tasksRoute getenv ns).
Proof. intros Hid. destruct id as [|c id]; [done|]. reflexivity. Qed.

Lemma jobs_route id op :
  plain_id id = true →
  route (E := E) (S := S) getenv ns ("/jobs/" ++ id ++ "/" ++ op) = Some (jobsRoute getenv ns).
Proof. intros Hid. destruct id as [|c id]; [done|]. reflexivity. Qed.

Lemma plain_op id op : plain_id id = true → plain_id op = true →
  Forall (λ e, plain_id e = true) (["api"; "tasks"; id] ++ [op])%list ∧
  Forall (λ e, plain_id e = true) (["jobs"; id] ++ [op])%list.
Proof. intros. split; by repeat constructor. Qed.

Lemma other_suffix a id b c suf d :
  c ≠ d → HasSuffix (a ++ id ++ (b ++ String c "")) (suf ++ String d "") = false.
Proof.
  intros Hne. apply not_true_is_false. rewrite <- !append_assoc.
  by intros Hs%suffix_last_char.
Qed.
Lemma own_suffix a id suf : HasSuffix (a ++ id ++ suf) suf = true.
Proof. apply HasSuffix_spec. exists (a ++ id). by rewrite append_assoc. Qed.

(** A POST to an operation of a task. *)
Definition task_post r (id op : string) : Prop :=
  rq_Method r = "POST" ∧ rq_Path r = "/api/tasks/" ++ id ++ "/" ++ op.
Definition job_post r (id op : string) : Prop :=
  rq_Method r = "POST" ∧ rq_Path r = "/jobs/" ++ id ++ "/" ++ op.

Lemma serve_task_post r id op :
  plain_id id = true → plain_id op = true → task_post r id op →
  serve r = tasksRoute getenv ns r ∧ path_parts r = ["api"; "tasks"; id; op].
Proof.
  intros Hid Hop [_ Hp]. destruct (plain_op id op Hid Hop) as [Hf _].
  assert (rq_Path r = path_of (["api"; "tasks"; id] ++ [op])%list) as Hpo
    by (rewrite Hp; simpl; by rewrite append_nil_r).
  split; [|exact (path_parts_plain _ _ _ Hpo Hf)].
  eapply serve_plain; [exact Hpo|exact Hf|]. rewrite Hp. by apply tasks_route.
Qed.

Lemma serve_job_post r id op :
  plain_id id = true → plain_id op = true → job_post r id op →
  serve r = jobsRoute getenv ns r ∧ path_parts r = ["jobs"; id; op].
Proof.
  intros Hid Hop [_ Hp]. destruct (plain_op id op Hid Hop) as [_ Hf].
  assert (rq_Path r = path_of (["jobs"; id] ++ [op])%list) as Hpo
    by (rewrite Hp; simpl; by rewrite append_nil_r).
  split; [|exact (path_parts_plain _ _ _ Hpo Hf)].
  eapply serve_plain; [exact Hpo|exact Hf|]. rewrite Hp. by apply jobs_route.
Qed.

Lemma serve_claim r id :
  plain_id id = true → task_post r id "try-claim" →
  serve r = tryClaimHandler getenv ns r ∧ path_parts r = ["api"; "tasks"; id; "try-claim"].
Proof.
  intros Hid Hr. destruct (serve_task_post r id "try-claim" Hid eq_refl Hr) as [-> ->].
  destruct Hr as [Hm Hp]. change (rq_Path r = "/api/tasks/" ++ id ++ "/try-claim") in Hp.
  split; [|done]. unfold tasksRoute. rewrite Hm, Hp, String.eqb_refl.
  by rewrite (own_suffix "/api/tasks/" id "/try-claim").
Qed.
Lemma serve_heartbeat r id :
  plain_id id = true → task_post r id "heartbeat" →
  serve r = heartbeatHandler getenv ns r ∧ path_parts r = ["api"; "tasks"; id; "heartbeat"].
Proof.
  intros Hid Hr. destruct (serve_task_post r id "heartbeat" Hid eq_refl Hr) as [-> ->].
  destruct Hr as [Hm Hp]. change (rq_Path r = "/api/tasks/" ++ id ++ "/heartbeat") in Hp.
  split; [|done]. unfold tasksRoute. rewrite Hm, Hp, String.eqb_refl.
  rewrite (other_suffix "/api/tasks/" id "/heartbea" "t" "/try-clai" "m" ltac:(done)
    : HasSuffix ("/api/tasks/" ++ id ++ "/heartbeat") "/try-claim" = false).
  by rewrite (own_suffix "/api/tasks/" id "/heartbeat").
Qed.
Lemma serve_release r id :
  plain_id id = true → task_post r id "release" →
  serve r = releaseHandler getenv ns r ∧ path_parts r = ["api"; "tasks"; id; "release"].
Proof.
  intros Hid Hr. destruct (serve_task_post r id "release" Hid eq_refl Hr) as [-> ->].
  destruct Hr as [Hm Hp]. change (rq_Path r = "/api/tasks/" ++ id ++ "/release") in Hp.
  split; [|done]. unfold tasksRoute. rewrite Hm, Hp, String.eqb_refl.
  rewrite (other_suffix "/api/tasks/" id "/releas" "e" "/try-clai" "m" ltac:(done)
    : HasSuffix ("/api/tasks/" ++ id ++ "/release") "/try-claim" = false).
  rewrite (other_suffix "/api/tasks/" id "/releas" "e" "/heartbea" "t" ltac:(done)
    : HasSuffix ("/api/tasks/" ++ id ++ "/release") "/heartbeat" = false).
  by rewrite (own_suffix "/api/tasks/" id "/release").
Qed.
Lemma serve_finish r id :
  plain_id id = true → job_post r id "finish" →
  serve r = finishHandler getenv ns r ∧ path_parts r = ["jobs"; id; "finish"].
Proof.
  intros Hid Hr. destruct (serve_job_post r id "finish" Hid eq_refl Hr) as [-> ->].
  destruct Hr as [Hm Hp]. change (rq_Path r = "/jobs/" ++ id ++ "/finish") in Hp.
  split; [|done]. unfold jobsRoute. rewrite Hp.
  rewrite (other_suffix "/jobs/" id "/finis" "h" "/manifes" "t" ltac:(done)
    : HasSuffix ("/jobs/" ++ id ++ "/finish") "/manifest" = false).
  by rewrite (own_suffix "/jobs/" id "/finish").
Qed.
Lemma serve_manifest r id :
  plain_id id = true → job_post r id "manifest" →
  serve r = manifestHandler getenv ns r ∧ path_parts r = ["jobs"; id; "manifest"].
Proof.
  intros Hid Hr. destruct (serve_job_post r id "manifest" Hid eq_refl Hr) as [-> ->].
  destruct Hr as [Hm Hp]. change (rq_Path r = "/jobs/" ++ id ++ "/manifest") in Hp.
  split; [|done]. unfold jobsRoute. rewrite Hp.
  by rewrite (own_suffix "/jobs/" id "/manifest").
Qed.

(** C29: the five endpoints of a job's life cycle are reachable: for an id that is one
    plain path element, the router hands the request to the handler of the operation,
    and the handler sees that id. *)
Theorem lifecycle_routes id :
  plain_id id = true →
  (∀ r, task_post r id "try-claim" →
     serve r = tryClaimHandler getenv ns r ∧ path_parts r = ["api"; "tasks"; id; "try-claim"]) ∧
  (∀ r, task_post r id "heartbeat" →
     serve r = heartbeatHandler getenv ns r ∧ path_parts r = ["api"; "tasks"; id; "heartbeat"]) ∧
  (∀ r, task_post r id "release" →
     serve r = releaseHandler getenv ns r ∧ path_parts r = ["api"; "tasks"; id; "release"]) ∧
  (∀ r, job_post r id "manifest" →
     serve r = manifestHandler getenv ns r ∧ path_parts r = ["jobs"; id; "manifest"]) ∧
  (∀ r, job_post r id "finish" →
     serve r = finishHandler getenv ns r ∧ path_parts r = ["jobs"; id; "finish"]).
Proof.
  intros Hid. split_and!; intros r Hr;
    [by apply serve_claim|by apply serve_heartbeat|by apply serve_release
    |by apply serve_manifest|by apply serve_finish].
Qed.

End routes.
