(* ===== verification/Agent.v ===== *)
(** * [pkg/agent]: the agent's view of the system

    The advertisements the agent reads, its clients of the control API, the wait for a
    manifest and the discovery of jobs.  The HTTP transport is a parameter (the class
    [HTTPNet]); [AgentTheorems] also connects it to the handlers of the control
    server.  A request takes no time on the agent's clock.  Contexts that the program
    never cancels are left out. *)
From Stdlib Require Import String Ascii.
From S2P Require Import Prelude GoStrings GoTime Json Env TaskTypes Node ControlTypes.

Local Open Scope string_scope.

(** ** [ads.go] *)

(** [TaskAd]: the agent's form of the advertisement *)
Record TaskAd := MkTaskAd {
  ad_JobID : string;
  ad_Namespace : string;
  ad_DemandURL : string;
  ad_Topic : string;
  ad_Exp : Z;
  ad_Sig : string
}.
Definition zero_TaskAd : TaskAd :=
  MkTaskAd "" "" "" "" 0%Z "".
Definition fields_TaskAd : list (field TaskAd) := [
  Field "job_id" never c_string ad_JobID
    (λ a '(MkTaskAd _ x1 x2 x3 x4 x5), MkTaskAd a x1 x2 x3 x4 x5);
  Field "ns" empty_string c_string ad_Namespace
    (λ a '(MkTaskAd x0 _ x2 x3 x4 x5), MkTaskAd x0 a x2 x3 x4 x5);
  Field "demand_url" empty_string c_string ad_DemandURL
    (λ a '(MkTaskAd x0 x1 _ x3 x4 x5), MkTaskAd x0 x1 a x3 x4 x5);
  Field "topic" empty_string c_string ad_Topic
    (λ a '(MkTaskAd x0 x1 x2 _ x4 x5), MkTaskAd x0 x1 x2 a x4 x5);
  Field "exp" never c_time ad_Exp
    (λ a '(MkTaskAd x0 x1 x2 x3 _ x5), MkTaskAd x0 x1 x2 x3 a x5);
  Field "sig" empty_string c_string ad_Sig
    (λ a '(MkTaskAd x0 x1 x2 x3 x4 _), MkTaskAd x0 x1 x2 x3 x4 a)
].
Definition c_TaskAd : codec TaskAd := c_struct fields_TaskAd zero_TaskAd.

(** [ManifestAd]: the agent's form of the manifest mirror *)
Record ManifestAd := MkManifestAd {
  md_RootCID : string;
  md_Providers : slice Provider;
  md_Rendezvous : string;
  md_Transports : slice string;
  md_Exp : Z
}.
Definition zero_ManifestAd : ManifestAd :=
  MkManifestAd "" None "" None 0%Z.
Definition fields_ManifestAd : list (field ManifestAd) := [
  Field "root_cid" never c_string md_RootCID
    (λ a '(MkManifestAd _ x1 x2 x3 x4), MkManifestAd a x1 x2 x3 x4);
  Field "providers" never (c_slice c_Provider) md_Providers
    (λ a '(MkManifestAd x0 _ x2 x3 x4), MkManifestAd x0 a x2 x3 x4);
  Field "rendezvous" empty_string c_string md_Rendezvous
    (λ a '(MkManifestAd x0 x1 _ x3 x4), MkManifestAd x0 x1 a x3 x4);
  Field "transports" empty_slice (c_slice c_string) md_Transports
    (λ a '(MkManifestAd x0 x1 x2 _ x4), MkManifestAd x0 x1 x2 a x4);
  Field "exp" never c_time md_Exp
    (λ a '(MkManifestAd x0 x1 x2 x3 _), MkManifestAd x0 x1 x2 x3 a)
].
Definition c_ManifestAd : codec ManifestAd := c_struct fields_ManifestAd zero_ManifestAd.

(** The answer of [TryClaim] and [Heartbeat] *)
Record claimOut := MkclaimOut {
  co_OK : bool;
  co_Lease : Lease
}.
Definition zero_claimOut : claimOut :=
  MkclaimOut false zero_Lease.
Definition fields_claimOut : list (field claimOut) := [
  Field "ok" never c_bool co_OK
    (λ a '(MkclaimOut _ x1), MkclaimOut a x1);
  Field "lease" never c_Lease co_Lease
    (λ a '(MkclaimOut x0 _), MkclaimOut x0 a)
].
Definition c_claimOut : codec claimOut := c_struct fields_claimOut zero_claimOut.

(** The answer of [Release] *)
Record releaseOut := MkreleaseOut {
  ro_OK : bool
}.
Definition zero_releaseOut : releaseOut :=
  MkreleaseOut false.
Definition fields_releaseOut : list (field releaseOut) := [
  Field "ok" never c_bool ro_OK
    (λ a '(MkreleaseOut _), MkreleaseOut a)
].
Definition c_releaseOut : codec releaseOut := c_struct fields_releaseOut zero_releaseOut.

(** What [WaitForManifest] reads of a task *)
Record taskOut := MktaskOut {
  to_Manifest : option Manifest
}.
Definition zero_taskOut : taskOut :=
  MktaskOut None.
Definition fields_taskOut : list (field taskOut) := [
  Field "manifest" never (c_ptr c_Manifest) to_Manifest
    (λ a '(MktaskOut _), MktaskOut a)
].
Definition c_taskOut : codec taskOut := c_struct fields_taskOut zero_taskOut.

Definition KeyTaskAd (ns id : string) : string := "ad/" ++ ns ++ "/task/" ++ id.
Definition KeyP2PManifestMirror (id : string) : string := "p2p/" ++ id ++ "/manifest".

(** ** The transport *)

(** The error of [url.Parse], with which [http.NewRequest] fails and returns a nil
    request; and [http.Client.Do] with its timeout, the base URL and the request. *)
Class HTTPNet (C : Type) := {
  url_Parse : string → option goerror;
  http_Do : Z → string → request → C → result response * C
}.

(** The state of the agent: its DHT node, the rest of the network, and [seen] of the
    discoverer. *)
Record agentw (E C : Type) := MkAgent {
  aw_node : nodew E;
  aw_net : C;
  aw_seen : gmap string Z
}.
Arguments MkAgent {E C}.
Arguments aw_node {E C}.
Arguments aw_net {E C}.
Arguments aw_seen {E C}.

Definition atNode {E C A} (m : M (nodew E) A) : M (agentw E C) A := λ w,
  let (r, n) := m (aw_node w) in (r, MkAgent n (aw_net w) (aw_seen w)).
Definition mark_seen {E C} (id : string) (t : Z) : M (agentw E C) unit := λ w,
  (Ret tt, MkAgent (aw_node w) (aw_net w) (<[id := t]> (aw_seen w))).

(** The body of a response as a reader gets it. *)
Definition body_bytes (b : rbody) : bytes :=
  match b with REmpty => BRaw "" | RText s => BRaw s | RJson j => BJson j end.

(** The headers both clients set. *)
Definition client_headers (token : string) : gmap string string :=
  let h := {["Content-Type" := "application/json"]} in
  if negb (String.eqb token "") then <["Authorization" := "Bearer " ++ token]> h else h.

(** [res.Status], the code alone: its reason phrase is not used. *)
Definition Status_line (code : Z) : string := Itoa code.

(** ** [filterProviders] *)
Definition good_provider (p : Provider) : bool :=
  negb (String.eqb (pv_PeerID p) "" || empty_slice (pv_Addrs p)) &&
  negb (existsb (λ a, HasPrefix a "http://" || HasPrefix a "https://") (elems (pv_Addrs p))).
Definition filterProviders (ps : slice Provider) : list Provider :=
  List.filter good_provider (elems ps).

(** ** [ShouldRetryFinish] *)
Definition ShouldRetryFinish (err : option goerror) : bool :=
  match err with
  | None => false
  | Some e =>
      let msg := Error e in
      Contains msg "connection refused" || Contains msg "timeout" || Contains msg "server error"
  end.

Section agent.
Context {E C : Type} `{!Env E, !HTTPNet C}.

Local Abbreviation N := (M (nodew E)).
Local Abbreviation A := (M (agentw E C)).

Definition Do (timeout : Z) (base : string) (r : request) : A (result response) := λ w,
  let (res, n) := http_Do timeout base r (aw_net w) in
  (Ret res, MkAgent (aw_node w) n (aw_seen w)).

(** The clients [main] makes have a timeout of five seconds; a context may shorten it. *)
Definition client_timeout : Z := 5 * Second.
Definition within (ctx : option Z) : Z :=
  match ctx with Some d => Z.min d client_timeout | None => client_timeout end.

(** Setting a header of the nil request. *)
Definition nil_request {T} : A T := panic "invalid memory address or nil pointer dereference".

(** ** [claim.go] *)

(** [HTTPClaimClient.post]: the value decoded into [out], or the error.  The error of
    [http.NewRequest] is ignored. *)
Definition claim_post {T} (ctx : option Z) (token base path : string) (inb : json) (c : codec T)
    : A (result T) :=
  match url_Parse (base ++ path) with
  | Some _ => nil_request
  | None =>
      res ← Do (within ctx) base (MkRequest "POST" path (client_headers token) ∅ (BJson inb));
      match res with
      | Err e => mret (Err e)
      | Ok resp =>
          if negb (rs_Code resp / 100 =? 2)%Z then
            mret (Err (ErrMsg ("http " ++ path ++ ": " ++ Status_line (rs_Code resp))))
          else
            match Decode c (body_bytes (rs_Body resp)) (czero c) with
            | (_, Some e) => mret (Err e)
            | (out, None) => mret (Ok out)
            end
      end
  end.

Definition TryClaim (ctx : option Z) (token base taskID agentID : string) (ttl : Z) : A (result Lease) :=
  let inb := JObj [("agent_id", JStr agentID); ("ttl_sec", JNum (int_Seconds ttl))] in
  res ← claim_post ctx token base ("/api/tasks/" ++ taskID ++ "/try-claim") inb c_claimOut;
  match res with
  | Err e => mret (Err e)
  | Ok out => if negb (co_OK out) then mret (Err (ErrMsg "claim not ok")) else mret (Ok (co_Lease out))
  end.

Definition Heartbeat (ctx : option Z) (token base taskID agentID nonce : string) (ttl leaseVersion : Z)
    : A (result Lease) :=
  let inb := JObj [("agent_id", JStr agentID); ("lease_version", JNum leaseVersion);
                   ("nonce", JStr nonce); ("ttl_sec", JNum (int_Seconds ttl))] in
  res ← claim_post ctx token base ("/api/tasks/" ++ taskID ++ "/heartbeat") inb c_claimOut;
  match res with
  | Err e => mret (Err e)
  | Ok out => if negb (co_OK out) then mret (Err (ErrMsg "heartbeat not ok")) else mret (Ok (co_Lease out))
  end.

Definition Release (ctx : option Z) (token base taskID agentID nonce : string) : A (option goerror) :=
  let inb := JObj [("agent_id", JStr agentID); ("nonce", JStr nonce)] in
  res ← claim_post ctx token base ("/api/tasks/" ++ taskID ++ "/release") inb c_releaseOut;
  match res with
  | Err e => mret (Some e)
  | Ok out => if negb (ro_OK out) then mret (Some (ErrMsg "release not ok")) else mret None
  end.

(** ** [finish_client.go] *)

Definition finish_headers (token agentID : string) (leaseToken : Z) : gmap string string :=
  let h := client_headers token in
  let h := if negb (String.eqb agentID "") then <["X-Agent-ID" := agentID]> h else h in
  if (0 <? leaseToken)%Z then <["X-Lease-Token" := Itoa leaseToken]> h else h.

(** [FinishClient.post]. *)
Definition finish_post (token base path : string) (inb : json) (agentID : string) (leaseToken : Z)
    : A (option goerror) :=
  match url_Parse (base ++ path) with
  | Some _ => nil_request
  | None =>
      res ← Do client_timeout base
        (MkRequest "POST" path (finish_headers token agentID leaseToken) ∅ (BJson inb));
      match res with
      | Err e => mret (Some (ErrMsg ("finish http request failed: " ++ Error e)))
      | Ok resp =>
          if (500 <=? rs_Code resp)%Z then
            mret (Some (ErrMsg ("finish http server error: " ++ Itoa (rs_Code resp))))
          else if (400 <=? rs_Code resp)%Z then
            mret (Some (ErrMsg ("finish http client error: " ++ Itoa (rs_Code resp))))
          else mret None
      end
  end.

Definition Report (token base jobID status : string) (metrics : list (string * json))
    (resultCID : string) (artifacts : slice string) (errMsg agentID : string) (leaseToken : Z)
    : A (option goerror) :=
  let arts := default JNull (enc (c_slice c_string) artifacts) in
  let body := JObj (("artifacts", arts) ::
    (if negb (String.eqb errMsg "") then [("error", JStr errMsg)] else []) ++
    [("metrics", JObj metrics); ("result_root_cid", JStr resultCID); ("status", JStr status)])%list in
  finish_post token base ("/jobs/" ++ jobID ++ "/finish") body agentID leaseToken.

(** ** [wait_manifest.go] *)

Definition poll_interval : Z := 500 * Millisecond.

Definition manifest_ready (man : option Manifest) : option Manifest :=
  match man with
  | Some m =>
      if negb (String.eqb (mf_RootCID m) "") && negb (empty_slice (mf_Providers m)) then Some m else None
  | None => None
  end.

(** One poll: the manifest when it is ready. *)
Definition poll_manifest (baseURL token taskID : string) : A (option Manifest) :=
  let h := if negb (String.eqb token "") then {["Authorization" := "Bearer " ++ token]} else ∅ in
  res ← Do (3 * Second) baseURL (MkRequest "GET" ("/api/tasks/" ++ taskID) h ∅ (BRaw ""));
  match res with
  | Ok resp =>
      if (rs_Code resp =? 200)%Z then
        match Decode c_taskOut (body_bytes (rs_Body resp)) zero_taskOut with
        | (out, None) => mret (manifest_ready (to_Manifest out))
        | (_, Some _) => mret None
        end
      else mret None
  | Err _ => mret None
  end.

(** The loop, for at most [n] polls: [None] when they were not enough. *)
Fixpoint wait_loop (n : nat) (baseURL token taskID : string) (deadline : Z)
    : A (option (result Manifest)) :=
  match n with
  | O => mret None
  | S n' =>
      match url_Parse (baseURL ++ "/api/tasks/" ++ taskID) with
      | Some e => mret (Some (Err e))
      | None =>
          man ← poll_manifest baseURL token taskID;
          match man with
          | Some m => mret (Some (Ok m))
          | None =>
              now ← atNode Now;
              if After now deadline then mret (Some (Err (ErrMsg "manifest not ready")))
              else
                atNode (Sleep poll_interval);;
                wait_loop n' baseURL token taskID deadline
          end
      end
  end.

(** As many polls as fit into [maxWait], and two more. *)
Definition wait_fuel (maxWait : Z) : nat := Z.to_nat (maxWait / poll_interval) + 3.

Definition WaitForManifest (baseURL token taskID : string) (maxWait : Z)
    : A (option (result Manifest)) :=
  now ← atNode Now;
  wait_loop (wait_fuel maxWait) baseURL token taskID (Add now maxWait).

(** ** [discover.go] *)

Fixpoint list_shards (ns : string) (shards : list Z) : N (list string) :=
  match shards with
  | [] => mret []
  | shard :: shards' =>
      '(idx, err) ← GetJSON c_TaskIndex ns (KeyIndexShard ns shard) zero_TaskIndex (3 * Second)%Z;
      ids ← list_shards ns shards';
      mret (match err with Some _ => ids | None => elems (ix_IDs idx) ++ ids end)%list
  end.
Definition ListFromIndex (ns : string) : N (list string) := list_shards ns (range TaskIndexShardCount).

Definition readTaskAd (ns id : string) : N (result TaskAd) :=
  '(ad, err) ← GetJSON c_TaskAd ns (KeyTaskAd ns id) zero_TaskAd (2 * Second)%Z;
  match err with
  | Some e => mret (Err e)
  | None =>
      now ← Now;
      if Before (ad_Exp ad) now then mret (Err DeadlineExceeded) else mret (Ok ad)
  end.

Definition readManifestMirror (ns id : string) : N (result ManifestAd) :=
  '(m, err) ← GetJSON c_ManifestAd ns (KeyP2PManifestMirror id) zero_ManifestAd (2 * Second)%Z;
  match err with
  | Some e => mret (Err e)
  | None =>
      now ← Now;
      if Before (md_Exp m) now then mret (Err DeadlineExceeded) else mret (Ok m)
  end.

(** [handleJob], with [onCandidate] as an argument. *)
Definition handleJob (ns id : string) (onCandidate : string → list Provider → string → A unit) : A unit :=
  if String.eqb id "" then mret tt
  else
    '(st, err) ← atNode (GetJSON c_TaskState ns (KeyState id) zero_TaskState (1 * Second)%Z);
    if match err with None => negb (String.eqb (ts_Status st) StatusQueued) | Some _ => false end
    then mret tt
    else
      seen ← gets (λ w, aw_seen w !! id);
      recent ← (match seen with
                | Some t => now ← atNode Now; mret (Sub now t <? 500 * Millisecond)%Z
                | None => mret false
                end);
      if (recent : bool) then mret tt
      else
        ad ← atNode (readTaskAd ns id);
        match ad with
        | Err _ => mret tt
        | Ok ad =>
            m ← atNode (readManifestMirror ns id);
            match m with
            | Err _ => mret tt
            | Ok m =>
                onCandidate id (filterProviders (md_Providers m)) (ad_DemandURL ad);;
                now ← atNode Now;
                mark_seen id now
            end
        end.

(** A tick of [Discoverer.Run]. *)
Definition discover_tick (ns : string) (onCandidate : string → list Provider → string → A unit) : A unit :=
  ids ← atNode (ListFromIndex ns);
  for_each ids (λ id, handleJob ns id onCandidate).

End agent.
