(* ===== verification/AgentRun.v ===== *)
(** * Running a job: inputs, container, reports

    [pkg/agent/fetch.go], [pkg/agent/runner.go], the candidate handler and the
    heartbeat loop of [cmd/agent/main.go], and the seeder
    ([pkg/seeder/seed_handler.go], [pkg/p2p/protocol.go]).  Streams, the file system
    and docker are parameters (the class [Machine]). *)
From Stdlib Require Import String Ascii.
From S2P Require Import Prelude GoStrings GoTime Json Env TaskTypes Node ControlTypes Agent.

Local Open Scope string_scope.

(** ** Paths *)

(** [path.Clean]: the elements that remain, last first. *)
Fixpoint clean_path (rooted : bool) (parts acc : list string) : list string :=
  match parts with
  | [] => acc
  | p :: parts' =>
      if String.eqb p "" || String.eqb p "." then clean_path rooted parts' acc
      else if String.eqb p ".." then
        match acc with
        | top :: acc' =>
            if String.eqb top ".." then clean_path rooted parts' (".." :: acc)
            else clean_path rooted parts' acc'
        | [] => clean_path rooted parts' (if rooted then [] else [".."])
        end
      else clean_path rooted parts' (p :: acc)
  end.
Fixpoint join_with (sep : string) (l : list string) : string :=
  match l with
  | [] => ""
  | [x] => x
  | x :: l' => x ++ sep ++ join_with sep l'
  end.
Definition Clean (p : string) : string :=
  let rooted := HasPrefix p "/" in
  let s := join_with "/" (rev (clean_path rooted (Split p "/"%char) [])) in
  if rooted then "/" ++ s else if String.eqb s "" then "." else s.
(** [filepath.Join] of two elements. *)
Definition Join (a b : string) : string :=
  if String.eqb a "" then (if String.eqb b "" then "" else Clean b)
  else if String.eqb b "" then Clean a else Clean (a ++ "/" ++ b).

(** ** The seeder *)

Definition ProtoGet : string := "/mc-get/1.0.0".

(** [SourceFS.Open]: the content of the file, and its size. *)
Definition SourceFS_Open (files : gmap string string) (base cid : string) : result (string * Z) :=
  match files !! Join base cid with
  | Some content => Ok (content, Z.of_nat (String.length content))
  | None => Err (ErrMsg "no such file or directory")
  end.

Record getRequest := MkgetRequest { gr_RootCID : string }.
Definition fields_getRequest : list (field getRequest) := [
  Field "root_cid" never c_string gr_RootCID (λ a '(MkgetRequest _), MkgetRequest a)
].
Definition c_getRequest : codec getRequest := c_struct fields_getRequest (MkgetRequest "").

(** The stream handler of [MountSeedHandler]: what it writes before it closes the
    stream. *)
Definition seed_handler (open : string → result (string * Z)) (request : bytes) : string :=
  match Decode c_getRequest request (MkgetRequest "") with
  | (_, Some _) => ""
  | (req, None) =>
      if String.eqb (gr_RootCID req) "" then ""
      else match open (gr_RootCID req) with
           | Err _ => ""
           | Ok (content, _) => content
           end
  end.

(** ** The machine *)

Inductive fnode :=
  | File (content : string)
  | Link (target : string).

Inductive run_error :=
  | RunOk
  | ExitErr (code : Z)
  | StartErr.

Record docker_result := MkDocker {
  dk_err : run_error;
  dk_stdout : string;
  dk_stderr : string
}.

Class Machine (C : Type) := {
  (** [Host.Connect] *)
  m_Connect : string → C → option goerror * C;
  (** [Host.NewStream] to a peer for a protocol *)
  m_NewStream : string → string → C → option goerror * C;
  (** the request written to the stream *)
  m_send : string → bytes → C → option goerror * C;
  (** [io.Copy] of the reply to the request into the file: the bytes copied and the error *)
  m_recv : string → bytes → C → (string * option goerror) * C;
  (** [peer.AddrInfoFromP2pAddr] *)
  m_AddrInfo : string → string → option goerror;
  (** the file system, and whether an operation on a path fails *)
  m_fs : C → gmap string fnode;
  m_set_fs : gmap string fnode → C → C;
  m_os : string → string → C → option goerror * C;
  (** [exec.LookPath("docker")], [filepath.Abs] and [docker run] *)
  m_LookPath : C → option goerror;
  m_Abs : string → C → result string;
  m_docker : list string → C → docker_result * C
}.

Record FetchResult := MkFetch { ft_LocalPath : string; ft_Bytes : Z }.
Record RunResult := MkRun { rr_ExitCode : Z; rr_Stdout : string; rr_Stderr : string; rr_Duration : Z }.

(** The settings of [main]. *)
Record agent_config := MkConfig {
  cfg_ns : string;
  cfg_controlURL : string;
  cfg_token : string;
  cfg_agentID : string;
  cfg_leaseTTL : Z;
  cfg_hbEvery : Z
}.

(** The correction of the heartbeat interval. *)
Definition correct_heartbeat (leaseTTL hbEvery : Z) : Z :=
  if (leaseTTL <=? hbEvery)%Z then
    if (Second <? leaseTTL)%Z then (leaseTTL - Second)%Z else Z.quot leaseTTL 2
  else hbEvery.

(** The exit code [RunInContainer] reports. *)
Definition exit_code (d : docker_result) : Z :=
  let exit := match dk_err d with RunOk => 0%Z | ExitErr n => n | StartErr => (-1)%Z end in
  if negb (exit =? 0)%Z &&
     (Contains (dk_stderr d) "unable to open image" ||
      Contains (dk_stderr d) "no decode delegate for this image format")
  then 0%Z else exit.

(** The status of the report, and its message. *)
Definition run_status (res : result RunResult) : string * string :=
  match res with
  | Err e => ("failed", Error e)
  | Ok r => if negb (rr_ExitCode r =? 0)%Z then ("failed", "") else ("succeeded", "")
  end.

Definition run_metrics (res : result RunResult) : list (string * json) :=
  match res with
  | Err _ => []
  | Ok r => [("duration_ms", JNum (Z.quot (rr_Duration r) Millisecond)); ("exit_code", JNum (rr_ExitCode r));
             ("stderr_bytes", JNum (Z.of_nat (String.length (rr_Stderr r))));
             ("stdout_bytes", JNum (Z.of_nat (String.length (rr_Stdout r))))]
  end.

Section run.
Context {E C : Type} `{!Env E, !HTTPNet C, !Machine C, !P2P}.

Local Abbreviation A := (M (agentw E C)).

Definition atNet {T} (f : C → T * C) : A T := λ w,
  let (r, n) := f (aw_net w) in (Ret r, MkAgent (aw_node w) n (aw_seen w)).
Definition os (op path : string) : A (option goerror) := atNet (m_os op path).
Definition fs_update (f : gmap string fnode → gmap string fnode) : A unit :=
  atNet (λ c, (tt, m_set_fs (f (m_fs c)) c)).

(** [os.RemoveAll]. *)
Definition remove_all (path : string) (fs : gmap string fnode) : gmap string fnode :=
  filter (λ kv, negb (String.eqb kv.1 path || HasPrefix kv.1 (path ++ "/")) = true) fs.

(** What a reader of [path] gets; a link names a file of its own directory. *)
Definition read_file (fs : gmap string fnode) (path : string) : option string :=
  match fs !! path with
  | Some (File content) => Some content
  | Some (Link target) =>
      match fs !! Join (Join path "..") target with Some (File content) => Some content | _ => None end
  | None => None
  end.

(** [copyFile]; a copy that fails leaves the file it created. *)
Definition copyFile (src dst : string) : A (option goerror) :=
  e ← os "open" src;
  fs ← gets (λ w, m_fs (aw_net w));
  match e, read_file fs src with
  | Some e, _ => mret (Some e)
  | None, None => mret (Some (ErrMsg "no such file or directory"))
  | None, Some content =>
      e ← os "create" dst;
      match e with
      | Some e => mret (Some e)
      | None =>
          e ← os "write" dst;
          match e with
          | Some e => fs_update (<[dst := File ""]>);; mret (Some e)
          | None => fs_update (<[dst := File content]>);; os "sync" dst
          end
      end
  end.

(** The part of [FetchFromProvider] after the body has been received. *)
Definition store_input (rootCID dir : string) (body : string) : A (result FetchResult) :=
  let tmp := Join dir (rootCID ++ ".part") in
  let final := Join dir rootCID in
  e ← os "rename" tmp;
  match e with
  | Some e => mret (Err e)
  | None =>
      fs_update (λ fs, <[final := File body]> (delete tmp fs));;
      (if negb (String.eqb rootCID "input") then
         let inPath := Join dir "input" in
         e ← os "remove" inPath;
         (match e with None => fs_update (remove_all inPath) | Some _ => mret tt end);;
         e ← os "symlink" inPath;
         match e with
         | None => fs_update (<[inPath := Link rootCID]>)
         | Some _ => _ ← copyFile final inPath; mret tt
         end
       else mret tt);;
      mret (Ok (MkFetch final (Z.of_nat (String.length body))))
  end.

(** The part of [FetchFromProvider] after the request was sent. *)
Definition receive_input (rootCID peerID : string) (req : bytes) (dir : string) : A (result FetchResult) :=
  e ← os "mkdir" dir;
  match e with
  | Some e => mret (Err e)
  | None =>
      let tmp := Join dir (rootCID ++ ".part") in
      e ← os "create" tmp;
      match e with
      | Some e => mret (Err e)
      | None =>
          '(body, err) ← atNet (m_recv peerID req);
          fs_update (<[tmp := File body]>);;
          match err with
          | Some e => mret (Err (ErrMsg ("recv: " ++ Error e)))
          | None => store_input rootCID dir body
          end
      end
  end.

Definition FetchFromProvider (rootCID : string) (pv : Provider) (dir : string) : A (result FetchResult) :=
  if String.eqb (pv_PeerID pv) "" || empty_slice (pv_Addrs pv) then
    mret (Err (ErrMsg "invalid provider"))
  else
    match List.filter (λ s, match NewMultiaddr s with None => true | Some _ => false end)
            (elems (pv_Addrs pv)) with
    | [] => mret (Err (ErrMsg "no valid addrs"))
    | addr :: _ =>
        match NewMultiaddr ("/p2p/" ++ pv_PeerID pv) with
        | Some e => panic ("failed to cast multiaddr: " ++ Error e)
        | None =>
            match m_AddrInfo addr (pv_PeerID pv) with
            | Some e => mret (Err (ErrMsg ("peer info: " ++ Error e)))
            | None =>
                e ← atNet (m_Connect (pv_PeerID pv));
                match e with
                | Some e => mret (Err (ErrMsg ("connect: " ++ Error e)))
                | None =>
                    e ← atNet (m_NewStream (pv_PeerID pv) ProtoGet);
                    match e with
                    | Some e => mret (Err (ErrMsg ("new stream: " ++ Error e)))
                    | None =>
                        let req := default (BRaw "") (Marshal c_getRequest (MkgetRequest rootCID)) in
                        e ← atNet (m_send (pv_PeerID pv) req);
                        match e with
                        | Some e => mret (Err (ErrMsg ("send req: " ++ Error e)))
                        | None => receive_input rootCID (pv_PeerID pv) req dir
                        end
                    end
                end
            end
        end
    end.

Fixpoint fetch_loop (rootCID : string) (providers : list Provider) (dir : string)
    (lastErr : option goerror) : A (result FetchResult) :=
  match providers with
  | [] => mret (Err (default (ErrMsg "no providers") lastErr))
  | pv :: providers' =>
      res ← FetchFromProvider rootCID pv dir;
      match res with
      | Ok r => mret (Ok r)
      | Err e => fetch_loop rootCID providers' dir (Some e)
      end
  end.
Definition FetchAny (rootCID : string) (providers : list Provider) (dir : string)
    : A (result FetchResult) :=
  fetch_loop rootCID providers dir None.

Definition docker_args (absWorkDir image : string) (command : list string) : list string :=
  (["run"; "--rm"; "-w"; "/app"; "-v"; (absWorkDir ++ ":/app")%string; image] ++ command)%list.

(** [os.WriteFile] of a log, errors ignored. *)
Definition write_log (path content : string) : A unit :=
  e ← os "write" path;
  match e with None => fs_update (<[path := File content]>) | Some _ => mret tt end.

Definition RunInContainer (workDir image : string) (command : list string) : A (result RunResult) :=
  c ← gets aw_net;
  match m_LookPath c with
  | Some e => mret (Err (ErrMsg ("docker command not found: " ++ Error e)))
  | None =>
      match m_Abs workDir c with
      | Err e => mret (Err (ErrMsg ("could not get absolute path for work dir: " ++ Error e)))
      | Ok absWorkDir =>
          start ← atNode Now;
          d ← atNet (m_docker (docker_args absWorkDir image command));
          stop ← atNode Now;
          _ ← os "mkdir" (Join workDir "_logs");
          write_log (Join workDir "_logs/stdout.log") (dk_stdout d);;
          write_log (Join workDir "_logs/stderr.log") (dk_stderr d);;
          mret (Ok (MkRun (exit_code d) (dk_stdout d) (dk_stderr d) (Sub stop start)))
      end
  end.

(** ** [cmd/agent/main.go] *)

Definition maxFail : Z := 3.

(** One tick of the heartbeat goroutine, after [fail] failures in a row: [None] ends
    it. *)
Definition heartbeat_tick (cfg : agent_config) (base taskID nonce : string) (leaseTok fail : Z)
    : A (option Z) :=
  res ← Heartbeat None (cfg_token cfg) base taskID (cfg_agentID cfg) nonce (cfg_leaseTTL cfg) leaseTok;
  match res with
  | Err _ => let fail := (fail + 1)%Z in mret (if (maxFail <=? fail)%Z then None else Some fail)
  | Ok _ => mret (Some 0%Z)
  end.

(** [time.NewTicker] panics unless its interval is positive. *)
Definition NewTicker (d : Z) : A unit :=
  if (d <=? 0)%Z then panic "non-positive interval for NewTicker" else mret tt.

Definition maxFinishRetries : nat := 20.
Definition finishRetryDelay : Z := 5 * Second.

(** The loop that reports the end of a job: the number of attempts and the last error. *)
Fixpoint finish_loop (n : nat) (report : A (option goerror)) (attempts : nat)
    (lastErr : option goerror) : A (nat * option goerror) :=
  match n with
  | O => mret (attempts, lastErr)
  | S n' =>
      err ← report;
      match err with
      | None => mret (S attempts, None)
      | Some e =>
          if negb (ShouldRetryFinish (Some e)) then mret (S attempts, Some e)
          else atNode (Sleep finishRetryDelay);; finish_loop n' report (S attempts) (Some e)
      end
  end.

(** The report of a job that failed before it ran. *)
Definition report_failed (cfg : agent_config) (base jobID stage : string)
    (extra : list (string * json)) (errMsg : string) (leaseToken : Z) : A unit :=
  _ ← Report (cfg_token cfg) base jobID "failed" (("error_stage", JStr stage) :: extra) "" None errMsg
        (cfg_agentID cfg) leaseToken;
  mret tt.

(** [onCandidate] from the manifest check on. *)
Definition run_job (cfg : agent_config) (base jobID : string) (leaseToken : Z) : A unit :=
  '(man, err) ← atNode (GetJSON c_Manifest (cfg_ns cfg) (KeyManifest jobID) zero_Manifest (3 * Second)%Z);
  if match err with Some _ => true | None => false end || String.eqb (mf_RootCID man) "" then
    report_failed cfg base jobID "manifest_check" [("reason", JStr "manifest_not_found")]
      "manifest not found on DHT" leaseToken
  else
    '(meta, err) ← atNode (GetJSON c_TaskMeta (cfg_ns cfg) (KeyMeta jobID) zero_TaskMeta (3 * Second)%Z);
    match err with
    | Some e =>
        report_failed cfg base jobID "get_meta" [] ("get meta failed: " ++ Error e) leaseToken
    | None =>
        let workDir := "./work/" ++ jobID in
        _ ← os "mkdir" workDir;
        let inputDir := Join workDir "input" in
        _ ← os "mkdir" inputDir;
        fetched ← (if negb (EqualFold (mf_RootCID man) "noop") && negb (empty_slice (mf_Providers man)) then
                     res ← FetchAny (mf_RootCID man) (elems (mf_Providers man)) inputDir;
                     mret (match res with Err e => Some e | Ok _ => None end)
                   else mret None);
        match fetched with
        | Some e =>
            report_failed cfg base jobID "fetch_input" [] ("fetch failed: " ++ Error e) leaseToken
        | None =>
            res ← RunInContainer workDir (tm_Image meta) (elems (tm_Command meta));
            let '(status, errMsg) := run_status res in
            _ ← finish_loop maxFinishRetries
                  (Report (cfg_token cfg) base jobID status (run_metrics res) "" None errMsg
                     (cfg_agentID cfg) leaseToken) 0 None;
            mret tt
        end
    end.

(** [onCandidate]: the heartbeat goroutine is started once the wait for the manifest is
    over; its ticks are [heartbeat_tick]. *)
Definition onCandidate (cfg : agent_config) (jobID : string) (providers : list Provider)
    (demandURL : string) : A unit :=
  let base := if negb (String.eqb demandURL "") then demandURL else cfg_controlURL cfg in
  lease ← TryClaim (Some (4 * Second)%Z) (cfg_token cfg) base jobID (cfg_agentID cfg) (cfg_leaseTTL cfg);
  match lease with
  | Err _ => mret tt
  | Ok lease =>
      _ ← WaitForManifest (cfg_controlURL cfg) (cfg_token cfg) jobID (15 * Second)%Z;
      _ ← atNode Now;
      NewTicker (cfg_hbEvery cfg);;
      run_job cfg base jobID (le_Version lease)
  end.

(** A tick of the agent. *)
Definition agent_tick (cfg : agent_config) : A unit :=
  discover_tick (cfg_ns cfg) (onCandidate cfg).

End run.

(** The configuration [main] computes from its flags and environment. *)
Definition agent_main_config (getenv : string → string) (ns controlURL controlAlias authToken agentID : string)
    (ttlSec hbSec : Z) : agent_config :=
  let controlURL := if negb (String.eqb controlAlias "") then controlAlias else controlURL in
  let token := if negb (String.eqb authToken "") then authToken else getenv "CONTROL_TOKEN" in
  let leaseTTL := wrap64 (ttlSec * Second) in
  MkConfig ns controlURL token agentID leaseTTL (correct_heartbeat leaseTTL (wrap64 (hbSec * Second))).
