(* ===== verification/AgentTheorems.v ===== *)
(** * The agent against the control server

    The HTTP transport of the agent connected to the handlers of the control server:
    claims and reports end to end, from the agent's call to the database row and the DHT
    documents, and polls for a manifest that has no providers. *)
From Stdlib Require Import String Ascii.
From S2P Require Import Prelude GoStrings GoTime Json Env TaskTypes Node NodeTheorems Docs LeaseTypes.
From S2P Require Import PGStore LeaseProtocol LeaseSpec PGMethods LeaseTheorems StoreTheorems.
From S2P Require Import ControlTypes Announce ControlHTTP ControlMain ControlLemmas ControlSafety.
From S2P Require Import ControlClaims ControlTasks ControlLoops Routing Agent.

Set Warnings "-clear-no-such-hyp".
Local Open Scope string_scope.

(** A network of one control server: every base URL leads to it, and a handler that
    panics drops the connection. *)
Definition control_http {F S : Type} `{!Env F, !Store S, !P2P} (getenv : string → string) (ns : string)
    (parse : string → option goerror) : HTTPNet (control F S) := {|
  url_Parse := parse;
  http_Do _ _ r c :=
    match serveHTTP getenv ns r c with
    | (Ret resp, c') => (Ok resp, c')
    | (Panic _, c') => (Err (ErrMsg "EOF"), c')
    end
|}.

(** ** Documents the two sides exchange *)

(** The server's answer to a claim is the lease the agent decodes. *)
Lemma leaseOut_decoded ok l j :
  enc c_leaseOut (MkleaseOut ok l) = Some j →
  Decode c_claimOut (BJson j) zero_claimOut = (MkclaimOut ok l, None).
Proof.
  intros Hj. unfold c_leaseOut, c_struct in Hj. cbn [enc] in Hj.
  unfold fields_leaseOut in Hj. cbn [enc_fields enc_field never fname lo_OK lo_Lease] in Hj.
  destruct (enc c_Lease l) as [jl|] eqn:Hl; [|done]. cbn in Hj. injection Hj as <-.
  unfold Decode, c_claimOut, c_struct. cbn [dec].
  unfold fields_claimOut. cbn -[c_Lease].
  pose proof (Lease_rt l jl Hl) as Hd. change (czero c_Lease) with zero_Lease in Hd.
  by rewrite Hd.
Qed.

Lemma claim_body_decoded a n :
  in_int64 n = true →
  Decode c_tryClaimIn (BJson (JObj [("agent_id", JStr a); ("ttl_sec", JNum n)])) zero_tryClaimIn =
    (MktryClaimIn a n, None).
Proof. intros Hn. cbn. by rewrite Hn. Qed.

Lemma report_body_decoded status metrics cid errMsg :
  ∃ inf, Decode c_finishIn (BJson (JObj (("artifacts", JNull) ::
      (if negb (String.eqb errMsg "") then [("error", JStr errMsg)] else []) ++
      [("metrics", JObj metrics); ("result_root_cid", JStr cid); ("status", JStr status)])%list))
      zero_finishIn = (inf, None) ∧
    fi_Status inf = status ∧ fi_ResultCID inf = cid.
Proof. destruct (negb (String.eqb errMsg "")); eexists; split; [reflexivity|done|reflexivity|done]. Qed.

(** A manifest the server shows without providers is read without providers. *)
Lemma no_providers_decoded man j v :
  elems (mf_Providers man) = [] → enc c_manifestOutDTO (dto_of_manifest man) = Some j →
  empty_slice (mf_Providers (dec c_Manifest j v).1) = true.
Proof.
  intros Hp Hj. unfold dto_of_manifest in Hj. rewrite Hp in Hj.
  unfold c_manifestOutDTO, c_struct in Hj. cbn [enc] in Hj. unfold fields_manifestOutDTO in Hj.
  cbn -[c_time c_int64 c_slice empty_string empty_slice] in Hj.
  change (enc (c_slice c_providerDTO) (Some [])) with (Some (JArr [])) in Hj.
  destruct (enc c_int64 (mf_Version man)) as [jv|], (enc c_time (mf_UpdatedAt man)) as [ju|],
    (enc (c_slice c_string) (mf_Transports man)) as [jt|], (empty_string (mf_Rendezvous man)),
    (empty_slice (mf_Transports man)); cbn in Hj; try done; injection Hj as <-;
    unfold c_Manifest, c_struct; cbn [dec]; unfold fields_Manifest; destruct v;
    cbn -[c_time c_int64 c_slice empty_slice];
    repeat (change (dec (c_slice c_Provider) (JArr []) _) with (Some (@nil Provider), DOk); cbn -[c_time c_int64 c_slice empty_slice];
      try match goal with |- context [dec ?c ?x ?y] => destruct (dec c x y) as [? []] end;
      cbn -[c_time c_int64 c_slice empty_slice]); done.
Qed.

(** The agent looks at the manifest of a task only. *)
Lemma taskOut_decoded kvs meta state :
  Decode c_taskOut (BJson (JObj [("manifest", JObj kvs); ("meta", meta); ("state", state)])) zero_taskOut =
    let (m, s) := dec c_Manifest (JObj kvs) zero_Manifest in (MktaskOut (Some m), dstat_err s).
Proof.
  unfold Decode, c_taskOut, c_struct. cbn [dec dec_fields].
  assert (find_field fields_taskOut "meta" = None) as -> by reflexivity.
  assert (find_field fields_taskOut "state" = None) as -> by reflexivity.
  change (find_field fields_taskOut "manifest") with (Some (Field "manifest" never (c_ptr c_Manifest) to_Manifest
    (λ a '(MktaskOut _), MktaskOut a))).
  cbn [dec_field]. unfold c_ptr. cbn [dec to_Manifest zero_taskOut default].
  change (czero c_Manifest) with zero_Manifest. change (default zero_Manifest None) with zero_Manifest.
  by destruct (dec c_Manifest (JObj kvs) zero_Manifest) as [m []].
Qed.

(** ** End to end *)

Section e2e.
Context {E F P : Type} `{!Env E, !Env F, !StableDHT F, !Reachable F, !SaneClock F, !PGServer P, !P2P}.
Context (getenv : string → string) (ns token : string) (parse : string → option goerror).
Context (token_set : token ≠ "") (same_token : getenv "CONTROL_TOKEN" = token).

#[local] Instance the_net : HTTPNet (control F (PGStore P)) := control_http getenv ns parse.
Implicit Types (w : agentw E (control F (PGStore P))).

Local Abbreviation table w := (pg_table (ct_store (aw_net w))).

Lemma Do_ok tmo base r w resp c' :
  serveHTTP getenv ns r (aw_net w) = (Ret resp, c') →
  Do tmo base r w = (Ret (Ok resp), MkAgent (aw_node w) c' (aw_seen w)).
Proof. intros Hs. unfold Do. simpl. by rewrite Hs. Qed.

Lemma client_auth m path q b h :
  h !! "Authorization" = Some ("Bearer " ++ token) → requireAuth getenv (MkRequest m path h q b) = true.
Proof.
  intros Hh. unfold requireAuth, Header_Get. simpl rq_Header. rewrite Hh, same_token.
  destruct (String.eqb _ "1"); [done|]. str_ne token_set.
  simpl default. apply String.eqb_refl.
Qed.

Lemma client_headers_auth : client_headers token !! "Authorization" = Some ("Bearer " ++ token).
Proof.
  unfold client_headers. str_ne token_set. apply lookup_insert_eq.
Qed.

(** C6: an agent that claims a waiting job over HTTP gets exactly the lease the database
    recorded for it: its own id, the expiry and the next token; the job is held by it
    in the database and assigned to it in the DHT. *)
Theorem agent_claim_granted ctx base id a n w row :
  parse (base ++ "/api/tasks/" ++ id ++ "/try-claim") = None → plain_id id = true → a ≠ "" → (1 <= n <= 3600)%Z →
  up 1 (pg_srv (ct_store (aw_net w))) → table_ok (table w) → table w !! id = Some row →
  abs_phase row = Waiting → (r_lease_token row < max_int64)%Z →
  state_ok (dht_state ns id (ct_node (aw_net w))) →
  let exp := seconds_from (db_now (ct_store (aw_net w))) n in
  time_ok exp = true →
  let lease := MkLease a "" exp (r_lease_token row + 1) in
  ∃ w', TryClaim ctx token base id a (n * Second) w = (Ret (Ok lease), w') ∧
    abs_phase <$> table w' !! id = Some (Held a exp false) ∧
    r_lease_token <$> table w' !! id = Some (le_Version lease) ∧
    dht_lease ns id (ct_node (aw_net w')) = lease ∧
    ts_AssignedTo (dht_state ns id (ct_node (aw_net w'))) = a.
Proof.
  intros Hurl Hid Ha Hn Hu Hok Hr Hp Htk Hst exp Hexp lease.
  assert (int_Seconds (n * Second) = n) as Hsec.
  { unfold int_Seconds, Second. rewrite Z.quot_mul; lia. }
  assert (ttlOrDefault n = (n * Second)%Z) as Httl.
  { unfold ttlOrDefault. destruct (_ || _) eqn:Hb; [|done]. lia. }
  set (body := JObj [("agent_id", JStr a); ("ttl_sec", JNum (int_Seconds (n * Second)))]).
  set (r := MkRequest "POST" ("/api/tasks/" ++ id ++ "/try-claim") (client_headers token) ∅ (BJson body)).
  destruct (serve_claim (E := F) (S := PGStore P) getenv ns r id Hid (conj eq_refl eq_refl)) as [Hs Hpp].
  assert (claim_request getenv r id a n) as Hreq.
  { split_and!; [apply client_auth, client_headers_auth|done| |done].
    unfold decode_body. simpl rq_Body. unfold body. rewrite Hsec. apply claim_body_decoded.
    unfold in_int64, max_int64, two63. lia. }
  destruct (claim_granted getenv ns r id a n (aw_net w) row Hreq Hu Hok Hr Hp Htk Hst)
    as (c' & t & Hh & Htab & Hl & Hd & _); [by rewrite Httl, Hsec|].
  rewrite Httl, Hsec in Hh, Hl. fold exp in Hh, Hl. fold lease in Hh, Hl. rewrite <- Hs in Hh.
  exists (MkAgent (aw_node w) c' (aw_seen w)).
  assert (is_Some (enc c_leaseOut (MkleaseOut true lease))) as [j Hj].
  { pose proof (ok_token id row (Hok id row Hr)) as Htok.
    assert (in_int64 (r_lease_token row + 1) = true) as Hin by (unfold in_int64, max_int64, two63 in *; lia).
    cbn. fold exp. rewrite Hexp, Hin. by eexists. }
  split_and!.
  - unfold TryClaim, claim_post. cbn [url_Parse the_net control_http]. rewrite Hurl. fold body. fold r.
    rewrite bind_run with (a := Ok (MkclaimOut true lease)) (w' := MkAgent (aw_node w) c' (aw_seen w)); [done|].
    run_step (Do_ok _ _ _ _ _ _ Hh). rewrite Hj.
    cbn [encoded rs_Code rs_Body Encode body_bytes]. change (negb (StatusOK / 100 =? 2)%Z) with false. cbv iota.
    by rewrite (leaseOut_decoded _ _ _ Hj : Decode c_claimOut (BJson j) (czero c_claimOut) = _).
  - simpl. rewrite Htab, lookup_insert_eq, Httl. simpl. unfold claimed_row. rewrite Hsec. by destruct row.
  - simpl. rewrite Htab, lookup_insert_eq. simpl. by destruct row.
  - done.
  - simpl. rewrite Hd. unfold assigned_state, bump_state.
    by destruct (dht_state _ _ _) as [? ? ? ? ? ? [] ? ? ? ? ? ? ?].
Qed.

(** A report of the agent as the request the server sees. *)
Lemma report_request id status metrics cid errMsg a tok :
  plain_id id = true → a ≠ "" → (0 < tok <= max_int64)%Z →
  let body := JObj (("artifacts", JNull) ::
    (if negb (String.eqb errMsg "") then [("error", JStr errMsg)] else []) ++
    [("metrics", JObj metrics); ("result_root_cid", JStr cid); ("status", JStr status)])%list in
  let r := MkRequest "POST" ("/jobs/" ++ id ++ "/finish") (finish_headers token a tok) ∅ (BJson body) in
  ∃ inf, finish_request getenv r id a tok inf ∧ fi_Status inf = status ∧
    serveHTTP (E := F) (S := PGStore P) getenv ns r = finishHandler getenv ns r.
Proof.
  intros Hid Ha Htok body r.
  destruct (serve_finish (E := F) (S := PGStore P) getenv ns r id Hid (conj eq_refl eq_refl)) as [Hs Hpp].
  destruct (report_body_decoded status metrics cid errMsg) as (inf & Hd & Hst & _).
  assert (finish_headers token a tok =
    <["X-Lease-Token" := Itoa tok]> (<["X-Agent-ID" := a]> (client_headers token))) as Hh.
  { unfold finish_headers. str_ne Ha. by destruct (Z.ltb_spec 0 tok); [|lia]. }
  exists inf. split_and!; [|done|done]. split_and!.
  - apply client_auth. rewrite Hh, !lookup_insert_ne by done. apply client_headers_auth.
  - done.
  - done.
  - exact Hd.
  - unfold Header_Get. simpl rq_Header. rewrite Hh, lookup_insert_ne, lookup_insert_eq by done. done.
  - unfold finish_token, Header_Get. simpl rq_Header. rewrite Hh, lookup_insert_eq. simpl default.
    str_ne (Itoa_not_empty tok). simpl negb. cbv iota.
    rewrite ParseUint_Itoa; [done|]. unfold max_int64, two63, two64 in *. lia.
Qed.

Lemma Report_run base id status metrics cid errMsg a tok w c' :
  let body := JObj (("artifacts", JNull) ::
    (if negb (String.eqb errMsg "") then [("error", JStr errMsg)] else []) ++
    [("metrics", JObj metrics); ("result_root_cid", JStr cid); ("status", JStr status)])%list in
  let r := MkRequest "POST" ("/jobs/" ++ id ++ "/finish") (finish_headers token a tok) ∅ (BJson body) in
  parse (base ++ "/jobs/" ++ id ++ "/finish") = None →
  serveHTTP getenv ns r (aw_net w) = (Ret (MkResponse StatusNoContent "" REmpty), c') →
  Report token base id status metrics cid None errMsg a tok w =
    (Ret None, MkAgent (aw_node w) c' (aw_seen w)).
Proof.
  intros body r Hurl Hs. unfold Report, finish_post. cbv zeta. cbn [url_Parse the_net control_http].
  rewrite Hurl.
  change (default JNull (enc (c_slice c_string) None)) with JNull. fold body. fold r.
  by run_step (Do_ok _ _ _ _ _ _ Hs).
Qed.

(** C7: the report of the agent that holds the job, under its token, is accepted and
    recorded: the job is done in the database with the reported outcome, and the DHT
    shows it finished, without a lease or an advertisement. *)
Theorem agent_report_recorded base id status metrics cid errMsg a x beat w row :
  parse (base ++ "/jobs/" ++ id ++ "/finish") = None → plain_id id = true → a ≠ "" → up 1 (pg_srv (ct_store (aw_net w))) → table_ok (table w) →
  table w !! id = Some row → abs_phase row = Held a x beat → (0 < r_lease_token row)%Z →
  state_ok (dht_state ns id (ct_node (aw_net w))) →
  let ok := String.eqb (ToLower status) "succeeded" in
  ∃ w', Report token base id status metrics cid None errMsg a (r_lease_token row) w = (Ret None, w') ∧
    abs_row <$> table w' !! id = Some (MkAJob (Done ok) (r_lease_token row) (r_retry_count row)) ∧
    ts_Status (dht_state ns id (ct_node (aw_net w'))) = (if ok then StatusSucceeded else StatusFailed) ∧
    dht_lease ns id (ct_node (aw_net w')) = zero_Lease ∧
    dht_ad ns id (ct_node (aw_net w')) = zero_taskAd.
Proof.
  intros Hurl Hid Ha Hu Hok Hr Hp Htok Hst ok.
  pose proof (ok_token id row (Hok id row Hr)) as Hmax.
  destruct (report_request id status metrics cid errMsg a (r_lease_token row) Hid Ha)
    as (inf & Hreq & Hin & Hs); [unfold max_int64, two63 in *; lia|].
  assert (reports_success inf = ok) as Hsucc by (unfold reports_success; by rewrite Hin).
  destruct (finish_recorded getenv ns _ id a (r_lease_token row) inf x beat (aw_net w) row
    Hreq Hu Hok Hr Hp eq_refl Hst) as (c' & t & Hh & Htab & Hd & Hl & Had & _).
  rewrite <- Hs in Hh. rewrite Hsucc in Htab, Hd.
  exists (MkAgent (aw_node w) c' (aw_seen w)). split_and!; [by apply Report_run|done| |done|done].
  simpl. rewrite Hd. unfold finished_state, bump_state. by destruct (dht_state _ _ _), ok.
Qed.

(** C16: an agent cannot tell that its lease was lost.  Its report under an old token, or
    for a job another agent holds, is accepted like any other; the database ignores it,
    while the DHT then shows the job finished and its lease gone, although the other
    agent is still running it. *)
Theorem stale_report_unnoticed base id status metrics cid errMsg a b tok x beat w row :
  parse (base ++ "/jobs/" ++ id ++ "/finish") = None → plain_id id = true → b ≠ "" → up 1 (pg_srv (ct_store (aw_net w))) → table_ok (table w) →
  table w !! id = Some row → abs_phase row = Held a x beat →
  (0 < tok <= max_int64)%Z → (a ≠ b ∨ (tok < r_lease_token row)%Z) →
  state_ok (dht_state ns id (ct_node (aw_net w))) →
  ∃ w', Report token base id status metrics cid None errMsg b tok w = (Ret None, w') ∧
    table w' = table w ∧ dht_lease ns id (ct_node (aw_net w')) = zero_Lease ∧
    ts_Status (dht_state ns id (ct_node (aw_net w'))) =
      (if String.eqb (ToLower status) "succeeded" then StatusSucceeded else StatusFailed).
Proof.
  intros Hurl Hid Hb Hu Hok Hr Hp Htok Hbad Hst.
  destruct (report_request id status metrics cid errMsg b tok Hid Hb Htok) as (inf & Hreq & Hin & Hs).
  destruct (stale_finish_misreported getenv ns _ id a b tok inf x beat (aw_net w) row
    Hreq Hu Hok Hr Hp ltac:(lia) Hbad Hst) as (c' & t & Hh & Htab & Hd & Hl).
  rewrite <- Hs in Hh.
  exists (MkAgent (aw_node w) c' (aw_seen w)). split_and!; [by apply Report_run|done..|].
  simpl. rewrite Hd. unfold finished_state, bump_state, reports_success. rewrite Hin.
  by destruct (dht_state _ _ _), (String.eqb _ _).
Qed.

(** ** A manifest without providers *)

(** The server knows no manifest of the job with providers. *)
Definition no_providers (id : string) (c : control F (PGStore P)) : Prop :=
  elems (mf_Providers (doc ns c_Manifest (KeyManifest id) (ct_node c))) = [].

Lemma getTask_no_providers r id c :
  rq_Path r = "/api/tasks/" ++ id → no_providers id c →
  ∃ resp c', getTaskHandler getenv ns r c = (Ret resp, c') ∧ no_providers id c' ∧
    ∀ out, Decode c_taskOut (body_bytes (rs_Body resp)) zero_taskOut = (out, None) →
      rs_Code resp = 200%Z → manifest_ready (to_Manifest out) = None.
Proof.
  intros Hp Hno. unfold getTaskHandler.
  destruct (negb (requireAuth getenv r)); [by eexists _, c|].
  destruct (negb (String.eqb (rq_Method r) "GET")); [by eexists _, c|].
  assert (TrimPrefix (rq_Path r) "/api/tasks/" = id) as -> by (rewrite Hp; by destruct id).
  cbv zeta. destruct (String.eqb id ""); [by eexists _, c|].
  destruct (pg_total_store.(ts_GetJob) id (ct_store c)) as (res & s' & Hg).
  erewrite bind_run by (apply onStore_run; exact Hg).
  destruct res as [job|e]; [|by eexists _, _].
  destruct (GetJSON_doc ns c_Manifest (KeyManifest id) (2 * Second) (ct_node c)) as (err & w1 & H1 & V1 & _).
  node_step H1. cbv beta iota. set (man := doc ns c_Manifest (KeyManifest id) (ct_node c)).
  eexists _, _. split_and!; [reflexivity|unfold no_providers; simpl; by rewrite (doc_view ns _ _ _ _ V1)|].
  set (meta := json_map [("id", _); ("image", _); ("command", _)]).
  set (state := json_map [("id", _); ("status", _)]).
  intros out. unfold writeJSON. cbn [rs_Body rs_Code]. unfold no_providers in Hno. fold man in Hno. clearbody meta state man.
  assert (∀ o, Decode c_taskOut (body_bytes (Encode (json_map [("meta", meta); ("state", state)]))) zero_taskOut =
    (o, None) → manifest_ready (to_Manifest o) = None) as Hnone.
  { intros o Ho. destruct meta, state; vm_compute in Ho; by simplify_eq. }
  destruct err as [e|]; [auto|]. destruct (negb (String.eqb (mf_RootCID man) "")); [|auto].
  cbv beta iota. destruct (enc c_manifestOutDTO (dto_of_manifest man)) as [jm|] eqn:Hjm.
  2: { intros Ho. destruct meta, state; vm_compute in Ho; by simplify_eq. }
  destruct meta as [meta|], state as [state|];
    [|intros Ho; vm_compute in Ho; by simplify_eq..].
  pose proof (no_providers_decoded man jm zero_Manifest Hno Hjm) as Hdec.
  intros Hd _. revert Hd.
  change (Encode (json_map [("meta", Some meta); ("state", Some state); ("manifest", Some jm)]))
    with (RJson (JObj [("manifest", jm); ("meta", meta); ("state", state)])).
  assert (∃ kvs, jm = JObj kvs) as [kvs ->].
  { unfold c_manifestOutDTO, c_struct in Hjm. cbn [enc] in Hjm.
    destruct (enc_fields _ _); [|done]. injection Hjm as <-. by eexists. }
  cbn [body_bytes]. rewrite taskOut_decoded.
  destruct (dec c_Manifest (JObj kvs) zero_Manifest) as [m s]. intros [= <- _]. unfold manifest_ready.
  cbn [to_Manifest]. simpl in Hdec. by rewrite Hdec, andb_false_r.
Qed.

(** A poll of the server finds nothing, and leaves it so. *)
Lemma poll_no_providers base id w :
  plain_id id = true → HasSuffix ("/api/tasks/" ++ id) "/logs" = false → no_providers id (aw_net w) →
  ∃ w', poll_manifest base token id w = (Ret None, w') ∧ no_providers id (aw_net w').
Proof.
  intros Hid Hlogs Hno. unfold poll_manifest. cbv zeta. set (r := MkRequest _ _ _ _ _).
  assert (serveHTTP getenv ns r = getTaskHandler (E := F) (S := PGStore P) getenv ns r) as Hs.
  { rewrite (serve_plain getenv ns r ["api"; "tasks"] id (tasksRoute getenv ns)).
    - unfold tasksRoute. change (rq_Path r) with ("/api/tasks/" ++ id).
      change (String.eqb (rq_Method r) "POST") with false. by rewrite Hlogs.
    - unfold r. simpl. by rewrite append_nil_r.
    - by repeat constructor.
    - unfold r. simpl rq_Path. by destruct id. }
  destruct (getTask_no_providers r id (aw_net w) eq_refl Hno) as (resp & c' & Hg & Hno' & Hdec).
  rewrite <- Hs in Hg. run_step (Do_ok (3 * Second) base r w resp c' Hg).
  exists (MkAgent (aw_node w) c' (aw_seen w)). split; [|done].
  destruct (Z.eqb_spec (rs_Code resp) 200); [|done].
  destruct (Decode c_taskOut _ _) as [out [e'|]]; [done|]. by rewrite (Hdec out eq_refl).
Qed.

End e2e.

(** ** Witnesses *)

#[local] Existing Instance demo_p2p.

Definition demo_agent (s : PGStore SimPG) : agentw SimEnv (control WallEnv (PGStore SimPG)) :=
  MkAgent (NodeW sim0 ∅) (demo_world s) ∅.

Lemma lifecycle_routes_witness :
  serveHTTP (E := WallEnv) (S := PGStore SimPG) demo_getenv "mc" (demo_claim "A") =
  tryClaimHandler demo_getenv "mc" (demo_claim "A").
Proof.
  destruct (lifecycle_routes (E := WallEnv) (S := PGStore SimPG) demo_getenv "mc" "j1" eq_refl)
    as (Hc & _).
  exact (proj1 (Hc (demo_claim "A") (conj eq_refl eq_refl))).
Defined.

Lemma agent_claim_granted_witness :
  ∃ w', TryClaim (HTTPNet0 := control_http demo_getenv "mc" (λ _, None)) None "secret" "http://c" "j1" "A" (15 * Second)
      (demo_agent demo_queued) = (Ret (Ok (MkLease "A" "" (seconds_from 20 15) 1)), w').
Proof.
  assert (pg_table (ct_store (aw_net (demo_agent demo_queued))) !! "j1" = Some demo_row1) as Hr
    by (vm_compute; reflexivity).
  destruct (agent_claim_granted demo_getenv "mc" "secret" (λ _, None) ltac:(discriminate) eq_refl None "http://c" "j1" "A" 15
    (demo_agent demo_queued) demo_row1 eq_refl eq_refl ltac:(discriminate) ltac:(lia) (sim_up 1 _)
    (run_table_ok _ _ _ demo_run) Hr ltac:(vm_compute; reflexivity) ltac:(vm_compute; reflexivity)
    (demo_state_ok _) ltac:(vm_compute; reflexivity)) as (w' & Hc & _).
  exists w'. exact Hc.
Defined.

Lemma agent_report_recorded_witness :
  ∃ w', Report (HTTPNet0 := control_http demo_getenv "mc" (λ _, None)) "secret" "http://c" "j1" "succeeded" [] ""
      None "" "A" 1 (demo_agent demo_s) = (Ret None, w') ∧
    dht_lease "mc" "j1" (ct_node (aw_net w')) = zero_Lease.
Proof.
  assert (pg_table (ct_store (aw_net (demo_agent demo_s))) !! "j1" = Some demo_row) as Hr
    by (vm_compute; reflexivity).
  destruct (agent_report_recorded demo_getenv "mc" "secret" (λ _, None) ltac:(discriminate) eq_refl "http://c" "j1"
    "succeeded" [] "" "" "A" (seconds_from 10 15) false (demo_agent demo_s) demo_row eq_refl eq_refl
    ltac:(discriminate) (sim_up 1 _) demo_ok Hr ltac:(vm_compute; reflexivity)
    ltac:(vm_compute; reflexivity) (demo_state_ok _)) as (w' & Hc & _ & _ & Hl & _).
  exists w'. split; [exact Hc|exact Hl].
Defined.

Lemma stale_report_unnoticed_witness :
  ∃ w', Report (HTTPNet0 := control_http demo_getenv "mc" (λ _, None)) "secret" "http://c" "j1" "failed" [] ""
      None "" "B" 1 (demo_agent demo_s) = (Ret None, w') ∧
    pg_table (ct_store (aw_net w')) = demo_t2.
Proof.
  assert (pg_table (ct_store (aw_net (demo_agent demo_s))) !! "j1" = Some demo_row) as Hr
    by (vm_compute; reflexivity).
  assert (0 < 1 <= max_int64)%Z as Htok by (by vm_compute).
  destruct (stale_report_unnoticed demo_getenv "mc" "secret" (λ _, None) ltac:(discriminate) eq_refl "http://c" "j1"
    "failed" [] "" "" "A" "B" 1 (seconds_from 10 15) false (demo_agent demo_s) demo_row eq_refl eq_refl
    ltac:(discriminate) (sim_up 1 _) demo_ok Hr ltac:(vm_compute; reflexivity) Htok
    ltac:(left; discriminate) (demo_state_ok _)) as (w' & Hc & Ht & _).
  exists w'. split; [exact Hc|exact Ht].
Defined.
