(* ===== verification/NodeStart.v ===== *)
(** * Starting a node

    The start-up half of [internal/dht/node.go]: which addresses a node advertises, the
    bootstrap, and the wait for a first peer; and its callers in [cmd/agent/main.go] and
    [cmd/seeder/main.go].  libp2p and the network interfaces are parameters (the class
    [Libp2p]); a multiaddress is its text. *)
From Stdlib Require Import String Ascii.
From S2P Require Import Prelude GoStrings GoTime Json Env TaskTypes Node LeaseTypes.
From S2P Require Import ControlTypes Announce ControlHTTP ControlMain ControlLemmas.

Local Open Scope string_scope.

(** ** Addresses *)

Record ipv4 := IPv4 { ip0 : Z; ip1 : Z; ip2 : Z; ip3 : Z }.

(** [ip.String()]. *)
Definition ip_String (ip : ipv4) : string :=
  Itoa (ip0 ip) ++ "." ++ Itoa (ip1 ip) ++ "." ++ Itoa (ip2 ip) ++ "." ++ Itoa (ip3 ip).

(** An interface: its name, [net.FlagUp], and its addresses, [None] for one that is not
    an [*net.IPNet] with an IPv4 address. *)
Record iface := MkIface { if_Name : string; if_Up : bool; if_Addrs : list (option ipv4) }.

(** 100.64.0.0/10. *)
Definition in_tailnet (ip : ipv4) : bool :=
  (ip0 ip =? 100)%Z && (64 <=? ip1 ip)%Z && (ip1 ip <=? 127)%Z.

(** [net.IP.IsPrivate] on IPv4. *)
Definition IsPrivate (ip : ipv4) : bool :=
  (ip0 ip =? 10)%Z || ((ip0 ip =? 172)%Z && (Z.land (ip1 ip) 240 =? 16)%Z) ||
  ((ip0 ip =? 192)%Z && (ip1 ip =? 168)%Z).

Definition advertisable (ip : ipv4) : bool := in_tailnet ip || IsPrivate ip.

Definition iface_ips (keep : ipv4 → bool) (i : iface) : list string :=
  ip_String <$> List.filter keep (omap id (if_Addrs i)).

Definition detectIPv4Addrs (ifaces : list iface) : list string :=
  ((i ← List.filter if_Up ifaces; iface_ips advertisable i) ++ ["127.0.0.1"])%list.

(** The interfaces are read twice. *)
Definition detectTailnetIPv4 (ifaces ifaces2 : list iface) : string :=
  match i ← List.filter (λ i, String.eqb (if_Name i) "tailscale0" && if_Up i) ifaces;
        iface_ips in_tailnet i with
  | ip :: _ => ip
  | [] => match i ← List.filter if_Up ifaces2; iface_ips in_tailnet i with ip :: _ => ip | [] => "" end
  end.

(** ** libp2p *)

Class Libp2p (E : Type) := {
  (** [net.Interfaces] with the addresses of each *)
  lp_Interfaces : E → list iface * E;
  (** [ValueForProtocol] for TCP and for UDP: the port *)
  ma_TCP : string → option string;
  ma_UDP : string → option string;
  (** [peer.AddrInfoFromP2pAddr]: the peer *)
  lp_AddrInfo : string → result string;
  (** [libp2p.New] with its listen addresses and the factory of advertised ones *)
  lp_New : list string → (list string → list string) → E → option goerror * E;
  (** [dht.New] in server mode or not, with its protocol prefix and the name space of
      its validator: [false] when it returns nil *)
  lp_dht_New : bool → string → string → E → result bool * E;
  lp_Connect : string → E → option goerror * E;
  lp_Bootstrap : E → option goerror * E;
  (** [RoutingTable().Size()], [None] without a table *)
  rt_Size : E → option Z;
  (** [Host.ID().String()] and [Host.Addrs()] *)
  lp_ID : E → string;
  lp_Addrs : E → list string
}.

Record Node := MkNode { n_namespace : string }.

Section start.
Context {E : Type} `{!Env E, !Libp2p E, !P2P}.

Local Abbreviation L := (M E).

Definition lift {A} (f : E → A * E) : L A := λ e, let (a, e') := f e in (Ret a, e').

(** Whether [ma.NewMultiaddr] takes an address. *)
Definition valid_ma (s : string) : bool := match NewMultiaddr s with None => true | Some _ => false end.

(** The function given to [libp2p.AddrsFactory]. *)
Definition advertise (ips : list string) (a : string) : list string :=
  match ma_TCP a with
  | Some p => List.filter valid_ma ((λ ip, "/ip4/" ++ ip ++ "/tcp/" ++ p) <$> ips)
  | None =>
      match ma_UDP a with
      | Some p =>
          let quic := if Contains a "/quic-v1" then "/quic-v1" else "" in
          List.filter valid_ma ((λ ip, "/ip4/" ++ ip ++ "/udp/" ++ p ++ quic) <$> ips)
      | None => []
      end
  end.
Definition addrs_factory (ips addrs : list string) : list string := a ← addrs; advertise ips a.

(** The loop over the bootstrap addresses: whatever goes wrong is only printed. *)
Definition bootstrap_connect (s : string) : L unit :=
  match NewMultiaddr s with
  | Some _ => mret tt
  | None =>
      match lp_AddrInfo s with
      | Err _ => mret tt
      | Ok info => _ ← lift (lp_Connect info); mret tt
      end
  end.

Definition routing_ready (e : E) : bool := match rt_Size e with Some n => (0 <? n)%Z | None => false end.

Definition peer_wait : Z := 5 * Second.
Definition peer_poll : Z := 200 * Millisecond.
Definition no_peers : goerror := ErrMsg "no peers in routing table after bootstrap".

(** The wait for a peer, for at most [n] rounds: [None] when they were not enough. *)
Fixpoint wait_peers (n : nat) (deadline : Z) : L (option (option goerror)) :=
  match n with
  | O => mret None
  | S n' =>
      ready ← gets routing_ready;
      if (ready : bool) then mret (Some None)
      else
        now ← lift env_Now;
        if After now deadline then mret (Some (Some no_peers))
        else modify (env_Sleep peer_poll);; wait_peers n' deadline
  end.
Definition wait_peers_fuel : nat := Z.to_nat (peer_wait / peer_poll) + 3.

(** [NewNode] once the DHT has been bootstrapped. *)
Definition await_peers (namespace : string) (bootstrapAddrs : list string) : L (option (result Node)) :=
  match bootstrapAddrs with
  | [] => mret (Some (Ok (MkNode namespace)))
  | _ =>
      now ← lift env_Now;
      err ← wait_peers wait_peers_fuel (Add now peer_wait);
      match err with
      | None => mret None
      | Some (Some e) => mret (Some (Err e))
      | Some None => mret (Some (Ok (MkNode namespace)))
      end
  end.

Definition NewNode (namespace : string) (bootstrapAddrs : list string) : L (option (result Node)) :=
  ifaces ← lift lp_Interfaces;
  let ips := detectIPv4Addrs ifaces in
  err ← lift (lp_New ["/ip4/0.0.0.0/tcp/0"; "/ip4/0.0.0.0/udp/0/quic-v1"] (addrs_factory ips));
  match err with
  | Some e => mret (Some (Err (ErrMsg ("libp2p new: " ++ Error e))))
  | None =>
      let server := match bootstrapAddrs with [] => true | _ => false end in
      res ← lift (lp_dht_New server ("/" ++ namespace) namespace);
      match res with
      | Err e => mret (Some (Err (ErrMsg ("dht new: " ++ Error e))))
      | Ok false => mret (Some (Err (ErrMsg "dht not initialized")))
      | Ok true =>
          for_each bootstrapAddrs bootstrap_connect;;
          err ← lift lp_Bootstrap;
          match err with
          | Some e => mret (Some (Err (ErrMsg ("dht bootstrap: " ++ Error e))))
          | None => await_peers namespace bootstrapAddrs
          end
      end
  end.

(** [Node.Multiaddrs]. *)
Definition Multiaddrs : L (list string) :=
  gets (λ e, (λ a, a ++ "/p2p/" ++ lp_ID e) <$> lp_Addrs e).

(** [%q] of a text that needs no escape. *)
Definition quoted (s : string) : string := String "034" s ++ String "034" "".

(** [Node.Connect]. *)
Definition Connect (maddrStr : string) : L (option goerror) :=
  match NewMultiaddr maddrStr with
  | Some e => mret (Some (ErrMsg ("bad multiaddr " ++ quoted maddrStr ++ ": " ++ Error e)))
  | None =>
      match lp_AddrInfo maddrStr with
      | Err e => mret (Some (ErrMsg ("bad p2p addr " ++ quoted maddrStr ++ ": " ++ Error e)))
      | Ok info => lift (lp_Connect info)
      end
  end.

(** [initDHTNode] of the agent; the seeder starts its node in the same way. *)
Definition initDHTNode (ns bootstrapPeers : string) : L (option (result Node)) :=
  NewNode ns (elems (splitCSV bootstrapPeers)).

End start.

(** ** What is advertised *)

Lemma elem_of_iface_ips keep i a :
  a ∈ iface_ips keep i ↔ ∃ ip, Some ip ∈ if_Addrs i ∧ keep ip = true ∧ a = ip_String ip.
Proof.
  unfold iface_ips. rewrite list_elem_of_fmap. setoid_rewrite list_elem_of_In. setoid_rewrite filter_In.
  setoid_rewrite <- list_elem_of_In. setoid_rewrite list_elem_of_omap. naive_solver.
Qed.

(** A node advertises loopback and exactly the private and tailnet addresses of the
    interfaces that are up. *)
Lemma detectIPv4Addrs_spec ifaces a :
  a ∈ detectIPv4Addrs ifaces ↔ a = "127.0.0.1" ∨
    ∃ i ip, i ∈ ifaces ∧ if_Up i = true ∧ Some ip ∈ if_Addrs i ∧ advertisable ip = true ∧ a = ip_String ip.
Proof.
  unfold detectIPv4Addrs. rewrite elem_of_app, list_elem_of_bind, list_elem_of_singleton.
  setoid_rewrite elem_of_iface_ips. setoid_rewrite list_elem_of_In at 2. setoid_rewrite filter_In.
  setoid_rewrite <- list_elem_of_In. naive_solver.
Qed.

Section start_theorems.
Context {E : Type} `{!Env E, !Libp2p E, !P2P}.

(** Every advertised address has the port of a TCP or UDP listener and one of the
    detected addresses; a listener that is neither is not advertised at all. *)
Lemma addrs_factory_spec ips addrs x :
  x ∈ addrs_factory ips addrs → ∃ a ip p, a ∈ addrs ∧ ip ∈ ips ∧ NewMultiaddr x = None ∧
    ((ma_TCP a = Some p ∧ x = "/ip4/" ++ ip ++ "/tcp/" ++ p) ∨
     (ma_TCP a = None ∧ ma_UDP a = Some p ∧
      x = "/ip4/" ++ ip ++ "/udp/" ++ p ++ (if Contains a "/quic-v1" then "/quic-v1" else ""))).
Proof.
  unfold addrs_factory. rewrite list_elem_of_bind. intros (a & Hx & Ha). unfold advertise in Hx.
  assert (∀ f, x ∈ List.filter valid_ma (f <$> ips) → ∃ ip, ip ∈ ips ∧ NewMultiaddr x = None ∧ x = f ip)
    as Hf.
  { intros f Hin. rewrite list_elem_of_In, filter_In, <- list_elem_of_In, list_elem_of_fmap in Hin.
    destruct Hin as [(ip & -> & Hip) Hv]. unfold valid_ma in Hv.
    destruct (NewMultiaddr _) eqn:Hm; [done|]. eauto. }
  destruct (ma_TCP a) as [p|] eqn:Ht.
  { destruct (Hf _ Hx) as (ip & Hip & Hm & ->). exists a, ip, p. eauto 10. }
  destruct (ma_UDP a) as [p|] eqn:Hu; [|by apply not_elem_of_nil in Hx].
  destruct (Hf _ Hx) as (ip & Hip & Hm & ->). exists a, ip, p. split_and!; [done..|]. right. eauto.
Qed.

Context `{!ForwardClock E, !MonoClock E}.

Lemma now_run (e : E) : lift env_Now e = (Ret (clock_at e), (env_Now e).2).
Proof. unfold lift. rewrite <- (clock_now e). by destruct (env_Now e). Qed.

(** The states in which the wait looks at the routing table: the first, and one after
    every look that found no peer before the deadline. *)
Inductive polled (deadline : Z) (e0 : E) : E → Prop :=
  | polled_first : polled deadline e0 e0
  | polled_next e :
      polled deadline e0 e → routing_ready e = false → (clock_at e <= deadline)%Z →
      polled deadline e0 (env_Sleep peer_poll (env_Now e).2).

(** The wait ends at the first look that finds a peer, or at the first after the
    deadline. *)
Definition peers_found (deadline : Z) (e0 e' : E) (res : option goerror) : Prop :=
  match res with
  | None => polled deadline e0 e' ∧ routing_ready e' = true
  | Some err => err = no_peers ∧ ∃ e, polled deadline e0 e ∧ routing_ready e = false ∧
      (deadline < clock_at e)%Z ∧ e' = (env_Now e).2
  end.

Lemma wait_peers_run n deadline (e0 e : E) :
  polled deadline e0 e →
  (deadline < clock_at e + (Z.of_nat n - 1) * peer_poll)%Z → (n > 0)%nat →
  ∃ res e', wait_peers n deadline e = (Ret (Some res), e') ∧ peers_found deadline e0 e' res.
Proof.
  revert e. induction n as [|n IH]; intros e Hp Hd Hn; [lia|]. cbn [wait_peers].
  run_step (eq_refl : gets routing_ready e = (Ret (routing_ready e), e)).
  destruct (routing_ready e) eqn:Hr; [by eexists _, e|].
  pose proof (clock_now_mono e) as H2. run_step (now_run e). unfold After. destruct (Z.ltb_spec deadline (clock_at e)).
  { eexists _, _. split; [reflexivity|]. split; [done|]. by exists e. }
  run_step (eq_refl : modify (env_Sleep peer_poll) (env_Now e).2 = (Ret tt, _)). apply IH.
  - by constructor.
  - pose proof (clock_sleep peer_poll (env_Now e).2). unfold peer_poll, Millisecond in *. lia.
  - unfold peer_poll, Millisecond in *. lia.
Qed.

Lemma await_peers_run ns boots (e : E) :
  boots ≠ [] →
  ∃ res e', await_peers ns boots e =
      (Ret (Some match res with None => Ok (MkNode ns) | Some err => Err err end), e') ∧
    peers_found (clock_at e + peer_wait) (env_Now e).2 e' res.
Proof.
  unfold await_peers. destruct boots as [|b boots]; [done|]. intros _.
  pose proof (clock_now_mono e) as H2. cbv iota. run_step (now_run e).
  destruct (wait_peers_run wait_peers_fuel (Add (clock_at e) peer_wait) (env_Now e).2 (env_Now e).2)
    as (res & e' & Hw & Hres).
  { constructor. }
  { unfold Add. change (Z.of_nat wait_peers_fuel) with 28%Z. unfold peer_wait, peer_poll, Second, Millisecond. lia. }
  { unfold wait_peers_fuel. lia. }
  run_step Hw. exists res, e'. split; [by destruct res|exact Hres].
Qed.

Lemma lift_run {A} (f : E → A * E) (e : E) : lift f e = (Ret (f e).1, (f e).2).
Proof. unfold lift. by destruct (f e). Qed.

#[local] Instance total_lift {A} (f : E → A * E) : Total (lift f).
Proof. intros e. rewrite lift_run. by eexists _, _. Qed.
#[local] Instance total_bootstrap_connect s : Total (bootstrap_connect (E := E) s).
Proof. unfold bootstrap_connect. solve_total. Qed.

(** C33: starting a node ends.  libp2p and the DHT are started in order, the DHT as a
    server exactly when no bootstrap address is given, and the first that fails ends it
    with that failure.  A bootstrap address that is wrong or cannot be reached is no
    error.  Without bootstrap addresses the node is there at once; with them the routing
    table is looked at every 200 ms, and the node is there at the first look that finds a
    peer; the error "no peers" comes only from a look that found none after five
    seconds. *)
Theorem NewNode_result ns boots (e : E) :
  let ifaces := lp_Interfaces e in
  let host := lp_New ["/ip4/0.0.0.0/tcp/0"; "/ip4/0.0.0.0/udp/0/quic-v1"]
    (addrs_factory (detectIPv4Addrs ifaces.1)) ifaces.2 in
  let dht := lp_dht_New (bool_decide (boots = [])) ("/" ++ ns) ns host.2 in
  let boot := lp_Bootstrap (for_each boots bootstrap_connect dht.2).2 in
  ∃ res e', NewNode ns boots e = (Ret (Some res), e') ∧
    match host.1, dht.1, boot.1 with
    | Some err, _, _ => res = Err (ErrMsg ("libp2p new: " ++ Error err)) ∧ e' = host.2
    | None, Err err, _ => res = Err (ErrMsg ("dht new: " ++ Error err)) ∧ e' = dht.2
    | None, Ok false, _ => res = Err (ErrMsg "dht not initialized") ∧ e' = dht.2
    | None, Ok true, Some err => res = Err (ErrMsg ("dht bootstrap: " ++ Error err)) ∧ e' = boot.2
    | None, Ok true, None =>
        if bool_decide (boots = []) then res = Ok (MkNode ns) ∧ e' = boot.2
        else ∃ err, res = match err with None => Ok (MkNode ns) | Some err => Err err end ∧
          peers_found (clock_at boot.2 + peer_wait) (env_Now boot.2).2 e' err
    end.
Proof.
  intros ifaces host dht boot. unfold NewNode. run_step (lift_run lp_Interfaces e). cbv zeta.
  fold ifaces. run_step (lift_run (lp_New _ (addrs_factory (detectIPv4Addrs ifaces.1))) ifaces.2).
  fold host. destruct host.1 as [err|]; [by eexists _, _|].
  assert (match boots with [] => true | _ => false end = bool_decide (boots = [])) as ->
    by by destruct boots.
  run_step (lift_run (lp_dht_New (bool_decide (boots = [])) ("/" ++ ns) ns) host.2).
  fold dht. destruct dht.1 as [[]|err]; [|by eexists _, _..].
  destruct (total_run (m := for_each boots bootstrap_connect) dht.2) as ([] & e4 & H4).
  assert ((for_each boots bootstrap_connect dht.2).2 = e4) as He4 by by rewrite H4.
  run_step H4. run_step (lift_run lp_Bootstrap e4). unfold boot. rewrite He4.
  destruct (lp_Bootstrap e4).1 as [err|]; [by eexists _, _|].
  case_bool_decide as Hb; [subst boots; by eexists _, _|].
  destruct (await_peers_run ns boots (lp_Bootstrap e4).2 Hb) as (res & e' & Ha & Hres).
  eexists _, e'. split; [exact Ha|]. by exists res.
Qed.

End start_theorems.

(** ** Witnesses *)

(** A machine with one private address, on a network with [peers] peers. *)
Definition demo_libp2p (peers : Z) : Libp2p SimEnv := {|
  lp_Interfaces e := ([MkIface "eth0" true [Some (IPv4 192 168 0 7); None]], e);
  ma_TCP a := if HasPrefix a "/ip4/0.0.0.0/tcp/" then Some "4001" else None;
  ma_UDP _ := None;
  lp_AddrInfo s := Ok s;
  lp_New _ _ e := (None, e);
  lp_dht_New _ _ _ e := (Ok true, e);
  lp_Connect _ e := (None, e);
  lp_Bootstrap e := (None, e);
  rt_Size _ := Some peers;
  lp_ID _ := "12D3";
  lp_Addrs _ := []
|}.
#[local] Instance demo_ma : P2P := {| peer_Decode _ := None; NewMultiaddr _ := None |}.

Example demo_start_alone :
  (initDHTNode (Libp2p0 := demo_libp2p 0) "mc" "" sim0).1 = Ret (Some (Ok (MkNode "mc"))).
Proof. vm_compute. reflexivity. Qed.
Example demo_start_lonely :
  (initDHTNode (Libp2p0 := demo_libp2p 0) "mc" " /ip4/10.0.0.1/tcp/1/p2p/x , " sim0).1 =
    Ret (Some (Err no_peers)).
Proof. vm_compute. reflexivity. Qed.
Example demo_advertised :
  addrs_factory (Libp2p0 := demo_libp2p 0)
    (detectIPv4Addrs [MkIface "eth0" true [Some (IPv4 192 168 0 7); Some (IPv4 8 8 8 8); None]])
    ["/ip4/0.0.0.0/tcp/0"] =
  ["/ip4/192.168.0.7/tcp/4001"; "/ip4/127.0.0.1/tcp/4001"].
Proof. vm_compute. reflexivity. Qed.

Lemma NewNode_result_witness :
  (∃ e', NewNode (Libp2p0 := demo_libp2p 1) "mc" ["/ip4/10.0.0.1/tcp/1/p2p/x"] sim0 =
     (Ret (Some (Ok (MkNode "mc"))), e')) ∧
  (∃ e', NewNode (Libp2p0 := demo_libp2p 0) "mc" ["/ip4/10.0.0.1/tcp/1/p2p/x"] sim0 =
     (Ret (Some (Err no_peers)), e') ∧ (clock_at sim0 + peer_wait < clock_at e')%Z).
Proof.
  split.
  - destruct (NewNode_result (Libp2p0 := demo_libp2p 1) "mc" ["/ip4/10.0.0.1/tcp/1/p2p/x"] sim0)
      as (res & e' & Hn & Hres).
    simpl in Hres. destruct Hres as ([err|] & -> & Hf); [|by exists e'].
    destruct Hf as [_ (e6 & _ & Hr & _)]. discriminate Hr.
  - destruct (NewNode_result (Libp2p0 := demo_libp2p 0) "mc" ["/ip4/10.0.0.1/tcp/1/p2p/x"] sim0)
      as (res & e' & Hn & Hres).
    simpl in Hres. destruct Hres as ([err|] & -> & Hf); [|destruct Hf as [_ Hr]; discriminate Hr].
    destruct Hf as [-> (e6 & _ & _ & Hlt & ->)]. eexists. split; [exact Hn|].
    unfold peer_wait, Second in *. simpl in *. lia.
Defined.
