(* ===== verification/AgentLocal.v ===== *)
(** * The agent by itself

    The wait for a manifest, discovery, the documents shared with the control server,
    fetching from seeders, the heartbeat interval and the retries of a report. *)
From Stdlib Require Import String Ascii.
From S2P Require Import Prelude GoStrings GoTime Json Env TaskTypes Node NodeTheorems Docs LeaseTypes.
From S2P Require Import ControlTypes Announce ControlHTTP ControlLemmas ControlSafety ControlClaims.
From S2P Require Import PGStore LeaseTheorems StoreTheorems.
From S2P Require Import ControlTasks Agent AgentRun AgentTheorems.

Set Warnings "-clear-no-such-hyp".
Local Open Scope string_scope.

(** ** The wait for a manifest *)

Section wait.
Context {E C : Type} `{!Env E, !ForwardClock E, !MonoClock E, !HTTPNet C}.
Implicit Types (w : agentw E C).

Definition clock w : Z := node_clock (aw_node w).

Lemma poll_manifest_run base token id w :
  ∃ man w', poll_manifest base token id w = (Ret man, w') ∧ aw_node w' = aw_node w ∧
    ∀ m, man = Some m → mf_RootCID m ≠ "" ∧ elems (mf_Providers m) ≠ [].
Proof.
  unfold poll_manifest. cbv zeta. unfold Do, mbind, M_bind.
  destruct (http_Do _ _ _ (aw_net w)) as [[resp|e] c']; [|by eexists None, _].
  destruct (rs_Code resp =? 200)%Z; [|by eexists None, _].
  destruct (Decode c_taskOut _ _) as [out [e|]]; [by eexists None, _|].
  eexists _, _. split_and!; [reflexivity|done|]. intros m Hm. unfold manifest_ready in Hm.
  destruct (to_Manifest out) as [m'|]; [|done].
  destruct (String.eqb_spec (mf_RootCID m') ""), (empty_slice (mf_Providers m')) eqn:He; simpl in Hm; try done.
  injection Hm as <-. split; [done|]. intros Hl. unfold empty_slice in He. by rewrite Hl in He.
Qed.

Lemma Now_clock w :
  atNode Now w = (Ret (clock w), (atNode Now w).2) ∧ (clock w <= clock (atNode Now w).2)%Z ∧
  aw_net (atNode Now w).2 = aw_net w.
Proof.
  unfold atNode, Now, clock, node_clock. pose proof (clock_now (nw_env (aw_node w))) as Hn.
  pose proof (clock_now_mono (nw_env (aw_node w))) as Hm.
  destruct (env_Now _) as [t e]; simpl in *. by subst t.
Qed.

Lemma Sleep_clock d w :
  (0 <= d)%Z → atNode (Sleep d) w = (Ret tt, (atNode (Sleep d) w).2) ∧
    (clock w + d <= clock (atNode (Sleep d) w).2)%Z ∧ aw_net (atNode (Sleep d) w).2 = aw_net w.
Proof.
  intros Hd. unfold atNode, Sleep. split_and!; [done| |done]. unfold clock, node_clock. simpl.
  pose proof (clock_sleep d (nw_env (aw_node w))). lia.
Qed.

(** The states in which the server is asked: the first, and one half a second after every
    question that was answered without a manifest before the deadline. *)
Inductive asked (base token id : string) (deadline : Z) (w0 : agentw E C) : agentw E C → Prop :=
  | asked_first : asked base token id deadline w0 w0
  | asked_next w w1 :
      asked base token id deadline w0 w → poll_manifest base token id w = (Ret None, w1) →
      (clock w1 <= deadline)%Z →
      asked base token id deadline w0 (atNode (Sleep poll_interval) (atNode Now w1).2).2.

(** The wait ends with the first manifest, or with the first answer without one after the
    deadline. *)
Definition wait_ends base token id deadline w0 w' (res : result Manifest) : Prop :=
  match res with
  | Ok m => mf_RootCID m ≠ "" ∧ elems (mf_Providers m) ≠ [] ∧
      ∃ w1, asked base token id deadline w0 w1 ∧ poll_manifest base token id w1 = (Ret (Some m), w')
  | Err e => e = ErrMsg "manifest not ready" ∧ (deadline < clock w')%Z ∧
      ∃ w1 w2, asked base token id deadline w0 w1 ∧ poll_manifest base token id w1 = (Ret None, w2) ∧
        w' = (atNode Now w2).2
  end.

Lemma wait_loop_run n base token id deadline w0 w :
  url_Parse (base ++ "/api/tasks/" ++ id) = None → asked base token id deadline w0 w →
  (deadline < clock w + (Z.of_nat n - 1) * poll_interval)%Z → (n > 0)%nat →
  ∃ res w', wait_loop n base token id deadline w = (Ret (Some res), w') ∧
    wait_ends base token id deadline w0 w' res.
Proof.
  intros Hurl. revert w. induction n as [|n IH]; intros w Hask Hd Hn; [lia|]. cbn [wait_loop]. rewrite Hurl.
  destruct (poll_manifest_run base token id w) as (man & w1 & H1 & Hnode & Hman).
  run_step H1. destruct man as [m|].
  { eexists _, w1. split; [reflexivity|]. destruct (Hman m eq_refl). split_and!; [done..|]. by exists w. }
  destruct (Now_clock w1) as (H2 & Hc2 & _). run_step H2.
  assert (clock w1 = clock w) as Hc1 by (unfold clock; by rewrite Hnode).
  unfold After. destruct (Z.ltb_spec deadline (clock w1)) as [Hlt|Hge].
  { eexists _, _. split; [reflexivity|]. split_and!; [done|lia|]. by exists w, w1. }
  destruct (Sleep_clock poll_interval (atNode Now w1).2) as (H3 & Hc3 & _); [done|].
  run_step H3. apply IH.
  - by eapply asked_next.
  - unfold poll_interval, Millisecond in *. lia.
  - unfold poll_interval, Millisecond in *. lia.
Qed.

(** A network that never shows a manifest is still one when it is asked again. *)
Lemma asked_inv (I : C → Prop) base token id deadline w0 w :
  (∀ w1, I (aw_net w1) → ∃ w2, poll_manifest base token id w1 = (Ret None, w2) ∧ I (aw_net w2)) →
  asked base token id deadline w0 w → I (aw_net w0) → I (aw_net w).
Proof.
  intros Hpoll Ha H0. induction Ha as [|w w1 _ IH Hp _]; [done|].
  destruct (Hpoll w IH) as (w2 & Hp' & H2). rewrite Hp in Hp'. injection Hp' as <-.
  destruct (Sleep_clock poll_interval (atNode Now w1).2) as (_ & _ & ->); [done|].
  by destruct (Now_clock w1) as (_ & _ & ->).
Qed.


End wait.

(** ** The heartbeat interval *)

Lemma correct_heartbeat_spec ttl hb :
  (ttl ≠ 1)%Z →
  if (0 <? ttl)%Z && (0 <? hb)%Z then (0 < correct_heartbeat ttl hb < ttl)%Z
  else (correct_heartbeat ttl hb <= 0)%Z.
Proof.
  intros Hne. unfold correct_heartbeat, Second.
  assert (0 < ttl → 0 < Z.quot ttl 2 < ttl)%Z by (Z.to_euclidean_division_equations; lia).
  assert (ttl <= 0 → Z.quot ttl 2 <= 0)%Z by (Z.to_euclidean_division_equations; lia).
  destruct (Z.ltb_spec 0 ttl), (Z.ltb_spec 0 hb), (Z.leb_spec ttl hb), (Z.ltb_spec 1000000000 ttl);
    simpl; lia.
Qed.

(** C34: with a positive lease and interval the corrected interval is positive and
    shorter than the lease the agent asks for; with a lease or an interval of zero or
    less the ticker of the heartbeat goroutine panics. *)
Theorem heartbeat_interval {E C} (ttlSec hbSec : Z) (w : agentw E C) :
  (- 9000000000 <= ttlSec <= 9000000000)%Z → (- 9000000000 <= hbSec <= 9000000000)%Z →
  let cfg := agent_main_config (λ _, "") "" "" "" "" "" ttlSec hbSec in
  if (0 <? ttlSec)%Z && (0 <? hbSec)%Z
  then (0 < cfg_hbEvery cfg < cfg_leaseTTL cfg)%Z ∧ NewTicker (cfg_hbEvery cfg) w = (Ret tt, w)
  else ∃ msg, NewTicker (cfg_hbEvery cfg) w = (Panic msg, w).
Proof.
  intros Ht Hh. simpl.
  rewrite !wrap64_id by (unfold Second, max_int64, two63; lia).
  pose proof (correct_heartbeat_spec (ttlSec * Second) (hbSec * Second)) as Hs.
  replace (0 <? ttlSec * Second)%Z with (0 <? ttlSec)%Z in Hs by (unfold Second; lia).
  replace (0 <? hbSec * Second)%Z with (0 <? hbSec)%Z in Hs by (unfold Second; lia).
  unfold NewTicker. destruct (_ && _); specialize (Hs ltac:(unfold Second; lia)).
  - split; [done|]. by destruct (Z.leb_spec (correct_heartbeat (ttlSec * Second) (hbSec * Second)) 0); [lia|].
  - destruct (Z.leb_spec (correct_heartbeat (ttlSec * Second) (hbSec * Second)) 0); [by eexists|lia].
Qed.

(** The server does not grant what the agent asks for beyond an hour: it grants 15
    seconds, whatever interval the agent then keeps. *)
Theorem long_lease_shortened ttlSec hbSec :
  (3600 < ttlSec)%Z → (15 < hbSec < ttlSec)%Z → (ttlSec <= 9000000000)%Z →
  let cfg := agent_main_config (λ _, "") "" "" "" "" "" ttlSec hbSec in
  (ttlOrDefault (int_Seconds (cfg_leaseTTL cfg)) < cfg_hbEvery cfg)%Z.
Proof.
  intros Ht Hh Hm. simpl. rewrite !wrap64_id by (unfold Second, max_int64, two63; lia).
  assert (int_Seconds (ttlSec * Second) = ttlSec) as ->.
  { unfold int_Seconds, Second. rewrite Z.quot_mul; lia. }
  unfold ttlOrDefault, correct_heartbeat.
  destruct (Z.leb_spec (ttlSec * Second) (hbSec * Second)); [unfold Second in *; lia|].
  destruct (_ || _) eqn:Hb; unfold Second in *; lia.
Qed.

(** ** The URL of an advertisement *)

(** An advertisement whose demand URL is not a URL stops the agent: [post] ignores the
    error of [http.NewRequest] and uses the nil request. *)
Theorem bad_demand_url_panics {E C} `{!Env E, !HTTPNet C, !Machine C, !P2P} cfg id ps url e (w : agentw E C) :
  url ≠ "" → url_Parse (url ++ "/api/tasks/" ++ id ++ "/try-claim") = Some e →
  onCandidate cfg id ps url w = (Panic "invalid memory address or nil pointer dereference", w).
Proof.
  intros Hne He. unfold onCandidate. str_ne Hne. cbn [negb]. cbv iota zeta.
  unfold TryClaim, claim_post. by rewrite He.
Qed.

(** ** Retries of a report *)

Section retries.
Context {E C : Type} `{!Env E, !HTTPNet C}.
Implicit Types (w : agentw E C) (report : M (agentw E C) (option goerror)).

Lemma finish_loop_bound n report k last w :
  Total report →
  ∃ j r w', finish_loop n report k last w = (Ret (j, r), w') ∧ (k <= j <= k + n)%nat ∧
    (r = None ∨ (∃ e, r = Some e ∧ ShouldRetryFinish (Some e) = false) ∨ j = (k + n)%nat).
Proof.
  intros Ht. revert k last w. induction n as [|n IH]; intros k last w; cbn [finish_loop].
  { eexists _, _, w. split_and!; [reflexivity|lia..|]. right. right. lia. }
  destruct (Ht w) as (err & w1 & H1). run_step H1. destruct err as [e|].
  2: { eexists _, _, w1. split_and!; [reflexivity|lia..|]. by left. }
  destruct (ShouldRetryFinish (Some e)) eqn:He; cbn [negb]; cbv iota.
  2: { eexists _, _, w1. split_and!; [reflexivity|lia..|]. right. left. eauto. }
  assert (∃ w2, atNode (Sleep finishRetryDelay) w1 = (Ret tt, w2)) as [w2 H2] by by eexists.
  run_step H2. destruct (IH (S k) (Some e) w2) as (j & r & w' & Hl & Hj & Hr).
  exists j, r, w'. split_and!; [done|lia..|]. destruct Hr as [?|[?|?]]; auto. right. right. lia.
Qed.

(** The report of a finished job is tried at most twenty times; the loop ends early
    only after a success or after an error that is not to be retried. *)
Theorem report_retries report w :
  Total report →
  ∃ j r w', finish_loop maxFinishRetries report 0 None w = (Ret (j, r), w') ∧ (j <= 20)%nat ∧
    (r = None ∨ (∃ e, r = Some e ∧ ShouldRetryFinish (Some e) = false) ∨ j = 20%nat).
Proof.
  intros Ht. destruct (finish_loop_bound 20 report 0 None w Ht) as (j & r & w' & Hl & Hj & Hr).
  exists j, r, w'. split_and!; [done|lia|done].
Qed.

End retries.

(** ** Discovery *)

Section discovery.
Context {E : Type} `{!Env E, !StableDHT E} (ns : string).
Implicit Types (w : nodew E).

(** What a reader of a shard gets: nothing when the shard cannot be read. *)
Definition listed_ids (shard : Z) w : list string :=
  if doc_err ns c_TaskIndex (KeyIndexShard ns shard) w then [] else shard_ids ns shard w.

Lemma list_shards_run shards w :
  ∃ w', list_shards ns shards w = (Ret (concat ((λ s, listed_ids s w) <$> shards)), w') ∧
    node_view w' = node_view w.
Proof.
  revert w. induction shards as [|s shards IH]; intros w; cbn [list_shards].
  { by exists w. }
  destruct (GetJSON_doc ns c_TaskIndex (KeyIndexShard ns s) (3 * Second) w) as (err & w1 & H1 & V1 & He).
  run_step H1. destruct (IH w1) as (w2 & H2 & V2).
  run_step H2. exists w2. split; [|congruence].
  assert (∀ s', listed_ids s' w1 = listed_ids s' w) as Hl.
  { intros s'. unfold listed_ids, shard_ids, doc_err, doc. by rewrite V1. }
  rewrite (list_fmap_ext _ (λ s, listed_ids s w) shards) by (intros; apply Hl). simpl.
  assert (listed_ids s w = match err with Some _ => [] | None => shard_ids ns s w end) as ->.
  { unfold listed_ids. destruct err as [e|]; [by rewrite (proj1 He ltac:(by eexists))|].
    destruct (doc_err ns c_TaskIndex (KeyIndexShard ns s) w) eqn:Hd; [|done].
    by destruct (proj2 He eq_refl). }
  by destruct err.
Qed.

(** C30: discovery sees a job exactly when one of the 32 shards lists it; shards that
    cannot be read are skipped, and so is every other key, the unsharded index
    included. *)
Theorem ListFromIndex_complete w :
  ∃ ids w', ListFromIndex ns w = (Ret ids, w') ∧ node_view w' = node_view w ∧
    ∀ id, id ∈ ids ↔ ∃ shard, (0 <= shard < TaskIndexShardCount)%Z ∧
      doc_err ns c_TaskIndex (KeyIndexShard ns shard) w = false ∧ id ∈ shard_ids ns shard w.
Proof.
  destruct (list_shards_run (range TaskIndexShardCount) w) as (w' & Hl & Hv).
  eexists _, w'. split_and!; [exact Hl|done|]. intros id.
  rewrite list_elem_of_In, in_concat. setoid_rewrite <- list_elem_of_In.
  setoid_rewrite list_elem_of_fmap. split.
  - intros (ids & (s & -> & Hs) & Hin). exists s. rewrite list_elem_of_In, In_range in Hs.
    unfold listed_ids in Hin. destruct (doc_err _ _ _ _); [by apply not_elem_of_nil in Hin|done].
  - intros (s & Hs & He & Hin). exists (listed_ids s w). split.
    + exists s. split; [done|]. by apply list_elem_of_In, In_range.
    + unfold listed_ids. by rewrite He.
Qed.

(** A job whose DHT state is not queued is never made a candidate: nothing is sent
    and nothing is remembered. *)
Theorem handleJob_skips {C} id onCandidate (w : agentw E C) :
  doc_err ns c_TaskState (KeyState id) (aw_node w) = false →
  ts_Status (dht_state ns id (aw_node w)) ≠ StatusQueued →
  ∃ w' : agentw E C, handleJob ns id onCandidate w = (Ret tt, w') ∧ aw_net w' = aw_net w ∧
    aw_seen w' = aw_seen w ∧ node_view (aw_node w') = node_view (aw_node w).
Proof.
  intros Herr Hst. unfold handleJob. destruct (String.eqb id ""); [by exists w|].
  destruct (GetJSON_doc ns c_TaskState (KeyState id) (1 * Second) (aw_node w)) as (err & w1 & H1 & V1 & He).
  assert (atNode (C := C) (GetJSON c_TaskState ns (KeyState id) zero_TaskState (1 * Second)) w =
    (Ret (dht_state ns id (aw_node w), err), MkAgent w1 (aw_net w) (aw_seen w))) as H1'.
  { unfold atNode. change zero_TaskState with (czero c_TaskState). by rewrite H1. }
  run_step H1'.
  destruct err; [by destruct He as [He _]; rewrite He in Herr|].
  str_ne Hst. cbn [negb]. by eexists.
Qed.

End discovery.

(** ** Documents the two sides share *)

(** C35: the agent reads an advertisement of the control server as it was written,
    although its struct lists the fields in another order, under the same key; and
    every provider of a manifest the server accepts passes the agent's filter. *)
Theorem ad_compatible `{!P2P} (ad : taskAd) b inm ns id :
  Marshal c_taskAd ad = Some b → check_manifest inm = None →
  Unmarshal c_TaskAd b zero_TaskAd =
    (MkTaskAd (ta_JobID ad) (ta_Namespace ad) (ta_DemandURL ad) (ta_Topic ad) (ta_Exp ad) (ta_Sig ad), None) ∧
  KeyTaskAd ns id = keyTaskAd ns id ∧ KeyP2PManifestMirror id = keyP2PManifestMirror id ∧
  filterProviders (Some (provider_of_dto <$> elems (mi_Providers inm))) =
    (provider_of_dto <$> elems (mi_Providers inm)).
Proof.
  intros Hb (_ & _ & Hp)%check_manifest_spec. split_and!; [|done|done|].
  - destruct ad as [jid nsp topic url exp sig].
    unfold Marshal, c_taskAd, c_struct in Hb. cbn [enc] in Hb. unfold fields_taskAd in Hb.
    cbn -[c_time empty_string] in Hb.
    destruct (enc c_time exp) as [je|] eqn:He;
      [|by destruct (empty_string nsp), (empty_string topic), (empty_string url)].
    pose proof (c_time_rt exp je He) as Hd. change (czero c_time) with 0%Z in Hd.
    destruct (empty_string nsp) eqn:E1, (empty_string topic) eqn:E2, (empty_string url) eqn:E3,
      (empty_string sig) eqn:E4; cbn in Hb; injection Hb as <-;
      repeat match goal with H : empty_string _ = true |- _ => apply empty_string_spec in H; subst end;
      unfold Unmarshal, c_TaskAd, c_struct; cbn [dec]; unfold fields_TaskAd; cbn -[c_time]; by rewrite Hd.
  - unfold filterProviders. simpl elems. induction Hp as [|p ps Hok Hps IH]; [done|].
    simpl. destruct Hok as (Hid & _ & Hne & Ha).
    assert (good_provider (provider_of_dto p) = true) as ->; [|by f_equal].
    unfold good_provider. simpl. str_ne Hid.
    assert (empty_slice (pd_Addrs p) = false) as -> by (unfold empty_slice; by destruct (elems _)).
    simpl. apply negb_true_iff. clear Hne. induction Ha as [|a l (_ & H1 & H2) Hl IHa]; [done|].
    simpl. by rewrite H1, H2, IHa.
Qed.

(** ** Fetching from a seeder *)

Section fetch.
Context {E C : Type} `{!Env E, !HTTPNet C, !Machine C, !P2P}.
Implicit Types (w : agentw E C).

Definition valid_addrs (pv : Provider) : list string :=
  List.filter (λ s, match NewMultiaddr s with None => true | Some _ => false end) (elems (pv_Addrs pv)).

(** A provider the agent can dial: it has a peer id and a valid address. *)
Definition dialable (pv : Provider) : Prop :=
  pv_PeerID pv ≠ "" ∧ NewMultiaddr ("/p2p/" ++ pv_PeerID pv) = None ∧
  ∃ a l, valid_addrs pv = a :: l ∧ m_AddrInfo a (pv_PeerID pv) = None.

(** The peer cannot be connected to, takes no stream, or takes no request. *)
Definition unreachable (peer : string) : Prop :=
  ∀ c req, let conn := m_Connect peer c in
    let stream := m_NewStream peer ProtoGet conn.2 in
    is_Some conn.1 ∨ is_Some stream.1 ∨ is_Some (m_send peer req stream.2).1.

(** A provider that is of no use: without a peer id or a valid address, with an address
    that names no peer, or unreachable. *)
Inductive unusable (pv : Provider) : Prop :=
  | no_peer_id : pv_PeerID pv = "" → unusable pv
  | no_valid_addr : valid_addrs pv = [] → unusable pv
  | no_peer_info a l :
      NewMultiaddr ("/p2p/" ++ pv_PeerID pv) = None → valid_addrs pv = a :: l →
      is_Some (m_AddrInfo a (pv_PeerID pv)) → unusable pv
  | no_answer : dialable pv → unreachable (pv_PeerID pv) → unusable pv.

(** The peer is a seeder with the files [open]. *)
Record seeder (open : string → result (string * Z)) (peer : string) : Prop := {
  sd_connects c : (m_Connect peer c).1 = None;
  sd_streams c : (m_NewStream peer ProtoGet c).1 = None;
  sd_sends req c : (m_send peer req c).1 = None;
  sd_seeds req c : (m_recv peer req c).1 = (seed_handler open req, None)
}.

Lemma atNet_run {T} (f : C → T * C) w : ∃ w', atNet (E := E) f w = (Ret (f (aw_net w)).1, w') ∧ aw_net w' = (f (aw_net w)).2.
Proof. unfold atNet. destruct (f (aw_net w)). by eexists. Qed.

(** The address the agent dials. *)
Lemma empty_addrs pv a l : valid_addrs pv = a :: l → empty_slice (pv_Addrs pv) = false.
Proof. unfold valid_addrs, empty_slice. by destruct (elems (pv_Addrs pv)). Qed.

Lemma unusable_fetch rootCID pv dir w :
  unusable pv → ∃ e w', FetchFromProvider rootCID pv dir w = (Ret (Err e), w').
Proof.
  intros Hu. unfold FetchFromProvider. fold (valid_addrs pv).
  destruct (String.eqb (pv_PeerID pv) "" || empty_slice (pv_Addrs pv)) eqn:Hinv; [by eexists _, w|].
  destruct Hu as [Hid|Hno|a l Hp Hv [e He]|(_ & Hp & a & l & Hv & Hi) Hun].
  - by rewrite Hid in Hinv.
  - rewrite Hno. by eexists _, w.
  - rewrite Hv, Hp, He. by eexists _, w.
  - rewrite Hv, Hp, Hi.
    set (req := default (BRaw "") (Marshal c_getRequest (MkgetRequest rootCID))).
    destruct (atNet_run (m_Connect (pv_PeerID pv)) w) as (w1 & H1 & N1). run_step H1.
    specialize (Hun (aw_net w) req). cbv zeta in Hun. rewrite <- N1 in Hun.
    destruct (m_Connect _ _).1 as [e|]; [by eexists _, _|].
    destruct (atNet_run (m_NewStream (pv_PeerID pv) ProtoGet) w1) as (w2 & H2 & N2). run_step H2.
    rewrite <- N2 in Hun. destruct (m_NewStream _ _ _).1 as [e|]; [by eexists _, _|].
    cbv zeta. fold req.
    destruct (atNet_run (m_send (pv_PeerID pv) req) w2) as (w3 & H3 & _). run_step H3.
    destruct Hun as [[? [=]]|[[? [=]]|[e ->]]]. by eexists _, _.
Qed.

(** The disk works. *)
Context (disk_ok : ∀ op p c, (m_os op p c).1 = None).

Lemma os_ok op p w : ∃ w', os op p w = (Ret None, w').
Proof.
  unfold os. destruct (atNet_run (m_os op p) w) as (w' & H1 & _). exists w'. by rewrite H1, disk_ok.
Qed.

Lemma total_fs_update f : Total (fs_update (E := E) (C := C) f).
Proof. intros w. by eexists _, _. Qed.

Lemma store_input_ok rootCID dir body w :
  ∃ w', store_input rootCID dir body w =
    (Ret (Ok (MkFetch (Join dir rootCID) (Z.of_nat (String.length body)))), w').
Proof.
  unfold store_input. cbv zeta.
  destruct (os_ok "rename" (Join dir (rootCID ++ ".part")) w) as [w0 H0]. run_step H0.
  destruct (total_fs_update (λ fs, <[Join dir rootCID := File body]>
    (delete (Join dir (rootCID ++ ".part")) fs)) w0) as ([] & w1 & H1).
  run_step H1. destruct (negb (String.eqb rootCID "input")); [|by eexists].
  destruct (os_ok "remove" (Join dir "input") w1) as [w2 H2]. rewrite bind_assoc_run. run_step H2.
  destruct (total_fs_update (remove_all (Join dir "input")) w2) as ([] & w3 & H3).
  rewrite bind_assoc_run, (bind_run _ _ _ _ _ H3), bind_assoc_run.
  destruct (os_ok "symlink" (Join dir "input") w3) as [w4 H4]. run_step H4.
  destruct (total_fs_update (<[Join dir "input" := Link rootCID]>) w4) as ([] & w5 & H5).
  run_step H5. by eexists.
Qed.

(** A fetch from a seeder that answers always succeeds, with as many bytes as the
    seeder sent: the file when it has it, and an empty file, reported as a success,
    when it has not. *)
Lemma fetch_from_seeder open rootCID pv dir w :
  dialable pv → seeder open (pv_PeerID pv) → rootCID ≠ "" →
  ∃ w', FetchFromProvider rootCID pv dir w =
    (Ret (Ok (MkFetch (Join dir rootCID)
       (match open rootCID with Ok (content, _) => Z.of_nat (String.length content) | Err _ => 0 end))), w').
Proof.
  intros (Hid & Hp2p & a & l & Hv & Hi) Hsd Hroot. unfold FetchFromProvider. fold (valid_addrs pv).
  str_ne Hid. rewrite (empty_addrs pv a l Hv), Hv, Hp2p, Hi. cbn [orb].
  destruct (atNet_run (m_Connect (pv_PeerID pv)) w) as (w1 & H1 & _). rewrite (sd_connects _ _ Hsd) in H1. run_step H1.
  destruct (atNet_run (m_NewStream (pv_PeerID pv) ProtoGet) w1) as (w2 & H2 & _).
  rewrite (sd_streams _ _ Hsd) in H2. run_step H2. cbv zeta. set (req := default _ _).
  destruct (atNet_run (m_send (pv_PeerID pv) req) w2) as (w3 & H3 & _).
  rewrite (sd_sends _ _ Hsd) in H3. run_step H3. unfold receive_input. cbv zeta.
  destruct (os_ok "mkdir" dir w3) as [w4 H4]. run_step H4.
  destruct (os_ok "create" (Join dir (rootCID ++ ".part")) w4) as [w5 H5]. run_step H5.
  destruct (atNet_run (m_recv (pv_PeerID pv) req) w5) as (w6 & H6 & _).
  rewrite (sd_seeds _ _ Hsd) in H6. run_step H6. cbv beta iota. set (body := seed_handler _ _).
  assert (body = match open rootCID with Ok (content, _) => content | Err _ => "" end) as Hbody.
  { unfold body, seed_handler, req. cbn. by str_ne Hroot. }
  destruct (total_fs_update (<[Join dir (rootCID ++ ".part") := File body]>) w6) as ([] & w7 & H7).
  run_step H7. destruct (store_input_ok rootCID dir body w7) as [w' Hs].
  exists w'. rewrite Hs, Hbody. by destruct (open rootCID) as [[]|].
Qed.

(** Providers of no use are passed over. *)
Lemma fetch_loop_skips rootCID bad rest dir last w :
  Forall unusable bad →
  ∃ last' w', fetch_loop rootCID (bad ++ rest)%list dir last w = fetch_loop rootCID rest dir last' w'.
Proof.
  intros Hb. revert last w. induction Hb as [|p bad Hp Hb IH]; intros last w; [by eexists _, _|].
  destruct (unusable_fetch rootCID p dir w Hp) as (e & w1 & H1).
  cbn [fetch_loop app]. run_step H1. apply IH.
Qed.

(** C32: [FetchAny] passes over every provider that is of no use, wherever it is in the
    list, and stops at the first seeder, with as many bytes as that seeder sent; when all
    are of no use it fails.  A seeder without the file sends no bytes, and that too is a
    success: the input is an empty file, and the providers after it are not tried. *)
Theorem FetchAny_first_seeder open rootCID bad pv rest dir w :
  Forall unusable bad → dialable pv → seeder open (pv_PeerID pv) → rootCID ≠ "" →
  (∃ w', FetchAny rootCID (bad ++ pv :: rest)%list dir w =
    (Ret (Ok (MkFetch (Join dir rootCID)
       (match open rootCID with Ok (content, _) => Z.of_nat (String.length content) | Err _ => 0 end))), w')) ∧
  (∃ e w', FetchAny rootCID bad dir w = (Ret (Err e), w')).
Proof.
  intros Hb Hd Hs Hr. unfold FetchAny. split.
  - destruct (fetch_loop_skips rootCID bad (pv :: rest) dir None w Hb) as (last & w1 & ->).
    cbn [fetch_loop]. destruct (fetch_from_seeder open rootCID pv dir w1 Hd Hs Hr) as [w' Hf].
    run_step Hf. by exists w'.
  - destruct (fetch_loop_skips rootCID bad [] dir None w Hb) as (last & w1 & Hl).
    rewrite app_nil_r in Hl. rewrite Hl. by eexists _, _.
Qed.

End fetch.

(** The seeder serves files outside its directory: a root "../secret" is joined to
    the base and cleaned, and names the file beside it. *)
Theorem seeder_leaves_base :
  seed_handler (SourceFS_Open {["secret" := "key"]} "./inputs")
    (BJson (JObj [("root_cid", JStr "../secret")])) = "key".
Proof. vm_compute. reflexivity. Qed.

(** ** Witnesses *)

#[local] Existing Instance demo_p2p.

(** A network on which nobody answers HTTP; the peer "gone" cannot be reached, and every
    other peer is a seeder that has one file. *)
Record DemoNet := MkDemoNet { dn_fs : gmap string fnode }.
Definition demo_files (cid : string) : result (string * Z) :=
  if String.eqb cid "bafy" then Ok ("data", 4%Z) else Err (ErrMsg "no such file or directory").
#[local] Instance demo_http : HTTPNet DemoNet :=
  {| url_Parse _ := None; http_Do _ _ _ c := (Err (ErrMsg "connection refused"), c) |}.
#[local] Instance demo_machine : Machine DemoNet := {|
  m_Connect p c := (if String.eqb p "gone" then Some (ErrMsg "dial backoff") else None, c);
  m_NewStream _ _ c := (None, c);
  m_send _ _ c := (None, c);
  m_recv _ req c := ((seed_handler demo_files req, None), c);
  m_AddrInfo _ _ := None;
  m_fs := dn_fs;
  m_set_fs f _ := MkDemoNet f;
  m_os _ _ c := (None, c);
  m_LookPath _ := None;
  m_Abs p _ := Ok p;
  m_docker _ c := (MkDocker RunOk "" "", c)
|}.
Definition demo_local : agentw SimEnv DemoNet := MkAgent (NodeW sim0 ∅) (MkDemoNet ∅) ∅.
Definition demo_provider : Provider := MkProvider "12D3" (Some ["/ip4/10.0.0.1/tcp/1"]) None None.

(** The control server with a manifest that has no providers. *)
Definition demo_noop : control WallEnv (PGStore SimPG) :=
  MkControl (NodeW wall0 {[nsKey "mc" (KeyManifest "j1") :=
    BJson (JObj [("root_cid", JStr "noop"); ("providers", JArr [])])]}) demo_s NewAnnounceManager.
Definition demo_waiting : agentw SimEnv (control WallEnv (PGStore SimPG)) :=
  MkAgent (NodeW sim0 ∅) demo_noop ∅.


Lemma heartbeat_interval_witness :
  (0 < cfg_hbEvery (agent_main_config (λ _, "") "" "" "" "" "" 15 5) <
   cfg_leaseTTL (agent_main_config (λ _, "") "" "" "" "" "" 15 5))%Z.
Proof. exact (proj1 (heartbeat_interval 15 5 demo_local ltac:(lia) ltac:(lia))). Defined.

Lemma long_lease_shortened_witness :
  let cfg := agent_main_config (λ _, "") "" "" "" "" "" 7200 60 in
  (ttlOrDefault (int_Seconds (cfg_leaseTTL cfg)) < cfg_hbEvery cfg)%Z.
Proof. exact (long_lease_shortened 7200 60 ltac:(lia) ltac:(lia) ltac:(lia)). Defined.

Lemma report_retries_witness :
  ∃ j r w', finish_loop maxFinishRetries (mret (Some (ErrMsg "timeout"))) 0 None demo_local =
    (Ret (j, r), w') ∧ (j <= 20)%nat.
Proof.
  destruct (report_retries (mret (Some (ErrMsg "timeout"))) demo_local (total_ret _))
    as (j & r & w' & Hl & Hj & _).
  exists j, r, w'. split; [exact Hl|exact Hj].
Defined.

Definition demo_state_node : nodew SimEnv :=
  NodeW sim0 {[nsKey "mc" (KeyState "j1") := BJson (JObj [("id", JStr "j1"); ("status", JStr "running")])]}.

Lemma handleJob_skips_witness :
  ∃ w', handleJob "mc" "j1" (λ _ _ _, panic "no") (MkAgent demo_state_node (MkDemoNet ∅) ∅) = (Ret tt, w').
Proof.
  destruct (handleJob_skips "mc" "j1" (λ _ _ _, panic "no") (MkAgent demo_state_node (MkDemoNet ∅) ∅))
    as (w' & Hh & _).
  - vm_compute. reflexivity.
  - vm_compute. discriminate.
  - exists w'. exact Hh.
Defined.

Lemma ad_compatible_witness :
  (Unmarshal c_TaskAd (default (BRaw "") (Marshal c_taskAd (MktaskAd "j1" "mc" "" "http://c" 1000 "")))
    zero_TaskAd).2 = None.
Proof.
  assert (Marshal c_taskAd (MktaskAd "j1" "mc" "" "http://c" 1000 "") =
    Some (default (BRaw "") (Marshal c_taskAd (MktaskAd "j1" "mc" "" "http://c" 1000 "")))) as Hb
    by (vm_compute; reflexivity).
  assert (check_manifest (demo_inm "webrtc") = None) as Hok by (vm_compute; reflexivity).
  destruct (ad_compatible _ _ (demo_inm "webrtc") "mc" "j1" Hb Hok) as [-> _]. reflexivity.
Defined.

Definition gone_provider : Provider := MkProvider "gone" (Some ["/ip4/10.0.0.2/tcp/1"]) None None.

Lemma demo_dialable p a : p ≠ "" → dialable (C := DemoNet) (MkProvider p (Some [a]) None None).
Proof. intros Hp. split; [done|]. split; [reflexivity|]. exists a, []. by split. Qed.

Lemma FetchAny_first_seeder_witness :
  ∃ w', FetchAny "missing" [zero_Provider; gone_provider; demo_provider] "in" demo_local =
    (Ret (Ok (MkFetch "in/missing" 0)), w').
Proof.
  refine (proj1 (FetchAny_first_seeder (E := SimEnv) (C := DemoNet) (Machine0 := demo_machine)
    (λ _ _ _, eq_refl) demo_files "missing" [zero_Provider; gone_provider] demo_provider [] "in"
    demo_local _ (demo_dialable "12D3" _ ltac:(discriminate)) _ ltac:(discriminate))).
  - constructor; [by apply no_peer_id|]. constructor; [|constructor].
    apply no_answer; [apply demo_dialable; discriminate|]. intros c req. left. by eexists.
  - split; reflexivity.
Defined.
